(** * Reddit Mastermind planner: a shallow embedding of the planning pipeline

    The development follows the TypeScript sources of the planner
    (lib/utils, lib/planner/constraints, personaAssigner, subredditMatcher,
    threadGenerator, qualityChecker and the orchestrator in lib/planner/index).

    Modelling conventions.
    - A JavaScript string is a [string]: a sequence of code units below 256
      (the Latin-1 range).  [toLowerCase], [trim] and the [\s] class are the
      restrictions of the JavaScript ones to that range.
    - A [Date] is its [getTime ()] value, an integer number of milliseconds.
    - Counters, caps and delays are integers ([Z]), in the range where a
      JavaScript number is an exact integer and prints in decimal notation;
      scores that involve [Math.random ()] or fractions are exact rationals
      ([Q]).
    - [Math.random], the text backend and the uuid generator are oracles of
      the [World]: streams read through a cursor, so that every run of the
      code is the run of the model on some world.
    - A [Map] keyed by ids is a [gmap string _], a [Set] of keys a
      [gset string]; a [Record<string, _>] whose enumeration order is
      observable is an association list in insertion order (its keys are
      names, ids and pairing keys; a key that reads as an array index,
      which a JavaScript object enumerates first, is outside the model).
    - Arithmetic on scores is exact: the rounding of IEEE doubles is not
      modelled there.  It is modelled where an array index depends on it:
      [distributeEvenly] computes its indices with the binary64 operations
      (module [Double]). *)

From Stdlib Require Import ZArith QArith Qround Qminmax Lia List Bool Ascii String Sorted.
From Stdlib Require Import SpecFloat.
From stdpp Require Import gmap strings list pretty.
Import ListNotations.

Local Open Scope string_scope.
Local Open Scope list_scope.
Local Open Scope Z_scope.

(** ** The world: oracles behind [Math.random], the text backend and uuids *)

(** What [generateWithAI] hands back: [success], the parsed [data] when it
    is truthy, and per expected field the string found there.  For [title],
    [body] and [text], which the generator accepts under a
    [typeof ... === 'string'] test, [None] is a field that is absent or is
    not a string.  [variation] (and [text] in the forced mentions) is
    tested for truthiness only: there [None] is a field that is absent or
    falsy, and the answers covered are those whose rewrite, when there is
    one, is a string; a truthy value of another type, which the code would
    take for the text and call a string method on, is not represented. *)
Record Payload := {
  p_title : option string;
  p_body : option string;
  p_text : option string;
  p_variation : option string;
}.

Record GenerationResult := {
  gr_success : bool;
  gr_data : option Payload;
  gr_error : option string;
}.

(** An entry of the log store (lib/server/logStore).  Its [id] is made of
    the clock and of a value of [Math.random ()]: the value is kept, the
    clock, which also gives [ts], is not. *)
Inductive LogLevel := log_info | log_warn | log_error.

Inductive LogValue :=
| LogText (s : string)
| LogNumber (n : Z).

Record LogEntry := {
  log_draw : Q;
  log_level : LogLevel;
  log_message : string;
  log_meta : list (string * LogValue);
}.

Record World := {
  rng : nat -> Q;          (* successive values of Math.random () *)
  rng_pos : nat;
  backend : nat -> GenerationResult;   (* successive answers of generateWithAI *)
  backend_pos : nat;
  uuids : nat -> string;   (* successive uuidv4 () values *)
  uuid_pos : nat;
  mockMode : bool;         (* the module-level flag behind isMockMode () *)
  logStore : list LogEntry; (* the module-level [store] of the log store *)
}.

(** [Math.random ()] returns a value in [0, 1). *)
Definition rng_ok (f : nat -> Q) : Prop := forall n, (0 <= f n)%Q /\ (f n < 1)%Q.

(** State and exception monad: a thrown [Error] keeps the side effects that
    happened before it.  [Diverge] stands for a loop that never ends (the
    model ran out of the fuel it was given); no handler catches it. *)
Inductive Res (A : Type) : Type :=
| Ok (a : A)
| Throw (msg : string)
| Diverge.
Arguments Ok {A} a.
Arguments Throw {A} msg.
Arguments Diverge {A}.

Definition Eff (A : Type) : Type := World -> Res A * World.

Definition ret {A} (a : A) : Eff A := fun w => (Ok a, w).
Definition throw {A} (msg : string) : Eff A := fun w => (Throw msg, w).
Definition diverge {A} : Eff A := fun w => (Diverge, w).
Definition bind {A B} (m : Eff A) (k : A -> Eff B) : Eff B :=
  fun w => match m w with
           | (Ok a, w') => k a w'
           | (Throw e, w') => (Throw e, w')
           | (Diverge, w') => (Diverge, w')
           end.
(** [try { m } catch (error) { h error.message }] *)
Definition try_catch {A} (m : Eff A) (h : string -> Eff A) : Eff A :=
  fun w => match m w with
           | (Ok a, w') => (Ok a, w')
           | (Throw e, w') => h e w'
           | (Diverge, w') => (Diverge, w')
           end.

Notation "'let*' x ':=' m 'in' k" := (bind m (fun x => k))
  (at level 10, x name, m at level 100, k at level 200).
Notation "'let*' ' pat ':=' m 'in' k" :=
  (bind m (fun x => match x with pat => k end))
  (at level 10, pat pattern, m at level 100, k at level 200).

Definition random : Eff Q :=
  fun w => (Ok (rng w (rng_pos w)),
            {| rng := rng w; rng_pos := S (rng_pos w);
               backend := backend w; backend_pos := backend_pos w;
               uuids := uuids w; uuid_pos := uuid_pos w;
               mockMode := mockMode w;
               logStore := logStore w |}).

(** [generateWithAI (prompt, options)]: the backend is opaque, its answer
    may depend on anything, so the prompt is not represented.  The function
    catches every failure of its own and reports it in the result. *)
Definition generateWithAI : Eff GenerationResult :=
  fun w => (Ok (backend w (backend_pos w)),
            {| rng := rng w; rng_pos := rng_pos w;
               backend := backend w; backend_pos := S (backend_pos w);
               uuids := uuids w; uuid_pos := uuid_pos w;
               mockMode := mockMode w;
               logStore := logStore w |}).

Definition uuidv4 : Eff string :=
  fun w => (Ok (uuids w (uuid_pos w)),
            {| rng := rng w; rng_pos := rng_pos w;
               backend := backend w; backend_pos := backend_pos w;
               uuids := uuids w; uuid_pos := S (uuid_pos w);
               mockMode := mockMode w;
               logStore := logStore w |}).

Definition isMockMode : Eff bool := fun w => (Ok (mockMode w), w).

(** [generateWithAIMock (prompt, mockData)]: waits [100 + Math.random () *
    200] milliseconds and succeeds with the canned data. *)
Definition generateWithAIMock {T} (mockData : T) : Eff T :=
  let* _ := random in ret mockData.

(** [Math.floor (Math.random () * n)] *)
Definition randomBelow (n : Z) : Eff Z :=
  let* r := random in ret (Qfloor (r * inject_Z n)).

(** [addLog (level, message, meta)] of the log store: the entry gets an id
    drawn from [Math.random ()] and is pushed to the store, which keeps its
    last 200 entries.  No listener is subscribed: [subscribe] is called by
    the route of the log stream only. *)
Definition addLog (level : LogLevel) (message : string)
    (meta : list (string * LogValue)) : Eff unit :=
  let* draw := random in
  fun w =>
    let store := logStore w ++ [{| log_draw := draw; log_level := level;
                                   log_message := message; log_meta := meta |}] in
    (Ok tt,
     {| rng := rng w; rng_pos := rng_pos w;
        backend := backend w; backend_pos := backend_pos w;
        uuids := uuids w; uuid_pos := uuid_pos w;
        mockMode := mockMode w;
        logStore := if (200 <? length store)%nat then tail store else store |}).

(** ** lib/utils *)
Module Utils.

Definition code (c : ascii) : N := N_of_ascii c.

(** The members of the [\s] class (and of the set [trim] strips) below
    256: tab, line feed, vertical tab, form feed, carriage return, space
    and no-break space. *)
Definition isWhite (c : ascii) : bool :=
  let n := code c in
  ((9 <=? n) && (n <=? 13) || (n =? 32) || (n =? 160))%N.

(** [toLowerCase] on one code unit: A-Z, and the Latin-1 capitals
    U+00C0-U+00DE except the multiplication sign U+00D7. *)
Definition lowerChar (c : ascii) : ascii :=
  let n := code c in
  if ((65 <=? n) && (n <=? 90) ||
      (192 <=? n) && (n <=? 222) && negb (n =? 215))%N
  then ascii_of_N (n + 32) else c.

Fixpoint toLowerCase (s : string) : string :=
  match s with
  | EmptyString => EmptyString
  | String c s' => String (lowerChar c) (toLowerCase s')
  end.

Fixpoint startsWith (p s : string) : bool :=
  match p, s with
  | EmptyString, _ => true
  | String a p', String b s' => if Ascii.eqb a b then startsWith p' s' else false
  | String _ _, EmptyString => false
  end.

(** [s.includes (sub)] *)
Fixpoint includes (sub s : string) : bool :=
  if startsWith sub s then true
  else match s with
       | EmptyString => false
       | String _ s' => includes sub s'
       end.

Fixpoint trimStart (s : string) : string :=
  match s with
  | String c s' => if isWhite c then trimStart s' else s
  | EmptyString => EmptyString
  end.

Fixpoint dropChars (n : nat) (s : string) : string :=
  match n, s with
  | O, _ => s
  | S n', String _ s' => dropChars n' s'
  | S _, EmptyString => EmptyString
  end.

(** [s.replace (pat, by)] for a string pattern: the first occurrence. *)
Fixpoint replaceFirst (pat by_ s : string) : string :=
  if startsWith pat s then by_ +:+ dropChars (String.length pat) s
  else match s with
       | EmptyString => EmptyString
       | String c s' => String c (replaceFirst pat by_ s')
       end.

(** [s.slice (0, e)] *)
Definition sliceTo (e : Z) (s : string) : string :=
  let len := Z.of_nat (String.length s) in
  let stop := if e <? 0 then Z.max (len + e) 0 else Z.min e len in
  String.substring 0 (Z.to_nat stop) s.

(** [s.lastIndexOf (c)] for a single character, [-1] when absent. *)
Fixpoint lastIndexFrom (c : ascii) (s : string) (i : Z) (found : Z) : Z :=
  match s with
  | EmptyString => found
  | String d s' => lastIndexFrom c s' (i + 1) (if Ascii.eqb d c then i else found)
  end.

Definition lastIndexOf (c : ascii) (s : string) : Z := lastIndexFrom c s 0 (-1).

Definition isSentenceEnd (c : ascii) : bool :=
  Ascii.eqb c "." || Ascii.eqb c "!" || Ascii.eqb c "?".

(** [s.split (/(?<=[.!?])\s+/)]: a run of white space separates two
    pieces when the character before it ends a sentence. *)
Fixpoint splitSent (s : string) (cur : string) (afterEnd inSeparator : bool)
    : list string :=
  match s with
  | EmptyString => [String.rev cur]
  | String c s' =>
      if isWhite c then
        if inSeparator then splitSent s' cur false true
        else if afterEnd then String.rev cur :: splitSent s' EmptyString false true
        else splitSent s' (String c cur) false false
      else splitSent s' (String c cur) (isSentenceEnd c) false
  end.

Definition splitSentences (s : string) : list string :=
  splitSent s EmptyString false false.

(** [startsWith] up to case. *)
Fixpoint startsWithCI (p s : string) : bool :=
  match p, s with
  | EmptyString, _ => true
  | String a p', String b s' =>
      if Ascii.eqb (lowerChar a) (lowerChar b) then startsWithCI p' s' else false
  | String _ _, EmptyString => false
  end.

(** [s.replace (new RegExp (pat, 'ig'), by)] for a pattern without
    metacharacters of regular expressions and a replacement without [$]:
    every occurrence of [pat], whatever the case, from left to right.
    [skip] counts the characters of the current match still to drop. *)
Fixpoint replaceAllFrom (pat by_ s : string) (skip : nat) : string :=
  match s with
  | EmptyString => EmptyString
  | String c s' =>
      match skip with
      | S k => replaceAllFrom pat by_ s' k
      | O =>
          if startsWithCI pat s
          then by_ +:+ replaceAllFrom pat by_ s' (String.length pat - 1)
          else String c (replaceAllFrom pat by_ s' 0)
      end
  end.

(** The empty pattern matches before every character and at the end. *)
Fixpoint intersperse (by_ s : string) : string :=
  match s with
  | EmptyString => by_
  | String c s' => by_ +:+ String c (intersperse by_ s')
  end.

Definition replaceAllCI (pat by_ s : string) : string :=
  match pat with
  | EmptyString => intersperse by_ s
  | _ => replaceAllFrom pat by_ s 0
  end.

Definition trim (s : string) : string :=
  String.rev (trimStart (String.rev (trimStart s))).

(** [s.split (/\s+/)]: the pieces between the maximal runs of white
    space, with the empty pieces at both ends that JavaScript keeps.
    [cur] is the piece being read, reversed. *)
Fixpoint splitWs (s : string) (cur : string) (inWhite : bool) : list string :=
  match s with
  | EmptyString => [String.rev cur]
  | String c s' =>
      if isWhite c then
        if inWhite then splitWs s' cur true
        else String.rev cur :: splitWs s' EmptyString true
      else splitWs s' (String c cur) false
  end.

Definition splitWhitespace (s : string) : list string := splitWs s EmptyString false.

(** [s.toLowerCase ().split (/\s+/).filter (w => w.length > 3)] *)
Definition longWords (s : string) : list string :=
  filter (fun w => (3 < String.length w)%nat) (splitWhitespace (toLowerCase s)).

Definition wordSet (s : string) : gset string := list_to_set (longWords s).

(** [calculateSimilarity]: Jaccard similarity on the sets of words longer
    than three characters. *)
Definition calculateSimilarity (str1 str2 : string) : Q :=
  let words1 := wordSet str1 in
  let words2 := wordSet str2 in
  if decide (size words1 = 0%nat \/ size words2 = 0%nat) then 0%Q
  else
    let intersection := filter (fun w => w ∈ words2) words1 in
    let union := words1 ∪ words2 in
    (Z.of_nat (size intersection) # Pos.of_nat (size union))%Q.

(** [[personaA, personaB].sort ().join ('+')]: the default sort compares
    code units, here the order of [String.ltb]. *)
Definition createPairingKey (personaA personaB : string) : string :=
  if String.ltb personaB personaA
  then personaB +:+ "+" +:+ personaA
  else personaA +:+ "+" +:+ personaB.

(** [truncate (text, maxLength)]; below a limit of 3 the end of
    [slice (0, maxLength - 3)] is negative and counts from the end of the
    text. *)
Definition truncate (text : string) (maxLength : nat) : string :=
  if (String.length text <=? maxLength)%nat then text
  else
    let cut :=
      if (3 <=? maxLength)%nat then (maxLength - 3)%nat
      else (String.length text - (3 - maxLength))%nat in
    String.substring 0 cut text +:+ "...".

End Utils.


(** Monadic traversals: [Array.prototype.map] and [filter] run their
    callback on the elements from left to right. *)
Fixpoint mapM {A B} (f : A -> Eff B) (l : list A) : Eff (list B) :=
  match l with
  | [] => ret []
  | x :: l' => let* y := f x in let* ys := mapM f l' in ret (y :: ys)
  end.

Fixpoint filterM {A} (f : A -> Eff bool) (l : list A) : Eff (list A) :=
  match l with
  | [] => ret []
  | x :: l' =>
      let* keep := f x in
      let* ys := filterM f l' in
      ret (if keep then x :: ys else ys)
  end.

(** [scored.sort ((a, b) => b.score - a.score)]: the sort of an array is
    stable, so elements of equal score keep their relative order. *)
Definition Qltb (x y : Q) : bool := negb (Qle_bool y x).

Fixpoint insertDesc {A} (x : A * Q) (l : list (A * Q)) : list (A * Q) :=
  match l with
  | [] => [x]
  | y :: l' => if Qltb (snd x) (snd y) then y :: insertDesc x l' else x :: l
  end.

Definition sortDesc {A} (l : list (A * Q)) : list (A * Q) :=
  foldr insertDesc [] l.

(** A [Record<K, V>] or [Map<K, V>] kept in insertion order: [record[key]]
    and [record[key] = value]. *)
Fixpoint assocGet {K V} `{EqDecision K} (key : K) (l : list (K * V)) : option V :=
  match l with
  | [] => None
  | (k, v) :: l' => if bool_decide (k = key) then Some v else assocGet key l'
  end.

Fixpoint assocSet {K V} `{EqDecision K} (key : K) (value : V) (l : list (K * V))
    : list (K * V) :=
  match l with
  | [] => [(key, value)]
  | (k, v) :: l' =>
      if bool_decide (k = key) then (k, value) :: l' else (k, v) :: assocSet key value l'
  end.

(** The keys of a [Map] in insertion order, given the sequence of keys that
    were set: each key at its first occurrence. *)
Fixpoint firstOccurrences (l : list string) (seen : list string) : list string :=
  match l with
  | [] => []
  | x :: l' =>
      if bool_decide (x ∈ seen) then firstOccurrences l' seen
      else x :: firstOccurrences l' (x :: seen)
  end.

(** [l.join (sep)] *)
Fixpoint joinWith (sep : string) (l : list string) : string :=
  match l with
  | [] => ""
  | [x] => x
  | x :: l' => x +:+ sep +:+ joinWith sep l'
  end.

(** ** types *)
Inductive PostingStyle := asks_questions | gives_answers | balanced.
Inductive ThreadType := question | advice | story | discussion.
Inductive Sensitivity := sens_low | sens_medium | sens_high.
Inductive TimeOfDay := morning | afternoon | evening.
Inductive RiskTolerance := risk_low | risk_medium | risk_high.

Record Persona := {
  persona_id : string;
  persona_username : string;
  persona_bio : string;
  persona_expertise : list string;
  postingStyle : PostingStyle;
}.

Record SubredditRules := {
  maxPostsPerDay : option Z;
  allowsSelfPromotion : option bool;
}.

Record Subreddit := {
  subreddit_id : string;
  subreddit_name : string;
  subreddit_description : option string;
  subreddit_rules : option SubredditRules;
  sensitivity : option Sensitivity;
}.

Record Keyword := {
  keyword_id : string;
  keyword : string;
  category : option string;
  priority : option Z;
}.

Record TimeSlot := {
  ts_date : Z;
  ts_dayOfWeek : Z;
  ts_timeOfDay : TimeOfDay;
}.

Record MatchedSlot := {
  ms_slot : TimeSlot;
  ms_subreddit : Subreddit;
  ms_keywords : list Keyword;
  ms_threadType : ThreadType;
}.

Record AssignedSlot := {
  as_slot : MatchedSlot;
  opPersona : Persona;
  commenterPersonas : list Persona;
}.

Definition slot_date (s : MatchedSlot) : Z := ts_date (ms_slot s).

Record PlannerConstraints := {
  maxPostsPerSubredditPerWeek : Z;
  minDaysBetweenSubredditPosts : Z;
  maxPostsPerPersonaPerWeek : Z;
  maxCommentsPerPersonaPerWeek : Z;
  minHoursBetweenSamePersonaPosts : Z;
  maxPersonasPerThread : Z;
  noRepeatedPairingsPerWeek : bool;
  noBackToBackComments : bool;
  minDelayAfterPostMinutes : Z;
  maxDelayAfterPostMinutes : Z;
  commentSpacingMinutes : Z * Z;
  opFollowUpDelayMinutes : Z * Z;
  maxPromoScoreAllowed : Z;
  minQualityScoreRequired : Z;
}.

(** ** lib/planner/constraints *)
Module Constraints.

Definition DEFAULT_CONSTRAINTS : PlannerConstraints := {|
  maxPostsPerSubredditPerWeek := 2;
  minDaysBetweenSubredditPosts := 3;
  maxPostsPerPersonaPerWeek := 2;
  maxCommentsPerPersonaPerWeek := 6;
  minHoursBetweenSamePersonaPosts := 24;
  maxPersonasPerThread := 3;
  noRepeatedPairingsPerWeek := true;
  noBackToBackComments := true;
  minDelayAfterPostMinutes := 15;
  maxDelayAfterPostMinutes := 180;
  commentSpacingMinutes := (10, 60);
  opFollowUpDelayMinutes := (30, 180);
  maxPromoScoreAllowed := 6;
  minQualityScoreRequired := 6;
|}.

(** The usage entry both [canPersonaPost] and [canPostToSubreddit] read. *)
Record PostUsage := {
  pu_postsThisWeek : Z;
  pu_lastPostDate : option Z;
}.

Definition msPerHour : Z := 1000 * 60 * 60.
Definition msPerDay : Z := 1000 * 60 * 60 * 24.

(** [canPersonaPost (...).allowed].  The quotient
    [(proposed - last) / msPerHour] is compared with the limit without
    dividing. *)
Definition canPersonaPost (personaId : string) (usage : gmap string PostUsage)
    (constraints : PlannerConstraints) (proposedDate : Z) : bool :=
  match usage !! personaId with
  | None => true
  | Some personaUsage =>
      if maxPostsPerPersonaPerWeek constraints <=? pu_postsThisWeek personaUsage
      then false
      else match pu_lastPostDate personaUsage with
           | Some last =>
               if proposedDate - last <?
                  minHoursBetweenSamePersonaPosts constraints * msPerHour
               then false else true
           | None => true
           end
  end.

Definition canPostToSubreddit (subredditId : string) (usage : gmap string PostUsage)
    (constraints : PlannerConstraints) (proposedDate : Z) : bool :=
  match usage !! subredditId with
  | None => true
  | Some subUsage =>
      if maxPostsPerSubredditPerWeek constraints <=? pu_postsThisWeek subUsage
      then false
      else match pu_lastPostDate subUsage with
           | Some last =>
               if proposedDate - last <?
                  minDaysBetweenSubredditPosts constraints * msPerDay
               then false else true
           | None => true
           end
  end.

Definition canPersonasInteract (personaA personaB : string)
    (pairingsThisWeek : gset string) (constraints : PlannerConstraints) : bool :=
  if negb (noRepeatedPairingsPerWeek constraints) then true
  else
    let pairingKey := Utils.createPairingKey personaA personaB in
    if decide (pairingKey ∈ pairingsThisWeek) then false else true.

Inductive ThreadIssue :=
| TooManyPersonas (max : Z)      (* Too many personas in thread (max: ...) *)
| BackToBackComment.             (* Same persona cannot comment back-to-back *)

Fixpoint hasBackToBack (ids : list string) : bool :=
  match ids with
  | a :: (b :: _) as rest => if String.eqb b a then true else hasBackToBack rest
  | _ => false
  end.

(** [validateThreadStructure (...).issues] *)
Definition validateThreadStructure (opPersonaId : string)
    (commentPersonaIds : list string) (constraints : PlannerConstraints)
    : list ThreadIssue :=
  let uniqueCommenters : gset string := list_to_set commentPersonaIds in
  (if maxPersonasPerThread constraints - 1 <? Z.of_nat (size uniqueCommenters)
   then [TooManyPersonas (maxPersonasPerThread constraints)] else []) ++
  (if noBackToBackComments constraints && hasBackToBack commentPersonaIds
   then [BackToBackComment] else []).

Definition generateCommentDelay (index : nat) (isOPFollowUp : bool)
    (constraints : PlannerConstraints) : Eff Z :=
  if isOPFollowUp then
    let '(min, max) := opFollowUpDelayMinutes constraints in
    let* k := randomBelow (max - min) in ret (min + k)
  else if Nat.eqb index 0 then
    let range := maxDelayAfterPostMinutes constraints -
                 minDelayAfterPostMinutes constraints in
    let* k := randomBelow range in
    ret (minDelayAfterPostMinutes constraints + k)
  else
    let '(min, max) := commentSpacingMinutes constraints in
    let* k := randomBelow (max - min) in ret (min + k).

(** [Partial<PlannerConstraints>], for the fields that presets and
    sensitivity adjustments set. *)
Record PartialConstraints := {
  pc_maxPostsPerSubredditPerWeek : option Z;
  pc_minDaysBetweenSubredditPosts : option Z;
  pc_maxPromoScoreAllowed : option Z;
}.

Definition noOverride : PartialConstraints :=
  {| pc_maxPostsPerSubredditPerWeek := None;
     pc_minDaysBetweenSubredditPosts := None;
     pc_maxPromoScoreAllowed := None |}.

(** [{ ...base, ...partial }] *)
Definition spread (base : PlannerConstraints) (partial : PartialConstraints)
    : PlannerConstraints := {|
  maxPostsPerSubredditPerWeek :=
    default (maxPostsPerSubredditPerWeek base) (pc_maxPostsPerSubredditPerWeek partial);
  minDaysBetweenSubredditPosts :=
    default (minDaysBetweenSubredditPosts base) (pc_minDaysBetweenSubredditPosts partial);
  maxPostsPerPersonaPerWeek := maxPostsPerPersonaPerWeek base;
  maxCommentsPerPersonaPerWeek := maxCommentsPerPersonaPerWeek base;
  minHoursBetweenSamePersonaPosts := minHoursBetweenSamePersonaPosts base;
  maxPersonasPerThread := maxPersonasPerThread base;
  noRepeatedPairingsPerWeek := noRepeatedPairingsPerWeek base;
  noBackToBackComments := noBackToBackComments base;
  minDelayAfterPostMinutes := minDelayAfterPostMinutes base;
  maxDelayAfterPostMinutes := maxDelayAfterPostMinutes base;
  commentSpacingMinutes := commentSpacingMinutes base;
  opFollowUpDelayMinutes := opFollowUpDelayMinutes base;
  maxPromoScoreAllowed :=
    default (maxPromoScoreAllowed base) (pc_maxPromoScoreAllowed partial);
  minQualityScoreRequired := minQualityScoreRequired base;
|}.

(** [SUBREDDIT_PRESETS [name]] *)
Definition SUBREDDIT_PRESETS (name : string) : PartialConstraints :=
  if String.eqb name "r/AskReddit" then
    {| pc_maxPostsPerSubredditPerWeek := Some 3;
       pc_minDaysBetweenSubredditPosts := Some 2;
       pc_maxPromoScoreAllowed := None |}
  else if String.eqb name "r/consulting" then
    {| pc_maxPostsPerSubredditPerWeek := Some 1;
       pc_minDaysBetweenSubredditPosts := Some 7;
       pc_maxPromoScoreAllowed := Some 4 |}
  else if String.eqb name "r/startups" then
    {| pc_maxPostsPerSubredditPerWeek := Some 2;
       pc_minDaysBetweenSubredditPosts := None;
       pc_maxPromoScoreAllowed := Some 5 |}
  else noOverride.

Definition getSubredditConstraints (subreddit : Subreddit)
    (baseConstraints : PlannerConstraints) : PlannerConstraints :=
  let preset := SUBREDDIT_PRESETS (subreddit_name subreddit) in
  let sensitivityAdjustments :=
    match default sens_medium (sensitivity subreddit) with
    | sens_high =>
        {| pc_maxPostsPerSubredditPerWeek :=
             Some (Z.max 1 (maxPostsPerSubredditPerWeek baseConstraints - 1));
           pc_minDaysBetweenSubredditPosts :=
             Some (minDaysBetweenSubredditPosts baseConstraints + 2);
           pc_maxPromoScoreAllowed :=
             Some (Z.max 2 (maxPromoScoreAllowed baseConstraints - 1)) |}
    | sens_low =>
        {| pc_maxPostsPerSubredditPerWeek :=
             Some (maxPostsPerSubredditPerWeek baseConstraints + 1);
           pc_minDaysBetweenSubredditPosts :=
             Some (Z.max 1 (minDaysBetweenSubredditPosts baseConstraints - 1));
           pc_maxPromoScoreAllowed := None |}
    | sens_medium => noOverride
    end in
  spread (spread baseConstraints preset) sensitivityAdjustments.

End Constraints.

(** ** lib/planner/personaAssigner *)
Module PersonaAssigner.
Import Constraints.

Record PersonaUsageTracker := {
  postsThisWeek : Z;
  commentsThisWeek : Z;
  lastPostDate : option Z;
  subredditsPostedTo : list string;
}.

Inductive Warning :=
| NoEligibleOP (date : Z)        (* Could not find eligible OP for slot at ... *)
| ThreadIssueWarning (i : ThreadIssue).

Record PersonaAssignerResult := {
  slots : list AssignedSlot;
  personaDistribution : list (string * (Z * Z));
  pairingsUsed : gset string;
  warnings : list Warning;
}.

(** [usage.get (id)!]: reading a field of a missing tracker is a
    TypeError. *)
Definition getTracker (usage : gmap string PersonaUsageTracker) (id : string)
    : Eff PersonaUsageTracker :=
  match usage !! id with
  | Some t => ret t
  | None => throw "TypeError: Cannot read properties of undefined"
  end.

Definition isPersonaFitForThreadType (persona : Persona) (threadType : ThreadType)
    : Eff bool :=
  match postingStyle persona, threadType with
  | gives_answers, question =>
      let* r := random in ret (Qltb (7 # 10) r)
  | _, _ => ret true
  end.

Definition getThreadTypeFitScore (persona : Persona) (threadType : ThreadType) : Q :=
  match postingStyle persona, threadType with
  | asks_questions, question => 1
  | asks_questions, advice => 8 # 10
  | asks_questions, story => 5 # 10
  | asks_questions, discussion => 7 # 10
  | gives_answers, question => 3 # 10
  | gives_answers, advice => 7 # 10
  | gives_answers, story => 9 # 10
  | gives_answers, discussion => 8 # 10
  | balanced, _ => 7 # 10
  end.

(** The map handed to [canPersonaPost]: the same keys, two fields each. *)
Definition postUsage (usage : gmap string PersonaUsageTracker) : gmap string PostUsage :=
  (fun v => {| pu_postsThisWeek := postsThisWeek v;
               pu_lastPostDate := lastPostDate v |}) <$> usage.

Definition selectOP (slot : MatchedSlot) (personas : list Persona)
    (usage : gmap string PersonaUsageTracker) (constraints : PlannerConstraints)
    : Eff (option Persona) :=
  let* eligible :=
    filterM (fun persona =>
      if negb (canPersonaPost (persona_id persona) (postUsage usage)
                 constraints (slot_date slot))
      then ret false
      else
        let* fit := isPersonaFitForThreadType persona (ms_threadType slot) in
        ret fit) personas in
  match eligible with
  | [] => ret None
  | _ =>
      let* scored :=
        mapM (fun persona =>
          let* tracker := getTracker usage (persona_id persona) in
          let* r := random in
          ret (persona,
               (0 - inject_Z (postsThisWeek tracker * 2)
                + getThreadTypeFitScore persona (ms_threadType slot) + r)%Q))
          eligible in
      ret (fst <$> head (sortDesc scored))
  end.

Definition lowerSet (l : list string) : gset string :=
  list_to_set (Utils.toLowerCase <$> l).

Definition calculateExpertiseOverlap (a b : list string) : Q :=
  match a, b with
  | [], _ | _, [] => 0%Q
  | _, _ =>
      let setA := lowerSet a in
      let setB := lowerSet b in
      let intersection := filter (fun x => x ∈ setB) setA in
      let union := setA ∪ setB in
      (Z.of_nat (size intersection) # Pos.of_nat (size union))%Q
  end.

Definition getComplementScore (op commenter : Persona) : Q :=
  match postingStyle op, postingStyle commenter with
  | asks_questions, gives_answers => 1
  | gives_answers, gives_answers => 7 # 10
  | _, _ =>
      if Qltb (calculateExpertiseOverlap (persona_expertise op)
                 (persona_expertise commenter)) (1 # 2)
      then 8 # 10 else 5 # 10
  end.

(** The comment limit test of both filters: a missing tracker passes. *)
Definition underCommentLimit (usage : gmap string PersonaUsageTracker)
    (constraints : PlannerConstraints) (persona : Persona) : bool :=
  match usage !! persona_id persona with
  | Some tracker =>
      negb (maxCommentsPerPersonaPerWeek constraints <=? commentsThisWeek tracker)
  | None => true
  end.

(** The selection loop at the end of [selectCommenters]: [selected] is
    the array built so far. *)
Fixpoint pickCommenters (scored : list Persona) (count : Z) (selected : list Persona)
    : list Persona :=
  match scored with
  | [] => selected
  | persona :: rest =>
      if count <=? Z.of_nat (length selected) then selected
      else
        match last selected with
        | Some lastSelected =>
            if String.eqb (persona_id lastSelected) (persona_id persona)
            then pickCommenters rest count selected
            else pickCommenters rest count (selected ++ [persona])
        | None => pickCommenters rest count (selected ++ [persona])
        end
  end.

Definition selectCommenters (opPersona : Persona) (personas : list Persona)
    (count : Z) (usage : gmap string PersonaUsageTracker)
    (pairingsThisWeek : gset string) (constraints : PlannerConstraints)
    : Eff (list Persona) :=
  let eligible :=
    filter (fun persona =>
      negb (String.eqb (persona_id persona) (persona_id opPersona))
      && underCommentLimit usage constraints persona
      && canPersonasInteract (persona_id opPersona) (persona_id persona)
           pairingsThisWeek constraints) personas in
  let relaxedEligible :=
    match eligible with
    | [] =>
        filter (fun persona =>
          negb (String.eqb (persona_id persona) (persona_id opPersona))
          && underCommentLimit usage constraints persona) personas
    | _ => eligible
    end in
  match relaxedEligible with
  | [] => ret []
  | _ =>
      let* scored :=
        mapM (fun persona =>
          let* tracker := getTracker usage (persona_id persona) in
          let* r := random in
          ret (persona,
               (0 - inject_Z (commentsThisWeek tracker)
                + getComplementScore opPersona persona + r)%Q))
          relaxedEligible in
      ret (pickCommenters (fst <$> sortDesc scored) count [])
  end.

Definition bumpComments (t : PersonaUsageTracker) : PersonaUsageTracker :=
  {| postsThisWeek := postsThisWeek t;
     commentsThisWeek := commentsThisWeek t + 1;
     lastPostDate := lastPostDate t;
     subredditsPostedTo := subredditsPostedTo t |}.

Fixpoint updateCommenters (usage : gmap string PersonaUsageTracker)
    (commenters : list Persona) : Eff (gmap string PersonaUsageTracker) :=
  match commenters with
  | [] => ret usage
  | commenter :: rest =>
      let* tracker := getTracker usage (persona_id commenter) in
      updateCommenters (<[persona_id commenter := bumpComments tracker]> usage) rest
  end.

Definition updateUsage (usage : gmap string PersonaUsageTracker)
    (opPersona : Persona) (commenters : list Persona) (slot : MatchedSlot)
    : Eff (gmap string PersonaUsageTracker) :=
  let* opTracker := getTracker usage (persona_id opPersona) in
  let usage' :=
    <[persona_id opPersona :=
        {| postsThisWeek := postsThisWeek opTracker + 1;
           commentsThisWeek := commentsThisWeek opTracker;
           lastPostDate := Some (slot_date slot);
           subredditsPostedTo :=
             subredditsPostedTo opTracker ++ [subreddit_id (ms_subreddit slot)] |}]>
      usage in
  updateCommenters usage' commenters.

(** The keys of the pairs [(commenters[i], commenters[j])], [i < j]. *)
Fixpoint commenterPairKeys (commenters : list Persona) : list string :=
  match commenters with
  | [] => []
  | c :: rest =>
      ((fun d => Utils.createPairingKey (persona_id c) (persona_id d)) <$> rest)
      ++ commenterPairKeys rest
  end.

Definition pairingKeys (opPersona : Persona) (commenters : list Persona) : list string :=
  ((fun c => Utils.createPairingKey (persona_id opPersona) (persona_id c)) <$> commenters)
  ++ commenterPairKeys commenters.

Definition updatePairings (pairings : gset string) (opPersona : Persona)
    (commenters : list Persona) : gset string :=
  pairings ∪ list_to_set (pairingKeys opPersona commenters).

Record LoopState := {
  assignedSlots : list AssignedSlot;
  usage : gmap string PersonaUsageTracker;
  pairingsThisWeek : gset string;
  warningsSoFar : list Warning;
}.

(** One iteration of the loop over [slots] in [assignPersonas]. *)
Definition assignSlot (personas : list Persona)
    (effectiveConstraints : PlannerConstraints)
    (st : LoopState) (slot : MatchedSlot) : Eff LoopState :=
  let* op := selectOP slot personas (usage st) effectiveConstraints in
  match op with
  | None =>
      ret {| assignedSlots := assignedSlots st;
             usage := usage st;
             pairingsThisWeek := pairingsThisWeek st;
             warningsSoFar := warningsSoFar st ++ [NoEligibleOP (slot_date slot)] |}
  | Some opPersona =>
      let maxCommenters :=
        Z.min (Z.min (maxPersonasPerThread effectiveConstraints - 1)
                     (Z.of_nat (length personas) - 1)) 3 in
      let* k := randomBelow maxCommenters in
      let commenterCount := 1 + k in
      let* commenters :=
        selectCommenters opPersona personas commenterCount (usage st)
          (pairingsThisWeek st) effectiveConstraints in
      let validation :=
        validateThreadStructure (persona_id opPersona)
          (persona_id <$> commenters) effectiveConstraints in
      let* usage' := updateUsage (usage st) opPersona commenters slot in
      ret {| assignedSlots :=
               assignedSlots st ++
               [{| as_slot := slot; opPersona := opPersona;
                   commenterPersonas := commenters |}];
             usage := usage';
             pairingsThisWeek :=
               updatePairings (pairingsThisWeek st) opPersona commenters;
             warningsSoFar :=
               warningsSoFar st ++ (ThreadIssueWarning <$> validation) |}
  end.

Fixpoint assignLoop (personas : list Persona)
    (effectiveConstraints : PlannerConstraints)
    (st : LoopState) (slots : list MatchedSlot) : Eff LoopState :=
  match slots with
  | [] => ret st
  | slot :: rest =>
      let* st' := assignSlot personas effectiveConstraints st slot in
      assignLoop personas effectiveConstraints st' rest
  end.

Definition initialTracker : PersonaUsageTracker :=
  {| postsThisWeek := 0; commentsThisWeek := 0; lastPostDate := None;
     subredditsPostedTo := [] |}.

Definition initialUsage (personas : list Persona) : gmap string PersonaUsageTracker :=
  foldl (fun m persona => <[persona_id persona := initialTracker]> m) ∅ personas.

(** The distribution summary: the trackers are visited in the order in
    which their ids were first inserted. *)
Definition buildDistribution (personas : list Persona)
    (usage : gmap string PersonaUsageTracker) : list (string * (Z * Z)) :=
  foldl (fun acc id =>
           match usage !! id, find (fun p => String.eqb (persona_id p) id) personas with
           | Some tracker, Some persona =>
               assocSet (persona_username persona)
                 (postsThisWeek tracker, commentsThisWeek tracker) acc
           | _, _ => acc
           end)
        [] (firstOccurrences (persona_id <$> personas) []).

Record PersonaAssignerConfig := {
  cfg_slots : list MatchedSlot;
  cfg_personas : list Persona;
  cfg_constraints : option PlannerConstraints;
}.

Definition assignPersonas (config : PersonaAssignerConfig)
    : Eff PersonaAssignerResult :=
  let personas := cfg_personas config in
  let effectiveConstraints := default DEFAULT_CONSTRAINTS (cfg_constraints config) in
  if (length personas <? 2)%nat then throw "At least 2 personas are required"
  else
    let* st :=
      assignLoop personas effectiveConstraints
        {| assignedSlots := []; usage := initialUsage personas;
           pairingsThisWeek := ∅; warningsSoFar := [] |}
        (cfg_slots config) in
    ret {| slots := assignedSlots st;
           personaDistribution := buildDistribution personas (usage st);
           pairingsUsed := pairingsThisWeek st;
           warnings := warningsSoFar st |}.

End PersonaAssigner.

(** ** lib/planner/subredditMatcher *)
Module SubredditMatcher.
Import Constraints.

Record SubredditMatcherConfig := {
  cfg_slots : list TimeSlot;
  cfg_subreddits : list Subreddit;
  cfg_keywords : list Keyword;
  cfg_previousWeeks : list (list string);   (* topicsUsed of each earlier week *)
  cfg_constraints : option PlannerConstraints;
}.

Record SubredditMatcherResult := {
  slots : list MatchedSlot;
  subredditDistribution : list (string * Z);
  keywordUsage : list (string * Z);
  topicsSkipped : list Z;     (* No eligible subreddit for slot at <date> *)
}.

Definition selectSubreddit (subreddits : list Subreddit)
    (usage : gmap string PostUsage) (proposedDate : Z)
    (constraints : PlannerConstraints) : Eff (option Subreddit) :=
  let eligible :=
    filter (fun sub =>
      canPostToSubreddit (subreddit_id sub) usage constraints proposedDate = true)
      subreddits in
  match eligible with
  | [] => ret None
  | _ =>
      let* scored :=
        mapM (fun sub =>
          let usageScore :=
            match usage !! subreddit_id sub with
            | Some subUsage => pu_postsThisWeek subUsage
            | None => 0
            end in
          let* r := random in
          ret (sub, (0 - inject_Z usageScore + r * (1 # 2))%Q)) eligible in
      ret (fst <$> head (sortDesc scored))
  end.

Definition categoryMappings : list (string * list string) :=
  [ ("presentations", ["powerpoint"; "slides"; "presentations"; "canva"]);
    ("productivity", ["productivity"; "getdisciplined"; "selfimprovement"]);
    ("business", ["startups"; "entrepreneur"; "smallbusiness"; "business"]);
    ("tech", ["technology"; "programming"; "software"; "chatgpt"; "claudeai"]);
    ("design", ["design"; "canva"; "graphic_design"]);
    ("education", ["askacademia"; "teachers"; "education"; "college"]) ].

Definition matchCategory (kw : Keyword) (subreddit : Subreddit) : bool :=
  let category := Utils.toLowerCase (default "" (category kw)) in
  let subName := Utils.toLowerCase (subreddit_name subreddit) in
  existsb (fun '(cat, subs) =>
    (Utils.includes cat category
     || Utils.includes cat (Utils.toLowerCase (keyword kw)))
    && existsb (fun s => Utils.includes s subName) subs) categoryMappings.

Definition calculateSubredditRelevance (kw : Keyword) (subreddit : Subreddit) : Q :=
  let kwLower := Utils.toLowerCase (keyword kw) in
  let subLower := Utils.toLowerCase (subreddit_name subreddit) in
  let subDesc := Utils.toLowerCase (default "" (subreddit_description subreddit)) in
  if Utils.includes kwLower subLower
     || Utils.includes (Utils.replaceFirst "r/" "" subLower) kwLower then 1
  else if negb (String.eqb subDesc "") && Utils.includes kwLower subDesc then 8 # 10
  else if matchCategory kw subreddit then 6 # 10
  else 3 # 10.

Definition selectKeywords (keywords : list Keyword) (subreddit : Subreddit)
    (usage : list (string * Z)) (freshnessPenalties : gmap string Q)
    (maxKeywords : nat) : Eff (list Keyword) :=
  let* scored :=
    mapM (fun kw =>
      let relevance := calculateSubredditRelevance kw subreddit in
      let freshnessPenalty := default 0%Q (freshnessPenalties !! keyword_id kw) in
      let usageCount := default 0 (assocGet (keyword_id kw) usage) in
      let* r := random in
      ret (kw, (relevance * 3 - freshnessPenalty - inject_Z (usageCount * 2)
                + inject_Z (default 0%Z (priority kw)) + r * (1 # 2))%Q)) keywords in
  ret (fst <$> take maxKeywords (sortDesc scored)).

Definition determineThreadType (keywords : list Keyword) : ThreadType :=
  let keywordText :=
    joinWith " " ((fun k => Utils.toLowerCase (keyword k)) <$> keywords) in
  let has := fun w => Utils.includes w keywordText in
  if has "best" || has "how to" || has "what is" || has "which"
     || has "alternatives" || has "vs" then question
  else if has "help" || has "need" || has "recommend" || has "tips" then advice
  else if has "experience" || has "tried" || has "review" then story
  else discussion.

(** [buildFreshnessPenalties]: week [i] (from 0) adds [1 / (i + 1)] to
    each of its topics. *)
Fixpoint addWeek (penalties : gmap string Q) (weekPenalty : Q) (topics : list string)
    : gmap string Q :=
  match topics with
  | [] => penalties
  | topic :: rest =>
      let current := default 0%Q (penalties !! topic) in
      addWeek (<[topic := (current + weekPenalty)%Q]> penalties) weekPenalty rest
  end.

Fixpoint freshnessFrom (i : nat) (penalties : gmap string Q)
    (previousWeeks : list (list string)) : gmap string Q :=
  match previousWeeks with
  | [] => penalties
  | week :: rest =>
      freshnessFrom (S i) (addWeek penalties (1 # Pos.of_nat (S i)) week) rest
  end.

Definition buildFreshnessPenalties (previousWeeks : list (list string))
    : gmap string Q := freshnessFrom 0 ∅ previousWeeks.

Record LoopState := {
  matchedSlots : list MatchedSlot;
  subredditUsage : gmap string PostUsage;
  usageOrder : list string;     (* keys of subredditUsage in insertion order *)
  keywordUsageSoFar : list (string * Z);
  skipped : list Z;
}.

(** One iteration of the loop over [slots] in [matchSubreddits]. *)
Definition matchSlot (subreddits : list Subreddit) (keywords : list Keyword)
    (freshnessPenalties : gmap string Q) (effectiveConstraints : PlannerConstraints)
    (st : LoopState) (slot : TimeSlot) : Eff LoopState :=
  let* selected :=
    selectSubreddit subreddits (subredditUsage st) (ts_date slot)
      effectiveConstraints in
  match selected with
  | None =>
      ret {| matchedSlots := matchedSlots st;
             subredditUsage := subredditUsage st;
             usageOrder := usageOrder st;
             keywordUsageSoFar := keywordUsageSoFar st;
             skipped := skipped st ++ [ts_date slot] |}
  | Some selectedSubreddit =>
      let* selectedKeywords :=
        selectKeywords keywords selectedSubreddit (keywordUsageSoFar st)
          freshnessPenalties 2 in
      let threadType := determineThreadType selectedKeywords in
      let id := subreddit_id selectedSubreddit in
      let currentPosts :=
        match subredditUsage st !! id with
        | Some currentUsage => pu_postsThisWeek currentUsage
        | None => 0
        end in
      ret {| matchedSlots :=
               matchedSlots st ++
               [{| ms_slot := slot; ms_subreddit := selectedSubreddit;
                   ms_keywords := selectedKeywords; ms_threadType := threadType |}];
             subredditUsage :=
               <[id := {| pu_postsThisWeek := currentPosts + 1;
                          pu_lastPostDate := Some (ts_date slot) |}]>
                 (subredditUsage st);
             usageOrder :=
               if bool_decide (id ∈ usageOrder st) then usageOrder st
               else usageOrder st ++ [id];
             keywordUsageSoFar :=
               foldl (fun acc kw =>
                        assocSet (keyword_id kw)
                          (default 0 (assocGet (keyword_id kw) acc) + 1) acc)
                     (keywordUsageSoFar st) selectedKeywords;
             skipped := skipped st |}
  end.

Fixpoint matchLoop (subreddits : list Subreddit) (keywords : list Keyword)
    (freshnessPenalties : gmap string Q) (effectiveConstraints : PlannerConstraints)
    (st : LoopState) (slots : list TimeSlot) : Eff LoopState :=
  match slots with
  | [] => ret st
  | slot :: rest =>
      let* st' :=
        matchSlot subreddits keywords freshnessPenalties effectiveConstraints
          st slot in
      matchLoop subreddits keywords freshnessPenalties effectiveConstraints st' rest
  end.

Definition buildDistribution (subreddits : list Subreddit)
    (usage : gmap string PostUsage) (order : list string) : list (string * Z) :=
  foldl (fun acc id =>
           match usage !! id,
                 find (fun s => String.eqb (subreddit_id s) id) subreddits with
           | Some u, Some sub => assocSet (subreddit_name sub) (pu_postsThisWeek u) acc
           | _, _ => acc
           end) [] order.

Definition matchSubreddits (config : SubredditMatcherConfig)
    : Eff SubredditMatcherResult :=
  let effectiveConstraints := default DEFAULT_CONSTRAINTS (cfg_constraints config) in
  let freshnessPenalties := buildFreshnessPenalties (cfg_previousWeeks config) in
  let* st :=
    matchLoop (cfg_subreddits config) (cfg_keywords config) freshnessPenalties
      effectiveConstraints
      {| matchedSlots := []; subredditUsage := ∅; usageOrder := [];
         keywordUsageSoFar := []; skipped := [] |}
      (cfg_slots config) in
  ret {| slots := matchedSlots st;
         subredditDistribution :=
           buildDistribution (cfg_subreddits config) (subredditUsage st)
             (usageOrder st);
         keywordUsage := keywordUsageSoFar st;
         topicsSkipped := skipped st |}.

End SubredditMatcher.

(** ** Posts, comments, threads and the quality report *)
Inductive Status := draft | approved | scheduled | posted | failed.

Record Company := {
  company_id : string;
  company_name : string;
  company_description : string;
}.

Record Post := {
  post_id : string;
  post_companyId : string;
  post_weekNumber : Z;
  subredditId : string;
  subredditName : string;
  post_personaId : string;
  post_personaUsername : string;
  title : string;
  body : string;
  post_scheduledAt : Z;
  keywordIds : list string;
  post_threadType : ThreadType;
  post_status : Status;
}.

Record Comment := {
  comment_id : string;
  postId : string;
  parentCommentId : option string;
  comment_personaId : string;
  comment_personaUsername : string;
  content : string;
  comment_scheduledAt : Z;
  delayMinutes : Z;
  comment_status : Status;
}.

Record Thread := {
  post : Post;
  comments : list Comment;
  slot : AssignedSlot;
}.

Inductive IssueSeverity := low | medium | high.
Inductive IssueType :=
| overposting | duplication | persona_collision | timing_issue
| promo_sensitivity | voice_inconsistency.

(** What [checkPromotionalContent] collects in [flaggedContent]. *)
Inductive Flagged :=
| DirectMention (companyName : string)
| PromoPhrase (phrase : string)
| MultiplePositive
| NoDisagreement.

(** The message of an issue: the template it instantiates with the values
    spliced into it. *)
Inductive IssueMessage :=
| MsgOverposting (subreddit : string) (count max : Z)
| MsgSimilarPosts (titleA titleB : string) (percent : Z)
| MsgPairing (key : string) (count : Z)
| MsgFirstCommentFast (title : string) (minutes : Z)
| MsgCommentsClose (title : string) (gap : Z)
| MsgPromoScore (title : string) (promoScore : Z)
| MsgPersonaOverused (personaId : string) (count : Z) (avg : Q)
| MsgPostsPerDay (subreddit : string) (count max day : Z)
| MsgSelfPromotion (subreddit : string)
| MsgSimilarVoices (percent : Z).

Inductive WarningMessage :=
| WarnPromotional (title : string) (flagged : list Flagged).

Inductive Suggestion :=
| SuggestMorePersonas      (* Consider using more personas for variety *)
| SuggestReview            (* Consider reviewing threads with low scores ... *)
| SuggestMorePosts.        (* Adding more posts per week could improve visibility *)

Record QualityIssue := {
  issue_type : IssueType;
  severity : IssueSeverity;
  message : IssueMessage;
  affectedPostIds : option (list string);
}.

Record QualityReport := {
  overallScore : Q;
  issues : list QualityIssue;
  warnings : list WarningMessage;
  suggestions : list Suggestion;
  issuesByPostId : list (string * list QualityIssue);
  warningsByPostId : list (string * list WarningMessage);
}.

(** [Math.round (x)]: the nearest integer, halves upwards. *)
Definition mathRound (x : Q) : Z := Qfloor (x + (1 # 2)).

(** [record[key].push (x)], creating the array when the key is new. *)
Definition assocPush {K V} `{EqDecision K} (key : K) (x : V) (l : list (K * list V))
    : list (K * list V) :=
  assocSet key (default [] (assocGet key l) ++ [x]) l.

(** All pairs [(l[i], l[j])] with [i < j], in the order of the two nested
    loops. *)
Fixpoint pairsOf {A} (l : list A) : list (A * A) :=
  match l with
  | [] => []
  | x :: l' => ((fun y => (x, y)) <$> l') ++ pairsOf l'
  end.

(** ** lib/planner/qualityChecker *)
Module QualityChecker.
Import Constraints.

Record QualityCheckConfig := {
  cfg_threads : list Thread;
  cfg_company : Company;
  cfg_subreddits : option (list Subreddit);
  cfg_constraints : option PlannerConstraints;
  cfg_allowProductMention : option bool;
}.

Record QualityCheckResult := {
  validatedThreads : list Thread;
  report : QualityReport;
}.

(** The per-subreddit tally of [checkOverposting]. *)
Definition countBySubreddit (threads : list Thread) : list (string * (Z * list string)) :=
  foldl (fun acc thread =>
           let subName := subredditName (post thread) in
           let '(count, postIds) := default (0, []) (assocGet subName acc) in
           assocSet subName (count + 1, postIds ++ [post_id (post thread)]) acc)
        [] threads.

Definition checkOverposting (threads : list Thread) : list QualityIssue :=
  let subredditCounts := countBySubreddit threads in
  omap (fun '(subreddit, (count, postIds)) =>
          if maxPostsPerSubredditPerWeek DEFAULT_CONSTRAINTS <? count then
            Some {| issue_type := overposting; severity := high;
                    message := MsgOverposting subreddit count
                                 (maxPostsPerSubredditPerWeek DEFAULT_CONSTRAINTS);
                    affectedPostIds := Some postIds |}
          else None) subredditCounts.

Definition postText (p : Post) : string := title p +:+ " " +:+ body p.

Definition checkDuplication (threads : list Thread) : list QualityIssue :=
  omap (fun '(a, b) =>
          let similarity :=
            Utils.calculateSimilarity (postText (post a)) (postText (post b)) in
          if Qle_bool (1 # 2) similarity then
            Some {| issue_type := duplication;
                    severity := if Qltb (8 # 10) similarity then high else medium;
                    message := MsgSimilarPosts (Utils.truncate (title (post a)) 30)
                                 (Utils.truncate (title (post b)) 30)
                                 (mathRound (similarity * 100));
                    affectedPostIds := Some [post_id (post a); post_id (post b)] |}
          else None) (pairsOf threads).

(** The pairing tally of [checkPersonaCollisions], a [Map] in insertion
    order. *)
Definition tallyComment (opId postId : string)
    (acc : list (string * (Z * list string))) (comment : Comment)
    : list (string * (Z * list string)) :=
  if String.eqb (comment_personaId comment) opId then acc
  else
    let key := Utils.createPairingKey opId (comment_personaId comment) in
    let '(count, postIds) := default (0, []) (assocGet key acc) in
    assocSet key (count + 1,
                  if bool_decide (postId ∈ postIds) then postIds
                  else postIds ++ [postId]) acc.

Definition tallyPairings (threads : list Thread) : list (string * (Z * list string)) :=
  foldl (fun acc thread =>
           foldl (tallyComment (post_personaId (post thread)) (post_id (post thread)))
                 acc (comments thread))
        [] threads.

Definition checkPersonaCollisions (threads : list Thread) : list QualityIssue :=
  omap (fun '(key, (count, postIds)) =>
          if 2 <? count then
            Some {| issue_type := persona_collision; severity := medium;
                    message := MsgPairing key count;
                    affectedPostIds := Some postIds |}
          else None) (tallyPairings threads).

Definition checkTimingIssues (threads : list Thread) : list QualityIssue :=
  flat_map (fun thread =>
    let t := Utils.truncate (title (post thread)) 30 in
    let id := post_id (post thread) in
    (match comments thread with
     | comment :: _ =>
         if delayMinutes comment <? 10 then
           [{| issue_type := timing_issue; severity := medium;
               message := MsgFirstCommentFast t (delayMinutes comment);
               affectedPostIds := Some [id] |}]
         else []
     | [] => []
     end) ++
    omap (fun comment =>
            let gap := delayMinutes comment in
            if gap <? 5 then
              Some {| issue_type := timing_issue; severity := low;
                      message := MsgCommentsClose t gap;
                      affectedPostIds := Some [id] |}
            else None) (tail (comments thread))) threads.

Definition promoKeywords : list string :=
  [ "best ever"; "game changer"; "life changing"; "you should definitely";
    "highly recommend"; "check it out"; "amazing tool"; "perfect solution" ].

(** [/love|amazing|great|perfect|excellent/i.test (s)] and the like: one
    of the alternatives occurs in [s], whatever the case. *)
Definition testAny (alternatives : list string) (s : string) : bool :=
  existsb (fun a => Utils.includes a (Utils.toLowerCase s)) alternatives.

Definition positiveWords : list string :=
  ["love"; "amazing"; "great"; "perfect"; "excellent"].
Definition dissentWords : list string :=
  ["but"; "though"; "however"; "not sure"; "depends"; "maybe"].

(** The score and the flags one piece of content adds. *)
Definition scanContent (company : Company) (text : string) : Z * list Flagged :=
  let contentLower := Utils.toLowerCase text in
  let mention :=
    if Utils.includes (Utils.toLowerCase (company_name company)) contentLower
    then (4, [DirectMention (company_name company)]) else (0, []) in
  foldl (fun '(score, flags) kw =>
           if Utils.includes kw contentLower
           then (score + 1, flags ++ [PromoPhrase kw]) else (score, flags))
        mention promoKeywords.

Definition promoScoreOf (company : Company) (thread : Thread) : Z * list Flagged :=
  let allContent :=
    title (post thread) :: body (post thread) :: (content <$> comments thread) in
  let '(s1, f1) :=
    foldl (fun '(score, flags) text =>
             let '(s, f) := scanContent company text in (score + s, flags ++ f))
          (0, []) allContent in
  let positiveCount :=
    length (filter (fun c => testAny positiveWords (content c) = true)
              (comments thread)) in
  let '(s2, f2) :=
    if (2 <=? positiveCount)%nat then (s1 + 2, f1 ++ [MultiplePositive])
    else (s1, f1) in
  let hasDisagreement :=
    existsb (fun c => testAny dissentWords (content c)) (comments thread) in
  if negb hasDisagreement && (1 <? length (comments thread))%nat
  then (s2 + 1, f2 ++ [NoDisagreement]) else (s2, f2).

Record PromoCheck := {
  promo_issues : list QualityIssue;
  promo_warnings : list WarningMessage;
  promo_warningsByPostId : list (string * list WarningMessage);
}.

Definition checkPromotionalContent (threads : list Thread) (company : Company)
    : PromoCheck :=
  foldl (fun acc thread =>
           let '(promoScore, flaggedContent) := promoScoreOf company thread in
           let t := Utils.truncate (title (post thread)) 30 in
           if maxPromoScoreAllowed DEFAULT_CONSTRAINTS <? promoScore then
             {| promo_issues :=
                  promo_issues acc ++
                  [{| issue_type := promo_sensitivity;
                      severity := if 8 <? promoScore then high else medium;
                      message := MsgPromoScore t promoScore;
                      affectedPostIds := Some [post_id (post thread)] |}];
                promo_warnings := promo_warnings acc;
                promo_warningsByPostId := promo_warningsByPostId acc |}
           else if 4 <? promoScore then
             let warning := WarnPromotional t flaggedContent in
             {| promo_issues := promo_issues acc;
                promo_warnings := promo_warnings acc ++ [warning];
                promo_warningsByPostId :=
                  assocPush (post_id (post thread)) warning
                    (promo_warningsByPostId acc) |}
           else acc)
        {| promo_issues := []; promo_warnings := []; promo_warningsByPostId := [] |}
        threads.

Definition sumZ (l : list Z) : Z := foldl Z.add 0 l.

Definition checkPersonaBalance (threads : list Thread)
    (constraints : option PlannerConstraints) : list QualityIssue :=
  let counts : list (string * Z) :=
    foldl (fun acc thread =>
             let id := post_personaId (post thread) in
             assocSet id (default 0 (assocGet id acc) + 1) acc) [] threads in
  let values := snd <$> counts in
  match values with
  | [] => []
  | _ =>
      let avg := (inject_Z (sumZ values) / inject_Z (Z.of_nat (length values)))%Q in
      omap (fun '(personaId, count) =>
              let overLimit :=
                match maxPostsPerPersonaPerWeek <$> constraints with
                | Some limit => negb (limit =? 0) && (limit <? count)
                | None => false
                end in
              if overLimit || Qltb (avg + 1) (inject_Z count) then
                Some {| issue_type := persona_collision; severity := low;
                        message := MsgPersonaOverused personaId count avg;
                        affectedPostIds :=
                          Some ((fun t => post_id (post t)) <$>
                                filter (fun t => post_personaId (post t) = personaId)
                                  threads) |}
              else None) counts
  end.

(** The day of a timestamp, what [toISOString ().slice (0, 10)] names. *)
Definition isoDay (ms : Z) : Z := ms / msPerDay.

Definition threadText (t : Thread) : string :=
  title (post t) +:+ " " +:+ body (post t) +:+ " " +:+
  joinWith " " (content <$> comments t).

Definition checkSubredditRules (threads : list Thread) (company : Company)
    (subreddits : option (list Subreddit)) : list QualityIssue :=
  match subreddits with
  | None | Some [] => []
  | Some subs =>
      let bySubreddit : list (string * list Thread) :=
        foldl (fun acc t => assocPush (subredditId (post t)) t acc) [] threads in
      flat_map (fun sub =>
        match subreddit_rules sub with
        | None => []
        | Some rules =>
            let threadsForSub :=
              default [] (assocGet (subreddit_id sub) bySubreddit) in
            (match maxPostsPerDay rules with
             | Some max =>
                 if max =? 0 then []
                 else
                   let byDay : list (Z * list Thread) :=
                     foldl (fun acc t =>
                              assocPush (isoDay (post_scheduledAt (post t))) t acc)
                           [] threadsForSub in
                   omap (fun '(day, l) =>
                           if max <? Z.of_nat (length l) then
                             Some {| issue_type := overposting; severity := medium;
                                     message := MsgPostsPerDay (subreddit_name sub)
                                                  (Z.of_nat (length l)) max day;
                                     affectedPostIds :=
                                       Some ((fun t => post_id (post t)) <$> l) |}
                           else None) byDay
             | None => []
             end) ++
            (match allowsSelfPromotion rules with
             | Some false =>
                 omap (fun t =>
                         if Utils.includes (Utils.toLowerCase (company_name company))
                              (Utils.toLowerCase (threadText t))
                         then Some {| issue_type := promo_sensitivity;
                                      severity := medium;
                                      message := MsgSelfPromotion (subreddit_name sub);
                                      affectedPostIds := Some [post_id (post t)] |}
                         else None) threadsForSub
             | _ => []
             end)
        end) subs
  end.

(** The texts of each persona, a [Map] in insertion order. *)
Definition personaContent (threads : list Thread) : list (string * list string) :=
  foldl (fun acc thread =>
           let acc1 :=
             assocSet (post_personaId (post thread))
               (default [] (assocGet (post_personaId (post thread)) acc)
                ++ [title (post thread); body (post thread)]) acc in
           foldl (fun a comment =>
                    assocPush (comment_personaId comment) (content comment) a)
                 acc1 (comments thread))
        [] threads.

Definition checkVoiceConsistency (threads : list Thread)
    : list QualityIssue * list Suggestion :=
  let byPersona := personaContent threads in
  let found :=
    omap (fun '((_, textsA), (_, textsB)) =>
            let similarity :=
              Utils.calculateSimilarity (joinWith " " textsA) (joinWith " " textsB) in
            if Qltb (1 # 2) similarity then
              Some {| issue_type := voice_inconsistency; severity := medium;
                      message := MsgSimilarVoices (mathRound (similarity * 100));
                      affectedPostIds := None |}
            else None) (pairsOf byPersona) in
  (found, if (length byPersona <? 3)%nat then [SuggestMorePersonas] else []).

Definition deduction (s : IssueSeverity) : Q :=
  match s with
  | high => 2
  | medium => 1
  | low => 1 # 2
  end.

Definition calculateOverallScore (issues : list QualityIssue)
    (warnings : list WarningMessage) (threadCount : nat) : Q :=
  let score0 :=
    foldl (fun score issue => score - deduction (severity issue))%Q 10%Q issues in
  let score1 := (score0 - inject_Z (Z.of_nat (length warnings)) * (3 # 10))%Q in
  let score2 := if (3 <=? threadCount)%nat then (score1 + (1 # 2))%Q else score1 in
  Qmax 0 (Qmin 10 (inject_Z (mathRound (score2 * 10)) / 10)).

Definition indexByPost (issues : list QualityIssue) : list (string * list QualityIssue) :=
  foldl (fun acc issue =>
           foldl (fun a postId => assocPush postId issue a) acc
                 (default [] (affectedPostIds issue)))
        [] issues.

Definition checkQuality (config : QualityCheckConfig) : QualityCheckResult :=
  let threads := cfg_threads config in
  let company := cfg_company config in
  let allowProductMention := default false (cfg_allowProductMention config) in
  let issues0 :=
    checkOverposting threads ++ checkDuplication threads
    ++ checkPersonaCollisions threads ++ checkTimingIssues threads
    ++ checkPersonaBalance threads (cfg_constraints config)
    ++ checkSubredditRules threads company (cfg_subreddits config) in
  let promoCheck :=
    if allowProductMention
    then {| promo_issues := []; promo_warnings := []; promo_warningsByPostId := [] |}
    else checkPromotionalContent threads company in
  let voiceCheck := checkVoiceConsistency threads in
  let issues := issues0 ++ promo_issues promoCheck ++ fst voiceCheck in
  let warnings := promo_warnings promoCheck in
  let overallScore := calculateOverallScore issues warnings (length threads) in
  let suggestions :=
    snd voiceCheck
    ++ (if Qltb overallScore 7 then [SuggestReview] else [])
    ++ (if (length threads <? 3)%nat then [SuggestMorePosts] else []) in
  {| validatedThreads := threads;
     report := {| overallScore := overallScore;
                  issues := issues;
                  warnings := warnings;
                  suggestions := suggestions;
                  issuesByPostId := indexByPost issues;
                  warningsByPostId :=
                    if allowProductMention then []
                    else promo_warningsByPostId promoCheck |} |}.

Record Breakdown := {
  naturalness : Q;
  engagement : Q;
  subtlety : Q;
  timing : Q;
}.

Definition scoreThread (thread : Thread) (company : Company) : Q * Breakdown :=
  let postLength := String.length (body (post thread)) in
  let naturalness : Q :=
    if (50 <=? postLength)%nat && (postLength <=? 500)%nat then (25 # 10)%Q
    else if (10 <? postLength)%nat then (15 # 10)%Q else 0%Q in
  let commentCount := length (comments thread) in
  let engagement : Q :=
    if (2 <=? commentCount)%nat && (commentCount <=? 4)%nat then (25 # 10)%Q
    else if (1 <=? commentCount)%nat then (15 # 10)%Q else 0%Q in
  let hasDirectMention :=
    Utils.includes (Utils.toLowerCase (company_name company))
      (Utils.toLowerCase
         (body (post thread) +:+ joinWith " " (content <$> comments thread))) in
  let subtlety : Q := if negb hasDirectMention then (25 # 10)%Q else 1%Q in
  let avgDelay : Q :=
    (inject_Z (sumZ (delayMinutes <$> comments thread))
     / inject_Z (Z.of_nat (Nat.max (length (comments thread)) 1)))%Q in
  let timing : Q :=
    if Qle_bool 30 avgDelay && Qle_bool avgDelay 120 then (25 # 10)%Q
    else if Qle_bool 15 avgDelay then (15 # 10)%Q else 0%Q in
  let breakdown :=
    {| naturalness := naturalness; engagement := engagement;
       subtlety := subtlety; timing := timing |} in
  ((naturalness + engagement + subtlety + timing)%Q, breakdown).

End QualityChecker.

(** ** The revision of [checkOverposting] that reads the effective
    constraints of the subreddit (the other copy of qualityChecker in the
    repository) *)
Module QualityCheckerRevised.
Import Constraints.

Definition effectiveFor (subreddits : option (list Subreddit))
    (constraints : option PlannerConstraints) (subreddit : string)
    : PlannerConstraints :=
  let base := default DEFAULT_CONSTRAINTS constraints in
  match
    find (fun s => String.eqb (subreddit_name s) subreddit
                   || String.eqb (subreddit_id s) subreddit)
         (default [] subreddits)
  with
  | Some sub => getSubredditConstraints sub base
  | None => base
  end.

Definition checkOverposting (threads : list Thread)
    (subreddits : option (list Subreddit)) (constraints : option PlannerConstraints)
    : list QualityIssue :=
  let subredditCounts := QualityChecker.countBySubreddit threads in
  omap (fun '(subreddit, (count, postIds)) =>
          let effective := effectiveFor subreddits constraints subreddit in
          if maxPostsPerSubredditPerWeek effective <? count then
            Some {| issue_type := overposting; severity := high;
                    message := MsgOverposting subreddit count
                                 (maxPostsPerSubredditPerWeek effective);
                    affectedPostIds := Some postIds |}
          else None) subredditCounts.

End QualityCheckerRevised.

(** ** lib/planner/threadGenerator *)
Record GenerationPreferences := {
  allowProductMention : option bool;
  productMentionCount : option Z;
  antiPromoChecks : option bool;
  bannedPhrases : option (list string);
  minCommentLength : option Z;
  maxCommentLength : option Z;
  minPostLength : option Z;
  maxPostLength : option Z;
  autoRepair : option bool;
  requireDisagreement : option bool;
  repairPasses : option Z;
}.

Module ThreadGenerator.
Import Constraints.

Record ThreadGeneratorConfig := {
  cfg_slots : list AssignedSlot;
  cfg_company : Company;
  cfg_weekNumber : Z;
  cfg_preferences : option GenerationPreferences;
  cfg_constraints : option PlannerConstraints;
  cfg_riskTolerance : option RiskTolerance;
}.

Record ThreadGeneratorResult := {
  threads : list Thread;
  totalPosts : nat;
  totalComments : nat;
  errors : list string;
}.

(** [preferences?.field], and the test [x && ...] on an optional number. *)
Definition pref {A} (f : GenerationPreferences -> option A)
    (preferences : option GenerationPreferences) : option A :=
  match preferences with
  | Some p => f p
  | None => None
  end.

Definition truthyZ (x : option Z) : option Z :=
  match x with
  | Some n => if n =? 0 then None else Some n
  | None => None
  end.

Definition len (s : string) : Z := Z.of_nat (String.length s).

Definition mentions (company : Company) (text : string) : bool :=
  Utils.includes (Utils.toLowerCase (company_name company)) (Utils.toLowerCase text).

Definition generatePostId : Eff string :=
  let* u := uuidv4 in ret ("post_" +:+ String.substring 0 8 u).

Definition generateCommentId : Eff string :=
  let* u := uuidv4 in ret ("comment_" +:+ String.substring 0 8 u).

(** [result.error || 'invalid response'] *)
Definition errorText (result : GenerationResult) : string :=
  match gr_error result with
  | Some e => if String.eqb e "" then "invalid response" else e
  | None => "invalid response"
  end.

(** [result.success && result.data?.variation], a non-empty string. *)
Definition variationOf (result : GenerationResult) : option string :=
  if gr_success result then
    match gr_data result with
    | Some d =>
        match p_variation d with
        | Some v => if String.eqb v "" then None else Some v
        | None => None
        end
    | None => None
    end
  else None.

(** [removeCompanyMention] and [regenerateComment] differ in their
    prompts only. *)
Definition removeCompanyMention : Eff (option string) :=
  let* result := generateWithAI in ret (variationOf result).

Definition regenerateComment : Eff (option string) :=
  let* result := generateWithAI in ret (variationOf result).

(** The sentences that fit, accumulated by the loop of [clampToLength]. *)
Fixpoint fitSentences (sentences : list string) (maxLen : Z) (result : string)
    : string :=
  match sentences with
  | [] => result
  | sentence :: rest =>
      let next :=
        if String.eqb result "" then sentence else result +:+ " " +:+ sentence in
      if maxLen <? len next then result else fitSentences rest maxLen next
  end.

Definition clampToLength (text : string) (maxLen : Z) : string :=
  let trimmed := Utils.trim text in
  if len trimmed <=? maxLen then trimmed
  else
    let sentences :=
      filter (fun x => x <> "") (Utils.splitSentences trimmed) in
    let result := fitSentences sentences maxLen "" in
    if negb (String.eqb result "") && (len result <=? maxLen) then result
    else
      let sliced := Utils.trim (Utils.sliceTo maxLen trimmed) in
      let lastPunct :=
        Z.max (Z.max (Utils.lastIndexOf "." sliced) (Utils.lastIndexOf "!" sliced))
              (Utils.lastIndexOf "?" sliced) in
      let sliced' :=
        if Z.max 30 (maxLen / 2) <? lastPunct
        then Utils.sliceTo (lastPunct + 1) sliced else sliced in
      Utils.trim sliced'.

(** [sanitizePostTitle].  The code replaces the matches of
    [new RegExp (company.name, 'ig')] and of [new RegExp (phrase, 'ig')]:
    the model covers the names and phrases that such a pattern matches
    literally, those without a character that is special in a regular
    expression ([.], [+], [*], [?], brackets and the like), for which the
    replacement is that of every occurrence, whatever the case. *)
Definition sanitizePostTitle (title : string) (company : Company)
    (preferences : option GenerationPreferences) : string :=
  let next0 := Utils.trim title in
  let next1 := if String.eqb next0 "" then "Thoughts on this?" else next0 in
  let next2 :=
    if mentions company next1
    then Utils.replaceAllCI (company_name company) "this tool" next1 else next1 in
  match pref bannedPhrases preferences with
  | Some phrases =>
      foldl (fun next phrase => Utils.trim (Utils.replaceAllCI phrase "" next))
            next2 phrases
  | None => next2
  end.

(** [sanitizePostBody].  The rewrite that it takes from the backend is
    read with [variationOf]: a string, or nothing when [variation] is
    absent or falsy (see [Payload] for the answers covered). *)
Definition sanitizePostBody (body : string) (company : Company)
    (preferences : option GenerationPreferences) (keywords : list string)
    : Eff string :=
  let next := Utils.trim body in
  let lower := Utils.toLowerCase next in
  let tooShort :=
    match truthyZ (pref minPostLength preferences) with
    | Some m => len next <? m
    | None => false
    end in
  let tooLong :=
    match truthyZ (pref maxPostLength preferences) with
    | Some m => m <? len next
    | None => false
    end in
  let hasCompany := Utils.includes (Utils.toLowerCase (company_name company)) lower in
  let hasBanned :=
    match pref bannedPhrases preferences with
    | Some phrases =>
        existsb (fun phrase => Utils.includes (Utils.toLowerCase phrase) lower) phrases
    | None => false
    end in
  let* mock := isMockMode in
  if mock then ret next
  else
    let missingKeyword :=
      match keywords with
      | [] => false
      | _ => negb (existsb (fun kw => Utils.includes (Utils.toLowerCase kw) lower)
                     keywords)
      end in
    let* next1 :=
      if tooShort || tooLong || hasCompany || hasBanned || missingKeyword then
        let* result := generateWithAI in
        ret (default next (variationOf result))
      else ret next in
    let* next2 :=
      if mentions company next1 then
        let* revised := removeCompanyMention in
        ret (default next1 revised)
      else ret next1 in
    ret (match truthyZ (pref maxPostLength preferences) with
         | Some m => if m <? len next2 then clampToLength next2 m else next2
         | None => next2
         end).

(** [slot.keywords[0]?.keyword || fallback] *)
Definition firstKeywordOr (slot : AssignedSlot) (fallback : string) : string :=
  match ms_keywords (as_slot slot) with
  | k :: _ => if String.eqb (keyword k) "" then fallback else keyword k
  | [] => fallback
  end.

Definition mockTitles (slot : AssignedSlot) : list string :=
  match ms_threadType (as_slot slot) with
  | question =>
      [ "Best " +:+ firstKeywordOr slot "tool" +:+ " for "
          +:+ Utils.replaceFirst "r/" "" (subreddit_name (ms_subreddit (as_slot slot)))
          +:+ "?";
        "What's everyone using for " +:+ firstKeywordOr slot "this" +:+ "?";
        "Looking for recommendations - " +:+ firstKeywordOr slot "help needed" ]
  | advice =>
      [ "Need help with " +:+ firstKeywordOr slot "something";
        "Tips for " +:+ firstKeywordOr slot "improving workflow" +:+ "?";
        "How do you handle " +:+ firstKeywordOr slot "this challenge" +:+ "?" ]
  | story =>
      [ "Just discovered " +:+ firstKeywordOr slot "something cool";
        "Finally figured out " +:+ firstKeywordOr slot "a solution";
        "My experience with " +:+ firstKeywordOr slot "this approach" ]
  | discussion =>
      [ "What do you think about " +:+ firstKeywordOr slot "this topic" +:+ "?";
        firstKeywordOr slot "This topic" +:+ " - thoughts?";
        "Anyone else noticed " +:+ firstKeywordOr slot "this trend" +:+ "?" ]
  end.

Definition mockBodies : list string :=
  [ "Been looking into this for a while and curious what others think. Any recommendations?";
    "Title says it all. Would love to hear your experiences.";
    "I've tried a few things but nothing quite fits. What's worked for you?" ].

(** [options[Math.floor (Math.random () * options.length)]] *)
Definition pickFrom (options : list string) : Eff string :=
  let* k := randomBelow (Z.of_nat (length options)) in
  ret (default "" (options !! Z.to_nat k)).

Definition generateMockPost (slot : AssignedSlot) : Eff (string * string) :=
  let* t := pickFrom (mockTitles slot) in
  let* b := pickFrom mockBodies in
  ret (t, b).

Definition expertResponses : list string :=
  [ "I've been using Slideforge for this - it handles the layout automatically so you can focus on content.";
    "Tried a few options. Slideforge was the one that actually saved me time.";
    "Yeah, this is a common issue. I'd recommend looking into tools that automate the formatting part." ].

Definition casualResponses : list string :=
  [ "+1, interested in this too";
    "Same boat here. Following for recommendations.";
    "I've heard good things about a few tools, curious what others suggest." ].

Definition generateMockComment (persona : Persona) (isFirst : bool) : Eff string :=
  pickFrom (match postingStyle persona with
            | gives_answers => expertResponses
            | _ => casualResponses
            end).

Definition generatePost (slot : AssignedSlot) (company : Company) (weekNumber : Z)
    (preferences : option GenerationPreferences) : Eff Post :=
  let* mock := isMockMode in
  let* '(contentTitle, contentBody) :=
    if mock then
      let* m := generateMockPost slot in
      generateWithAIMock m
    else
      let* result := generateWithAI in
      match gr_success result, gr_data result with
      | true, Some {| p_title := Some t; p_body := Some b |} => ret (t, b)
      | _, _ =>
          throw ("AI post generation failed for "
                 +:+ subreddit_name (ms_subreddit (as_slot slot)) +:+ ": "
                 +:+ errorText result)
      end in
  let* sanitizedBody :=
    sanitizePostBody contentBody company preferences
      (keyword <$> ms_keywords (as_slot slot)) in
  let* id := generatePostId in
  ret {| post_id := id;
         post_companyId := company_id company;
         post_weekNumber := weekNumber;
         subredditId := subreddit_id (ms_subreddit (as_slot slot));
         subredditName := subreddit_name (ms_subreddit (as_slot slot));
         post_personaId := persona_id (opPersona slot);
         post_personaUsername := persona_username (opPersona slot);
         title := sanitizePostTitle contentTitle company preferences;
         body := sanitizedBody;
         post_scheduledAt := slot_date (as_slot slot);
         keywordIds := keyword_id <$> ms_keywords (as_slot slot);
         post_threadType := ms_threadType (as_slot slot);
         post_status := draft |}.

Definition shouldMentionProduct (commenters : list Persona) : Eff bool :=
  let* r := random in
  if Qltb (3 # 10) r then ret false
  else ret (existsb (fun p => match postingStyle p with
                              | gives_answers => true
                              | _ => false
                              end) commenters).

Definition shouldForceProductMention (post : Post) : bool :=
  let text := Utils.toLowerCase (title post +:+ " " +:+ body post) in
  existsb (fun t => Utils.includes t text)
    ["recommend"; "tool"; "software"; "presentation"; "slides"; "deck"; "ai";
     "template"].

(** The loop that draws the indices of the replies that may mention the
    product; [indices] is the set drawn so far, in insertion order. *)
Fixpoint drawMentionIndices (fuel : nat) (maxMentionCount : Z) (n : Z)
    (indices : list Z) : Eff (list Z) :=
  if maxMentionCount <=? Z.of_nat (length indices) then ret indices
  else
    match fuel with
    | O => diverge
    | S fuel' =>
        let* k := randomBelow n in
        drawMentionIndices fuel' maxMentionCount n
          (if bool_decide (k ∈ indices) then indices else indices ++ [k])
    end.

Definition isCommentLowQuality (text : string) (company : Company)
    (preferences : option GenerationPreferences) (allowProductMention : bool)
    : bool :=
  let trimmed := Utils.trim text in
  match truthyZ (pref minCommentLength preferences) with
  | Some m => len trimmed <? m
  | None => false
  end
  || match truthyZ (pref maxCommentLength preferences) with
     | Some m => m <? len trimmed
     | None => false
     end
  || match pref bannedPhrases preferences with
     | Some phrases =>
         existsb (fun phrase =>
                    Utils.includes (Utils.toLowerCase phrase)
                      (Utils.toLowerCase trimmed)) phrases
     | None => false
     end
  || (negb allowProductMention && mentions company trimmed).

Definition similarToSome (previous : list Comment) (text : string) : bool :=
  existsb (fun prev => Qltb (1 # 2) (Utils.calculateSimilarity (content prev) text))
    previous.

(** The mock branch of the loop body: up to five redraws while the text
    was used in this thread already. *)
Fixpoint redrawMock (attempts : nat) (persona : Persona) (isFirst : bool)
    (used : gset string) (mock : string) : Eff string :=
  match attempts with
  | O => ret mock
  | S attempts' =>
      if bool_decide (mock ∈ used) then
        let* mock' := generateMockComment persona isFirst in
        redrawMock attempts' persona isFirst used mock'
      else ret mock
  end.

(** The rewrites a live reply goes through before it is finalised. *)
Definition reviseLiveComment (i : nat) (previous : list Comment)
    (company : Company) (preferences : option GenerationPreferences)
    (mentionIndices : list Z) (mentionProductIndex : Z) (text : string)
    : Eff string :=
  let targeted :=
    bool_decide (Z.of_nat i ∈ mentionIndices) || (Z.of_nat i =? mentionProductIndex) in
  let* t1 :=
    if similarToSome previous text then
      let* revised := regenerateComment in ret (default text revised)
    else ret text in
  let* t2 :=
    if similarToSome previous t1 then
      let* forced := regenerateComment in ret (default t1 forced)
    else ret t1 in
  let* t3 :=
    if isCommentLowQuality t2 company preferences targeted then
      let* revised := regenerateComment in ret (default t2 revised)
    else ret t2 in
  let allowProduct :=
    match pref allowProductMention preferences with
    | Some false => false
    | _ => true
    end in
  let* t4 :=
    if negb allowProduct && mentions company t3 && negb targeted then
      let* revised := removeCompanyMention in ret (default t3 revised)
    else ret t3 in
  let tooShort :=
    match truthyZ (pref minCommentLength preferences) with
    | Some m => len (Utils.trim t4) <? m
    | None => false
    end in
  let tooLong :=
    match truthyZ (pref maxCommentLength preferences) with
    | Some m => m <? len (Utils.trim t4)
    | None => false
    end in
  if tooShort || tooLong || similarToSome previous t4 then
    let* revised := regenerateComment in ret (default t4 revised)
  else ret t4.

Definition msPerMinute : Z := 60000.

(** The loop over [slot.commenterPersonas] of [generateComments]; [i] is
    the index of the first persona of [personas]. *)
Fixpoint commentLoop (personas : list Persona) (i : nat) (post : Post)
    (company : Company) (preferences : option GenerationPreferences)
    (effectiveConstraints : PlannerConstraints)
    (mentionIndices : list Z) (mentionProductIndex : Z)
    (comments : list Comment) (usedMockComments : gset string)
    (lastTimestamp : Z) : Eff (list Comment * Z) :=
  match personas with
  | [] => ret (comments, lastTimestamp)
  | persona :: rest =>
      let* delay := generateCommentDelay i false effectiveConstraints in
      let commentTime := lastTimestamp + delay * msPerMinute in
      let* mock := isMockMode in
      let* '(text, used') :=
        if mock then
          let* m0 := generateMockComment persona (Nat.eqb i 0) in
          let* m := redrawMock 5 persona (Nat.eqb i 0) usedMockComments m0 in
          let* m' := generateWithAIMock m in
          ret (m', usedMockComments ∪ {[m]})
        else
          let* result := generateWithAI in
          match gr_success result, gr_data result with
          | true, Some {| p_text := Some t |} =>
              let* t' :=
                reviseLiveComment i comments company preferences
                  mentionIndices mentionProductIndex t in
              ret (t', usedMockComments)
          | _, _ =>
              throw ("AI comment generation failed for "
                     +:+ persona_username persona +:+ ": " +:+ errorText result)
          end in
      let finalText :=
        match truthyZ (pref maxCommentLength preferences) with
        | Some m => if m <? len text then clampToLength text m else text
        | None => text
        end in
      let* id := generateCommentId in
      let comment :=
        {| comment_id := id;
           postId := post_id post;
           parentCommentId :=
             match i with
             | O => None
             | S j =>
                 match comments !! j with
                 | Some c => if String.eqb (comment_id c) "" then None
                             else Some (comment_id c)
                 | None => None
                 end
             end;
           comment_personaId := persona_id persona;
           comment_personaUsername := persona_username persona;
           content := finalText;
           comment_scheduledAt := commentTime;
           delayMinutes := delay;
           comment_status := draft |} in
      commentLoop rest (S i) post company preferences effectiveConstraints
        mentionIndices mentionProductIndex (comments ++ [comment]) used' commentTime
  end.

Definition opFollowUpText : string :=
  "Thanks everyone, this is really helpful! I'll definitely check these out.".

Definition generateOPFollowUp (post : Post) (comments : list Comment)
    (slot : AssignedSlot) (company : Company) (lastTimestamp : Z)
    (constraints : option PlannerConstraints) : Eff Comment :=
  let effectiveConstraints := default DEFAULT_CONSTRAINTS constraints in
  let* delay := generateCommentDelay 0 true effectiveConstraints in
  let commentTime := lastTimestamp + delay * msPerMinute in
  let* mock := isMockMode in
  let* text :=
    if mock then generateWithAIMock opFollowUpText
    else
      let* result := generateWithAI in
      match gr_success result, gr_data result with
      | true, Some {| p_text := Some t |} => ret t
      | _, _ =>
          throw ("AI OP follow-up failed for "
                 +:+ subreddit_name (ms_subreddit (as_slot slot)) +:+ ": "
                 +:+ errorText result)
      end in
  let* finalText :=
    if negb mock && mentions company text then
      let* revised := removeCompanyMention in ret (default text revised)
    else ret text in
  let* id := generateCommentId in
  ret {| comment_id := id;
         postId := post_id post;
         parentCommentId :=
           match last comments with
           | Some c => if String.eqb (comment_id c) "" then None
                       else Some (comment_id c)
           | None => None
           end;
         comment_personaId := persona_id (opPersona slot);
         comment_personaUsername := persona_username (opPersona slot);
         content := finalText;
         comment_scheduledAt := commentTime;
         delayMinutes := delay;
         comment_status := draft |}.

Definition setContent (c : Comment) (text : string) : Comment :=
  {| comment_id := comment_id c; postId := postId c;
     parentCommentId := parentCommentId c;
     comment_personaId := comment_personaId c;
     comment_personaUsername := comment_personaUsername c;
     content := text;
     comment_scheduledAt := comment_scheduledAt c;
     delayMinutes := delayMinutes c;
     comment_status := comment_status c |}.

(** [comments.findIndex (c => c.personaId === id)] *)
Fixpoint findIndexByPersona (id : string) (comments : list Comment) (i : nat)
    : option nat :=
  match comments with
  | [] => None
  | c :: rest =>
      if String.eqb (comment_personaId c) id then Some i
      else findIndexByPersona id rest (S i)
  end.

(** The reconciliation pass: one forced regeneration per missing mention.
    Building the prompt of a persona that does not exist is a TypeError. *)
Fixpoint forceMentions (targets : list Z) (commenters : list Persona)
    (comments : list Comment) : Eff (list Comment) :=
  match targets with
  | [] => ret comments
  | idx :: rest =>
      let at_ := Z.min idx (Z.of_nat (length commenters) - 1) in
      match (if at_ <? 0 then None else commenters !! Z.to_nat at_) with
      | None =>
          throw "TypeError: Cannot read properties of undefined (reading 'username')"
      | Some persona =>
          let* result := generateWithAI in
          let forced :=
            if gr_success result then
              match gr_data result with
              | Some d =>
                  match p_text d with
                  | Some t => if String.eqb t "" then None else Some t
                  | None => None
                  end
              | None => None
              end
            else None in
          let comments' :=
            match forced, findIndexByPersona (persona_id persona) comments 0 with
            | Some t, Some targetIndex =>
                match comments !! targetIndex with
                | Some c => <[targetIndex := setContent c t]> comments
                | None => comments
                end
            | _, _ => comments
            end in
          forceMentions rest commenters comments'
      end
  end.

Definition generateComments (fuel : nat) (post : Post) (slot : AssignedSlot)
    (company : Company) (preferences : option GenerationPreferences)
    (constraints : option PlannerConstraints)
    (riskTolerance : option RiskTolerance) : Eff (list Comment) :=
  let effectiveConstraints := default DEFAULT_CONSTRAINTS constraints in
  let commenters := commenterPersonas slot in
  let n := Z.of_nat (length commenters) in
  let subredditAllowsPromo :=
    match subreddit_rules (ms_subreddit (as_slot slot)) with
    | Some rules =>
        match allowsSelfPromotion rules with
        | Some false => false
        | _ => true
        end
    | None => true
    end in
  let allowProduct :=
    match pref allowProductMention preferences with
    | Some false => false
    | _ => true
    end
    && match riskTolerance with
       | Some risk_low => false
       | _ => true
       end
    && subredditAllowsPromo in
  let mentionTargetCount :=
    if allowProduct
    then Z.max 0 (default 0 (pref productMentionCount preferences)) else 0 in
  let maxMentionCount := Z.min mentionTargetCount n in
  let* mentionIndices :=
    if allowProduct && (0 <? maxMentionCount)
    then drawMentionIndices fuel maxMentionCount n [] else ret [] in
  let forceProduct :=
    allowProduct && (maxMentionCount =? 0) && shouldForceProductMention post in
  let* mentionProductIndex :=
    if allowProduct && (maxMentionCount =? 0) then
      if forceProduct then ret 0
      else
        let* should := shouldMentionProduct commenters in
        if should then randomBelow n else ret (-1)
    else ret (-1) in
  let* _disagreementIndex :=
    match pref requireDisagreement preferences with
    | Some true => if 1 <? n then randomBelow n else ret (-1)
    | _ => ret (-1)
    end in
  let* '(comments, lastTimestamp) :=
    commentLoop commenters 0 post company preferences effectiveConstraints
      mentionIndices mentionProductIndex [] ∅ (post_scheduledAt post) in
  let* r := random in
  let* comments1 :=
    if Qltb (1 # 2) r && (0 <? length comments)%nat then
      let* opFollowUp :=
        generateOPFollowUp post comments slot company lastTimestamp constraints in
      ret (comments ++ [opFollowUp])
    else ret comments in
  if allowProduct && ((0 <? maxMentionCount) || (0 <=? mentionProductIndex)) then
    let mentionNeeded := if 0 <? maxMentionCount then maxMentionCount else 1 in
    let mentionCount :=
      Z.of_nat (length (filter (fun c => mentions company (content c) = true)
                          comments1)) in
    let missingCount := Z.max 0 (mentionNeeded - mentionCount) in
    if 0 <? missingCount then
      let targets :=
        if 0 <? maxMentionCount then mentionIndices
        else filter (fun idx => 0 <= idx) [mentionProductIndex] in
      forceMentions (take (Z.to_nat missingCount) targets) commenters comments1
    else ret comments1
  else ret comments1.

Definition generateThread (fuel : nat) (slot : AssignedSlot) (company : Company)
    (weekNumber : Z) (preferences : option GenerationPreferences)
    (constraints : option PlannerConstraints)
    (riskTolerance : option RiskTolerance) : Eff Thread :=
  let* post := generatePost slot company weekNumber preferences in
  let* comments :=
    generateComments fuel post slot company preferences constraints riskTolerance in
  ret {| post := post; comments := comments; slot := slot |}.

Definition regenerateThread := generateThread.

(** The loop of [generateThreads]: a slot whose generation throws adds
    one entry to [errors] and the loop goes on with the next slot. *)
Fixpoint threadLoop (fuel : nat) (config : ThreadGeneratorConfig)
    (slots : list AssignedSlot) (threads : list Thread) (errors : list string)
    (totalComments : nat) : Eff ThreadGeneratorResult :=
  match slots with
  | [] =>
      ret {| threads := threads; totalPosts := length threads;
             totalComments := totalComments; errors := errors |}
  | slot :: rest =>
      let* '(threads', errors', total') :=
        try_catch
          (let* thread :=
             generateThread fuel slot (cfg_company config) (cfg_weekNumber config)
               (cfg_preferences config)
               (Some (default DEFAULT_CONSTRAINTS (cfg_constraints config)))
               (cfg_riskTolerance config) in
           ret (threads ++ [thread], errors,
                (totalComments + length (comments thread))%nat))
          (fun errorMsg =>
             ret (threads,
                  errors ++ ["Failed to generate thread for "
                             +:+ subreddit_name (ms_subreddit (as_slot slot))
                             +:+ ": " +:+ errorMsg],
                  totalComments)) in
      threadLoop fuel config rest threads' errors' total'
  end.

(** [generateThreads]; the elapsed time of the metadata is not kept. *)
Definition generateThreads (fuel : nat) (config : ThreadGeneratorConfig)
    : Eff ThreadGeneratorResult :=
  threadLoop fuel config (cfg_slots config) [] [] 0.

End ThreadGenerator.

(** ** lib/planner/index: the orchestrator *)
Module Planner.
Import Constraints.

Record PlannerInput := {
  company : Company;
  personas : list Persona;
  subreddits : list Subreddit;
  keywords : list Keyword;
  postsPerWeek : Z;
  weekStartDate : option Z;     (* [None]: not a Date, or an invalid one *)
  weekNumber : option Z;
  previousWeeks : list (list string);
  preferences : option GenerationPreferences;
  constraints : option PlannerConstraints;
  riskTolerance : option RiskTolerance;
}.

Definition applyRiskTolerance (constraints : PlannerConstraints)
    (riskTolerance : option RiskTolerance) : PlannerConstraints :=
  let adjusted (posts promo comments : Z) : PlannerConstraints :=
    {| maxPostsPerSubredditPerWeek := posts;
       minDaysBetweenSubredditPosts := minDaysBetweenSubredditPosts constraints;
       maxPostsPerPersonaPerWeek := maxPostsPerPersonaPerWeek constraints;
       maxCommentsPerPersonaPerWeek := comments;
       minHoursBetweenSamePersonaPosts := minHoursBetweenSamePersonaPosts constraints;
       maxPersonasPerThread := maxPersonasPerThread constraints;
       noRepeatedPairingsPerWeek := noRepeatedPairingsPerWeek constraints;
       noBackToBackComments := noBackToBackComments constraints;
       minDelayAfterPostMinutes := minDelayAfterPostMinutes constraints;
       maxDelayAfterPostMinutes := maxDelayAfterPostMinutes constraints;
       commentSpacingMinutes := commentSpacingMinutes constraints;
       opFollowUpDelayMinutes := opFollowUpDelayMinutes constraints;
       maxPromoScoreAllowed := promo;
       minQualityScoreRequired := minQualityScoreRequired constraints |} in
  match riskTolerance with
  | None | Some risk_medium => constraints
  | Some risk_low =>
      adjusted (Z.max 1 (maxPostsPerSubredditPerWeek constraints - 1))
               (Z.max 2 (maxPromoScoreAllowed constraints - 1))
               (Z.max 1 (maxCommentsPerPersonaPerWeek constraints - 1))
  | Some risk_high =>
      adjusted (maxPostsPerSubredditPerWeek constraints + 1)
               (maxPromoScoreAllowed constraints + 1)
               (maxCommentsPerPersonaPerWeek constraints + 1)
  end.

Definition capacityError (input : PlannerInput) (constraints : PlannerConstraints)
    : string :=
  "Cannot schedule " +:+ pretty (postsPerWeek input) +:+ " posts with only "
  +:+ pretty (length (subreddits input)) +:+ " subreddits (max "
  +:+ pretty (maxPostsPerSubredditPerWeek constraints) +:+ " per subreddit)".

(** The [errors] array that [validateInput] fills. *)
Definition validationErrors (input : PlannerInput) (constraints : PlannerConstraints)
    : list string :=
  (if String.eqb (company_id (company input)) ""
      || String.eqb (company_name (company input)) ""
   then ["Company must have id and name"] else [])
  ++ (if (length (personas input) <? 2)%nat
      then ["At least 2 personas are required"] else [])
  ++ omap (fun persona =>
             if String.eqb (persona_id persona) ""
                || String.eqb (persona_username persona) ""
                || String.eqb (persona_bio persona) ""
             then Some ("Persona "
                        +:+ (if String.eqb (persona_username persona) ""
                             then "unknown" else persona_username persona)
                        +:+ " missing required fields")
             else None) (personas input)
  ++ (if (length (subreddits input) =? 0)%nat
      then ["At least 1 subreddit is required"] else [])
  ++ (if (length (keywords input) =? 0)%nat
      then ["At least 1 keyword is required"] else [])
  ++ (if postsPerWeek input <? 1
      then ["Posts per week must be at least 1"] else [])
  ++ (if Z.of_nat (length (subreddits input))
         * maxPostsPerSubredditPerWeek constraints <? postsPerWeek input
      then [capacityError input constraints] else [])
  ++ (match weekStartDate input with
      | None => ["Invalid week start date"]
      | Some _ => []
      end).

(** The message of the single [Error] thrown for a non-empty [errors]. *)
Definition validationMessage (errors : list string) : string :=
  "Invalid planner input:" +:+ String "010" ""
  +:+ joinWith (String "010" "") ((fun e => "  - " +:+ e) <$> errors).

Definition validateInput (input : PlannerInput) (constraints : PlannerConstraints)
    : Eff unit :=
  match validationErrors input constraints with
  | [] => ret tt
  | errors => throw (validationMessage errors)
  end.

Section Orchestrator.
(** What [generateWeeklyCalendar] does with a validated input: the week
    number, phases 1 to 5 (slot allocation, subreddit matching, persona
    assignment, thread generation, quality check), auto-repair, thread
    scoring and the assembly of the output. *)
Context {PlannerOutput : Type}.
Variable runPhases : PlannerInput -> PlannerConstraints -> Eff PlannerOutput.

(** The entry that [generateWeeklyCalendar] logs first. *)
Definition startedMeta (input : PlannerInput) : list (string * LogValue) :=
  [ ("company", LogText (company_name (company input)));
    ("postsPerWeek", LogNumber (postsPerWeek input));
    ("subreddits", LogNumber (Z.of_nat (length (subreddits input))));
    ("personas", LogNumber (Z.of_nat (length (personas input))));
    ("keywords", LogNumber (Z.of_nat (length (keywords input)))) ].

(** What [debug] prints on the console is not kept. *)
Definition generateWeeklyCalendar (input : PlannerInput) : Eff PlannerOutput :=
  let* _ := addLog log_info "Starting calendar generation" (startedMeta input) in
  let baseConstraints := default DEFAULT_CONSTRAINTS (constraints input) in
  let constraints := applyRiskTolerance baseConstraints (riskTolerance input) in
  let* _ := validateInput input constraints in
  runPhases input constraints.
End Orchestrator.

End Planner.

(** * Reference definitions used by the statements *)

#[global] Instance IssueSeverity_eq_dec : EqDecision IssueSeverity.
Proof. solve_decision. Defined.

Definition countSeverity (s : IssueSeverity) (issues : list QualityIssue) : Z :=
  Z.of_nat (length (filter (fun i => severity i = s) issues)).

Definition clamp0_10 (x : Q) : Q := Qmax 0 (Qmin 10 x).

Definition roundOneDecimal (x : Q) : Q := (inject_Z (mathRound (x * 10)) / 10)%Q.

(** The batch score as the specification words it: start at 10, subtract
    2, 1 and 0.5 per high, medium and low issue and 0.3 per warning, add 0.5
    for a batch of three or more threads, clamp to [0, 10], round to one
    decimal. *)
Definition specOverallScore (issues : list QualityIssue)
    (warnings : list WarningMessage) (threadCount : nat) : Q :=
  roundOneDecimal
    (clamp0_10
       (10 - 2 * inject_Z (countSeverity high issues)
           - 1 * inject_Z (countSeverity medium issues)
           - (1 # 2) * inject_Z (countSeverity low issues)
           - (3 # 10) * inject_Z (Z.of_nat (length warnings))
           + (if (3 <=? threadCount)%nat then 1 # 2 else 0))%Q).

(** The number of posts of a batch that target the subreddit [name]. *)
Definition postCount (name : string) (threads : list Thread) : Z :=
  Z.of_nat (length (filter (fun t => subredditName (post t) = name) threads)).

(** The step of the fold in [countBySubreddit]. *)
Definition tallyStep (acc : list (string * (Z * list string))) (thread : Thread) :=
  let subName := subredditName (post thread) in
  let '(count, postIds) := default (0, []) (assocGet subName acc) in
  assocSet subName (count + 1, postIds ++ [post_id (post thread)]) acc.

(** ** Reasoning about effectful code

    [returns I m P]: from every world that satisfies [I], the computation
    [m] ends normally (it neither throws nor diverges), in a world that
    satisfies [I] again, with a result that satisfies [P]. *)
Definition returns {A} (I : World -> Prop) (m : Eff A) (P : A -> Prop) : Prop :=
  forall w, I w -> exists a w', m w = (Ok a, w') /\ I w' /\ P a.

(** An invariant of the world that reading the oracles cannot break: it
    speaks of the streams and of the mock flag, not of the cursors. *)
Class Stable (I : World -> Prop) : Prop :=
  stable : forall w w',
    rng w' = rng w -> backend w' = backend w -> uuids w' = uuids w ->
    mockMode w' = mockMode w -> I w -> I w'.

Definition anyWorld : World -> Prop := fun _ => True.
Definition fairWorld : World -> Prop := fun w => rng_ok (rng w).
Definition mockWorld : World -> Prop := fun w => rng_ok (rng w) /\ mockMode w = true.
Definition liveWorld : World -> Prop := fun w => rng_ok (rng w) /\ mockMode w = false.

(** The number of matched slots that target the subreddit [id]. *)
Definition matchedCount (id : string) (slots : list MatchedSlot) : Z :=
  Z.of_nat (length (filter (fun s => subreddit_id (ms_subreddit s) = id) slots)).

(** Sufficient venue diversity, as [validateInput] demands it of a request:
    at least one post, and no more posts than the venues can take under the
    weekly cap. *)
Definition sufficientVenueDiversity (config : SubredditMatcher.SubredditMatcherConfig)
    : Prop :=
  let cap :=
    maxPostsPerSubredditPerWeek
      (default Constraints.DEFAULT_CONSTRAINTS
         (SubredditMatcher.cfg_constraints config)) in
  1 <= Z.of_nat (length (SubredditMatcher.cfg_slots config)) /\
  Z.of_nat (length (SubredditMatcher.cfg_slots config))
  <= Z.of_nat (length (SubredditMatcher.cfg_subreddits config)) * cap.

(** The posts that a usage map records for [id]. *)
Definition usagePosts (usage : gmap string Constraints.PostUsage) (id : string) : Z :=
  match usage !! id with
  | Some u => Constraints.pu_postsThisWeek u
  | None => 0
  end.

(** The invariant of the loop of [matchSubreddits]: the usage map counts
    the matched slots of each subreddit, no count exceeds the cap, and every
    matched subreddit is one of the input. *)
Definition MatcherInv (cap : Z) (subreddits : list Subreddit)
    (st : SubredditMatcher.LoopState) : Prop :=
  (forall id, matchedCount id (SubredditMatcher.matchedSlots st)
              = usagePosts (SubredditMatcher.subredditUsage st) id) /\
  (forall id, usagePosts (SubredditMatcher.subredditUsage st) id <= cap) /\
  (forall s, s ∈ SubredditMatcher.matchedSlots st -> ms_subreddit s ∈ subreddits).

(** The comments that a usage map records for the persona [id]. *)
Definition commentsOf (usage : gmap string PersonaAssigner.PersonaUsageTracker)
    (id : string) : Z :=
  match usage !! id with
  | Some t => PersonaAssigner.commentsThisWeek t
  | None => 0
  end.

(** How often the persona [id] occurs among [commenters]. *)
Definition occurrences (id : string) (commenters : list Persona) : Z :=
  Z.of_nat (length (filter (fun c => persona_id c = id) commenters)).

(** Every persona has a tracker. *)
Definition AssignerInv (personas : list Persona)
    (usage : gmap string PersonaAssigner.PersonaUsageTracker) : Prop :=
  forall p, p ∈ personas -> is_Some (usage !! persona_id p).

(** What holds of every assigned slot: the author is not a reactor, author
    and reactors are personas of the input, and the reactors are at most
    [maxPersonasPerThread - 1] when that bound is at least 1. *)
Definition SlotShape (cs : PlannerConstraints) (personas : list Persona)
    (s : AssignedSlot) : Prop :=
  (persona_id (opPersona s) ∉ persona_id <$> commenterPersonas s) /\
  opPersona s ∈ personas /\
  (forall c, c ∈ commenterPersonas s -> c ∈ personas) /\
  (2 <= maxPersonasPerThread cs ->
   Z.of_nat (length (commenterPersonas s)) <= maxPersonasPerThread cs - 1).

(** Some persona other than [op] is still under its weekly comment cap. *)
Definition someoneFree (cs : PlannerConstraints) (personas : list Persona)
    (usage : gmap string PersonaAssigner.PersonaUsageTracker) (op : Persona) : Prop :=
  exists p, p ∈ personas /\ persona_id p <> persona_id op /\
            PersonaAssigner.underCommentLimit usage cs p = true.

(** What one iteration of the loop of [assignPersonas] does to its state:
    it drops the slot, or it appends one assigned slot and records one
    comment per reactor. *)
Definition AssignStep (cs : PlannerConstraints) (personas : list Persona)
    (st st' : PersonaAssigner.LoopState) : Prop :=
  (PersonaAssigner.assignedSlots st' = PersonaAssigner.assignedSlots st /\
   forall id, commentsOf (PersonaAssigner.usage st') id
              = commentsOf (PersonaAssigner.usage st) id)
  \/
  (exists s,
      PersonaAssigner.assignedSlots st' = PersonaAssigner.assignedSlots st ++ [s] /\
      SlotShape cs personas s /\
      (forall id, commentsOf (PersonaAssigner.usage st') id
                  = commentsOf (PersonaAssigner.usage st) id
                    + occurrences id (commenterPersonas s)) /\
      (NoDup (persona_id <$> personas) ->
       NoDup (persona_id <$> commenterPersonas s)) /\
      (1 <= maxPersonasPerThread cs ->
       someoneFree cs personas (PersonaAssigner.usage st) (opPersona s) ->
       commenterPersonas s <> [])).

(** The configuration of a second run of the quality engine on the threads
    that a first run handed back. *)
Definition rerunConfig (config : QualityChecker.QualityCheckConfig)
    (first : QualityChecker.QualityCheckResult) : QualityChecker.QualityCheckConfig :=
  {| QualityChecker.cfg_threads := QualityChecker.validatedThreads first;
     QualityChecker.cfg_company := QualityChecker.cfg_company config;
     QualityChecker.cfg_subreddits := QualityChecker.cfg_subreddits config;
     QualityChecker.cfg_constraints := QualityChecker.cfg_constraints config;
     QualityChecker.cfg_allowProductMention :=
       QualityChecker.cfg_allowProductMention config |}.

(** Author and reactors of each assigned slot of a run, by id. *)
Definition assignmentIds (run : Res PersonaAssigner.PersonaAssignerResult * World)
    : option (list (string * list string)) :=
  match run with
  | (Ok result, _) =>
      Some ((fun s => (persona_id (opPersona s), persona_id <$> commenterPersonas s))
            <$> PersonaAssigner.slots result)
  | _ => None
  end.

(** The pairing keys of the slots of a run: per slot, (author, reactor) for
    each reactor, then (reactor, reactor) for each two reactors. *)
Definition pairingsOfRun (run : Res PersonaAssigner.PersonaAssignerResult * World)
    : option (list string) :=
  match run with
  | (Ok result, _) =>
      Some (concat ((fun s => PersonaAssigner.pairingKeys (opPersona s)
                                (commenterPersonas s))
                    <$> PersonaAssigner.slots result))
  | _ => None
  end.

(** The canned replies [generateMockComment] draws from for a persona. *)
Definition cannedFor (persona : Persona) : list string :=
  match postingStyle persona with
  | gives_answers => ThreadGenerator.expertResponses
  | _ => ThreadGenerator.casualResponses
  end.

(** The only step a mock reply goes through: the clamp to
    [maxCommentLength], when one is set. *)
Definition clampIfSet (preferences : option GenerationPreferences) (text : string)
    : string :=
  match ThreadGenerator.truthyZ
          (ThreadGenerator.pref maxCommentLength preferences) with
  | Some m =>
      if m <? ThreadGenerator.len text then ThreadGenerator.clampToLength text m
      else text
  | None => text
  end.

(** A reply of a mock run: written by [persona], with one of the canned
    texts of that persona, clamped at most. *)
Definition cannedReply (preferences : option GenerationPreferences)
    (persona : Persona) (c : Comment) : Prop :=
  comment_personaId c = persona_id persona /\
  exists m, m ∈ cannedFor persona /\ content c = clampIfSet preferences m.

(** A backend answer that [generatePost] cannot use: a failure, no data, or
    a title or body that is not a string. *)
Definition unparseablePost (result : GenerationResult) : Prop :=
  match gr_success result, gr_data result with
  | true, Some {| p_title := Some _; p_body := Some _ |} => False
  | _, _ => True
  end.

(** The world after one more answer of the backend was read. *)
Definition afterBackendCall (w : World) : World :=
  {| rng := rng w; rng_pos := rng_pos w;
     backend := backend w; backend_pos := S (backend_pos w);
     uuids := uuids w; uuid_pos := uuid_pos w;
     mockMode := mockMode w;
               logStore := logStore w |}.

(** The error [generatePost] throws, and the entry [generateThreads]
    records for it. *)
Definition postFailure (slot : AssignedSlot) (result : GenerationResult) : string :=
  "AI post generation failed for "
  +:+ subreddit_name (ms_subreddit (as_slot slot)) +:+ ": "
  +:+ ThreadGenerator.errorText result.

Definition recordedFailure (slot : AssignedSlot) (errorMsg : string) : string :=
  "Failed to generate thread for "
  +:+ subreddit_name (ms_subreddit (as_slot slot)) +:+ ": " +:+ errorMsg.

(** Titles of the posts, texts of the replies and recorded errors of a run
    of [generateThreads]. *)
Definition threadsSummary (run : Res ThreadGenerator.ThreadGeneratorResult * World)
    : option (list (string * list string) * list string) :=
  match run with
  | (Ok result, _) =>
      Some ((fun t => (title (post t), content <$> comments t))
              <$> ThreadGenerator.threads result,
            ThreadGenerator.errors result)
  | _ => None
  end.

(** ** Sample data *)
Module Sample.

Definition mkPersona (id : string) (style : PostingStyle) (expertise : list string)
    : Persona :=
  {| persona_id := id; persona_username := id +:+ "_user";
     persona_bio := "Bio of " +:+ id; persona_expertise := expertise;
     postingStyle := style |}.

Definition mkSubreddit (id name : string) : Subreddit :=
  {| subreddit_id := id; subreddit_name := name;
     subreddit_description := None; subreddit_rules := None;
     sensitivity := None |}.

Definition mkKeyword (id text : string) : Keyword :=
  {| keyword_id := id; keyword := text; category := None; priority := None |}.

Definition day : Z := 86400000.

Definition mkMatched (date : Z) (sub : Subreddit) (tt : ThreadType) : MatchedSlot :=
  {| ms_slot := {| ts_date := date; ts_dayOfWeek := 1; ts_timeOfDay := afternoon |};
     ms_subreddit := sub; ms_keywords := []; ms_threadType := tt |}.

Definition slideforge : Company :=
  {| company_id := "c1"; company_name := "Slideforge";
     company_description := "AI-powered presentation tool" |}.

Definition consulting : Subreddit := mkSubreddit "sub-consulting" "r/consulting".

Definition alice : Persona := mkPersona "p-alice" asks_questions ["ops"].
Definition bob : Persona := mkPersona "p-bob" gives_answers ["ops"].
Definition carol : Persona := mkPersona "p-carol" gives_answers ["ops"].
Definition dave : Persona := mkPersona "p-dave" asks_questions ["ops"].

Definition mkPost (id : string) (sub : Subreddit) (author : Persona)
    (title body : string) (date : Z) : Post :=
  {| post_id := id; post_companyId := "c1"; post_weekNumber := 1;
     subredditId := subreddit_id sub; subredditName := subreddit_name sub;
     post_personaId := persona_id author;
     post_personaUsername := persona_username author;
     title := title; body := body; post_scheduledAt := date;
     keywordIds := []; post_threadType := discussion; post_status := draft |}.

Definition mkThread (p : Post) (sub : Subreddit) (author : Persona) : Thread :=
  {| post := p; comments := [];
     slot := {| as_slot := mkMatched (post_scheduledAt p) sub discussion;
                opPersona := author; commenterPersonas := [] |} |}.

(** Two posts of one week in r/consulting, whose preset caps the week at
    one post. *)
Definition consultingThreads : list Thread :=
  [ mkThread (mkPost "post_1" consulting alice "Pricing a first engagement"
                "How do you scope the discovery phase for a new client?" 0)
             consulting alice;
    mkThread (mkPost "post_2" consulting bob "Retainers or fixed fees"
                "What worked better for you over several years of practice?" (4 * day))
             consulting bob ].

(** One venue, five posts a week, the default cap of two posts per
    venue. *)
Definition overCapacityInput : Planner.PlannerInput :=
  {| Planner.company := slideforge;
     Planner.personas := [alice; bob];
     Planner.subreddits := [consulting];
     Planner.keywords := [mkKeyword "k1" "pitch deck generator"];
     Planner.postsPerWeek := 5;
     Planner.weekStartDate := Some 0;
     Planner.weekNumber := Some 1;
     Planner.previousWeeks := [];
     Planner.preferences := None;
     Planner.constraints := None;
     Planner.riskTolerance := None |}.

Definition zeroWorld : World :=
  {| rng := fun _ => 0%Q; rng_pos := 0;
     backend := fun _ => {| gr_success := false; gr_data := None;
                            gr_error := Some "backend unavailable" |};
     backend_pos := 0;
     uuids := fun _ => "00000000-0000-4000-8000-000000000000"; uuid_pos := 0;
     mockMode := false; logStore := [] |}.

(** A world whose [Math.random ()] returns the values of [l] in turn, then
    zeros; the backend is down. *)
Definition worldOf (l : list Q) (mock : bool) : World :=
  {| rng := fun n => nth n l 0%Q; rng_pos := 0;
     backend := fun _ => {| gr_success := false; gr_data := None;
                            gr_error := Some "backend unavailable" |};
     backend_pos := 0;
     uuids := fun _ => "00000000-0000-4000-8000-000000000000"; uuid_pos := 0;
     mockMode := mock; logStore := [] |}.

Definition erin : Persona := mkPersona "p-erin" asks_questions ["ops"].
Definition frank : Persona := mkPersona "p-frank" asks_questions ["ops"].
Definition grace : Persona := mkPersona "p-grace" asks_questions ["ops"].
Definition test1 : Subreddit := mkSubreddit "sub-1" "r/test1".
Definition test2 : Subreddit := mkSubreddit "sub-2" "r/test2".

(** Seven personas, two slots two days apart, the default constraints. *)
Definition pairingConfig : PersonaAssigner.PersonaAssignerConfig :=
  {| PersonaAssigner.cfg_slots :=
       [mkMatched 0 test1 discussion; mkMatched (2 * day) test2 discussion];
     PersonaAssigner.cfg_personas := [alice; bob; carol; dave; erin; frank; grace];
     PersonaAssigner.cfg_constraints := None |}.

(** The draws of [Math.random ()] of the run on [pairingConfig]: per slot,
    one per persona for the author, one for the number of reactors, one per
    candidate reactor. *)
Definition pairingDraws : list Q :=
  [ 9 # 10; 0; 0; 0; 0; 0; 0;   1 # 2;   0; 0; 0; 0; 0; 0;
    0; 0; 0; 9 # 10; 0; 0; 0;   1 # 2;   0; 9 # 10; 8 # 10; 0; 0; 0 ]%Q.

(** The default constraints with a weekly cap of one comment per persona. *)
Definition oneCommentConstraints : PlannerConstraints :=
  {| maxPostsPerSubredditPerWeek := 2;
     minDaysBetweenSubredditPosts := 3;
     maxPostsPerPersonaPerWeek := 2;
     maxCommentsPerPersonaPerWeek := 1;
     minHoursBetweenSamePersonaPosts := 24;
     maxPersonasPerThread := 3;
     noRepeatedPairingsPerWeek := true;
     noBackToBackComments := true;
     minDelayAfterPostMinutes := 15;
     maxDelayAfterPostMinutes := 180;
     commentSpacingMinutes := (10, 60);
     opFollowUpDelayMinutes := (30, 180);
     maxPromoScoreAllowed := 6;
     minQualityScoreRequired := 6 |}.

(** Two personas, three slots two days apart, one comment a week each. *)
Definition cappedConfig : PersonaAssigner.PersonaAssignerConfig :=
  {| PersonaAssigner.cfg_slots :=
       [ mkMatched 0 test1 discussion; mkMatched (2 * day) test2 discussion;
         mkMatched (4 * day) test1 discussion ];
     PersonaAssigner.cfg_personas := [alice; bob];
     PersonaAssigner.cfg_constraints := Some oneCommentConstraints |}.

(** Two personas, two slots, the default constraints. *)
Definition smallConfig : PersonaAssigner.PersonaAssignerConfig :=
  {| PersonaAssigner.cfg_slots :=
       [mkMatched 0 test1 discussion; mkMatched (2 * day) test2 discussion];
     PersonaAssigner.cfg_personas := [alice; bob];
     PersonaAssigner.cfg_constraints := None |}.

Definition mkTime (date : Z) : TimeSlot :=
  {| ts_date := date; ts_dayOfWeek := 1; ts_timeOfDay := afternoon |}.

(** Two venues, three slots, the default cap of two posts per venue. *)
Definition matcherConfig : SubredditMatcher.SubredditMatcherConfig :=
  {| SubredditMatcher.cfg_slots := [mkTime 0; mkTime (2 * day); mkTime (4 * day)];
     SubredditMatcher.cfg_subreddits := [test1; test2];
     SubredditMatcher.cfg_keywords :=
       [mkKeyword "kw-1" "test keyword 1"; mkKeyword "kw-2" "test keyword 2"];
     SubredditMatcher.cfg_previousWeeks := [];
     SubredditMatcher.cfg_constraints := None |}.

Definition mkAssigned (date : Z) (sub : Subreddit) (author : Persona)
    (reactors : list Persona) : AssignedSlot :=
  {| as_slot := mkMatched date sub discussion; opPersona := author;
     commenterPersonas := reactors |}.

Definition generatorConfig (slots : list AssignedSlot)
    : ThreadGenerator.ThreadGeneratorConfig :=
  {| ThreadGenerator.cfg_slots := slots;
     ThreadGenerator.cfg_company := slideforge;
     ThreadGenerator.cfg_weekNumber := 1;
     ThreadGenerator.cfg_preferences := None;
     ThreadGenerator.cfg_constraints := None;
     ThreadGenerator.cfg_riskTolerance := None |}.

Definition unavailable : GenerationResult :=
  {| gr_success := false; gr_data := None; gr_error := Some "backend unavailable" |}.

Definition answer (title body text : option string) : GenerationResult :=
  {| gr_success := true;
     gr_data := Some {| p_title := title; p_body := body; p_text := text;
                        p_variation := None |};
     gr_error := None |}.

(** A live backend that fails on its first call, then answers the post and
    the reply of the next slot. *)
Definition flakyWorld : World :=
  {| rng := fun _ => 0%Q; rng_pos := 0;
     backend := fun n =>
       match n with
       | 0%nat => unavailable
       | 1%nat => answer (Some "Weekly check in") (Some "How is everyone doing?") None
       | 2%nat => answer None None (Some "Doing fine here, busy quarter though.")
       | _ => unavailable
       end;
     backend_pos := 0;
     uuids := fun _ => "00000000-0000-4000-8000-000000000000"; uuid_pos := 0;
     mockMode := false; logStore := [] |}.

(** Two slots, each with one reactor. *)
Definition twoSlots : list AssignedSlot :=
  [mkAssigned 0 test1 bob [alice]; mkAssigned (2 * day) test2 dave [alice]].

(** One slot whose reactor gives answers, in mock mode. *)
Definition expertSlot : list AssignedSlot := [mkAssigned 0 test1 alice [bob]].

(** A live backend stubbed to give the same answer to every call: a post
    and a reply that names the company, no [variation]. *)
Definition stubbedWorld : World :=
  {| rng := fun _ => 0%Q; rng_pos := 0;
     backend := fun _ =>
       answer (Some "Weekly check in") (Some "How is everyone doing?")
              (Some "Honestly Slideforge sorted this out for me.");
     backend_pos := 0;
     uuids := fun _ => "00000000-0000-4000-8000-000000000000"; uuid_pos := 0;
     mockMode := false; logStore := [] |}.

(** One slot with one reactor. *)
Definition oneSlot : list AssignedSlot := [mkAssigned 0 test1 bob [alice]].

End Sample.

(** An id without a plus sign, the separator of pairing keys. *)
Definition plusFree (s : string) : bool := negb (Utils.includes "+" s).

(** What [validateInput] asks of a request. *)
Definition acceptable (input : Planner.PlannerInput) (constraints : PlannerConstraints)
    : Prop :=
  company_id (Planner.company input) <> "" /\
  company_name (Planner.company input) <> "" /\
  (2 <= length (Planner.personas input))%nat /\
  Forall (fun p => persona_id p <> "" /\ persona_username p <> "" /\ persona_bio p <> "")
    (Planner.personas input) /\
  Planner.subreddits input <> [] /\
  Planner.keywords input <> [] /\
  1 <= Planner.postsPerWeek input /\
  Planner.postsPerWeek input
  <= Z.of_nat (length (Planner.subreddits input))
     * maxPostsPerSubredditPerWeek constraints /\
  is_Some (Planner.weekStartDate input).

(** The faults of a request, as the comments of [validateInput] name
    them, each with the line it has in the message of the error. *)
Inductive ValidationFault (input : Planner.PlannerInput)
    (constraints : PlannerConstraints) : string -> Prop :=
| FaultCompany :
    company_id (Planner.company input) = "" \/
    company_name (Planner.company input) = "" ->
    ValidationFault input constraints "Company must have id and name"
| FaultPersonas :
    (length (Planner.personas input) < 2)%nat ->
    ValidationFault input constraints "At least 2 personas are required"
| FaultPersonaFields persona :
    persona ∈ Planner.personas input ->
    persona_id persona = "" \/ persona_username persona = "" \/
    persona_bio persona = "" ->
    ValidationFault input constraints
      ("Persona "
       +:+ (if String.eqb (persona_username persona) ""
            then "unknown" else persona_username persona)
       +:+ " missing required fields")
| FaultSubreddits :
    Planner.subreddits input = [] ->
    ValidationFault input constraints "At least 1 subreddit is required"
| FaultKeywords :
    Planner.keywords input = [] ->
    ValidationFault input constraints "At least 1 keyword is required"
| FaultPosts :
    Planner.postsPerWeek input < 1 ->
    ValidationFault input constraints "Posts per week must be at least 1"
| FaultCapacity :
    Z.of_nat (length (Planner.subreddits input))
      * maxPostsPerSubredditPerWeek constraints < Planner.postsPerWeek input ->
    ValidationFault input constraints
      ("Cannot schedule " +:+ pretty (Planner.postsPerWeek input)
       +:+ " posts with only " +:+ pretty (length (Planner.subreddits input))
       +:+ " subreddits (max " +:+ pretty (maxPostsPerSubredditPerWeek constraints)
       +:+ " per subreddit)")
| FaultDate :
    Planner.weekStartDate input = None ->
    ValidationFault input constraints "Invalid week start date".

(** The world after [generateWeeklyCalendar] logged its start and did
    nothing else: one value of [Math.random ()] was drawn for the id of
    the entry. *)
Definition afterStartLog (input : Planner.PlannerInput) (w : World) : World :=
  let store :=
    logStore w ++
    [{| log_draw := rng w (rng_pos w); log_level := log_info;
        log_message := "Starting calendar generation";
        log_meta :=
          [ ("company", LogText (company_name (Planner.company input)));
            ("postsPerWeek", LogNumber (Planner.postsPerWeek input));
            ("subreddits",
             LogNumber (Z.of_nat (length (Planner.subreddits input))));
            ("personas", LogNumber (Z.of_nat (length (Planner.personas input))));
            ("keywords", LogNumber (Z.of_nat (length (Planner.keywords input)))) ]
     |}] in
  {| rng := rng w; rng_pos := S (rng_pos w);
     backend := backend w; backend_pos := backend_pos w;
     uuids := uuids w; uuid_pos := uuid_pos w;
     mockMode := mockMode w;
     logStore := if (200 <? length store)%nat then tail store else store |}.

(** ** More sample data *)
Module Fixtures.

(** One venue and one post a week: acceptable at every risk tolerance. *)
Definition modestInput : Planner.PlannerInput :=
  {| Planner.company := Sample.slideforge;
     Planner.personas := [Sample.alice; Sample.bob];
     Planner.subreddits := [Sample.consulting];
     Planner.keywords := [Sample.mkKeyword "k1" "pitch deck generator"];
     Planner.postsPerWeek := 1;
     Planner.weekStartDate := Some 0;
     Planner.weekNumber := Some 1;
     Planner.previousWeeks := [];
     Planner.preferences := None;
     Planner.constraints := None;
     Planner.riskTolerance := Some risk_low |}.

(** One persona only, and five posts a week for one venue under the
    default cap of two: two faults at once. *)
Definition twoFaultsInput : Planner.PlannerInput :=
  {| Planner.company := Sample.slideforge;
     Planner.personas := [Sample.alice];
     Planner.subreddits := [Sample.consulting];
     Planner.keywords := [Sample.mkKeyword "k1" "pitch deck generator"];
     Planner.postsPerWeek := 5;
     Planner.weekStartDate := Some 0;
     Planner.weekNumber := Some 1;
     Planner.previousWeeks := [];
     Planner.preferences := None;
     Planner.constraints := None;
     Planner.riskTolerance := None |}.

(** r/consulting, marked as highly sensitive. *)
Definition touchyConsulting : Subreddit :=
  {| subreddit_id := "sub-consulting"; subreddit_name := "r/consulting";
     subreddit_description := None; subreddit_rules := None;
     sensitivity := Some sens_high |}.

End Fixtures.
(** ** IEEE 754 doubles *)

(** The binary64 numbers and their operations, rounding to nearest, ties to
    even: the numbers of JavaScript, where [distributeEvenly] computes with
    them. *)
Module Double.

Definition prec : Z := 53.
Definition emax : Z := 1024.

(** The double nearest to an integer. *)
Definition ofZ (n : Z) : spec_float := binary_normalize prec emax n 0 false.

Definition div (x y : spec_float) : spec_float := SFdiv prec emax x y.
Definition mul (x y : spec_float) : spec_float := SFmul prec emax x y.

(** [Math.floor (x)] for a finite [x]; [None] for the infinities and NaN,
    which [Math.floor] returns unchanged. *)
Definition floor (x : spec_float) : option Z :=
  match x with
  | S754_zero _ => Some 0
  | S754_finite s m e =>
      let v := if s then Z.neg m else Z.pos m in
      Some (if 0 <=? e then Z.shiftl v e else Z.shiftr v (- e))
  | S754_infinity _ | S754_nan => None
  end.

End Double.

(** ** lib/utils: array utilities *)
Module Arrays.

(** [[a[i], a[j]] = [a[j], a[i]]] for two indices within the array.
    Outside the array the assignment would leave holes in it, which a list
    cannot hold: the model stops there with an error, and
    [returns_shuffleFrom] shows that it never does when [Math.random ()] is
    a value of [0, 1). *)
Definition swap {A} (a : list A) (i j : Z) : Eff (list A) :=
  if (i <? 0) || (j <? 0) then throw "index outside the array"
  else
    match a !! Z.to_nat i, a !! Z.to_nat j with
    | Some x, Some y => ret (<[Z.to_nat j := x]> (<[Z.to_nat i := y]> a))
    | _, _ => throw "index outside the array"
    end.

(** The loop of [shuffleArray], for [i] down to 1. *)
Fixpoint shuffleFrom {A} (i : nat) (shuffled : list A) : Eff (list A) :=
  match i with
  | O => ret shuffled
  | S i' =>
      let* j := randomBelow (Z.of_nat i + 1) in
      let* swapped := swap shuffled (Z.of_nat i) j in
      shuffleFrom i' swapped
  end.

Definition shuffleArray {A} (array : list A) : Eff (list A) :=
  shuffleFrom (length array - 1) array.

(** [a.slice (0, count)] *)
Definition sliceTo {A} (count : Z) (a : list A) : list A :=
  let len := Z.of_nat (length a) in
  take (Z.to_nat (if count <? 0 then Z.max (len + count) 0 else Z.min count len)) a.

Definition selectRandom {A} (array : list A) (count : Z) : Eff (list A) :=
  if Z.of_nat (length array) <=? count then ret array
  else let* shuffled := shuffleArray array in ret (sliceTo count shuffled).

(** The index read at step [i] of [distributeEvenly]:
    [Math.min (Math.floor (i * step), available.length - 1)].  In the loop
    [0 <= i < needed < available.length], where the product is a finite
    double (lemma [evenIndex_table]); elsewhere the model gives the value
    for [Infinity]. *)
Definition evenIndex (step : spec_float) (len i : Z) : Z :=
  match Double.floor (Double.mul (Double.ofZ i) step) with
  | Some index => Z.min index (len - 1)
  | None => len - 1
  end.

(** [distributeEvenly (available, needed)]; every index it reads is within
    the array (lemma [evenIndex_table]), where the model's [nth] needs no
    default. *)
Definition distributeEvenly (available : list Z) (needed : Z) : list Z :=
  let len := Z.of_nat (length available) in
  if len <=? needed then available
  else
    let step := Double.div (Double.ofZ len) (Double.ofZ needed) in
    (fun i => nth (Z.to_nat (evenIndex step len (Z.of_nat i))) available 0)
      <$> seq 0 (Z.to_nat needed).

(** [countOccurrences (items)]: the [Map] from each item to its count. *)
Definition countOccurrences `{Countable T} (items : list T) : gmap T Z :=
  foldl (fun counts item => <[item := default 0 (counts !! item) + 1]> counts) ∅ items.

End Arrays.

(** The indices of [distributeEvenly] from step [i] on, for [n] steps: each
    is the floor of a finite double, above the one before it ([prev]) and
    below [len]. *)
Fixpoint evenIndicesIncrease (step : spec_float) (len prev i : Z) (n : nat) : bool :=
  match n with
  | O => true
  | S n' =>
      match Double.floor (Double.mul (Double.ofZ i) step) with
      | Some index =>
          (prev <? index) && (index <? len)
          && evenIndicesIncrease step len index (i + 1) n'
      | None => false
      end
  end.

(** The same for every [needed] below [len] and every [len] up to [bound]. *)
Definition evenIndicesIncreaseUpTo (bound : nat) : bool :=
  forallb
    (fun len =>
       forallb
         (fun needed =>
            evenIndicesIncrease
              (Double.div (Double.ofZ (Z.of_nat len)) (Double.ofZ (Z.of_nat needed)))
              (Z.of_nat len) (-1) 0 needed)
         (seq 1 (len - 1)))
    (seq 0 (S bound)).



(** ** lib/utils: dates.  [setHours] and [setMinutes] are functions of the
    date-fns library, taken as they come. *)
Module DateUtils.
Section WithDateFns.
Variables setHours setMinutes : Z -> Z -> Z.

Definition slotHours (slot : TimeOfDay) : Z * Z :=
  match slot with
  | morning => (8, 3)
  | afternoon => (12, 4)
  | evening => (17, 4)
  end.

Definition setTimeForSlot (date : Z) (slot : TimeOfDay) : Eff Z :=
  let '(baseHour, variance) := slotHours slot in
  let* h := randomBelow variance in
  let hour := baseHour + h in
  let* minute := randomBelow 60 in
  ret (setMinutes (setHours date hour) minute).

End WithDateFns.
End DateUtils.

#[global] Instance TimeOfDay_eq_dec : EqDecision TimeOfDay.
Proof. solve_decision. Defined.

(** [slots.sort ((a, b) => a.date.getTime () - b.date.getTime ())]: stable,
    ascending. *)
Fixpoint insertByDate (x : TimeSlot) (l : list TimeSlot) : list TimeSlot :=
  match l with
  | [] => [x]
  | y :: l' => if ts_date y <? ts_date x then y :: insertByDate x l' else x :: l
  end.

Definition sortByDate (l : list TimeSlot) : list TimeSlot := foldr insertByDate [] l.

(** The order of two slots by date. *)
Definition byDate (a b : TimeSlot) : Prop := ts_date a <= ts_date b.

(** ** lib/planner/slotAllocator *)
Module SlotAllocator.

Record SlotAllocationConfig := {
  cfg_count : Z;
  cfg_weekStart : Z;
  cfg_preferWeekdays : option bool;
}.

Record SlotAllocationResult := {
  slots : list TimeSlot;
  daysUsed : list Z;
  timesUsed : list TimeOfDay;
}.

Definition weekdaySlots : list Z := [1; 2; 3; 4; 5].
Definition weekendSlots : list Z := [0; 6].
Definition timeSlots : list TimeOfDay := [morning; afternoon; evening].

(** [selectDaysForPosts]; [allocateSlots] calls it with the seven days of
    the week, so that [i % availableDays.length] is an index of the
    array. *)
Definition selectDaysForPosts (availableDays : list Z) (needed : Z) : list Z :=
  if Z.of_nat (length availableDays) <=? needed then
    (fun i => nth (i mod length availableDays) availableDays 0)
      <$> seq 0 (Z.to_nat needed)
  else Arrays.distributeEvenly availableDays needed.

Definition usageCount (alreadyUsed : list TimeOfDay) (t : TimeOfDay) : nat :=
  length (filter (fun u => u = t) alreadyUsed).

(** [selectTimeSlot]: [None] is the [undefined] read past the end of
    [leastUsed]. *)
Definition selectTimeSlot (available : list TimeOfDay) (index : Z)
    (alreadyUsed : list TimeOfDay) : Eff (option TimeOfDay) :=
  let minUsage :=
    Nat.min (usageCount alreadyUsed morning)
      (Nat.min (usageCount alreadyUsed afternoon) (usageCount alreadyUsed evening)) in
  let leastUsed := filter (fun t => usageCount alreadyUsed t = minUsage) available in
  let* preferAfternoon :=
    if bool_decide (afternoon ∈ leastUsed)
    then let* r := random in ret (Qltb (3 # 10) r)
    else ret false in
  if preferAfternoon then ret (Some afternoon)
  else
    let* k := randomBelow (Z.of_nat (length leastUsed)) in
    ret (if k <? 0 then None else leastUsed !! Z.to_nat k).

Section WithDateFns.
Variables addDays setHours setMinutes : Z -> Z -> Z.

(** The loop of [allocateSlots] over [i = 0 .. count - 1].  [daysToUse]
    has [count] entries (lemma [selectDaysForPosts_spec]); the model stops
    with an error where [daysToUse[i]] would be [undefined]. *)
Fixpoint slotLoop (indices : list nat) (daysToUse : list Z) (weekStart : Z)
    (slots : list TimeSlot) (timesUsed : list TimeOfDay)
    : Eff (list TimeSlot * list TimeOfDay) :=
  match indices with
  | [] => ret (slots, timesUsed)
  | i :: rest =>
      match daysToUse !! i with
      | None => throw "daysToUse[i] is undefined"
      | Some dayOffset =>
          let date := addDays weekStart dayOffset in
          let* timeOfDay := selectTimeSlot timeSlots (Z.of_nat i) timesUsed in
          match timeOfDay with
          | None => throw "TypeError: Cannot read properties of undefined"
          | Some t =>
              let* scheduledDate :=
                DateUtils.setTimeForSlot setHours setMinutes date t in
              slotLoop rest daysToUse weekStart
                (slots ++ [{| ts_date := scheduledDate; ts_dayOfWeek := dayOffset;
                              ts_timeOfDay := t |}])
                (timesUsed ++ [t])
          end
      end
  end.

Definition allocateSlots (config : SlotAllocationConfig) : Eff SlotAllocationResult :=
  let count := cfg_count config in
  let preferWeekdays := default true (cfg_preferWeekdays config) in
  let* availableDays :=
    if preferWeekdays then ret (weekdaySlots ++ weekendSlots)
    else Arrays.shuffleArray [0; 1; 2; 3; 4; 5; 6] in
  let daysToUse := selectDaysForPosts availableDays count in
  let* '(slots, timesUsed) :=
    slotLoop (seq 0 (Z.to_nat count)) daysToUse (cfg_weekStart config) [] [] in
  ret {| slots := sortByDate slots; daysUsed := daysToUse; timesUsed := timesUsed |}.

End WithDateFns.
End SlotAllocator.

(** ** The runs of the matcher *)

(** The slot that [matchSubreddits] builds for a time slot, a subreddit and
    the keywords selected for it. *)
Definition matchedSlotOf (slot : TimeSlot) (sub : Subreddit) (kws : list Keyword)
    : MatchedSlot :=
  {| ms_slot := slot; ms_subreddit := sub; ms_keywords := kws;
     ms_threadType := SubredditMatcher.determineThreadType kws |}.

(** What one iteration of the loop of [matchSubreddits] does: when no
    subreddit may take a post on the date of the slot, the slot is dropped
    and its date recorded; otherwise the slot goes to a subreddit that may
    take it, with the first two keywords of some ranking of the input
    keywords, and the usage of that subreddit is updated. *)
Definition MatchStep (subreddits : list Subreddit) (keywords : list Keyword)
    (cs : PlannerConstraints) (st : SubredditMatcher.LoopState) (slot : TimeSlot)
    (st' : SubredditMatcher.LoopState) : Prop :=
  (Forall (fun sub =>
             Constraints.canPostToSubreddit (subreddit_id sub)
               (SubredditMatcher.subredditUsage st) cs (ts_date slot) = false)
          subreddits /\
   SubredditMatcher.matchedSlots st' = SubredditMatcher.matchedSlots st /\
   SubredditMatcher.subredditUsage st' = SubredditMatcher.subredditUsage st /\
   SubredditMatcher.skipped st' = SubredditMatcher.skipped st ++ [ts_date slot])
  \/
  (exists sub ranked,
      sub ∈ subreddits /\
      Constraints.canPostToSubreddit (subreddit_id sub)
        (SubredditMatcher.subredditUsage st) cs (ts_date slot) = true /\
      ranked ≡ₚ keywords /\
      SubredditMatcher.matchedSlots st'
      = SubredditMatcher.matchedSlots st ++ [matchedSlotOf slot sub (take 2 ranked)] /\
      SubredditMatcher.subredditUsage st'
      = <[subreddit_id sub :=
            {| Constraints.pu_postsThisWeek :=
                 usagePosts (SubredditMatcher.subredditUsage st) (subreddit_id sub) + 1;
               Constraints.pu_lastPostDate := Some (ts_date slot) |}]>
          (SubredditMatcher.subredditUsage st) /\
      SubredditMatcher.skipped st' = SubredditMatcher.skipped st).

(** A run of the loop over a list of slots: one step per slot. *)
Inductive MatchRun (subreddits : list Subreddit) (keywords : list Keyword)
    (cs : PlannerConstraints)
    : SubredditMatcher.LoopState -> list TimeSlot -> SubredditMatcher.LoopState -> Prop :=
| MatchRun_nil st : MatchRun subreddits keywords cs st [] st
| MatchRun_cons st slot st1 rest st' :
    MatchStep subreddits keywords cs st slot st1 ->
    MatchRun subreddits keywords cs st1 rest st' ->
    MatchRun subreddits keywords cs st (slot :: rest) st'.

(** [counts[key] = (counts[key] || 0) + 1] for every element of a list. *)
Definition tallyBy {A} (key : A -> string) (l : list A) : list (string * Z) :=
  foldl (fun counts x => assocSet (key x) (default 0 (assocGet (key x) counts) + 1) counts)
        [] l.

(** How many elements of [l] have the key [k]. *)
Definition countOf {A} (key : A -> string) (k : string) (l : list A) : Z :=
  Z.of_nat (length (filter (fun x => key x = k) l)).

(** ** lib/planner/subredditMatcher: validation *)
Inductive MatchingIssue :=
| TooManyPosts (sub : string) (count max : Z)   (* <sub> has <count> posts (max: <max>) *)
| SlotsWithoutKeywords (n : nat).               (* <n> slots have no keywords *)

(** [validateSubredditMatching (...).issues]; the matching is valid when
    there is no issue. *)
Definition validateSubredditMatching (slots : list MatchedSlot) (maxPerSubreddit : Z)
    : list MatchingIssue :=
  let counts := tallyBy (fun slot => subreddit_name (ms_subreddit slot)) slots in
  let slotsWithoutKeywords := filter (fun s => ms_keywords s = []) slots in
  omap (fun '(sub, count) =>
          if maxPerSubreddit <? count then Some (TooManyPosts sub count maxPerSubreddit)
          else None) counts
  ++ (if (0 <? length slotsWithoutKeywords)%nat
      then [SlotsWithoutKeywords (length slotsWithoutKeywords)] else []).

(** ** More sample data for the matcher *)
Module MatcherFixtures.

(** Two venues and two slots two days apart. *)
Definition twoSlotConfig : SubredditMatcher.SubredditMatcherConfig :=
  {| SubredditMatcher.cfg_slots := [Sample.mkTime 0; Sample.mkTime (2 * Sample.day)];
     SubredditMatcher.cfg_subreddits := [Sample.test1; Sample.test2];
     SubredditMatcher.cfg_keywords :=
       [Sample.mkKeyword "kw-1" "test keyword 1"; Sample.mkKeyword "kw-2" "test keyword 2"];
     SubredditMatcher.cfg_previousWeeks := [];
     SubredditMatcher.cfg_constraints := None |}.

End MatcherFixtures.

(** ** The runs of the persona assigner *)

(** The posts that a usage map records for the persona [id]. *)
Definition postsOf (usage : gmap string PersonaAssigner.PersonaUsageTracker)
    (id : string) : Z :=
  match usage !! id with
  | Some t => PersonaAssigner.postsThisWeek t
  | None => 0
  end.

(** What one iteration of the loop of [assignPersonas] does.  When no
    persona may author the slot, the slot is dropped with a warning.
    Otherwise the author is a persona who may post on the date of the
    slot, the reactors are other personas still under their comment cap,
    no two in a row with the same id, the usage records the post and one
    comment per reactor, the pairings of the thread are recorded, and the
    issues that [validateThreadStructure] finds become warnings. *)
Definition AssignFullStep (personas : list Persona) (cs : PlannerConstraints)
    (st : PersonaAssigner.LoopState) (slot : MatchedSlot)
    (st' : PersonaAssigner.LoopState) : Prop :=
  AssignerInv personas (PersonaAssigner.usage st') /\
  ((PersonaAssigner.assignedSlots st' = PersonaAssigner.assignedSlots st /\
    PersonaAssigner.usage st' = PersonaAssigner.usage st /\
    PersonaAssigner.pairingsThisWeek st' = PersonaAssigner.pairingsThisWeek st /\
    PersonaAssigner.warningsSoFar st'
    = PersonaAssigner.warningsSoFar st ++ [PersonaAssigner.NoEligibleOP (slot_date slot)])
   \/
   (exists op sel,
       op ∈ personas /\
       Constraints.canPersonaPost (persona_id op)
         (PersonaAssigner.postUsage (PersonaAssigner.usage st)) cs (slot_date slot) = true /\
       Forall (fun c => c ∈ personas /\ persona_id c <> persona_id op /\
                        PersonaAssigner.underCommentLimit (PersonaAssigner.usage st) cs c
                        = true) sel /\
       (2 <= maxPersonasPerThread cs ->
        Z.of_nat (length sel) <= maxPersonasPerThread cs - 1) /\
       Constraints.hasBackToBack (persona_id <$> sel) = false /\
       (NoDup (persona_id <$> personas) -> NoDup (persona_id <$> sel)) /\
       PersonaAssigner.assignedSlots st'
       = PersonaAssigner.assignedSlots st
         ++ [{| as_slot := slot; opPersona := op; commenterPersonas := sel |}] /\
       PersonaAssigner.postUsage (PersonaAssigner.usage st')
       = <[persona_id op :=
             {| Constraints.pu_postsThisWeek :=
                  postsOf (PersonaAssigner.usage st) (persona_id op) + 1;
                Constraints.pu_lastPostDate := Some (slot_date slot) |}]>
           (PersonaAssigner.postUsage (PersonaAssigner.usage st)) /\
       (forall id, commentsOf (PersonaAssigner.usage st') id
                   = commentsOf (PersonaAssigner.usage st) id + occurrences id sel) /\
       PersonaAssigner.pairingsThisWeek st'
       = PersonaAssigner.updatePairings (PersonaAssigner.pairingsThisWeek st) op sel /\
       PersonaAssigner.warningsSoFar st'
       = PersonaAssigner.warningsSoFar st
         ++ (PersonaAssigner.ThreadIssueWarning
               <$> Constraints.validateThreadStructure (persona_id op)
                     (persona_id <$> sel) cs))).

(** A run of the loop over a list of slots: one step per slot. *)
Inductive AssignRun (personas : list Persona) (cs : PlannerConstraints)
    : PersonaAssigner.LoopState -> list MatchedSlot -> PersonaAssigner.LoopState -> Prop :=
| AssignRun_nil st : AssignRun personas cs st [] st
| AssignRun_cons st slot st1 rest st' :
    AssignFullStep personas cs st slot st1 ->
    AssignRun personas cs st1 rest st' ->
    AssignRun personas cs st (slot :: rest) st'.


(** The threads of [slots] that the persona [id] authors, and the comment
    roles that it holds in them. *)
Definition authoredBy (id : string) (slots : list AssignedSlot) : Z :=
  countOf (fun s => persona_id (opPersona s)) id slots.

Definition reactionsBy (id : string) (slots : list AssignedSlot) : Z :=
  countOf persona_id id (concat (commenterPersonas <$> slots)).

(** ** lib/planner/personaAssigner: validation *)
Inductive AssignmentIssue :=
| TooManyPostsBy (username : string) (posts max : Z)        (* <username> has <posts> posts (max: <max>) *)
| TooManyCommentsBy (username : string) (comments max : Z). (* <username> has <comments> comments (max: <max>) *)

(** The two counting loops of [validatePersonaAssignment]: [postCounts]
    and [commentCounts] after the slots were visited. *)
Definition assignmentCounts (slots : list AssignedSlot)
    : list (string * Z) * list (string * Z) :=
  foldl (fun '(postCounts, commentCounts) slot =>
           (assocSet (persona_id (opPersona slot))
              (default 0 (assocGet (persona_id (opPersona slot)) postCounts) + 1)
              postCounts,
            foldl (fun commentCounts commenter =>
                     assocSet (persona_id commenter)
                       (default 0 (assocGet (persona_id commenter) commentCounts) + 1)
                       commentCounts)
                  commentCounts (commenterPersonas slot)))
        ([], []) slots.

(** [validatePersonaAssignment (...).issues]; the limits are those of
    [DEFAULT_CONSTRAINTS], whatever the run was configured with. *)
Definition validatePersonaAssignment (slots : list AssignedSlot)
    (personas : list Persona) : list AssignmentIssue :=
  let '(postCounts, commentCounts) := assignmentCounts slots in
  concat
    ((fun persona =>
        let posts := default 0 (assocGet (persona_id persona) postCounts) in
        let comments := default 0 (assocGet (persona_id persona) commentCounts) in
        (if maxPostsPerPersonaPerWeek Constraints.DEFAULT_CONSTRAINTS <? posts
         then [TooManyPostsBy (persona_username persona) posts
                 (maxPostsPerPersonaPerWeek Constraints.DEFAULT_CONSTRAINTS)]
         else []) ++
        (if maxCommentsPerPersonaPerWeek Constraints.DEFAULT_CONSTRAINTS <? comments
         then [TooManyCommentsBy (persona_username persona) comments
                 (maxCommentsPerPersonaPerWeek Constraints.DEFAULT_CONSTRAINTS)]
         else [])) <$> personas).

(** ** The window of a comment delay *)

(** The pair [(min, max)] of minutes that [generateCommentDelay] draws
    from: the follow-up window for a follow-up of the author, the window
    after the post for the first comment, the comment spacing otherwise. *)
Definition delayWindow (index : nat) (isOPFollowUp : bool) (cs : PlannerConstraints)
    : Z * Z :=
  if isOPFollowUp then opFollowUpDelayMinutes cs
  else if Nat.eqb index 0
       then (minDelayAfterPostMinutes cs, maxDelayAfterPostMinutes cs)
       else commentSpacingMinutes cs.

(** ** Sample data for the generator *)
Module GeneratorFixtures.

(** Preferences that set a maximum length of 20 characters for a post and
    nothing else. *)
Definition shortPosts : GenerationPreferences :=
  {| allowProductMention := None; productMentionCount := None;
     antiPromoChecks := None; bannedPhrases := None;
     minCommentLength := None; maxCommentLength := None;
     minPostLength := None; maxPostLength := Some 20;
     autoRepair := None; requireDisagreement := None; repairPasses := None |}.

End GeneratorFixtures.

(** ** The threads that the generator returns *)

(** What is known of a computation that may throw or run out of fuel:
    from a world of [I] it ends in a world of [I]; a value that it returns
    satisfies [P]; it throws only when [T] allows it and it runs out of
    fuel only when [D] allows it. *)
Definition outcome {A} (T D : bool) (I : World -> Prop) (m : Eff A) (P : A -> Prop)
    : Prop :=
  forall w, I w ->
    match m w with
    | (Ok a, w') => I w' /\ P a
    | (Throw _, w') => I w' /\ T = true
    | (Diverge, _) => D = true
    end.

(** A delay [d] drawn from the window [(min, max)], when the window is not
    empty. *)
Definition inWindow (win : Z * Z) (d : Z) : Prop :=
  fst win <= snd win ->
  fst win <= d <= snd win /\ (fst win < snd win -> d < snd win).

(** The post that [generatePost] builds for a slot: everything but its
    id, title and body is copied from the slot and the request. *)
Definition PostFor (company : Company) (weekNumber : Z) (slot : AssignedSlot)
    (p : Post) : Prop :=
  post_companyId p = company_id company /\
  post_weekNumber p = weekNumber /\
  subredditId p = subreddit_id (ms_subreddit (as_slot slot)) /\
  subredditName p = subreddit_name (ms_subreddit (as_slot slot)) /\
  post_personaId p = persona_id (opPersona slot) /\
  post_personaUsername p = persona_username (opPersona slot) /\
  post_scheduledAt p = slot_date (as_slot slot) /\
  keywordIds p = keyword_id <$> ms_keywords (as_slot slot) /\
  post_threadType p = ms_threadType (as_slot slot) /\
  post_status p = draft.

(** A comment written by [persona] under [post], scheduled [delayMinutes]
    after [start], answering the comment [parent]; [W] is what is known of
    its delay. *)
Definition CommentBy (W : Z -> Prop) (post : Post) (persona : Persona)
    (start : Z) (parent : option string) (c : Comment) : Prop :=
  comment_id c <> "" /\
  postId c = post_id post /\
  comment_personaId c = persona_id persona /\
  comment_personaUsername c = persona_username persona /\
  comment_status c = draft /\
  parentCommentId c = parent /\
  comment_scheduledAt c = start + delayMinutes c * ThreadGenerator.msPerMinute /\
  W (delayMinutes c).

(** The replies of the loop of [generateComments], one per persona, each
    one scheduled after and answering the one before; [i] is the index of
    the first. *)
Inductive Replies (W : Z * Z -> Z -> Prop) (cs : PlannerConstraints) (post : Post)
    : nat -> Z -> option string -> list Persona -> list Comment -> Prop :=
| Replies_nil i start parent : Replies W cs post i start parent [] []
| Replies_cons i start parent persona personas c replies :
    CommentBy (W (delayWindow i false cs)) post persona start parent c ->
    Replies W cs post (S i) (comment_scheduledAt c) (Some (comment_id c))
      personas replies ->
    Replies W cs post i start parent (persona :: personas) (c :: replies).

(** The time and the id of the last comment of a list. *)
Definition lastTime (start : Z) (comments : list Comment) : Z :=
  match last comments with
  | Some c => comment_scheduledAt c
  | None => start
  end.

Definition lastId (parent : option string) (comments : list Comment) : option string :=
  match last comments with
  | Some c => Some (comment_id c)
  | None => parent
  end.

(** The comments of a thread generated for [slot]: the replies of the
    commenters in their order, followed, when there is a reply, by at most
    one follow-up of the author. *)
Definition CommentsFor (W : Z * Z -> Z -> Prop) (cs : PlannerConstraints)
    (slot : AssignedSlot) (post : Post) (comments : list Comment) : Prop :=
  exists replies followUp,
    comments = replies ++ followUp /\
    Replies W cs post 0 (post_scheduledAt post) None (commenterPersonas slot) replies /\
    (followUp = [] \/
     replies <> [] /\
     exists f, followUp = [f] /\
               CommentBy (W (delayWindow 0 true cs)) post (opPersona slot)
                 (lastTime (post_scheduledAt post) replies) (lastId None replies) f).

Definition ThreadFor (W : Z * Z -> Z -> Prop) (cs : PlannerConstraints)
    (company : Company) (weekNumber : Z) (slot0 : AssignedSlot) (t : Thread) : Prop :=
  slot t = slot0 /\
  PostFor company weekNumber slot0 (post t) /\
  CommentsFor W cs slot0 (post t) (comments t).

(** Two comments that differ in their text at most. *)
Definition sameButContent (c c' : Comment) : Prop :=
  c' = ThreadGenerator.setContent c (content c').

(** The request asks for no product mention in the replies. *)
Definition noMentionTarget (preferences : option GenerationPreferences) : Prop :=
  Z.max 0 (default 0 (ThreadGenerator.pref productMentionCount preferences)) = 0.

(** The position [i] of the comments of a thread: who writes there (the
    commenters in their order, then the author), the time and the id of
    the comment before it (of the post and nothing, for the first), and
    the window its delay is drawn from. *)
Definition personaAt (slot : AssignedSlot) (i : nat) : Persona :=
  default (opPersona slot) (commenterPersonas slot !! i).

Definition previousTime (post : Post) (comments : list Comment) (i : nat) : Z :=
  match i with
  | O => post_scheduledAt post
  | S j => from_option comment_scheduledAt (post_scheduledAt post) (comments !! j)
  end.

Definition previousId (comments : list Comment) (i : nat) : option string :=
  match i with
  | O => None
  | S j => comment_id <$> comments !! j
  end.

Definition windowAt (cs : PlannerConstraints) (slot : AssignedSlot) (i : nat) : Z * Z :=
  if (i <? length (commenterPersonas slot))%nat
  then delayWindow i false cs else delayWindow 0 true cs.

(** ** lib/planner/slotAllocator: validation *)

(** Slots <i - 1> and <i> are only <gap> hours apart (minimum: <min>h) *)
Inductive SlotIssue :=
| SlotsTooClose (before after : nat) (gap minGapHours : Q).

(** The hours between two dates. *)
Definition gapHours (earlier later : TimeSlot) : Q :=
  (inject_Z (ts_date later - ts_date earlier) / inject_Z (1000 * 60 * 60))%Q.

(** The loop of [validateSlotAllocation] from index [i] on; [previous] is
    [sortedSlots[i - 1]]. *)
Fixpoint gapIssues (i : nat) (previous : TimeSlot) (rest : list TimeSlot)
    (minGapHours : Q) : list SlotIssue :=
  match rest with
  | [] => []
  | current :: rest' =>
      (if Qltb (gapHours previous current) minGapHours
       then [SlotsTooClose (i - 1) i (gapHours previous current) minGapHours]
       else [])
      ++ gapIssues (S i) current rest' minGapHours
  end.

(** [validateSlotAllocation (...).issues] *)
Definition validateSlotAllocation (slots : list TimeSlot) (minGapHours : Q)
    : list SlotIssue :=
  match sortByDate slots with
  | [] => []
  | first :: rest => gapIssues 1 first rest minGapHours
  end.

(** Two slots at least [minGapHours] hours apart, whichever comes first. *)
Definition farApart (minGapHours : Q) (a b : TimeSlot) : Prop :=
  (minGapHours <= gapHours a b \/ minGapHours <= gapHours b a)%Q.

(** Every slot of a list is at least [minGapHours] hours before the next
    one in the list. *)
Fixpoint wellSpaced (minGapHours : Q) (l : list TimeSlot) : Prop :=
  match l with
  | a :: (b :: _) as rest => (minGapHours <= gapHours a b)%Q /\ wellSpaced minGapHours rest
  | _ => True
  end.

(** ** lib/planner/index: phases 1 to 3 *)
Module Pipeline.

Record PlannedWeek := {
  slotResult : SlotAllocator.SlotAllocationResult;
  matchResult : SubredditMatcher.SubredditMatcherResult;
  assignResult : PersonaAssigner.PersonaAssignerResult;
}.

Section WithDateFns.
Variables addDays setHours setMinutes : Z -> Z -> Z.

(** What [generateWeeklyCalendar] does first with a validated input: slot
    allocation, subreddit matching and persona assignment, each phase fed
    with the slots of the one before.  [weekStart] is the week start date
    of the input, a valid date after validation; the week number that is
    computed in between is used from phase 4 on. *)
Definition planSlots (weekStart : Z) (input : Planner.PlannerInput)
    (constraints : PlannerConstraints) : Eff PlannedWeek :=
  let* _ := addLog log_info "Phase 1: Allocating time slots" [] in
  let* slotResult :=
    SlotAllocator.allocateSlots addDays setHours setMinutes
      {| SlotAllocator.cfg_count := Planner.postsPerWeek input;
         SlotAllocator.cfg_weekStart := weekStart;
         SlotAllocator.cfg_preferWeekdays := None |} in
  let* _ := addLog log_info "Phase 2: Matching subreddits and keywords" [] in
  let* matchResult :=
    SubredditMatcher.matchSubreddits
      {| SubredditMatcher.cfg_slots := SlotAllocator.slots slotResult;
         SubredditMatcher.cfg_subreddits := Planner.subreddits input;
         SubredditMatcher.cfg_keywords := Planner.keywords input;
         SubredditMatcher.cfg_previousWeeks := Planner.previousWeeks input;
         SubredditMatcher.cfg_constraints := Some constraints |} in
  let* _ := addLog log_info "Phase 3: Assigning personas" [] in
  let* assignResult :=
    PersonaAssigner.assignPersonas
      {| PersonaAssigner.cfg_slots := SubredditMatcher.slots matchResult;
         PersonaAssigner.cfg_personas := Planner.personas input;
         PersonaAssigner.cfg_constraints := Some constraints |} in
  ret {| slotResult := slotResult; matchResult := matchResult;
         assignResult := assignResult |}.

End WithDateFns.
End Pipeline.

(** ** A venue with a preset *)

(** Two venues, the first with a preset of its own ([r/consulting]: one post
    a week), three slots on days 0, 1 and 4, the default constraints. *)
Definition presetMatcherConfig : SubredditMatcher.SubredditMatcherConfig :=
  {| SubredditMatcher.cfg_slots :=
       [Sample.mkTime 0; Sample.mkTime Sample.day; Sample.mkTime (4 * Sample.day)];
     SubredditMatcher.cfg_subreddits := [Sample.consulting; Sample.test1];
     SubredditMatcher.cfg_keywords :=
       [Sample.mkKeyword "kw-1" "test keyword 1";
        Sample.mkKeyword "kw-2" "test keyword 2"];
     SubredditMatcher.cfg_previousWeeks := [];
     SubredditMatcher.cfg_constraints := None |}.

(** The weekly cap of a venue once its preset and its sensitivity are applied
    to the constraints of the run: [getSubredditConstraints(sub,
    constraints || DEFAULT_CONSTRAINTS).maxPostsPerSubredditPerWeek]. *)
Definition effectiveVenueCap (config : SubredditMatcher.SubredditMatcherConfig)
    (sub : Subreddit) : Z :=
  maxPostsPerSubredditPerWeek
    (Constraints.getSubredditConstraints sub
       (default Constraints.DEFAULT_CONSTRAINTS
          (SubredditMatcher.cfg_constraints config))).

(** The venue names of the matched slots, in order, and the skipped slots. *)
Definition matchedVenues
    (r : Res SubredditMatcher.SubredditMatcherResult * World)
    : option (list string * list Z) :=
  match r with
  | (Ok result, _) =>
      Some ((fun s => subreddit_name (ms_subreddit s))
              <$> SubredditMatcher.slots result,
            SubredditMatcher.topicsSkipped result)
  | _ => None
  end.

(** * Properties *)

(** ** lib/utils: similarity *)

Lemma pos_of_nat_Z (n : nat) : n <> 0%nat -> Z.pos (Pos.of_nat n) = Z.of_nat n.
Proof. intros Hn. destruct n as [| n]; [congruence |]. lia. Qed.

Lemma filter_elem_inter (X Y : gset string) :
  filter (fun w => w ∈ Y) X = X ∩ Y.
Proof. apply set_eq. intros x. rewrite elem_of_filter, elem_of_intersection. tauto. Qed.

Lemma wordSet_empty (s : string) : Utils.longWords s = [] -> size (Utils.wordSet s) = 0%nat.
Proof.
  intros H. unfold Utils.wordSet. rewrite H. reflexivity.
Qed.

(** C10: the similarity is a value of [0, 1], does not depend on the order
    of its arguments, and is 0 as soon as one of the two strings has no
    word longer than three characters. *)
Theorem calculateSimilarity_bounded_symmetric (a b : string) :
  (0 <= Utils.calculateSimilarity a b)%Q /\
  (Utils.calculateSimilarity a b <= 1)%Q /\
  Utils.calculateSimilarity a b = Utils.calculateSimilarity b a /\
  (Utils.longWords a = [] \/ Utils.longWords b = [] ->
   Utils.calculateSimilarity a b = 0%Q).
Proof.
  unfold Utils.calculateSimilarity.
  rewrite !filter_elem_inter.
  repeat split.
  - case_decide; [apply Qle_refl |].
    unfold Qle; simpl. lia.
  - case_decide as Hz; [unfold Qle; simpl; lia |].
    assert (Hu : size (Utils.wordSet a ∪ Utils.wordSet b) <> 0%nat).
    { intros Hu. apply size_empty_inv in Hu. apply Hz. left.
      apply empty_union in Hu as [Ha _]. apply size_empty_iff, Ha. }
    unfold Qle; simpl. rewrite pos_of_nat_Z by exact Hu.
    assert (Hle : (size (Utils.wordSet a ∩ Utils.wordSet b)
                   <= size (Utils.wordSet a ∪ Utils.wordSet b))%nat).
    { apply subseteq_size. intros x Hx. apply elem_of_intersection in Hx as [Hx _].
      apply elem_of_union. left. exact Hx. }
    lia.
  - rewrite (comm_L (∩) (Utils.wordSet b)), (comm_L (∪) (Utils.wordSet b)).
    repeat case_decide; try reflexivity; tauto.
  - intros [H | H]; apply wordSet_empty in H;
      (case_decide as Hz; [reflexivity | exfalso; apply Hz; tauto]).
Qed.

Lemma calculateSimilarity_witness :
  Utils.calculateSimilarity "the cat sat" "presentation tools" = 0%Q.
Proof.
  apply (calculateSimilarity_bounded_symmetric "the cat sat" "presentation tools").
  left. reflexivity.
Defined.

(** ** lib/planner/qualityChecker: scoring *)

Lemma countSeverity_cons (s : IssueSeverity) (i : QualityIssue) (l : list QualityIssue) :
  countSeverity s (i :: l) =
  countSeverity s l + (if decide (severity i = s) then 1 else 0).
Proof.
  unfold countSeverity. rewrite filter_cons.
  destruct (decide (severity i = s)); simpl length; lia.
Qed.

Lemma foldl_deductions (issues : list QualityIssue) (s0 : Q) :
  (foldl (fun score issue => score - QualityChecker.deduction (severity issue)) s0 issues
   == s0 - 2 * inject_Z (countSeverity high issues)
         - 1 * inject_Z (countSeverity medium issues)
         - (1 # 2) * inject_Z (countSeverity low issues))%Q.
Proof.
  revert s0. induction issues as [| i l IH]; intros s0.
  - simpl. unfold countSeverity. simpl. ring.
  - simpl foldl. rewrite IH. rewrite !countSeverity_cons, !inject_Z_plus.
    destruct (severity i); simpl; ring.
Qed.

#[global] Instance mathRound_proper : Proper (Qeq ==> eq) mathRound.
Proof. intros x y H. unfold mathRound. apply Qfloor_comp. rewrite H. reflexivity. Qed.

#[global] Instance roundOneDecimal_proper : Proper (Qeq ==> Qeq) roundOneDecimal.
Proof. intros x y H. unfold roundOneDecimal. rewrite H. reflexivity. Qed.

#[global] Instance clamp_proper : Proper (Qeq ==> Qeq) clamp0_10.
Proof. intros x y H. unfold clamp0_10. rewrite H. reflexivity. Qed.

Lemma clamp_low (x : Q) : (x <= 0)%Q -> (clamp0_10 x == 0)%Q.
Proof.
  intros H. unfold clamp0_10.
  rewrite (Q.min_r 10 x) by (apply Qle_trans with 0%Q; [exact H | discriminate]).
  apply Q.max_l. exact H.
Qed.

Lemma clamp_high (x : Q) : (10 <= x)%Q -> (clamp0_10 x == 10)%Q.
Proof.
  intros H. unfold clamp0_10.
  rewrite (Q.min_l 10 x) by exact H.
  apply Q.max_r. discriminate.
Qed.

Lemma clamp_mid (x : Q) : (0 <= x)%Q -> (x <= 10)%Q -> (clamp0_10 x == x)%Q.
Proof.
  intros H0 H10. unfold clamp0_10.
  rewrite (Q.min_r 10 x) by exact H10.
  apply Q.max_r. exact H0.
Qed.

Lemma roundOneDecimal_mono (x y : Q) :
  (x <= y)%Q -> (roundOneDecimal x <= roundOneDecimal y)%Q.
Proof.
  intros H. unfold roundOneDecimal, mathRound.
  apply Qmult_le_compat_r; [| discriminate].
  rewrite <- Zle_Qle. apply Qfloor_resp_le.
  apply Qplus_le_compat; [| apply Qle_refl].
  apply Qmult_le_compat_r; [exact H | discriminate].
Qed.

Lemma roundOneDecimal_0 : (roundOneDecimal 0 == 0)%Q.
Proof. reflexivity. Qed.

Lemma roundOneDecimal_10 : (roundOneDecimal 10 == 10)%Q.
Proof. reflexivity. Qed.

(** Clamping to [0, 10] and rounding to one decimal commute. *)
Lemma clamp_round_commute (x : Q) :
  (clamp0_10 (roundOneDecimal x) == roundOneDecimal (clamp0_10 x))%Q.
Proof.
  destruct (Qlt_le_dec x 0) as [Hneg | Hpos].
  - apply Qlt_le_weak in Hneg.
    rewrite (clamp_low x Hneg), roundOneDecimal_0.
    apply clamp_low. rewrite <- roundOneDecimal_0. apply roundOneDecimal_mono, Hneg.
  - destruct (Qlt_le_dec 10 x) as [Hbig | Hsmall].
    + apply Qlt_le_weak in Hbig.
      rewrite (clamp_high x Hbig), roundOneDecimal_10.
      apply clamp_high. rewrite <- roundOneDecimal_10. apply roundOneDecimal_mono, Hbig.
    + rewrite (clamp_mid x Hpos Hsmall).
      apply clamp_mid.
      * rewrite <- roundOneDecimal_0. apply roundOneDecimal_mono, Hpos.
      * rewrite <- roundOneDecimal_10. apply roundOneDecimal_mono, Hsmall.
Qed.

Lemma scoreThread_range (thread : Thread) (company : Company) :
  (0 <= fst (QualityChecker.scoreThread thread company))%Q /\
  (fst (QualityChecker.scoreThread thread company) <= 10)%Q.
Proof.
  unfold QualityChecker.scoreThread. cbn [fst].
  repeat match goal with
         | |- context [if ?c then _ else _] => destruct c
         end;
    split; unfold Qle; simpl; lia.
Qed.

(** C7: the batch score is the score of the specification (10 minus the
    deductions per issue and warning, plus the bonus, clamped and rounded
    to one decimal), and the score of a thread lies in [0, 10]. *)
Theorem overallScore_formula_and_thread_range
    (issues : list QualityIssue) (warnings : list WarningMessage)
    (threadCount : nat) (thread : Thread) (company : Company) :
  (QualityChecker.calculateOverallScore issues warnings threadCount
   == specOverallScore issues warnings threadCount)%Q /\
  (0 <= QualityChecker.calculateOverallScore issues warnings threadCount)%Q /\
  (QualityChecker.calculateOverallScore issues warnings threadCount <= 10)%Q /\
  (0 <= fst (QualityChecker.scoreThread thread company))%Q /\
  (fst (QualityChecker.scoreThread thread company) <= 10)%Q.
Proof.
  assert (Hform :
    (QualityChecker.calculateOverallScore issues warnings threadCount
     == specOverallScore issues warnings threadCount)%Q).
  { unfold QualityChecker.calculateOverallScore, specOverallScore.
    change (Qmax 0 (Qmin 10 (inject_Z (mathRound (?x * 10)) / 10)))
      with (clamp0_10 (roundOneDecimal x)).
    rewrite clamp_round_commute.
    apply roundOneDecimal_proper, clamp_proper.
    destruct (3 <=? threadCount)%nat; rewrite foldl_deductions; ring. }
  split; [exact Hform |].
  split; [| split; [| apply scoreThread_range]].
  - unfold QualityChecker.calculateOverallScore. apply Q.le_max_l.
  - unfold QualityChecker.calculateOverallScore.
    apply Q.max_lub; [discriminate | apply Q.le_min_l].
Qed.

(** ** lib/planner/qualityChecker: overposting *)

(** C8, at the failing input: two posts in r/consulting exceed the
    effective weekly cap of that subreddit (1, from its preset), yet
    [checkOverposting] compares with the default cap (2) and reports
    nothing; the revision that reads the effective constraints reports the
    high-severity issue. *)
Theorem checkOverposting_misses_effective_cap :
  maxPostsPerSubredditPerWeek
    (Constraints.getSubredditConstraints Sample.consulting
       Constraints.DEFAULT_CONSTRAINTS) = 1 /\
  postCount "r/consulting" Sample.consultingThreads = 2 /\
  QualityChecker.checkOverposting Sample.consultingThreads = [] /\
  QualityCheckerRevised.checkOverposting Sample.consultingThreads
    (Some [Sample.consulting]) None
  = [ {| issue_type := overposting; severity := high;
         message := MsgOverposting "r/consulting" 2 1;
         affectedPostIds := Some ["post_1"; "post_2"] |} ].
Proof. repeat split; vm_compute; reflexivity. Qed.

(** *** Records in insertion order *)
Section Assoc.
Context {K V : Type} `{EqDecision K}.
Implicit Types (l : list (K * V)) (k : K) (v : V).

Lemma assocGet_set_eq k v l : assocGet k (assocSet k v l) = Some v.
Proof.
  induction l as [| [k' v'] l IH]; simpl.
  - rewrite bool_decide_eq_true_2; reflexivity.
  - destruct (bool_decide (k' = k)) eqn:E; simpl; rewrite E; [reflexivity | exact IH].
Qed.

Lemma assocGet_set_ne k k' v l : k <> k' -> assocGet k' (assocSet k v l) = assocGet k' l.
Proof.
  intros Hne. induction l as [| [k0 v0] l IH]; simpl.
  - rewrite bool_decide_eq_false_2; [reflexivity | exact Hne].
  - destruct (bool_decide (k0 = k)) eqn:E; simpl.
    + apply bool_decide_eq_true_1 in E. subst k0.
      rewrite !bool_decide_eq_false_2 by exact Hne. reflexivity.
    + destruct (bool_decide (k0 = k')); [reflexivity | exact IH].
Qed.

Lemma assocGet_Some_elem k v l : assocGet k l = Some v -> (k, v) ∈ l.
Proof.
  induction l as [| [k0 v0] l IH]; simpl; [discriminate |].
  destruct (bool_decide (k0 = k)) eqn:E.
  - apply bool_decide_eq_true_1 in E. intros [= ->]. subst. apply list_elem_of_here.
  - intros Hget. apply list_elem_of_further, IH, Hget.
Qed.

Lemma assocGet_None_keys k l : assocGet k l = None -> k ∉ l.*1.
Proof.
  induction l as [| [k0 v0] l IH]; simpl.
  - intros _. apply not_elem_of_nil.
  - destruct (bool_decide (k0 = k)) eqn:E; [discriminate |].
    apply bool_decide_eq_false_1 in E. intros Hget.
    rewrite not_elem_of_cons. split; [congruence | apply IH, Hget].
Qed.

Lemma elem_assocGet k v l : NoDup l.*1 -> (k, v) ∈ l -> assocGet k l = Some v.
Proof.
  induction l as [| [k0 v0] l IH]; simpl; intros Hnd Hin.
  - apply elem_of_nil in Hin. contradiction.
  - apply NoDup_cons in Hnd as [Hk0 Hnd].
    apply elem_of_cons in Hin as [Heq | Hin].
    + injection Heq as -> ->. rewrite bool_decide_eq_true_2; reflexivity.
    + rewrite bool_decide_eq_false_2; [apply IH; assumption |].
      intros ->. apply Hk0. apply (list_elem_of_fmap_2 fst) in Hin. exact Hin.
Qed.

Lemma assocSet_keys_NoDup k v l : NoDup l.*1 -> NoDup (assocSet k v l).*1.
Proof.
  induction l as [| [k0 v0] l IH]; simpl; intros Hnd.
  - apply NoDup_singleton.
  - apply NoDup_cons in Hnd as [Hk0 Hnd].
    destruct (bool_decide (k0 = k)) eqn:E; simpl.
    + apply NoDup_cons. split; assumption.
    + apply bool_decide_eq_false_1 in E.
      apply NoDup_cons. split; [| apply IH, Hnd].
      intros Hin. apply list_elem_of_fmap in Hin as [[k1 v1] [Hk1 Hin]].
      simpl in Hk1. subst k1.
      destruct (decide (k0 = k)) as [-> | Hne]; [congruence |].
      apply Hk0. apply list_elem_of_fmap. exists (k0, v1). split; [reflexivity |].
      apply assocGet_Some_elem.
      rewrite <- (assocGet_set_ne k k0 v l) by congruence.
      apply elem_assocGet; [apply IH, Hnd | exact Hin].
Qed.
End Assoc.

Lemma postCount_cons (name : string) (t : Thread) (threads : list Thread) :
  postCount name (t :: threads) =
  postCount name threads + (if decide (subredditName (post t) = name) then 1 else 0).
Proof.
  unfold postCount. rewrite filter_cons.
  destruct (decide (subredditName (post t) = name)); simpl length; lia.
Qed.

Lemma postCount_nonneg (name : string) (threads : list Thread) : 0 <= postCount name threads.
Proof. unfold postCount. lia. Qed.

Lemma countBySubreddit_fold (threads : list Thread) :
  QualityChecker.countBySubreddit threads = foldl tallyStep [] threads.
Proof. reflexivity. Qed.

Lemma tally_invariant (threads : list Thread) :
  forall acc : list (string * (Z * list string)),
    NoDup acc.*1 ->
    NoDup (foldl tallyStep acc threads).*1 /\
    forall name,
      fst <$> assocGet name (foldl tallyStep acc threads) =
      if decide (postCount name threads = 0) then fst <$> assocGet name acc
      else Some (default 0 (fst <$> assocGet name acc) + postCount name threads).
Proof.
  induction threads as [| t threads IH]; intros acc Hnd.
  - simpl. split; [exact Hnd |]. intros name. reflexivity.
  - simpl foldl.
    assert (Hstep : NoDup (tallyStep acc t).*1).
    { unfold tallyStep. destruct (default (0, []) _) as [c ids].
      apply assocSet_keys_NoDup, Hnd. }
    destruct (IH _ Hstep) as [Hnd' Hcount]. split; [exact Hnd' |].
    intros name. rewrite Hcount, postCount_cons.
    pose proof (postCount_nonneg name threads) as Hpos.
    assert (Hget : fst <$> assocGet name (tallyStep acc t) =
                   if decide (subredditName (post t) = name)
                   then Some (default 0 (fst <$> assocGet name acc) + 1)
                   else fst <$> assocGet name acc).
    { unfold tallyStep. destruct (decide (subredditName (post t) = name)) as [<- | Hne].
      - destruct (assocGet (subredditName (post t)) acc) as [[c ids] |] eqn:E; simpl;
          rewrite assocGet_set_eq; reflexivity.
      - destruct (default (0, []) _) as [c ids].
        rewrite assocGet_set_ne by exact Hne. reflexivity. }
    rewrite Hget.
    destruct (decide (subredditName (post t) = name));
      repeat case_decide; simpl; try lia; try reflexivity; f_equal; lia.
Qed.

(** The tally holds exactly the subreddits that have posts, each once, with
    its number of posts. *)
Lemma countBySubreddit_spec (threads : list Thread) (name : string) (c : Z)
    (ids : list string) :
  (name, (c, ids)) ∈ QualityChecker.countBySubreddit threads ->
  c = postCount name threads.
Proof.
  intros Hin. rewrite countBySubreddit_fold in Hin.
  destruct (tally_invariant threads [] (NoDup_nil_2)) as [Hnd Hcount].
  apply (elem_assocGet _ _ _ Hnd) in Hin.
  specialize (Hcount name). rewrite Hin in Hcount. simpl in Hcount.
  case_decide; [discriminate | injection Hcount as ->; lia].
Qed.

Lemma countBySubreddit_complete (threads : list Thread) (name : string) :
  postCount name threads <> 0 ->
  exists ids, (name, (postCount name threads, ids)) ∈ QualityChecker.countBySubreddit threads.
Proof.
  intros Hne. rewrite countBySubreddit_fold.
  destruct (tally_invariant threads [] (NoDup_nil_2)) as [Hnd Hcount].
  specialize (Hcount name). rewrite decide_False in Hcount by exact Hne.
  simpl in Hcount.
  destruct (assocGet name (foldl tallyStep [] threads)) as [[c ids] |] eqn:E;
    [| discriminate].
  simpl in Hcount. injection Hcount as ->.
  exists ids. apply assocGet_Some_elem in E.
  replace (postCount name threads) with (0 + postCount name threads) by lia. exact E.
Qed.

(** The revised check flags a subreddit of the batch, with a high-severity
    overposting issue, exactly when its number of posts exceeds its
    effective cap. *)
Lemma checkOverposting_revised_iff (threads : list Thread)
    (subreddits : option (list Subreddit)) (constraints : option PlannerConstraints)
    (name : string) :
  0 < postCount name threads ->
  (exists issue count max,
      issue ∈ QualityCheckerRevised.checkOverposting threads subreddits constraints /\
      issue_type issue = overposting /\ severity issue = high /\
      message issue = MsgOverposting name count max)
  <->
  maxPostsPerSubredditPerWeek
    (QualityCheckerRevised.effectiveFor subreddits constraints name)
  < postCount name threads.
Proof.
  intros Hposts. unfold QualityCheckerRevised.checkOverposting. split.
  - intros (issue & count & max & Hin & _ & _ & Hmsg).
    apply list_elem_of_omap in Hin as ([name' [c ids]] & Hin & Hsome).
    destruct (_ <? c) eqn:Hlt; [| discriminate].
    injection Hsome as <-. simpl in Hmsg. injection Hmsg as -> _ _.
    apply countBySubreddit_spec in Hin. rewrite <- Hin. apply Z.ltb_lt, Hlt.
  - intros Hlt.
    destruct (countBySubreddit_complete threads name) as [ids Hin]; [lia |].
    eexists _, _, _. split.
    + apply list_elem_of_omap. exists (name, (postCount name threads, ids)).
      split; [exact Hin |]. simpl.
      apply Z.ltb_lt in Hlt. rewrite Hlt. reflexivity.
    + simpl. auto.
Qed.

(** ** lib/planner/qualityChecker: the quality engine *)

(** C9: the quality engine hands the threads back unchanged, and a second
    run on them (same company, subreddits, constraints and options) builds
    the same report: score, issues, warnings, suggestions and both per-post
    indexes. *)
Theorem checkQuality_idempotent (config : QualityChecker.QualityCheckConfig) :
  let first := QualityChecker.checkQuality config in
  let second := QualityChecker.checkQuality (rerunConfig config first) in
  QualityChecker.validatedThreads first = QualityChecker.cfg_threads config /\
  QualityChecker.report second = QualityChecker.report first /\
  QualityChecker.validatedThreads second = QualityChecker.validatedThreads first.
Proof. destruct config. repeat split. Qed.

(** ** lib/planner/index: validation *)

Lemma validationErrors_capacity (input : Planner.PlannerInput)
    (constraints : PlannerConstraints) :
  Z.of_nat (length (Planner.subreddits input))
    * maxPostsPerSubredditPerWeek constraints < Planner.postsPerWeek input ->
  Planner.capacityError input constraints ∈ Planner.validationErrors input constraints.
Proof.
  intros Hlt. apply Z.ltb_lt in Hlt. unfold Planner.validationErrors.
  rewrite Hlt. rewrite !elem_of_app.
  right. right. right. right. right. right. left. apply list_elem_of_here.
Qed.

Lemma elem_of_guarded (c : bool) (m e : string) :
  e ∈ (if c then [m] else []) <-> c = true /\ e = m.
Proof.
  destruct c.
  - rewrite list_elem_of_singleton. tauto.
  - split; [intros H; apply elem_of_nil in H; contradiction | intros [H _]; discriminate].
Qed.

(** The array [errors] of [validateInput] holds one line per fault of the
    request, and nothing else. *)
Lemma validationErrors_faults (input : Planner.PlannerInput)
    (constraints : PlannerConstraints) (e : string) :
  e ∈ Planner.validationErrors input constraints <->
  ValidationFault input constraints e.
Proof.
  unfold Planner.validationErrors.
  rewrite !elem_of_app, !elem_of_guarded, list_elem_of_omap.
  rewrite orb_true_iff, !String.eqb_eq, Nat.ltb_lt, !Nat.eqb_eq, !Z.ltb_lt.
  rewrite !length_zero_iff_nil.
  split.
  - intros [[Hc ->] | [[Hp ->] | [(persona & Hin & Hsome) | [[Hs ->] | [[Hk ->] |
      [[Hn ->] | [[Hcap ->] | Hdate]]]]]]].
    + apply FaultCompany, Hc.
    + apply FaultPersonas, Hp.
    + destruct (_ || _) eqn:E in Hsome; [| discriminate].
      injection Hsome as <-. apply FaultPersonaFields; [exact Hin |].
      rewrite !orb_true_iff, !String.eqb_eq in E. tauto.
    + apply FaultSubreddits, Hs.
    + apply FaultKeywords, Hk.
    + apply FaultPosts, Hn.
    + apply FaultCapacity, Hcap.
    + destruct (Planner.weekStartDate input) eqn:E;
        [apply elem_of_nil in Hdate; contradiction |].
      apply list_elem_of_singleton in Hdate as ->. apply FaultDate, E.
  - intros [Hc | Hp | persona Hin Hf | Hs | Hk | Hn | Hcap | Hdate].
    + left. tauto.
    + right. left. tauto.
    + right. right. left. exists persona. split; [exact Hin |].
      assert (E : String.eqb (persona_id persona) ""
                  || String.eqb (persona_username persona) ""
                  || String.eqb (persona_bio persona) "" = true)
        by (rewrite !orb_true_iff, !String.eqb_eq; tauto).
      rewrite E. reflexivity.
    + right. right. right. left. tauto.
    + do 4 right. left. tauto.
    + do 5 right. left. tauto.
    + do 6 right. left. tauto.
    + do 7 right. rewrite Hdate. apply list_elem_of_here.
Qed.

(** C3: a request for more posts than the venues can take under the weekly
    cap in force makes [generateWeeklyCalendar] throw before any phase
    runs: whatever the phases are, all it has done by then is to log its
    start (one value of [Math.random ()] drawn for the id of the entry);
    nothing is asked of the backend and no slot is generated.  The error
    is one error whose message has, after its first line, one line per
    fault of the request and no other line: the line of the capacity
    fault, and with it the lines of every other fault there is (too few
    personas, a persona without id, name or bio, no venue, no keyword,
    a post count below 1, a date that is not valid, a company without id
    or name). *)
Theorem generateWeeklyCalendar_over_capacity {PlannerOutput : Type}
    (runPhases : Planner.PlannerInput -> PlannerConstraints -> Eff PlannerOutput)
    (input : Planner.PlannerInput) (w : World) :
  let constraints :=
    Planner.applyRiskTolerance
      (default Constraints.DEFAULT_CONSTRAINTS (Planner.constraints input))
      (Planner.riskTolerance input) in
  Z.of_nat (length (Planner.subreddits input))
    * maxPostsPerSubredditPerWeek constraints < Planner.postsPerWeek input ->
  exists errors,
    Planner.generateWeeklyCalendar runPhases input w
    = (Throw ("Invalid planner input:" +:+ String "010" ""
              +:+ joinWith (String "010" "") ((fun e => "  - " +:+ e) <$> errors)),
       afterStartLog input w) /\
    ("Cannot schedule " +:+ pretty (Planner.postsPerWeek input)
     +:+ " posts with only " +:+ pretty (length (Planner.subreddits input))
     +:+ " subreddits (max " +:+ pretty (maxPostsPerSubredditPerWeek constraints)
     +:+ " per subreddit)") ∈ errors /\
    forall e, e ∈ errors <-> ValidationFault input constraints e.
Proof.
  intros constraints Hlt.
  exists (Planner.validationErrors input constraints).
  pose proof (validationErrors_capacity input constraints Hlt) as Hin.
  split; [| split; [exact Hin | apply validationErrors_faults]].
  unfold Planner.generateWeeklyCalendar, Planner.validateInput. fold constraints.
  destruct (Planner.validationErrors input constraints) as [| e errors] eqn:E.
  - apply elem_of_nil in Hin. contradiction.
  - reflexivity.
Qed.

Lemma generateWeeklyCalendar_over_capacity_witness :
  (exists errors,
     Planner.generateWeeklyCalendar (fun _ _ => ret tt) Fixtures.twoFaultsInput
       Sample.zeroWorld
     = (Throw ("Invalid planner input:" +:+ String "010" ""
               +:+ joinWith (String "010" "") ((fun e => "  - " +:+ e) <$> errors)),
        afterStartLog Fixtures.twoFaultsInput Sample.zeroWorld) /\
     "Cannot schedule 5 posts with only 1 subreddits (max 2 per subreddit)" ∈ errors /\
     forall e, e ∈ errors <->
       ValidationFault Fixtures.twoFaultsInput Constraints.DEFAULT_CONSTRAINTS e) /\
  Planner.generateWeeklyCalendar (fun _ _ => ret tt) Fixtures.twoFaultsInput
    Sample.zeroWorld
  = (Throw ("Invalid planner input:" +:+ String "010" ""
            +:+ "  - At least 2 personas are required" +:+ String "010" ""
            +:+ "  - Cannot schedule 5 posts with only 1 subreddits (max 2 per subreddit)"),
     afterStartLog Fixtures.twoFaultsInput Sample.zeroWorld).
Proof.
  split; [| vm_compute; reflexivity].
  apply (generateWeeklyCalendar_over_capacity (fun _ _ => ret tt)
           Fixtures.twoFaultsInput Sample.zeroWorld).
  vm_compute. reflexivity.
Defined.

(** ** Effectful code: the rules of [returns] *)

#[global] Instance anyWorld_stable : Stable anyWorld.
Proof. intros w w' _ _ _ _ _. exact I. Qed.

#[global] Instance fairWorld_stable : Stable fairWorld.
Proof. intros w w' Hr _ _ _ H. unfold fairWorld in *. rewrite Hr. exact H. Qed.

#[global] Instance mockWorld_stable : Stable mockWorld.
Proof.
  intros w w' Hr _ _ Hm [H1 H2]. unfold mockWorld. rewrite Hr, Hm. split; assumption.
Qed.

#[global] Instance liveWorld_stable : Stable liveWorld.
Proof.
  intros w w' Hr _ _ Hm [H1 H2]. unfold liveWorld. rewrite Hr, Hm. split; assumption.
Qed.

Section Returns.
Context (I : World -> Prop) `{!Stable I}.

Lemma returns_ret {A} (a : A) (P : A -> Prop) : P a -> returns I (ret a) P.
Proof. intros HP w Hw. exists a, w. auto. Qed.

Lemma returns_bind {A B} (m : Eff A) (k : A -> Eff B) (Q : A -> Prop) (P : B -> Prop) :
  returns I m Q -> (forall a, Q a -> returns I (k a) P) -> returns I (bind m k) P.
Proof.
  intros Hm Hk w Hw. destruct (Hm w Hw) as (a & w1 & E1 & Hw1 & Ha).
  destruct (Hk a Ha w1 Hw1) as (b & w2 & E2 & Hw2 & Hb).
  exists b, w2. unfold bind. rewrite E1. auto.
Qed.

Lemma returns_weaken {A} (m : Eff A) (P Q : A -> Prop) :
  returns I m P -> (forall a, P a -> Q a) -> returns I m Q.
Proof.
  intros Hm HPQ w Hw. destruct (Hm w Hw) as (a & w1 & E1 & Hw1 & Ha).
  exists a, w1. auto.
Qed.

Lemma returns_random : returns I random (fun _ => True).
Proof.
  intros w Hw. eexists _, _. split; [reflexivity |]. split; [| exact Logic.I].
  apply (stable w); auto.
Qed.

Lemma returns_generateWithAI : returns I generateWithAI (fun _ => True).
Proof.
  intros w Hw. eexists _, _. split; [reflexivity |]. split; [| exact Logic.I].
  apply (stable w); auto.
Qed.

Lemma returns_uuidv4 : returns I uuidv4 (fun _ => True).
Proof.
  intros w Hw. eexists _, _. split; [reflexivity |]. split; [| exact Logic.I].
  apply (stable w); auto.
Qed.

Lemma returns_addLog (level : LogLevel) (message : string)
    (meta : list (string * LogValue)) :
  returns I (addLog level message meta) (fun _ => True).
Proof.
  intros w Hw. eexists _, _. split; [reflexivity |]. split; [| exact Logic.I].
  apply (stable w); auto.
Qed.

Lemma returns_randomBelow (n : Z) : returns I (randomBelow n) (fun _ => True).
Proof.
  unfold randomBelow. eapply returns_bind; [apply returns_random |].
  intros r _. apply returns_ret. exact Logic.I.
Qed.

Lemma returns_mapM {A B} (f : A -> Eff B) (Q : A -> B -> Prop) (l : list A) :
  (forall x, x ∈ l -> returns I (f x) (Q x)) ->
  returns I (mapM f l) (fun ys => Forall2 Q l ys).
Proof.
  induction l as [| x l IH]; intros Hf; simpl.
  - apply returns_ret. constructor.
  - eapply returns_bind; [apply Hf, list_elem_of_here |].
    intros y Hy. eapply returns_bind.
    + apply IH. intros x' Hx'. apply Hf, list_elem_of_further, Hx'.
    + intros ys Hys. apply returns_ret. constructor; assumption.
Qed.

Lemma returns_filterM {A} (f : A -> Eff bool) (Q : A -> bool -> Prop) (l : list A) :
  (forall x, x ∈ l -> returns I (f x) (Q x)) ->
  returns I (filterM f l)
    (fun ys => forall y, y ∈ ys -> y ∈ l /\ Q y true).
Proof.
  induction l as [| x l IH]; intros Hf; simpl.
  - apply returns_ret. intros y Hy. apply elem_of_nil in Hy. contradiction.
  - eapply returns_bind; [apply Hf, list_elem_of_here |].
    intros keep Hkeep. eapply returns_bind.
    + apply IH. intros x' Hx'. apply Hf, list_elem_of_further, Hx'.
    + intros ys Hys. apply returns_ret. intros y Hy.
      destruct keep.
      * apply elem_of_cons in Hy as [-> | Hy].
        -- split; [apply list_elem_of_here | exact Hkeep].
        -- destruct (Hys y Hy). split; [apply list_elem_of_further |]; assumption.
      * destruct (Hys y Hy). split; [apply list_elem_of_further |]; assumption.
Qed.

End Returns.

(** In a fair world [Math.random ()] is a value of [0, 1). *)
Lemma returns_random_fair (I : World -> Prop) `{!Stable I} :
  (forall w, I w -> rng_ok (rng w)) ->
  returns I random (fun r => (0 <= r)%Q /\ (r < 1)%Q).
Proof.
  intros Hfair w Hw. eexists _, _. split; [reflexivity |]. split.
  - apply (stable w); auto.
  - apply (Hfair w Hw).
Qed.

(** *** The stable sort *)
Lemma insertDesc_Permutation {A} (x : A * Q) (l : list (A * Q)) :
  insertDesc x l ≡ₚ x :: l.
Proof.
  induction l as [| y l IH]; simpl; [reflexivity |].
  destruct (Qltb (snd x) (snd y)); [| reflexivity].
  rewrite IH. apply Permutation_swap.
Qed.

Lemma sortDesc_Permutation {A} (l : list (A * Q)) : sortDesc l ≡ₚ l.
Proof.
  induction l as [| x l IH]; simpl; [reflexivity |].
  rewrite insertDesc_Permutation, IH. reflexivity.
Qed.

Lemma Forall2_fst_eq {A} (l : list A) (scored : list (A * Q)) :
  Forall2 (fun x y => fst y = x) l scored -> fst <$> scored = l.
Proof.
  induction 1 as [| x y l l' Hxy _ IH]; [reflexivity |].
  rewrite fmap_cons. f_equal; assumption.
Qed.

(** ** lib/planner/subredditMatcher *)
Section Matcher.
Context (I : World -> Prop) `{!Stable I}.
Import SubredditMatcher Constraints.

Lemma returns_selectSubreddit (subs : list Subreddit) (usage : gmap string PostUsage)
    (date : Z) (cs : PlannerConstraints) :
  returns I (selectSubreddit subs usage date cs)
    (fun o => forall sub, o = Some sub ->
       sub ∈ subs /\ canPostToSubreddit (subreddit_id sub) usage cs date = true).
Proof.
  unfold selectSubreddit.
  set (eligible := filter _ subs).
  assert (Hel : forall sub, sub ∈ eligible ->
            sub ∈ subs /\ canPostToSubreddit (subreddit_id sub) usage cs date = true).
  { intros sub Hin. apply list_elem_of_filter in Hin. tauto. }
  destruct eligible as [| e eligible'] eqn:E.
  - apply returns_ret. intros sub [=].
  - rewrite <- E in *. clear E.
    eapply returns_bind.
    + apply (returns_mapM I _ (fun sub y => fst y = sub)).
      intros sub _. eapply returns_bind; [apply returns_random; assumption |].
      intros r _. apply returns_ret; reflexivity.
    + intros scored Hscored. apply returns_ret.
      intros sub Hhead. apply Hel.
      apply Forall2_fst_eq in Hscored. rewrite <- Hscored.
      destruct (sortDesc scored) as [| [sub' q] rest] eqn:Es; [discriminate |].
      simpl in Hhead. injection Hhead as <-.
      apply list_elem_of_fmap. exists (sub', q). split; [reflexivity |].
      rewrite <- (sortDesc_Permutation scored), Es. apply list_elem_of_here.
Qed.

Lemma returns_selectKeywords (kws : list Keyword) (sub : Subreddit)
    (usage : list (string * Z)) (pen : gmap string Q) (n : nat) :
  returns I (selectKeywords kws sub usage pen n) (fun _ => True).
Proof.
  unfold selectKeywords. eapply returns_bind.
  - apply (returns_mapM I _ (fun _ _ => True)).
    intros kw _. eapply returns_bind; [apply returns_random; assumption |].
    intros r _. apply returns_ret; exact Logic.I.
  - intros scored _. apply returns_ret; exact Logic.I.
Qed.

Lemma matchedCount_app (id : string) (l : list MatchedSlot) (s : MatchedSlot) :
  matchedCount id (l ++ [s]) =
  matchedCount id l + (if decide (subreddit_id (ms_subreddit s) = id) then 1 else 0).
Proof.
  unfold matchedCount. rewrite filter_app, length_app, filter_cons, filter_nil.
  destruct (decide (subreddit_id (ms_subreddit s) = id)); simpl length; lia.
Qed.

Lemma canPost_room (id : string) (usage : gmap string PostUsage)
    (cs : PlannerConstraints) (date : Z) :
  1 <= maxPostsPerSubredditPerWeek cs ->
  canPostToSubreddit id usage cs date = true ->
  usagePosts usage id + 1 <= maxPostsPerSubredditPerWeek cs.
Proof.
  intros Hcap. unfold canPostToSubreddit, usagePosts.
  destruct (usage !! id) as [u |]; [| lia].
  destruct (_ <=? pu_postsThisWeek u) eqn:E; [discriminate |].
  apply Z.leb_gt in E. lia.
Qed.

Lemma returns_matchSlot (subs : list Subreddit) (kws : list Keyword)
    (pen : gmap string Q) (cs : PlannerConstraints) (st : LoopState) (slot : TimeSlot) :
  1 <= maxPostsPerSubredditPerWeek cs ->
  MatcherInv (maxPostsPerSubredditPerWeek cs) subs st ->
  returns I (matchSlot subs kws pen cs st slot)
    (fun st' =>
       MatcherInv (maxPostsPerSubredditPerWeek cs) subs st' /\
       (length (matchedSlots st') + length (skipped st')
        = S (length (matchedSlots st) + length (skipped st)))%nat).
Proof.
  intros Hcap (Hcount & Hle & Hsub). unfold matchSlot.
  eapply returns_bind; [apply returns_selectSubreddit |].
  intros [sub |] Hsel.
  - destruct (Hsel sub eq_refl) as [Hin Hcan].
    eapply returns_bind; [apply returns_selectKeywords |].
    intros kwsel _. apply returns_ret.
    unfold MatcherInv. cbn beta. cbn [matchedSlots subredditUsage skipped].
    pose proof (canPost_room _ _ _ _ Hcap Hcan) as Hroom.
    split; [split; [| split] |].
    + intros id. rewrite matchedCount_app. cbn [ms_subreddit].
      unfold usagePosts at 1. rewrite lookup_insert.
      destruct (decide (subreddit_id sub = id)) as [<- | Hne]; simpl.
      * rewrite Hcount. unfold usagePosts.
        destruct (subredditUsage st !! subreddit_id sub); reflexivity.
      * rewrite Hcount. unfold usagePosts. lia.
    + intros id. unfold usagePosts at 1. rewrite lookup_insert.
      destruct (decide (subreddit_id sub = id)) as [<- | Hne]; simpl.
      * unfold usagePosts in Hroom.
        destruct (subredditUsage st !! subreddit_id sub); exact Hroom.
      * apply Hle.
    + intros s Hs. apply elem_of_app in Hs as [Hs | Hs]; [apply Hsub, Hs |].
      apply list_elem_of_singleton in Hs. subst s. exact Hin.
    + rewrite length_app. simpl. lia.
  - apply returns_ret.
    unfold MatcherInv. cbn beta. cbn [matchedSlots subredditUsage skipped].
    split; [split; [| split]; assumption |].
    rewrite length_app. simpl. lia.
Qed.

Lemma returns_matchLoop (subs : list Subreddit) (kws : list Keyword)
    (pen : gmap string Q) (cs : PlannerConstraints) (slots : list TimeSlot) :
  1 <= maxPostsPerSubredditPerWeek cs ->
  forall st,
    MatcherInv (maxPostsPerSubredditPerWeek cs) subs st ->
    returns I (matchLoop subs kws pen cs st slots)
      (fun st' =>
         MatcherInv (maxPostsPerSubredditPerWeek cs) subs st' /\
         (length (matchedSlots st') + length (skipped st')
          = length (matchedSlots st) + length (skipped st) + length slots)%nat).
Proof.
  intros Hcap. induction slots as [| slot slots IH]; intros st Hinv; simpl.
  - apply returns_ret. split; [exact Hinv | lia].
  - eapply returns_bind; [apply returns_matchSlot; assumption |].
    intros st1 [Hinv1 Hlen1]. eapply returns_weaken; [apply IH, Hinv1 |].
    intros st2 [Hinv2 Hlen2]. split; [exact Hinv2 | lia].
Qed.

End Matcher.

(** What [matchSubreddits] does guarantee: with sufficient venue diversity
    it ends normally and gives no subreddit more matched slots than the
    weekly cap of the constraints of the run
    ([config.constraints || DEFAULT_CONSTRAINTS], the same number for every
    venue: presets and sensitivity are not looked up); every input slot is
    either matched, to one of the input subreddits, or dropped with one
    entry in [topicsSkipped]. *)
Theorem matchSubreddits_respects_cap
    (config : SubredditMatcher.SubredditMatcherConfig) (w : World) :
  sufficientVenueDiversity config ->
  exists result w',
    SubredditMatcher.matchSubreddits config w = (Ok result, w') /\
    (forall id,
        matchedCount id (SubredditMatcher.slots result)
        <= maxPostsPerSubredditPerWeek
             (default Constraints.DEFAULT_CONSTRAINTS
                (SubredditMatcher.cfg_constraints config))) /\
    (length (SubredditMatcher.slots result)
     + length (SubredditMatcher.topicsSkipped result)
     = length (SubredditMatcher.cfg_slots config))%nat /\
    (forall s, s ∈ SubredditMatcher.slots result ->
               ms_subreddit s ∈ SubredditMatcher.cfg_subreddits config).
Proof.
  intros [Hone Hfit].
  set (cs := default Constraints.DEFAULT_CONSTRAINTS
               (SubredditMatcher.cfg_constraints config)) in *.
  assert (Hcap : 1 <= maxPostsPerSubredditPerWeek cs) by nia.
  unfold SubredditMatcher.matchSubreddits. fold cs.
  set (st0 := {| SubredditMatcher.matchedSlots := [];
                 SubredditMatcher.subredditUsage := ∅;
                 SubredditMatcher.usageOrder := [];
                 SubredditMatcher.keywordUsageSoFar := [];
                 SubredditMatcher.skipped := [] |}).
  assert (Hinv0 : MatcherInv (maxPostsPerSubredditPerWeek cs)
                    (SubredditMatcher.cfg_subreddits config) st0).
  { split; [| split].
    - intros id. reflexivity.
    - intros id. unfold usagePosts. simpl. rewrite lookup_empty. lia.
    - intros s Hs. apply elem_of_nil in Hs. contradiction. }
  destruct (returns_matchLoop anyWorld (SubredditMatcher.cfg_subreddits config)
              (SubredditMatcher.cfg_keywords config)
              (SubredditMatcher.buildFreshnessPenalties
                 (SubredditMatcher.cfg_previousWeeks config))
              cs (SubredditMatcher.cfg_slots config) Hcap st0 Hinv0 w Logic.I)
    as (st & w' & Hrun & _ & (Hcount & Hle & Hsub) & Hlen).
  eexists _, w'. split.
  - unfold bind. rewrite Hrun. reflexivity.
  - simpl. split; [| split].
    + intros id. rewrite Hcount. apply Hle.
    + simpl in Hlen. lia.
    + exact Hsub.
Qed.

(** ** lib/planner/personaAssigner *)

Lemma Qfloor_random_nonneg (r : Q) (m : Z) :
  (0 <= r)%Q -> 0 <= m -> 0 <= Qfloor (r * inject_Z m).
Proof.
  intros Hr Hm. change 0 with (Qfloor 0). apply Qfloor_resp_le.
  apply Qmult_le_0_compat; [exact Hr |]. unfold Qle. simpl. lia.
Qed.

Lemma Qfloor_random_below (r : Q) (m : Z) :
  (r < 1)%Q -> 1 <= m -> Qfloor (r * inject_Z m) < m.
Proof.
  intros Hr Hm. rewrite Zlt_Qlt.
  apply Qle_lt_trans with (r * inject_Z m)%Q; [apply Qfloor_le |].
  rewrite <- (Qmult_1_l (inject_Z m)) at 2.
  apply Qmult_lt_compat_r; [| exact Hr].
  unfold Qlt. simpl. lia.
Qed.

Lemma pickCommenters_spec (scored : list Persona) (count : Z) :
  forall selected,
  exists extra,
    PersonaAssigner.pickCommenters scored count selected = selected ++ extra /\
    extra `sublist_of` scored /\
    Z.of_nat (length (selected ++ extra)) <= Z.max count (Z.of_nat (length selected)) /\
    (selected = [] -> scored <> [] -> 1 <= count -> extra <> []).
Proof.
  induction scored as [| p rest IH]; intros selected; simpl.
  - exists []. rewrite app_nil_r. repeat split; [constructor | lia | congruence].
  - destruct (count <=? Z.of_nat (length selected)) eqn:Hfull.
    + apply Z.leb_le in Hfull. exists []. rewrite app_nil_r.
      repeat split; [apply sublist_nil_l | lia |].
      intros -> _ Hcount. simpl in Hfull. lia.
    + apply Z.leb_gt in Hfull.
      assert (Hpush : exists extra,
                PersonaAssigner.pickCommenters rest count (selected ++ [p])
                = selected ++ extra /\
                extra `sublist_of` p :: rest /\
                Z.of_nat (length (selected ++ extra))
                <= Z.max count (Z.of_nat (length selected)) /\
                extra <> []).
      { destruct (IH (selected ++ [p])) as (extra & Heq & Hsub & Hlen & _).
        exists (p :: extra). rewrite Heq, <- app_assoc. simpl.
        repeat split; [apply sublist_skip, Hsub | | congruence].
        rewrite !length_app in Hlen. rewrite length_app.
        simpl length in *. lia. }
      destruct (last selected) as [lastSelected |] eqn:Hlast.
      * destruct (String.eqb _ _).
        -- destruct (IH selected) as (extra & Heq & Hsub & Hlen & _).
           exists extra. repeat split; [exact Heq | apply sublist_cons, Hsub | exact Hlen |].
           intros ->. discriminate.
        -- destruct Hpush as (extra & ? & ? & ? & ?). exists extra. auto.
      * destruct Hpush as (extra & ? & ? & ? & ?). exists extra. auto.
Qed.

Section Assigner.
Context (I : World -> Prop) `{!Stable I}.
Hypothesis fair : forall w, I w -> rng_ok (rng w).
Import PersonaAssigner Constraints.

Lemma returns_getTracker (usage : gmap string PersonaUsageTracker) (id : string) :
  is_Some (usage !! id) ->
  returns I (getTracker usage id) (fun t => usage !! id = Some t).
Proof.
  intros [t Ht]. unfold getTracker. rewrite Ht. apply returns_ret. reflexivity.
Qed.

Lemma returns_isPersonaFit (p : Persona) (tt : ThreadType) :
  returns I (isPersonaFitForThreadType p tt) (fun _ => True).
Proof.
  unfold isPersonaFitForThreadType.
  destruct (postingStyle p), tt;
    try (apply returns_ret; exact Logic.I);
    (eapply returns_bind; [apply returns_random; assumption |];
     intros r _; apply returns_ret; exact Logic.I).
Qed.

Lemma returns_selectOP (slot : MatchedSlot) (personas : list Persona)
    (usage : gmap string PersonaUsageTracker) (cs : PlannerConstraints) :
  AssignerInv personas usage ->
  returns I (selectOP slot personas usage cs)
    (fun o => forall p, o = Some p -> p ∈ personas).
Proof.
  intros Hinv. unfold selectOP.
  eapply returns_bind.
  - apply (returns_filterM I _ (fun _ _ => True)).
    intros p _. destruct (negb _).
    + apply returns_ret. exact Logic.I.
    + eapply returns_bind; [apply returns_isPersonaFit |].
      intros b _. apply returns_ret. exact Logic.I.
  - intros eligible Hel. destruct eligible as [| e eligible'] eqn:E.
    + apply returns_ret. intros p [=].
    + rewrite <- E in *. clear E.
      eapply returns_bind.
      * apply (returns_mapM I _ (fun p y => fst y = p)).
        intros p Hp. eapply returns_bind.
        -- apply returns_getTracker, Hinv, Hel, Hp.
        -- intros t _. eapply returns_bind; [apply returns_random; assumption |].
           intros r _. apply returns_ret. reflexivity.
      * intros scored Hscored. apply returns_ret.
        intros p Hhead. apply Hel.
        apply Forall2_fst_eq in Hscored. rewrite <- Hscored.
        destruct (sortDesc scored) as [| [p' q] rest] eqn:Es; [discriminate |].
        simpl in Hhead. injection Hhead as <-.
        apply list_elem_of_fmap. exists (p', q). split; [reflexivity |].
        rewrite <- (sortDesc_Permutation scored), Es. apply list_elem_of_here.
Qed.

Lemma returns_selectCommenters (op : Persona) (personas : list Persona) (count : Z)
    (usage : gmap string PersonaUsageTracker) (pairings : gset string)
    (cs : PlannerConstraints) :
  AssignerInv personas usage ->
  returns I (selectCommenters op personas count usage pairings cs)
    (fun sel =>
       (forall c, c ∈ sel -> c ∈ personas /\ persona_id c <> persona_id op) /\
       Z.of_nat (length sel) <= Z.max count 0 /\
       (NoDup (persona_id <$> personas) -> NoDup (persona_id <$> sel)) /\
       (1 <= count -> someoneFree cs personas usage op -> sel <> [])).
Proof.
  intros Hinv. unfold selectCommenters.
  set (strict := filter _ personas).
  set (relaxed := filter _ personas).
  set (relaxedEligible := match strict with [] => relaxed | _ => strict end).
  assert (Hsub : relaxedEligible `sublist_of` personas).
  { unfold relaxedEligible. destruct strict eqn:E; [apply sublist_filter |].
    rewrite <- E. apply sublist_filter. }
  assert (Hne : forall c, c ∈ relaxedEligible -> persona_id c <> persona_id op).
  { intros c Hc Heq. unfold relaxedEligible in Hc.
    assert (Hf : negb (String.eqb (persona_id c) (persona_id op)) = true).
    { destruct strict eqn:E.
      - apply list_elem_of_filter in Hc as [Hc _].
        apply Is_true_true in Hc. apply andb_true_iff in Hc. tauto.
      - rewrite <- E in Hc. apply list_elem_of_filter in Hc as [Hc _].
        apply Is_true_true in Hc. rewrite !andb_true_iff in Hc. tauto. }
    rewrite Heq, String.eqb_refl in Hf. discriminate. }
  assert (Hfree : someoneFree cs personas usage op -> relaxedEligible <> []).
  { intros (p & Hp & Hid & Hlim). unfold relaxedEligible.
    destruct strict eqn:E; [| discriminate].
    intros Hnil.
    assert (Hin : p ∈ relaxed).
    { apply list_elem_of_filter. split; [| exact Hp].
      apply Is_true_true. rewrite Hlim, andb_true_r.
      apply negb_true_iff, String.eqb_neq, Hid. }
    rewrite Hnil in Hin. apply elem_of_nil in Hin. exact Hin. }
  clearbody relaxedEligible. clear strict relaxed.
  destruct relaxedEligible as [| e rest] eqn:E.
  - apply returns_ret. split; [| split; [| split]].
    + intros c Hc. apply elem_of_nil in Hc. contradiction.
    + simpl. lia.
    + intros _. constructor.
    + intros _ Hf. exfalso. apply (Hfree Hf). reflexivity.
  - rewrite <- E in *. clear E.
    eapply returns_bind.
    + apply (returns_mapM I _ (fun p y => fst y = p)).
      intros p Hp. eapply returns_bind.
      * apply returns_getTracker, Hinv. apply (sublist_subseteq _ _ Hsub), Hp.
      * intros t _. eapply returns_bind; [apply returns_random; assumption |].
        intros r _. apply returns_ret. reflexivity.
    + intros scored Hscored. apply returns_ret.
      apply Forall2_fst_eq in Hscored.
      assert (Hperm : fst <$> sortDesc scored ≡ₚ relaxedEligible).
      { rewrite <- Hscored. apply fmap_Permutation, sortDesc_Permutation. }
      destruct (pickCommenters_spec (fst <$> sortDesc scored) count [])
        as (extra & Heq & Hex & Hlen & Hnon).
      rewrite Heq. simpl in *.
      assert (Hin : forall c, c ∈ extra -> c ∈ relaxedEligible).
      { intros c Hc. rewrite <- Hperm. apply (sublist_subseteq _ _ Hex), Hc. }
      split; [| split; [| split]].
      * intros c Hc. split; [apply (sublist_subseteq _ _ Hsub), Hin, Hc |].
        apply Hne, Hin, Hc.
      * lia.
      * intros Hnd. apply (sublist_NoDup _ (persona_id <$> (fst <$> sortDesc scored))).
        -- rewrite Hperm. apply (sublist_NoDup _ (persona_id <$> personas)); [exact Hnd |].
           apply fmap_sublist, Hsub.
        -- apply fmap_sublist, Hex.
      * intros Hcount Hf. apply Hnon; [reflexivity | | exact Hcount].
        intros Hnil. apply (Hfree Hf).
        apply Permutation_nil_r. rewrite <- Hperm, Hnil. reflexivity.
Qed.

Lemma returns_randomBelow_fair (m : Z) :
  returns I (randomBelow m) (fun k => (0 <= m -> 0 <= k) /\ (1 <= m -> k < m)).
Proof.
  unfold randomBelow. eapply returns_bind; [apply returns_random_fair; assumption |].
  intros r [Hr0 Hr1]. apply returns_ret. split; intros Hm.
  - apply Qfloor_random_nonneg; assumption.
  - apply Qfloor_random_below; assumption.
Qed.

Lemma occurrences_cons (id : string) (c : Persona) (rest : list Persona) :
  occurrences id (c :: rest) =
  occurrences id rest + (if decide (persona_id c = id) then 1 else 0).
Proof.
  unfold occurrences. rewrite filter_cons.
  destruct (decide (persona_id c = id)); simpl length; lia.
Qed.

Lemma commentsOf_insert (usage : gmap string PersonaUsageTracker) (id0 id : string)
    (t : PersonaUsageTracker) :
  commentsOf (<[id0 := t]> usage) id =
  if decide (id0 = id) then commentsThisWeek t else commentsOf usage id.
Proof.
  unfold commentsOf. rewrite lookup_insert. destruct (decide (id0 = id)); reflexivity.
Qed.

Lemma returns_updateCommenters (commenters : list Persona) :
  forall usage : gmap string PersonaUsageTracker,
    (forall c, c ∈ commenters -> is_Some (usage !! persona_id c)) ->
    returns I (updateCommenters usage commenters)
      (fun usage' =>
         (forall id, is_Some (usage !! id) -> is_Some (usage' !! id)) /\
         (forall id, commentsOf usage' id
                     = commentsOf usage id + occurrences id commenters)).
Proof.
  induction commenters as [| c rest IH]; intros usage Hall; simpl.
  - apply returns_ret. split; [auto |]. intros id. unfold occurrences. simpl. lia.
  - eapply returns_bind; [apply returns_getTracker, Hall, list_elem_of_here |].
    intros t Ht. eapply returns_weaken.
    + apply IH. intros c' Hc'. apply lookup_insert_is_Some'. right.
      apply Hall, list_elem_of_further, Hc'.
    + intros usage' [Hdom Hcount]. split.
      * intros id Hid. apply Hdom, lookup_insert_is_Some'. right. exact Hid.
      * intros id. rewrite Hcount, commentsOf_insert, occurrences_cons.
        destruct (decide (persona_id c = id)) as [<- | Hne]; [| lia].
        unfold commentsOf. rewrite Ht. simpl. lia.
Qed.

Lemma returns_updateUsage (personas : list Persona)
    (usage : gmap string PersonaUsageTracker) (op : Persona)
    (commenters : list Persona) (slot : MatchedSlot) :
  AssignerInv personas usage -> op ∈ personas ->
  (forall c, c ∈ commenters -> c ∈ personas) ->
  returns I (updateUsage usage op commenters slot)
    (fun usage' =>
       AssignerInv personas usage' /\
       (forall id, commentsOf usage' id
                   = commentsOf usage id + occurrences id commenters)).
Proof.
  intros Hinv Hop Hsub. unfold updateUsage.
  eapply returns_bind; [apply returns_getTracker, Hinv, Hop |].
  intros t Ht. eapply returns_weaken.
  - apply returns_updateCommenters. intros c Hc.
    apply lookup_insert_is_Some'. right. apply Hinv, Hsub, Hc.
  - intros usage' [Hdom Hcount]. split.
    + intros p Hp. apply Hdom, lookup_insert_is_Some'. right. apply Hinv, Hp.
    + intros id. rewrite Hcount, commentsOf_insert.
      destruct (decide (persona_id op = id)) as [<- | Hne]; [| reflexivity].
      unfold commentsOf. rewrite Ht. reflexivity.
Qed.

Lemma returns_assignSlot (personas : list Persona) (cs : PlannerConstraints)
    (st : LoopState) (slot : MatchedSlot) :
  (2 <= length personas)%nat ->
  AssignerInv personas (usage st) ->
  returns I (assignSlot personas cs st slot)
    (fun st' => AssignerInv personas (usage st') /\ AssignStep cs personas st st').
Proof.
  intros Hn Hinv. unfold assignSlot.
  eapply returns_bind; [apply returns_selectOP, Hinv |].
  intros [op |] Hop.
  - specialize (Hop op eq_refl).
    set (m := Z.min (Z.min (maxPersonasPerThread cs - 1)
                           (Z.of_nat (length personas) - 1)) 3).
    eapply returns_bind; [apply returns_randomBelow_fair |].
    intros k [Hk0 Hk1].
    eapply returns_bind; [apply returns_selectCommenters, Hinv |].
    intros sel (Hsel & Hlen & Hnd & Hnon).
    eapply returns_bind.
    { apply (returns_updateUsage personas); [exact Hinv | exact Hop |].
      intros c Hc. apply Hsel, Hc. }
    intros usage' [Hinv' Hcount]. apply returns_ret.
    cbn [usage assignedSlots]. split; [exact Hinv' |].
    right. eexists. split; [reflexivity |].
    unfold SlotShape. cbn [opPersona commenterPersonas].
    split; [| split; [exact Hcount | split; [exact Hnd |]]].
    + split; [| split; [exact Hop | split]].
      * intros Hin. apply list_elem_of_fmap in Hin as (c & Heq & Hc).
        destruct (Hsel c Hc) as [_ Hne]. congruence.
      * intros c Hc. apply Hsel, Hc.
      * intros Hmax. assert (1 <= m) by (unfold m; lia).
        specialize (Hk1 H). unfold m in *. lia.
    + intros Hmax Hfree. apply Hnon; [| exact Hfree].
      assert (0 <= m) by (unfold m; lia). specialize (Hk0 H). lia.
  - apply returns_ret. cbn [usage assignedSlots]. split; [exact Hinv |].
    left. split; reflexivity.
Qed.

Lemma occurrences_NoDup (id : string) (l : list Persona) :
  NoDup (persona_id <$> l) -> occurrences id l <= 1.
Proof.
  induction l as [| c l IH]; intros Hnd.
  - unfold occurrences. simpl. lia.
  - rewrite fmap_cons in Hnd. apply NoDup_cons in Hnd as [Hc Hnd].
    rewrite occurrences_cons. specialize (IH Hnd).
    destruct (decide (persona_id c = id)) as [<- | Hne]; [| lia].
    assert (occurrences (persona_id c) l = 0); [| lia].
    unfold occurrences.
    destruct (filter _ l) as [| d rest] eqn:E; [reflexivity |].
    exfalso. apply Hc.
    assert (Hd : d ∈ filter (fun c0 => persona_id c0 = persona_id c) l)
      by (rewrite E; apply list_elem_of_here).
    apply list_elem_of_filter in Hd as [Hd1 Hd2].
    rewrite <- Hd1. apply list_elem_of_fmap_2, Hd2.
Qed.

Lemma another_persona (personas : list Persona) (op : Persona) :
  NoDup (persona_id <$> personas) -> (2 <= length personas)%nat ->
  exists p, p ∈ personas /\ persona_id p <> persona_id op.
Proof.
  intros Hnd Hlen. destruct personas as [| a [| b rest]]; simpl in Hlen; try lia.
  rewrite !fmap_cons in Hnd. apply NoDup_cons in Hnd as [Hab _].
  rewrite not_elem_of_cons in Hab. destruct Hab as [Hab _].
  destruct (decide (persona_id a = persona_id op)) as [Ha | Ha].
  - exists b. split; [apply list_elem_of_further, list_elem_of_here | congruence].
  - exists a. split; [apply list_elem_of_here | exact Ha].
Qed.

Lemma returns_assignLoop (personas : list Persona) (cs : PlannerConstraints)
    (slots : list MatchedSlot) :
  (2 <= length personas)%nat ->
  forall (st : LoopState) (k : Z),
    AssignerInv personas (usage st) ->
    returns I (assignLoop personas cs st slots)
      (fun st' =>
         (Forall (SlotShape cs personas) (assignedSlots st) ->
          Forall (SlotShape cs personas) (assignedSlots st')) /\
         (NoDup (persona_id <$> personas) -> 1 <= maxPersonasPerThread cs ->
          (forall id, commentsOf (usage st) id <= k) ->
          k + Z.of_nat (length slots) <= maxCommentsPerPersonaPerWeek cs ->
          Forall (fun s => commenterPersonas s <> []) (assignedSlots st) ->
          Forall (fun s => commenterPersonas s <> []) (assignedSlots st'))).
Proof.
  intros Hn. induction slots as [| slot rest IH]; intros st k Hinv; simpl assignLoop.
  - apply returns_ret. split; auto.
  - eapply returns_bind; [apply returns_assignSlot; assumption |].
    intros st1 [Hinv1 Hstep]. eapply returns_weaken; [apply (IH st1 (k + 1)), Hinv1 |].
    intros st2 [Hshape2 Hnon2]. split.
    + intros Hshape. apply Hshape2.
      destruct Hstep as [[-> _] | (s & -> & Hs & _)]; [exact Hshape |].
      apply Forall_app. split; [exact Hshape | constructor; [exact Hs | constructor]].
    + intros Hnd Hmax Hk Hroom Hnon.
      assert (Hroom' : k < maxCommentsPerPersonaPerWeek cs)
        by (simpl length in Hroom; lia).
      apply Hnon2; [exact Hnd | exact Hmax | | simpl length in Hroom; lia |].
      * intros id. destruct Hstep as [[_ Hc] | (s & _ & _ & Hc & Hnds & _)].
        -- rewrite Hc. specialize (Hk id). lia.
        -- rewrite Hc. specialize (Hk id).
           pose proof (occurrences_NoDup id _ (Hnds Hnd)). lia.
      * destruct Hstep as [[-> _] | (s & -> & Hs & _ & _ & Hne)]; [exact Hnon |].
        apply Forall_app. split; [exact Hnon |].
        constructor; [| constructor]. apply Hne; [exact Hmax |].
        destruct (another_persona personas (opPersona s) Hnd Hn) as (p & Hp & Hid).
        exists p. split; [exact Hp | split; [exact Hid |]].
        unfold underCommentLimit. specialize (Hk (persona_id p)).
        unfold commentsOf in Hk.
        destruct (usage st !! persona_id p) as [t |]; [| reflexivity].
        apply negb_true_iff, Z.leb_gt. lia.
Qed.

End Assigner.

Lemma initialUsage_fold (personas : list Persona) :
  forall m : gmap string PersonaAssigner.PersonaUsageTracker,
    (forall id t, m !! id = Some t -> t = PersonaAssigner.initialTracker) ->
    let m' := foldl (fun m persona =>
                       <[persona_id persona := PersonaAssigner.initialTracker]> m)
                m personas in
    (forall id t, m' !! id = Some t -> t = PersonaAssigner.initialTracker) /\
    (forall p, p ∈ personas -> is_Some (m' !! persona_id p)) /\
    (forall id, is_Some (m !! id) -> is_Some (m' !! id)).
Proof.
  induction personas as [| p rest IH]; intros m Hm; simpl.
  - split; [exact Hm | split; [| auto]].
    intros p Hp. apply elem_of_nil in Hp. contradiction.
  - destruct (IH (<[persona_id p := PersonaAssigner.initialTracker]> m))
      as (H1 & H2 & H3).
    { intros id t. rewrite lookup_insert. case_decide; [congruence | apply Hm]. }
    split; [exact H1 | split].
    + intros q Hq. apply elem_of_cons in Hq as [-> | Hq]; [| apply H2, Hq].
      apply H3. rewrite lookup_insert_eq. eauto.
    + intros id Hid. apply H3, lookup_insert_is_Some'. right. exact Hid.
Qed.

(** What does hold of the slots of [assignPersonas], on two personas or
    more: the run ends normally, and in every assigned slot the author is
    not among the reactors; the reactors are at most
    [maxPersonasPerThread - 1] when that leaves room for one; and there is
    at least one reactor when the persona ids are distinct,
    [maxPersonasPerThread] is at least 1 and the slots are no more than
    [maxCommentsPerPersonaPerWeek], so that some other persona is still
    under its comment cap. *)
Theorem assignPersonas_slot_shape
    (config : PersonaAssigner.PersonaAssignerConfig) (w : World) :
  let cs := default Constraints.DEFAULT_CONSTRAINTS
              (PersonaAssigner.cfg_constraints config) in
  let personas := PersonaAssigner.cfg_personas config in
  rng_ok (rng w) ->
  (2 <= length personas)%nat ->
  exists result w',
    PersonaAssigner.assignPersonas config w = (Ok result, w') /\
    forall s, s ∈ PersonaAssigner.slots result ->
      (persona_id (opPersona s) ∉ persona_id <$> commenterPersonas s) /\
      (2 <= maxPersonasPerThread cs ->
       Z.of_nat (length (commenterPersonas s)) <= maxPersonasPerThread cs - 1) /\
      (NoDup (persona_id <$> personas) ->
       1 <= maxPersonasPerThread cs ->
       Z.of_nat (length (PersonaAssigner.cfg_slots config))
       <= maxCommentsPerPersonaPerWeek cs ->
       (1 <= length (commenterPersonas s))%nat).
Proof.
  intros cs personas Hfair Hn.
  unfold PersonaAssigner.assignPersonas. fold personas. fold cs.
  destruct (length personas <? 2)%nat eqn:Hlt; [apply Nat.ltb_lt in Hlt; lia |].
  destruct (initialUsage_fold personas ∅) as (Hinit & Hdom & _).
  { intros id t. rewrite lookup_empty. discriminate. }
  set (st0 := {| PersonaAssigner.assignedSlots := [];
                 PersonaAssigner.usage := PersonaAssigner.initialUsage personas;
                 PersonaAssigner.pairingsThisWeek := ∅;
                 PersonaAssigner.warningsSoFar := [] |}).
  destruct (returns_assignLoop fairWorld (fun w H => H) personas cs
              (PersonaAssigner.cfg_slots config) Hn st0 0 Hdom w Hfair)
    as (st & w' & Hrun & _ & Hshape & Hnon).
  eexists _, w'. split.
  - unfold bind. fold st0. rewrite Hrun. reflexivity.
  - cbn [PersonaAssigner.slots]. intros s Hs.
    specialize (Hshape (Forall_nil_2 _)).
    rewrite Forall_forall in Hshape. destruct (Hshape s Hs) as (H1 & _ & _ & H4).
    split; [exact H1 | split; [exact H4 |]].
    intros Hnd Hmax Hslots.
    assert (Hne : commenterPersonas s <> []).
    { assert (Hall : Forall (fun s => commenterPersonas s <> [])
                       (PersonaAssigner.assignedSlots st)).
      { apply Hnon; [exact Hnd | exact Hmax | | lia | constructor].
        intros id. unfold commentsOf. cbn [PersonaAssigner.usage st0].
        destruct (PersonaAssigner.initialUsage personas !! id) as [t |] eqn:E;
          [| lia].
        apply Hinit in E. subst t. simpl. lia. }
      rewrite Forall_forall in Hall. apply Hall, Hs. }
    destruct (commenterPersonas s); [congruence | simpl; lia].
Qed.

Lemma zero_rng_ok : rng_ok (fun _ => 0%Q).
Proof. intros n. split; [apply Qle_refl | reflexivity]. Qed.

Lemma assignPersonas_slot_shape_witness :
  exists result w',
    PersonaAssigner.assignPersonas Sample.smallConfig Sample.zeroWorld = (Ok result, w') /\
    forall s, s ∈ PersonaAssigner.slots result ->
      (persona_id (opPersona s) ∉ persona_id <$> commenterPersonas s) /\
      (1 <= length (commenterPersonas s) <= 2)%nat.
Proof.
  destruct (assignPersonas_slot_shape Sample.smallConfig Sample.zeroWorld)
    as (result & w' & Hrun & Hslots).
  - intros n. split; vm_compute; congruence.
  - simpl. lia.
  - exists result, w'. split; [exact Hrun |]. intros s Hs.
    destruct (Hslots s Hs) as (Hauthor & Hmax & Hmin).
    split; [exact Hauthor |]. split.
    + apply Hmin; [| simpl; lia | simpl; lia].
      apply (bool_decide_unpack _). vm_compute. exact Logic.I.
    + simpl in Hmax. lia.
Defined.

(** C1, at the failing input: two personas, three slots two days apart,
    and the default constraints but for a weekly cap of one comment per
    persona ([maxPersonasPerThread] is 3, so a thread has room for two
    reactors).  Alice reacts in the first thread and Bob in the second;
    for the third both have reached their cap, [selectCommenters] returns
    the empty array and [assignPersonas] emits the slot all the same, with
    an author and no reactor: the lower bound of 1 on the reactors, which
    the module's header ("Select 1-3 commenters") and its test ("assigns
    commenters to each slot") also state, is broken. *)
Lemma assignPersonas_empty_reactors :
  assignmentIds (PersonaAssigner.assignPersonas Sample.cappedConfig Sample.zeroWorld)
  = Some [("p-bob", ["p-alice"]); ("p-alice", ["p-bob"]); ("p-bob", [])]
  /\ exists result w' s,
       PersonaAssigner.assignPersonas Sample.cappedConfig Sample.zeroWorld
       = (Ok result, w') /\
       s ∈ PersonaAssigner.slots result /\
       ~ (1 <= length (commenterPersonas s))%nat.
Proof.
  split; [vm_compute; reflexivity |].
  destruct (PersonaAssigner.assignPersonas Sample.cappedConfig Sample.zeroWorld)
    as [[result | msg |] w'] eqn:Hrun; vm_compute in Hrun; try discriminate.
  injection Hrun as <- <-.
  eexists _, _, _. split; [reflexivity |]. split.
  - cbn [PersonaAssigner.slots]. do 2 apply list_elem_of_further. apply list_elem_of_here.
  - simpl. lia.
Qed.

(** C2, at the failing input: seven personas, two slots and the default
    constraints, no repeated pairings allowed.  Bob and Carol react
    together in the first thread and again in the second, although four
    personas who were never paired with anyone are candidates: the pair
    (Bob, Carol) appears twice among the pairings of the run. *)
Theorem assignPersonas_repeats_reactor_pair :
  noRepeatedPairingsPerWeek Constraints.DEFAULT_CONSTRAINTS = true /\
  assignmentIds (PersonaAssigner.assignPersonas Sample.pairingConfig
                   (Sample.worldOf Sample.pairingDraws false))
  = Some [("p-alice", ["p-bob"; "p-carol"]); ("p-dave", ["p-bob"; "p-carol"])] /\
  pairingsOfRun (PersonaAssigner.assignPersonas Sample.pairingConfig
                   (Sample.worldOf Sample.pairingDraws false))
  = Some ["p-alice+p-bob"; "p-alice+p-carol"; "p-bob+p-carol";
          "p-bob+p-dave"; "p-carol+p-dave"; "p-bob+p-carol"] /\
  ~ NoDup ["p-alice+p-bob"; "p-alice+p-carol"; "p-bob+p-carol";
           "p-bob+p-dave"; "p-carol+p-dave"; "p-bob+p-carol"].
Proof.
  split; [reflexivity |]. split; [vm_compute; reflexivity |].
  split; [vm_compute; reflexivity |].
  intros Hnd. do 2 apply NoDup_cons in Hnd as [_ Hnd].
  apply NoDup_cons in Hnd as [Hfresh _]. apply Hfresh.
  do 2 apply list_elem_of_further. apply list_elem_of_here.
Qed.

Lemma matchSubreddits_respects_cap_witness :
  exists result w',
    SubredditMatcher.matchSubreddits Sample.matcherConfig Sample.zeroWorld
    = (Ok result, w') /\
    (forall id, matchedCount id (SubredditMatcher.slots result) <= 2) /\
    (length (SubredditMatcher.slots result)
     + length (SubredditMatcher.topicsSkipped result) = 3)%nat.
Proof.
  destruct (matchSubreddits_respects_cap Sample.matcherConfig Sample.zeroWorld)
    as (result & w' & Hrun & Hcap & Hlen & _).
  - split; simpl; lia.
  - exists result, w'. split; [exact Hrun |]. split; [exact Hcap | exact Hlen].
Defined.

(** ** lib/planner/threadGenerator *)

(** C4, the claim as stated fails: the backend's first answer cannot be
    parsed, so the first slot fails; generation is not aborted, it goes on
    with the second slot, whose thread is returned next to the recorded
    error. *)
Lemma generateThreads_continues_after_failure :
  unparseablePost (backend Sample.flakyWorld (backend_pos Sample.flakyWorld)) /\
  threadsSummary
    (ThreadGenerator.generateThreads 0 (Sample.generatorConfig Sample.twoSlots)
       Sample.flakyWorld)
  = Some ([("Weekly check in", ["Doing fine here, busy quarter though."])],
          ["Failed to generate thread for r/test1: AI post generation failed for r/test1: backend unavailable"]).
Proof. split; [exact Logic.I | vm_compute; reflexivity]. Qed.

(** C5, the claim as stated fails: in mock mode, under the default
    constraints and preferences, the canned reply drawn for a reactor who
    gives answers names the company, and it is finalised as drawn: the
    containment check on the finalised reply returns true. *)
Lemma mock_reply_keeps_company_name :
  threadsSummary
    (ThreadGenerator.generateThreads 0 (Sample.generatorConfig Sample.expertSlot)
       (Sample.worldOf [] true))
  = Some ([("What do you think about this topic?",
            ["I've been using Slideforge for this - it handles the layout automatically so you can focus on content."])],
          [])
  /\ ThreadGenerator.mentions Sample.slideforge
       "I've been using Slideforge for this - it handles the layout automatically so you can focus on content."
     = true.
Proof. split; vm_compute; reflexivity. Qed.

(** The same holds of a live run against a stubbed backend: the reply that
    names the company is sent back for one rewrite, the rewrite is whatever
    the backend answers, and the text is kept when the answer has no
    [variation]; nothing removes the name from the text itself. *)
Lemma live_reply_keeps_company_name :
  threadsSummary
    (ThreadGenerator.generateThreads 0 (Sample.generatorConfig Sample.oneSlot)
       Sample.stubbedWorld)
  = Some ([("Weekly check in", ["Honestly Slideforge sorted this out for me."])], [])
  /\ ThreadGenerator.mentions Sample.slideforge
       "Honestly Slideforge sorted this out for me."
     = true.
Proof. split; vm_compute; reflexivity. Qed.

(** C4, as the code has it: in live mode, a backend answer that cannot be
    parsed as a post makes [generateThread] throw for that slot, without
    any placeholder text; [generateThreads] catches the error, records one
    entry for the slot in [errors], keeps the threads generated so far and
    goes on with the remaining slots. *)
Theorem generateThreads_records_failure_and_continues
    (fuel : nat) (config : ThreadGenerator.ThreadGeneratorConfig)
    (slot : AssignedSlot) (rest : list AssignedSlot)
    (threads : list Thread) (errors : list string) (total : nat) (w : World) :
  let result := backend w (backend_pos w) in
  mockMode w = false ->
  unparseablePost result ->
  ThreadGenerator.generateThread fuel slot (ThreadGenerator.cfg_company config)
    (ThreadGenerator.cfg_weekNumber config) (ThreadGenerator.cfg_preferences config)
    (Some (default Constraints.DEFAULT_CONSTRAINTS
             (ThreadGenerator.cfg_constraints config)))
    (ThreadGenerator.cfg_riskTolerance config) w
  = (Throw (postFailure slot result), afterBackendCall w)
  /\
  ThreadGenerator.threadLoop fuel config (slot :: rest) threads errors total w
  = ThreadGenerator.threadLoop fuel config rest threads
      (errors ++ [recordedFailure slot (postFailure slot result)]) total
      (afterBackendCall w).
Proof.
  intros result Hlive Hbad.
  assert (Hpost : ThreadGenerator.generatePost slot
                    (ThreadGenerator.cfg_company config)
                    (ThreadGenerator.cfg_weekNumber config)
                    (ThreadGenerator.cfg_preferences config) w
                  = (Throw (postFailure slot result), afterBackendCall w)).
  { unfold ThreadGenerator.generatePost, bind, isMockMode. rewrite Hlive.
    unfold generateWithAI. fold result. fold (afterBackendCall w).
    unfold unparseablePost in Hbad. unfold postFailure.
    destruct (gr_success result); [| reflexivity].
    destruct (gr_data result) as [[[t |] [b |] tx v] |];
      first [contradiction | reflexivity]. }
  assert (Hthread : ThreadGenerator.generateThread fuel slot
                      (ThreadGenerator.cfg_company config)
                      (ThreadGenerator.cfg_weekNumber config)
                      (ThreadGenerator.cfg_preferences config)
                      (Some (default Constraints.DEFAULT_CONSTRAINTS
                               (ThreadGenerator.cfg_constraints config)))
                      (ThreadGenerator.cfg_riskTolerance config) w
                    = (Throw (postFailure slot result), afterBackendCall w)).
  { unfold ThreadGenerator.generateThread, bind. rewrite Hpost. reflexivity. }
  split; [exact Hthread |].
  cbn [ThreadGenerator.threadLoop]. unfold bind at 1. unfold try_catch.
  unfold bind at 1. rewrite Hthread. reflexivity.
Qed.

Lemma generateThreads_records_failure_witness :
  ThreadGenerator.threadLoop 0 (Sample.generatorConfig Sample.twoSlots)
    Sample.twoSlots [] [] 0 Sample.flakyWorld
  = ThreadGenerator.threadLoop 0 (Sample.generatorConfig Sample.twoSlots)
      [Sample.mkAssigned (2 * Sample.day) Sample.test2 Sample.dave [Sample.alice]]
      []
      ["Failed to generate thread for r/test1: AI post generation failed for r/test1: backend unavailable"]
      0 (afterBackendCall Sample.flakyWorld).
Proof.
  apply (generateThreads_records_failure_and_continues 0
           (Sample.generatorConfig Sample.twoSlots)
           (Sample.mkAssigned 0 Sample.test1 Sample.bob [Sample.alice])
           [Sample.mkAssigned (2 * Sample.day) Sample.test2 Sample.dave [Sample.alice]]
           [] [] 0 Sample.flakyWorld).
  - reflexivity.
  - simpl. exact Logic.I.
Defined.

Section MockReplies.
Context (I : World -> Prop) `{!Stable I}.
Hypothesis fair : forall w, I w -> rng_ok (rng w).
Hypothesis mocked : forall w, I w -> mockMode w = true.
Import ThreadGenerator Constraints.

Lemma returns_isMockMode : returns I isMockMode (fun b => b = true).
Proof. intros w Hw. exists true, w. unfold isMockMode. rewrite (mocked w Hw). auto. Qed.

Lemma returns_pickFrom (options : list string) :
  options <> [] -> returns I (pickFrom options) (fun s => s ∈ options).
Proof.
  intros Hne. unfold pickFrom.
  eapply returns_bind; [apply (returns_randomBelow_fair I fair) |].
  intros k [Hk0 Hk1]. apply returns_ret.
  assert (Hlen : 1 <= Z.of_nat (length options))
    by (destruct options; [congruence | simpl length; lia]).
  specialize (Hk0 ltac:(lia)). specialize (Hk1 Hlen).
  destruct (options !! Z.to_nat k) as [x |] eqn:E.
  - simpl. apply list_elem_of_lookup. eauto.
  - apply lookup_ge_None in E. lia.
Qed.

Lemma returns_generateMockComment (persona : Persona) (isFirst : bool) :
  returns I (generateMockComment persona isFirst) (fun m => m ∈ cannedFor persona).
Proof.
  unfold generateMockComment, cannedFor.
  destruct (postingStyle persona); apply returns_pickFrom; discriminate.
Qed.

Lemma returns_redrawMock (persona : Persona) (isFirst : bool) (used : gset string)
    (attempts : nat) :
  forall m, m ∈ cannedFor persona ->
    returns I (redrawMock attempts persona isFirst used m)
      (fun m' => m' ∈ cannedFor persona).
Proof.
  induction attempts as [| attempts IH]; intros m Hm; simpl.
  - apply returns_ret. exact Hm.
  - destruct (bool_decide (m ∈ used)).
    + eapply returns_bind; [apply returns_generateMockComment |].
      intros m' Hm'. apply IH, Hm'.
    + apply returns_ret. exact Hm.
Qed.

Lemma returns_generateCommentDelay (i : nat) (followUp : bool) (cs : PlannerConstraints) :
  returns I (generateCommentDelay i followUp cs) (fun _ => True).
Proof.
  unfold generateCommentDelay.
  destruct followUp; [| destruct (Nat.eqb i 0)];
    try destruct (opFollowUpDelayMinutes cs); try destruct (commentSpacingMinutes cs);
    (eapply returns_bind; [apply returns_randomBelow; assumption |];
     intros k _; apply returns_ret; exact Logic.I).
Qed.

Lemma returns_commentLoop_mock (post : Post) (company : Company)
    (preferences : option GenerationPreferences) (cs : PlannerConstraints)
    (mentionIndices : list Z) (mentionProductIndex : Z) (personas : list Persona) :
  forall (i : nat) (comments : list Comment) (used : gset string) (last : Z),
    returns I
      (commentLoop personas i post company preferences cs mentionIndices
         mentionProductIndex comments used last)
      (fun r => exists replies,
           fst r = comments ++ replies /\
           Forall2 (cannedReply preferences) personas replies).
Proof.
  induction personas as [| persona rest IH]; intros i comments used last;
    cbn [commentLoop].
  - apply returns_ret. exists []. rewrite app_nil_r. split; [reflexivity | constructor].
  - eapply returns_bind; [apply returns_generateCommentDelay |].
    intros delay _.
    eapply returns_bind; [apply returns_isMockMode |].
    intros mock ->.
    eapply returns_bind.
    { eapply returns_bind; [apply returns_generateMockComment |].
      intros m0 Hm0.
      eapply returns_bind; [apply (returns_redrawMock _ _ _ _ _ Hm0) |].
      intros m Hm.
      eapply (returns_bind _ _ _ (fun m' => m' = m)).
      - unfold generateWithAIMock.
        eapply returns_bind; [apply returns_random; assumption |].
        intros r _. apply returns_ret. reflexivity.
      - intros m' ->. apply (returns_ret _ _ (fun r => fst r ∈ cannedFor persona)).
        exact Hm. }
    intros [text used'] Htext. cbn [fst] in Htext.
    eapply returns_bind.
    { unfold generateCommentId.
      eapply returns_bind; [apply returns_uuidv4; assumption |].
      intros u _. apply (returns_ret _ _ (fun _ => True)). exact Logic.I. }
    intros id _.
    eapply returns_weaken; [apply IH |].
    intros r (replies & Heq & Hall).
    eexists (_ :: replies). split.
    + rewrite Heq, <- app_assoc. reflexivity.
    + constructor; [| exact Hall].
      split; [reflexivity |]. exists text. split; [exact Htext | reflexivity].
Qed.

End MockReplies.

Lemma clampIfSet_unset (preferences : option GenerationPreferences) (text : string) :
  ThreadGenerator.truthyZ (ThreadGenerator.pref maxCommentLength preferences) = None ->
  clampIfSet preferences text = text.
Proof. intros H. unfold clampIfSet. rewrite H. reflexivity. Qed.

(** C5, as the code has it: in mock mode the replies that the comment loop
    finalises are the canned texts drawn for their personas, changed by
    nothing but the clamp to [maxCommentLength]; when no such length is set
    each reply is one of the canned texts of its persona as drawn, the
    company name in it included. *)
Theorem mock_replies_are_canned
    (post : Post) (company : Company) (preferences : option GenerationPreferences)
    (cs : PlannerConstraints) (mentionIndices : list Z) (mentionProductIndex : Z)
    (personas : list Persona) (w : World) :
  rng_ok (rng w) ->
  mockMode w = true ->
  exists replies last w',
    ThreadGenerator.commentLoop personas 0 post company preferences cs
      mentionIndices mentionProductIndex [] ∅ (post_scheduledAt post) w
    = (Ok (replies, last), w') /\
    Forall2 (cannedReply preferences) personas replies /\
    (ThreadGenerator.truthyZ (ThreadGenerator.pref maxCommentLength preferences) = None ->
     Forall2 (fun persona c => content c ∈ cannedFor persona) personas replies).
Proof.
  intros Hfair Hmock.
  destruct (returns_commentLoop_mock mockWorld (fun w H => proj1 H)
              (fun w H => proj2 H) post company preferences cs mentionIndices
              mentionProductIndex personas 0 [] ∅ (post_scheduledAt post) w
              (conj Hfair Hmock))
    as ([replies' last] & w' & Hrun & _ & replies & Heq & Hall).
  cbn [fst] in Heq. simpl in Heq. subst replies'.
  exists replies, last, w'. split; [exact Hrun | split; [exact Hall |]].
  intros Hunset. eapply Forall2_impl; [exact Hall |].
  intros persona c (_ & m & Hm & Hc). rewrite Hc, clampIfSet_unset by exact Hunset.
  exact Hm.
Qed.

Lemma mock_replies_are_canned_witness :
  exists replies last w',
    ThreadGenerator.commentLoop [Sample.bob] 0
      (Sample.mkPost "post_1" Sample.test1 Sample.alice "What do you think?"
         "Curious what others think." 0)
      Sample.slideforge None Constraints.DEFAULT_CONSTRAINTS [] 0 [] ∅ 0
      (Sample.worldOf [] true)
    = (Ok (replies, last), w') /\
    Forall2 (fun persona c => content c ∈ cannedFor persona) [Sample.bob] replies.
Proof.
  destruct (mock_replies_are_canned
              (Sample.mkPost "post_1" Sample.test1 Sample.alice "What do you think?"
                 "Curious what others think." 0)
              Sample.slideforge None Constraints.DEFAULT_CONSTRAINTS [] 0
              [Sample.bob] (Sample.worldOf [] true))
    as (replies & last & w' & Hrun & _ & Hcanned).
  - intros n. simpl. destruct n; split; vm_compute; congruence.
  - reflexivity.
  - exists replies, last, w'. split; [exact Hrun | apply Hcanned; reflexivity].
Defined.

Lemma ltb_false_both (a b : string) :
  String.ltb a b = false -> String.ltb b a = false -> a = b.
Proof.
  unfold String.ltb. intros Hab Hba.
  pose proof (String.compare_antisym a b) as Hanti.
  destruct (String.compare a b) eqn:E1; [apply String.compare_eq_iff, E1 | discriminate |].
  destruct (String.compare b a) eqn:E2; simpl in Hanti; try discriminate.
Qed.

Lemma ltb_true_asym (a b : string) :
  String.ltb a b = true -> String.ltb b a = false.
Proof.
  unfold String.ltb. intros Hab.
  pose proof (String.compare_antisym a b) as Hanti.
  destruct (String.compare a b) eqn:E1; try discriminate.
  destruct (String.compare b a) eqn:E2; simpl in Hanti; try discriminate; reflexivity.
Qed.

(** The key of a pair does not depend on the order of its two ids. *)
Lemma createPairingKey_comm (a b : string) :
  Utils.createPairingKey a b = Utils.createPairingKey b a.
Proof.
  unfold Utils.createPairingKey.
  destruct (String.ltb b a) eqn:Hba.
  - rewrite (ltb_true_asym _ _ Hba). reflexivity.
  - destruct (String.ltb a b) eqn:Hab; [reflexivity |].
    rewrite (ltb_false_both _ _ Hab Hba). reflexivity.
Qed.

Lemma plusFree_cons (c : ascii) (s : string) :
  plusFree (String c s) = true -> c <> "+"%char /\ plusFree s = true.
Proof.
  unfold plusFree. cbn [Utils.includes Utils.startsWith].
  destruct (Ascii.eqb "+" c) eqn:E.
  - discriminate.
  - intros H. split; [| exact H]. intros ->. discriminate.
Qed.

Lemma append_cons (c : ascii) (s t : string) : String c s +:+ t = String c (s +:+ t).
Proof. reflexivity. Qed.

Lemma append_nil_l (t : string) : "" +:+ t = t.
Proof. reflexivity. Qed.

Lemma append_plus_inj (x x' y y' : string) :
  plusFree x = true -> plusFree x' = true ->
  x +:+ "+" +:+ y = x' +:+ "+" +:+ y' -> x = x' /\ y = y'.
Proof.
  revert x'. induction x as [| c x IH]; intros [| c' x'] Hx Hx' Heq;
    rewrite ?append_cons, ?append_nil_l in Heq.
  - injection Heq as Heq. subst y'. split; reflexivity.
  - injection Heq as Hc _. apply plusFree_cons in Hx' as [Hc' _]. congruence.
  - injection Heq as Hc _. apply plusFree_cons in Hx as [Hc' _]. congruence.
  - injection Heq as Hc Heq. subst c'.
    apply plusFree_cons in Hx as [_ Hx]. apply plusFree_cons in Hx' as [_ Hx'].
    destruct (IH x' Hx Hx' Heq) as [-> ->]. split; reflexivity.
Qed.

(** X1: for ids without a plus sign, two pairs have the same pairing key
    exactly when they are the same unordered pair. *)
Theorem createPairingKey_same_pair (a b c d : string) :
  plusFree a = true -> plusFree b = true -> plusFree c = true -> plusFree d = true ->
  (Utils.createPairingKey a b = Utils.createPairingKey c d
   <-> (a = c /\ b = d) \/ (a = d /\ b = c)).
Proof.
  intros Ha Hb Hc Hd. split.
  - unfold Utils.createPairingKey.
    destruct (String.ltb b a), (String.ltb d c); intros Heq;
      apply append_plus_inj in Heq as [-> ->]; auto.
  - intros [[-> ->] | [-> ->]]; [reflexivity |].
    unfold Utils.createPairingKey.
    destruct (String.ltb c d) eqn:Hcd.
    + rewrite (ltb_true_asym _ _ Hcd). reflexivity.
    + destruct (String.ltb d c) eqn:Hdc; [reflexivity |].
      rewrite (ltb_false_both _ _ Hcd Hdc). reflexivity.
Qed.

Lemma createPairingKey_same_pair_witness :
  Utils.createPairingKey "p-bob" "p-alice" = Utils.createPairingKey "p-alice" "p-bob".
Proof.
  apply (createPairingKey_same_pair "p-bob" "p-alice" "p-alice" "p-bob");
    try reflexivity.
  right. split; reflexivity.
Defined.

Lemma length_substring_0 (n : nat) (s : string) :
  String.length (String.substring 0 n s) = Nat.min n (String.length s).
Proof.
  revert n. induction s as [| c s IH]; intros [| n]; simpl; try reflexivity.
  rewrite IH. reflexivity.
Qed.

Lemma length_append (s t : string) :
  String.length (s +:+ t) = (String.length s + String.length t)%nat.
Proof.
  induction s as [| c s IH]; [reflexivity |].
  rewrite append_cons. simpl. rewrite IH. reflexivity.
Qed.

(** X2: for a limit of three characters or more, [truncate] never returns
    more than [maxLength] characters: a text within the limit comes back
    unchanged, and a longer one is cut to exactly [maxLength] characters,
    the ellipsis included. *)
Theorem truncate_length (text : string) (maxLength : nat) :
  (3 <= maxLength)%nat ->
  (String.length (Utils.truncate text maxLength) <= maxLength)%nat /\
  ((String.length text <= maxLength)%nat -> Utils.truncate text maxLength = text) /\
  ((maxLength < String.length text)%nat ->
   String.length (Utils.truncate text maxLength) = maxLength).
Proof.
  intros Hmax. unfold Utils.truncate.
  destruct (String.length text <=? maxLength)%nat eqn:E.
  - apply Nat.leb_le in E. split; [exact E | split; [reflexivity | lia]].
  - apply Nat.leb_gt in E. cbv zeta.
    destruct (3 <=? maxLength)%nat eqn:E3; [| apply Nat.leb_gt in E3; lia].
    rewrite length_append, length_substring_0. simpl.
    split; [lia | split; lia].
Qed.

Lemma truncate_length_witness :
  (String.length (Utils.truncate "Best presentation tools for consultants?" 30) <= 30)%nat.
Proof.
  apply (truncate_length "Best presentation tools for consultants?" 30). lia.
Defined.

Lemma omap_nil_iff {A B} (f : A -> option B) (l : list A) :
  omap f l = [] <-> Forall (fun x => f x = None) l.
Proof.
  induction l as [| x l IH]; simpl.
  - split; [constructor | reflexivity].
  - destruct (f x) eqn:E.
    + split; [discriminate |]. intros H. inversion H; congruence.
    + rewrite IH. split; [intros H; constructor; assumption |].
      intros H. inversion H; assumption.
Qed.

Lemma validationErrors_nil_iff (input : Planner.PlannerInput)
    (constraints : PlannerConstraints) :
  Planner.validationErrors input constraints = [] <-> acceptable input constraints.
Proof.
  unfold Planner.validationErrors, acceptable.
  rewrite !app_nil, omap_nil_iff.
  destruct (String.eqb (company_id (Planner.company input)) "") eqn:E1;
    [apply String.eqb_eq in E1 | apply String.eqb_neq in E1];
  destruct (String.eqb (company_name (Planner.company input)) "") eqn:E2;
    [apply String.eqb_eq in E2 | apply String.eqb_neq in E2 |
     apply String.eqb_eq in E2 | apply String.eqb_neq in E2];
    simpl; try (split; [intros (H & _); discriminate | intros (H1 & H2 & _); congruence]).
  destruct (length (Planner.personas input) <? 2)%nat eqn:E3;
    [apply Nat.ltb_lt in E3 | apply Nat.ltb_ge in E3];
    try (split; [intros (_ & H & _); discriminate | intros (_ & _ & H & _); lia]).
  destruct (length (Planner.subreddits input) =? 0)%nat eqn:E4;
    [apply Nat.eqb_eq in E4 | apply Nat.eqb_neq in E4].
  { split; [intros (_ & _ & _ & H & _); discriminate |].
    intros (_ & _ & _ & _ & H & _). destruct (Planner.subreddits input); [congruence | discriminate]. }
  destruct (length (Planner.keywords input) =? 0)%nat eqn:E5;
    [apply Nat.eqb_eq in E5 | apply Nat.eqb_neq in E5].
  { split; [intros (_ & _ & _ & _ & H & _); discriminate |].
    intros (_ & _ & _ & _ & _ & H & _). destruct (Planner.keywords input); [congruence | discriminate]. }
  destruct (Planner.postsPerWeek input <? 1) eqn:E6;
    [apply Z.ltb_lt in E6 | apply Z.ltb_ge in E6].
  { split; [intros (_ & _ & _ & _ & _ & H & _); discriminate |].
    intros (_ & _ & _ & _ & _ & _ & H & _). lia. }
  destruct (_ <? Planner.postsPerWeek input) eqn:E7;
    [apply Z.ltb_lt in E7 | apply Z.ltb_ge in E7].
  { split; [intros (_ & _ & _ & _ & _ & _ & H & _); discriminate |].
    intros (_ & _ & _ & _ & _ & _ & _ & H & _). lia. }
  assert (Hp : Forall (fun x : Persona =>
                 (if String.eqb (persona_id x) "" || String.eqb (persona_username x) ""
                     || String.eqb (persona_bio x) ""
                  then Some ("Persona " +:+
                             (if String.eqb (persona_username x) "" then "unknown"
                              else persona_username x) +:+ " missing required fields")
                  else None) = None) (Planner.personas input)
               <-> Forall (fun p => persona_id p <> "" /\ persona_username p <> ""
                                    /\ persona_bio p <> "") (Planner.personas input)).
  { apply Forall_iff. intros p.
    destruct (String.eqb (persona_id p) "") eqn:P1;
      [apply String.eqb_eq in P1 | apply String.eqb_neq in P1];
    destruct (String.eqb (persona_username p) "") eqn:P2;
      [apply String.eqb_eq in P2 | apply String.eqb_neq in P2 |
       apply String.eqb_eq in P2 | apply String.eqb_neq in P2];
    destruct (String.eqb (persona_bio p) "") eqn:P3;
      [apply String.eqb_eq in P3 | apply String.eqb_neq in P3 |
       apply String.eqb_eq in P3 | apply String.eqb_neq in P3 |
       apply String.eqb_eq in P3 | apply String.eqb_neq in P3 |
       apply String.eqb_eq in P3 | apply String.eqb_neq in P3];
      simpl; split; try discriminate; try tauto; intros (? & ? & ?); congruence. }
  rewrite Hp.
  destruct (Planner.weekStartDate input) as [d |].
  - split.
    + intros (_ & _ & H & _). repeat split; try assumption; try lia.
      * intros Hs. rewrite Hs in E4. apply E4. reflexivity.
      * intros Hk. rewrite Hk in E5. apply E5. reflexivity.
      * eauto.
    + intros (_ & _ & _ & H & _). repeat split; assumption.
  - split.
    + intros (_ & _ & _ & _ & _ & _ & _ & H). discriminate.
    + intros (_ & _ & _ & _ & _ & _ & _ & _ & [d Hd]). discriminate.
Qed.

(** X3: [validateInput] returns, leaving the world as it is, exactly when
    the request is acceptable: a company with id and name, two personas or
    more, each with id, username and bio, a subreddit, a keyword, at least
    one post a week and no more than the subreddits can take under the
    weekly cap, and a valid week start date.  Otherwise it throws. *)
Theorem validateInput_accepts_iff (input : Planner.PlannerInput)
    (constraints : PlannerConstraints) (w : World) :
  (Planner.validateInput input constraints w = (Ok tt, w)
   <-> acceptable input constraints) /\
  (~ acceptable input constraints ->
   exists msg, Planner.validateInput input constraints w = (Throw msg, w)).
Proof.
  pose proof (validationErrors_nil_iff input constraints) as Hiff.
  unfold Planner.validateInput.
  destruct (Planner.validationErrors input constraints) as [| e errors] eqn:E.
  - split; [split; [intros _; apply Hiff; reflexivity | reflexivity] |].
    intros Hn. exfalso. apply Hn, Hiff. reflexivity.
  - split.
    + split; [discriminate |]. intros Ha. apply Hiff in Ha. discriminate.
    + intros _. eexists. reflexivity.
Qed.

(** X4: a request that passes validation under a low risk tolerance passes
    it under a medium and under a high one, for a base weekly cap of one
    post or more. *)
Theorem validateInput_monotone_in_risk (input : Planner.PlannerInput)
    (cs : PlannerConstraints) (w : World) :
  1 <= maxPostsPerSubredditPerWeek cs ->
  Planner.validateInput input (Planner.applyRiskTolerance cs (Some risk_low)) w = (Ok tt, w) ->
  Planner.validateInput input (Planner.applyRiskTolerance cs (Some risk_medium)) w = (Ok tt, w)
  /\ Planner.validateInput input (Planner.applyRiskTolerance cs (Some risk_high)) w = (Ok tt, w).
Proof.
  intros Hcap Hlow.
  assert (Hacc : forall constraints,
             Planner.validateInput input constraints w = (Ok tt, w)
             <-> acceptable input constraints).
  { intros constraints. unfold Planner.validateInput.
    pose proof (validationErrors_nil_iff input constraints) as Hiff.
    destruct (Planner.validationErrors input constraints);
      [tauto | split; [discriminate | intros H; apply Hiff in H; discriminate]]. }
  apply Hacc in Hlow. destruct Hlow as (A1 & A2 & A3 & A4 & A5 & A6 & A7 & A8 & A9).
  simpl in A8.
  split; apply Hacc; repeat split; try assumption; simpl; nia.
Qed.

Lemma validateInput_monotone_in_risk_witness :
  Planner.validateInput Fixtures.modestInput
    (Planner.applyRiskTolerance Constraints.DEFAULT_CONSTRAINTS (Some risk_high))
    Sample.zeroWorld
  = (Ok tt, Sample.zeroWorld).
Proof.
  apply (validateInput_monotone_in_risk Fixtures.modestInput
           Constraints.DEFAULT_CONSTRAINTS Sample.zeroWorld);
    [simpl; lia | vm_compute; reflexivity].
Defined.

(** X5: for a base weekly cap and a base spacing of at least 1, the
    effective constraints of a subreddit keep both at 1 or more, whatever
    its preset and sensitivity; the adjustment for a high or low sensitivity
    overrides the preset of the subreddit; and the limits on personas are
    those of the base. *)
Theorem getSubredditConstraints_bounds (subreddit : Subreddit) (base : PlannerConstraints) :
  1 <= maxPostsPerSubredditPerWeek base ->
  1 <= minDaysBetweenSubredditPosts base ->
  let effective := Constraints.getSubredditConstraints subreddit base in
  1 <= maxPostsPerSubredditPerWeek effective /\
  1 <= minDaysBetweenSubredditPosts effective /\
  (sensitivity subreddit = Some sens_high ->
   maxPostsPerSubredditPerWeek effective
   = Z.max 1 (maxPostsPerSubredditPerWeek base - 1) /\
   minDaysBetweenSubredditPosts effective = minDaysBetweenSubredditPosts base + 2) /\
  (sensitivity subreddit = Some sens_low ->
   maxPostsPerSubredditPerWeek effective = maxPostsPerSubredditPerWeek base + 1) /\
  maxPostsPerPersonaPerWeek effective = maxPostsPerPersonaPerWeek base /\
  maxCommentsPerPersonaPerWeek effective = maxCommentsPerPersonaPerWeek base /\
  maxPersonasPerThread effective = maxPersonasPerThread base /\
  noRepeatedPairingsPerWeek effective = noRepeatedPairingsPerWeek base.
Proof.
  intros Hcap Hdays. unfold Constraints.getSubredditConstraints, Constraints.SUBREDDIT_PRESETS.
  destruct (sensitivity subreddit) as [[| |] |];
    destruct (String.eqb (subreddit_name subreddit) "r/AskReddit");
    destruct (String.eqb (subreddit_name subreddit) "r/consulting");
    destruct (String.eqb (subreddit_name subreddit) "r/startups");
    simpl; repeat split; try lia; try discriminate; intros _; try lia; split; lia.
Qed.

Lemma commenterPairKeys_lookup (commenters : list Persona) :
  forall (i j : nat) (c d : Persona),
    (i < j)%nat -> commenters !! i = Some c -> commenters !! j = Some d ->
    Utils.createPairingKey (persona_id c) (persona_id d)
    ∈ PersonaAssigner.commenterPairKeys commenters.
Proof.
  induction commenters as [| e rest IH]; intros i j c d Hij Hi Hj.
  - rewrite lookup_nil in Hi. discriminate.
  - simpl. apply elem_of_app. destruct i as [| i].
    + simpl in Hi. injection Hi as ->.
      destruct j as [| j]; [lia |]. simpl in Hj. left.
      apply list_elem_of_fmap. exists d. split; [reflexivity |].
      apply list_elem_of_lookup. eauto.
    + destruct j as [| j]; [lia |]. simpl in Hi, Hj. right.
      apply (IH i j); [lia | assumption | assumption].
Qed.

Lemma canPersonasInteract_false (a b : string) (pairings : gset string)
    (cs : PlannerConstraints) :
  noRepeatedPairingsPerWeek cs = true ->
  Utils.createPairingKey a b ∈ pairings ->
  Constraints.canPersonasInteract a b pairings cs = false.
Proof.
  intros Hon Hin. unfold Constraints.canPersonasInteract. rewrite Hon. simpl.
  destruct (decide _); [reflexivity | contradiction].
Qed.

Lemma getSubredditConstraints_bounds_witness :
  maxPostsPerSubredditPerWeek
    (Constraints.getSubredditConstraints Fixtures.touchyConsulting
       Constraints.DEFAULT_CONSTRAINTS) = 1 /\
  minDaysBetweenSubredditPosts
    (Constraints.getSubredditConstraints Fixtures.touchyConsulting
       Constraints.DEFAULT_CONSTRAINTS) = 5.
Proof.
  destruct (getSubredditConstraints_bounds Fixtures.touchyConsulting
              Constraints.DEFAULT_CONSTRAINTS) as (_ & _ & Hhigh & _);
    [simpl; lia | simpl; lia |].
  destruct (Hhigh eq_refl) as [Hcap Hdays]. split; [exact Hcap | exact Hdays].
Defined.

(** X6: once [updatePairings] has recorded a thread, with repeated pairings
    ruled out, [canPersonasInteract] refuses every pair of the thread, in
    either order: the author with each reactor and any two reactors; and
    every pair refused before is still refused. *)
Theorem updatePairings_blocks_every_pair (pairings : gset string) (op : Persona)
    (commenters : list Persona) (cs : PlannerConstraints) :
  noRepeatedPairingsPerWeek cs = true ->
  let pairings' := PersonaAssigner.updatePairings pairings op commenters in
  (forall c, c ∈ commenters ->
     Constraints.canPersonasInteract (persona_id op) (persona_id c) pairings' cs = false /\
     Constraints.canPersonasInteract (persona_id c) (persona_id op) pairings' cs = false) /\
  (forall (i j : nat) c d, i <> j ->
     commenters !! i = Some c -> commenters !! j = Some d ->
     Constraints.canPersonasInteract (persona_id c) (persona_id d) pairings' cs = false) /\
  (forall a b, Constraints.canPersonasInteract a b pairings cs = false ->
               Constraints.canPersonasInteract a b pairings' cs = false).
Proof.
  intros Hon pairings'. unfold pairings', PersonaAssigner.updatePairings.
  split; [| split].
  - intros c Hc.
    assert (Hkey : Utils.createPairingKey (persona_id op) (persona_id c)
                   ∈ pairings ∪ list_to_set (PersonaAssigner.pairingKeys op commenters)).
    { apply elem_of_union. right. apply elem_of_list_to_set.
      unfold PersonaAssigner.pairingKeys. apply elem_of_app. left.
      apply list_elem_of_fmap. exists c. split; [reflexivity | exact Hc]. }
    split; apply canPersonasInteract_false; try exact Hon; [exact Hkey |].
    rewrite createPairingKey_comm. exact Hkey.
  - intros i j c d Hij Hi Hj. apply canPersonasInteract_false; [exact Hon |].
    apply elem_of_union. right. apply elem_of_list_to_set.
    unfold PersonaAssigner.pairingKeys. apply elem_of_app. right.
    destruct (Nat.lt_ge_cases i j) as [Hlt | Hge].
    + apply (commenterPairKeys_lookup commenters i j); assumption.
    + rewrite createPairingKey_comm.
      apply (commenterPairKeys_lookup commenters j i); [lia | assumption | assumption].
  - intros a b. unfold Constraints.canPersonasInteract. rewrite Hon. simpl.
    destruct (decide (_ ∈ pairings)) as [Hin |]; [| discriminate].
    intros _. destruct (decide _) as [| Hn]; [reflexivity |].
    exfalso. apply Hn, elem_of_union. left. exact Hin.
Qed.

Lemma updatePairings_blocks_every_pair_witness :
  Constraints.canPersonasInteract "p-carol" "p-bob"
    (PersonaAssigner.updatePairings ∅ Sample.alice [Sample.bob; Sample.carol])
    Constraints.DEFAULT_CONSTRAINTS = false.
Proof.
  destruct (updatePairings_blocks_every_pair ∅ Sample.alice [Sample.bob; Sample.carol]
              Constraints.DEFAULT_CONSTRAINTS eq_refl) as (_ & Hpairs & _).
  apply (Hpairs 1%nat 0%nat Sample.carol Sample.bob); [lia | reflexivity | reflexivity].
Defined.
(** ** lib/utils: array utilities *)

Lemma insert_Permutation {A} (l : list A) (j : nat) (x y : A) :
  l !! j = Some y -> y :: <[j := x]> l ≡ₚ x :: l.
Proof.
  revert j. induction l as [| e l IH]; intros [| j] Hj; simpl in *; try discriminate.
  - injection Hj as ->. apply Permutation_swap.
  - rewrite (Permutation_swap e y), (IH j Hj). apply Permutation_swap.
Qed.

Lemma swap_insert_Permutation {A} (a : list A) (i j : nat) (x y : A) :
  a !! i = Some x -> a !! j = Some y -> <[j := x]> (<[i := y]> a) ≡ₚ a.
Proof.
  revert i j. induction a as [| e a IH]; intros [| i] [| j] Hi Hj;
    simpl in *; try discriminate.
  - injection Hi as ->. injection Hj as ->. reflexivity.
  - injection Hi as ->. apply insert_Permutation, Hj.
  - injection Hj as ->. apply insert_Permutation, Hi.
  - apply Permutation_skip, IH; assumption.
Qed.

Section ArraysReturn.
Context (I : World -> Prop) `{!Stable I}.
Hypothesis fair : forall w, I w -> rng_ok (rng w).

Lemma returns_swap {A} (a : list A) (i j : Z) :
  0 <= i < Z.of_nat (length a) -> 0 <= j < Z.of_nat (length a) ->
  returns I (Arrays.swap a i j) (fun result => result ≡ₚ a).
Proof.
  intros Hi Hj. unfold Arrays.swap.
  destruct (i <? 0) eqn:Ei; [apply Z.ltb_lt in Ei; lia |].
  destruct (j <? 0) eqn:Ej; [apply Z.ltb_lt in Ej; lia |]. simpl.
  destruct (lookup_lt_is_Some_2 a (Z.to_nat i)) as [x Hx]; [lia |].
  destruct (lookup_lt_is_Some_2 a (Z.to_nat j)) as [y Hy]; [lia |].
  rewrite Hx, Hy. apply returns_ret. apply swap_insert_Permutation; assumption.
Qed.

Lemma returns_randomBelow_range (m : Z) :
  1 <= m -> returns I (randomBelow m) (fun k => 0 <= k < m).
Proof.
  intros Hm. unfold randomBelow.
  eapply returns_bind; [apply returns_random_fair; assumption |].
  intros r [Hr0 Hr1]. apply returns_ret. split.
  - apply Qfloor_random_nonneg; [assumption | lia].
  - apply Qfloor_random_below; assumption.
Qed.

Lemma returns_shuffleFrom {A} (i : nat) :
  forall shuffled : list A,
    (i < length shuffled)%nat ->
    returns I (Arrays.shuffleFrom i shuffled) (fun result => result ≡ₚ shuffled).
Proof.
  induction i as [| i IH]; intros shuffled Hlen; cbn [Arrays.shuffleFrom].
  - apply returns_ret. reflexivity.
  - eapply returns_bind; [apply returns_randomBelow_range; lia |].
    intros j [Hj0 Hj1]. eapply returns_bind; [apply returns_swap; lia |].
    intros swapped Hswap. eapply returns_weaken.
    + apply IH. rewrite (Permutation_length Hswap). lia.
    + intros result Hperm. rewrite Hperm. exact Hswap.
Qed.

Lemma returns_shuffleArray {A} (array : list A) :
  returns I (Arrays.shuffleArray array) (fun result => result ≡ₚ array).
Proof.
  unfold Arrays.shuffleArray. destruct array as [| x array].
  - simpl. apply returns_ret. reflexivity.
  - apply returns_shuffleFrom. simpl. lia.
Qed.

End ArraysReturn.

(** X7: with [Math.random ()] in [0, 1), [shuffleArray] ends normally, every
    index it swaps being within the array, and returns a permutation of
    its argument. *)
Theorem shuffleArray_Permutation {A} (array : list A) (w : World) :
  rng_ok (rng w) ->
  exists result w',
    Arrays.shuffleArray array w = (Ok result, w') /\ result ≡ₚ array.
Proof.
  intros Hfair.
  destruct (returns_shuffleArray fairWorld (fun w H => H) array w Hfair)
    as (result & w' & Hrun & _ & Hperm).
  exists result, w'. split; assumption.
Qed.

(** X8: with [Math.random ()] in [0, 1) and a count that is not negative,
    [selectRandom] returns [count] elements, or the whole array when it has
    no more than [count]; the elements returned are elements of the array,
    each taken as often as it occurs there at most. *)
Theorem selectRandom_sample {A} (array : list A) (count : Z) (w : World) :
  rng_ok (rng w) -> 0 <= count ->
  exists result w',
    Arrays.selectRandom array count w = (Ok result, w') /\
    Z.of_nat (length result) = Z.min count (Z.of_nat (length array)) /\
    exists rest, result ++ rest ≡ₚ array.
Proof.
  intros Hfair Hcount. unfold Arrays.selectRandom.
  destruct (Z.of_nat (length array) <=? count) eqn:E.
  - apply Z.leb_le in E. exists array, w. split; [reflexivity |].
    split; [lia |]. exists []. rewrite app_nil_r. reflexivity.
  - apply Z.leb_gt in E.
    destruct (returns_shuffleArray fairWorld (fun w H => H) array w Hfair)
      as (shuffled & w' & Hrun & _ & Hperm).
    exists (Arrays.sliceTo count shuffled), w'. split.
    + unfold bind. rewrite Hrun. reflexivity.
    + unfold Arrays.sliceTo.
      destruct (count <? 0) eqn:Eneg; [apply Z.ltb_lt in Eneg; lia |].
      pose proof (Permutation_length Hperm) as Hlen.
      split.
      * rewrite length_take. lia.
      * exists (drop (Z.to_nat (Z.min count (Z.of_nat (length shuffled)))) shuffled).
        rewrite take_drop. exact Hperm.
Qed.

Lemma selectRandom_sample_witness :
  exists result w',
    Arrays.selectRandom ["a"; "b"; "c"] 2 Sample.zeroWorld = (Ok result, w') /\
    Z.of_nat (length result) = 2.
Proof.
  destruct (selectRandom_sample ["a"; "b"; "c"] 2 Sample.zeroWorld)
    as (result & w' & Hrun & Hlen & _).
  - intros n. split; vm_compute; congruence.
  - lia.
  - exists result, w'. split; [exact Hrun | exact Hlen].
Defined.

Lemma shuffleArray_Permutation_witness :
  exists result w',
    Arrays.shuffleArray [1; 2; 3; 4] (Sample.worldOf [1 # 2; 1 # 3; 9 # 10]%Q false)
    = (Ok result, w') /\ result ≡ₚ [1; 2; 3; 4].
Proof.
  apply (shuffleArray_Permutation [1; 2; 3; 4]).
  intros n. destruct n as [| [| [| n]]]; simpl; split; try (vm_compute; congruence).
  - destruct n; vm_compute; congruence.
  - destruct n; vm_compute; congruence.
Defined.

(** *** distributeEvenly *)
Lemma sublist_nth_increasing (l : list Z) (f : nat -> nat) (n : nat) :
  forall k : nat,
    (forall i, (k <= i < k + n)%nat -> (f i < length l)%nat) ->
    (forall i, (k <= i)%nat -> (S i < k + n)%nat -> (f i < f (S i))%nat) ->
    (fun i => nth (f i) l 0) <$> seq k n `sublist_of` drop (f k) l.
Proof.
  induction n as [| n IH]; intros k Hrange Hinc; simpl.
  - apply sublist_nil_l.
  - destruct (lookup_lt_is_Some_2 l (f k)) as [x Hx]; [apply Hrange; lia |].
    rewrite (drop_S _ _ _ Hx), nth_lookup, Hx. simpl.
    apply sublist_skip.
    destruct n as [| n]; [apply sublist_nil_l |].
    transitivity (drop (f (S k)) l).
    + apply IH.
      * intros i Hi. apply Hrange. lia.
      * intros i Hi1 Hi2. apply Hinc; lia.
    + assert (Hlt : (f k < f (S k))%nat) by (apply Hinc; lia).
      replace (f (S k)) with (S (f k) + (f (S k) - S (f k)))%nat by lia.
      rewrite <- drop_drop. apply sublist_drop.
Qed.

Lemma evenIndicesIncrease_spec (step : spec_float) (len : Z) (n : nat) :
  forall prev i,
    evenIndicesIncrease step len prev i n = true ->
    (forall k, (k < n)%nat ->
               prev < Arrays.evenIndex step len (i + Z.of_nat k) < len /\
               is_Some (Double.floor (Double.mul (Double.ofZ (i + Z.of_nat k)) step))) /\
    (forall k, (S k < n)%nat ->
               Arrays.evenIndex step len (i + Z.of_nat k)
               < Arrays.evenIndex step len (i + Z.of_nat (S k))).
Proof.
  induction n as [| n IH]; intros prev i Hok; [split; intros; lia |].
  simpl in Hok.
  destruct (Double.floor (Double.mul (Double.ofZ i) step)) as [index |] eqn:Hfloor;
    [| discriminate].
  apply andb_true_iff in Hok as [Hok Hrest].
  apply andb_true_iff in Hok as [Hprev Hlen].
  apply Z.ltb_lt in Hprev, Hlen.
  destruct (IH _ _ Hrest) as [Hrange Hinc].
  assert (Hhere : Arrays.evenIndex step len i = index).
  { unfold Arrays.evenIndex. rewrite Hfloor. lia. }
  split.
  - intros [| k] Hk.
    + rewrite Z.add_0_r, Hhere, Hfloor. split; [lia | eauto].
    + replace (i + Z.of_nat (S k)) with (i + 1 + Z.of_nat k) by lia.
      destruct (Hrange k) as [Hr Hf]; [lia |]. split; [lia | exact Hf].
  - intros [| k] Hk.
    + replace (i + Z.of_nat 1) with (i + 1 + Z.of_nat 0) by lia.
      rewrite Z.add_0_r, Hhere. destruct (Hrange 0%nat); lia.
    + replace (i + Z.of_nat (S k)) with (i + 1 + Z.of_nat k) by lia.
      replace (i + Z.of_nat (S (S k))) with (i + 1 + Z.of_nat (S k)) by lia.
      apply Hinc. lia.
Qed.

Lemma evenIndicesIncrease_table : evenIndicesIncreaseUpTo 64 = true.
Proof. vm_compute. reflexivity. Qed.

(** For arrays of up to 64 elements, the indices that the loop of
    [distributeEvenly] reads are floors of finite doubles, within the array
    and increasing. *)
Lemma evenIndex_table (len needed : Z) :
  0 < needed < len -> len <= 64 ->
  let step := Double.div (Double.ofZ len) (Double.ofZ needed) in
  (forall i, 0 <= i < needed ->
             0 <= Arrays.evenIndex step len i < len /\
             is_Some (Double.floor (Double.mul (Double.ofZ i) step))) /\
  (forall i, 0 <= i -> i + 1 < needed ->
             Arrays.evenIndex step len i < Arrays.evenIndex step len (i + 1)).
Proof.
  intros Hneeded Hlen step.
  pose proof evenIndicesIncrease_table as Htable.
  unfold evenIndicesIncreaseUpTo in Htable.
  rewrite forallb_forall in Htable.
  assert (Hrow := Htable (Z.to_nat len) ltac:(apply in_seq; lia)).
  rewrite forallb_forall in Hrow.
  assert (Hok := Hrow (Z.to_nat needed) ltac:(apply in_seq; lia)).
  rewrite !Z2Nat.id in Hok by lia. fold step in Hok.
  destruct (evenIndicesIncrease_spec step len (Z.to_nat needed) (-1) 0 Hok)
    as [Hrange Hinc].
  split.
  - intros i Hi. destruct (Hrange (Z.to_nat i)) as [Hr Hf]; [lia |].
    rewrite Z.add_0_l, Z2Nat.id in Hr, Hf by lia. split; [lia | exact Hf].
  - intros i Hi0 Hi1. specialize (Hinc (Z.to_nat i)).
    rewrite !Z.add_0_l in Hinc.
    replace (Z.of_nat (S (Z.to_nat i))) with (i + 1) in Hinc by lia.
    rewrite Z2Nat.id in Hinc by lia. apply Hinc. lia.
Qed.

Lemma distributeEvenly_sublist_aux (available : list Z) (needed : Z) :
  (length available <= 64)%nat ->
  Arrays.distributeEvenly available needed `sublist_of` available /\
  Z.of_nat (length (Arrays.distributeEvenly available needed))
  = Z.max 0 (Z.min needed (Z.of_nat (length available))).
Proof.
  intros Hbound. unfold Arrays.distributeEvenly.
  set (len := Z.of_nat (length available)).
  destruct (len <=? needed) eqn:E.
  - apply Z.leb_le in E. split; [reflexivity | lia].
  - apply Z.leb_gt in E. cbv zeta.
    set (step := Double.div (Double.ofZ len) (Double.ofZ needed)).
    split.
    + destruct (Z.le_gt_cases needed 0) as [Hneg | Hpos].
      { replace (Z.to_nat needed) with 0%nat by lia. apply sublist_nil_l. }
      destruct (evenIndex_table len needed) as [Hrange Hinc]; [lia | lia |].
      fold step in Hrange, Hinc.
      transitivity (drop (Z.to_nat (Arrays.evenIndex step len (Z.of_nat 0))) available);
        [| apply sublist_drop].
      apply (sublist_nth_increasing available
               (fun i => Z.to_nat (Arrays.evenIndex step len (Z.of_nat i)))).
      * intros i Hi. destruct (Hrange (Z.of_nat i)) as [Hr _]; lia.
      * intros i _ Hi.
        destruct (Hrange (Z.of_nat i)) as [Hr1 _]; [lia |].
        specialize (Hinc (Z.of_nat i)).
        replace (Z.of_nat (S i)) with (Z.of_nat i + 1) by lia. lia.
    + rewrite length_fmap, length_seq. lia.
Qed.

(** X9: for an array of up to 64 elements, with the indices computed in
    doubles as the code computes them, [distributeEvenly] returns [needed]
    elements of [available] (all of them when [needed] is the length or
    more, none when it is negative), read at distinct positions in
    increasing order: the result is a subsequence of [available]. *)
Theorem distributeEvenly_sublist (available : list Z) (needed : Z) :
  (length available <= 64)%nat ->
  let result := Arrays.distributeEvenly available needed in
  result `sublist_of` available /\
  Z.of_nat (length result) = Z.max 0 (Z.min needed (Z.of_nat (length available))).
Proof. apply distributeEvenly_sublist_aux. Qed.

Lemma distributeEvenly_sublist_witness :
  Arrays.distributeEvenly (Z.of_nat <$> seq 0 30) 22
  = [0; 1; 2; 4; 5; 6; 8; 9; 10; 12; 13; 14; 16; 17; 19; 20; 21; 23; 24; 25;
     27; 28] /\
  Arrays.distributeEvenly (Z.of_nat <$> seq 0 30) 22
    `sublist_of` (Z.of_nat <$> seq 0 30) /\
  Z.of_nat (length (Arrays.distributeEvenly (Z.of_nat <$> seq 0 30) 22))
  = Z.max 0 (Z.min 22 (Z.of_nat (length (Z.of_nat <$> seq 0 30)))).
Proof.
  split; [vm_compute; reflexivity |].
  apply (distributeEvenly_sublist (Z.of_nat <$> seq 0 30) 22). simpl. lia.
Defined.

(** ** lib/planner/slotAllocator *)

Lemma insertByDate_Permutation (x : TimeSlot) (l : list TimeSlot) :
  insertByDate x l ≡ₚ x :: l.
Proof.
  induction l as [| y l IH]; simpl; [reflexivity |].
  destruct (ts_date y <? ts_date x); [| reflexivity].
  rewrite IH. apply Permutation_swap.
Qed.

Lemma sortByDate_Permutation (l : list TimeSlot) : sortByDate l ≡ₚ l.
Proof.
  induction l as [| x l IH]; simpl; [reflexivity |].
  rewrite insertByDate_Permutation, IH. reflexivity.
Qed.

Lemma insertByDate_Sorted (x : TimeSlot) (l : list TimeSlot) :
  StronglySorted byDate l -> StronglySorted byDate (insertByDate x l).
Proof.
  induction 1 as [| y l Hsorted IH Hall]; simpl.
  - repeat constructor.
  - destruct (ts_date y <? ts_date x) eqn:E.
    + apply Z.ltb_lt in E. constructor; [exact IH |].
      rewrite insertByDate_Permutation. constructor; [unfold byDate; lia | exact Hall].
    + apply Z.ltb_ge in E. constructor; [constructor; assumption |].
      constructor; [exact E |].
      eapply Forall_impl; [exact Hall |]. intros z Hz. unfold byDate in *. lia.
Qed.

Lemma sortByDate_Sorted (l : list TimeSlot) : StronglySorted byDate (sortByDate l).
Proof.
  induction l as [| x l IH]; simpl; [constructor | apply insertByDate_Sorted, IH].
Qed.

Lemma selectDaysForPosts_spec (availableDays : list Z) (needed : Z) :
  availableDays <> [] ->
  (length availableDays <= 64)%nat ->
  let days := SlotAllocator.selectDaysForPosts availableDays needed in
  length days = Z.to_nat needed /\
  (forall d, d ∈ days -> d ∈ availableDays) /\
  (needed <= Z.of_nat (length availableDays) -> days `sublist_of` availableDays).
Proof.
  intros Hne Hbound. unfold SlotAllocator.selectDaysForPosts.
  assert (Hlen : (0 < length availableDays)%nat)
    by (destruct availableDays; [congruence | simpl; lia]).
  destruct (_ <=? needed) eqn:E.
  - apply Z.leb_le in E. split; [rewrite length_fmap, length_seq; reflexivity |].
    split.
    + intros d Hd. apply list_elem_of_fmap in Hd as (i & -> & _).
      rewrite nth_lookup.
      destruct (lookup_lt_is_Some_2 availableDays (i mod length availableDays))
        as [x Hx]; [apply Nat.mod_upper_bound; lia |].
      rewrite Hx. simpl. apply list_elem_of_lookup. eauto.
    + intros Hle. assert (Heq : Z.to_nat needed = length availableDays) by lia.
      rewrite Heq.
      assert (Hid : (fun i => nth (i mod length availableDays) availableDays 0)
                      <$> seq 0 (length availableDays) = availableDays).
      { apply list_eq. intros i. rewrite list_lookup_fmap.
        destruct (decide (i < length availableDays)%nat) as [Hi | Hi].
        - rewrite lookup_seq_lt by exact Hi. simpl.
          rewrite Nat.mod_small by exact Hi.
          destruct (lookup_lt_is_Some_2 availableDays i Hi) as [x Hx].
          rewrite nth_lookup, Hx. reflexivity.
        - rewrite lookup_seq_ge by lia. simpl.
          symmetry. apply lookup_ge_None. lia. }
      rewrite Hid. reflexivity.
  - apply Z.leb_gt in E.
    destruct (distributeEvenly_sublist_aux availableDays needed Hbound) as [Hsub Hl].
    split; [lia |]. split.
    + intros d Hd. apply (sublist_subseteq _ _ Hsub), Hd.
    + intros _. exact Hsub.
Qed.

Lemma leastUsed_nonempty (alreadyUsed : list TimeOfDay) :
  let minUsage :=
    Nat.min (SlotAllocator.usageCount alreadyUsed morning)
      (Nat.min (SlotAllocator.usageCount alreadyUsed afternoon)
               (SlotAllocator.usageCount alreadyUsed evening)) in
  filter (fun t => SlotAllocator.usageCount alreadyUsed t = minUsage)
    SlotAllocator.timeSlots <> [].
Proof.
  intros minUsage. unfold SlotAllocator.timeSlots.
  rewrite !filter_cons, filter_nil.
  repeat case_decide; try discriminate. unfold minUsage in *. lia.
Qed.

Section Allocator.
Context (I : World -> Prop) `{!Stable I}.
Hypothesis fair : forall w, I w -> rng_ok (rng w).
Variables addDays setHours setMinutes : Z -> Z -> Z.

Lemma returns_selectTimeSlot (index : Z) (alreadyUsed : list TimeOfDay) :
  returns I (SlotAllocator.selectTimeSlot SlotAllocator.timeSlots index alreadyUsed)
    (fun o => is_Some o).
Proof.
  unfold SlotAllocator.selectTimeSlot.
  pose proof (leastUsed_nonempty alreadyUsed) as Hne. cbv zeta in Hne.
  set (leastUsed := filter _ SlotAllocator.timeSlots) in *.
  eapply returns_bind with (Q := fun _ => True).
  - destruct (bool_decide _).
    + eapply returns_bind; [apply returns_random; assumption |].
      intros r _. apply returns_ret. exact Logic.I.
    + apply returns_ret. exact Logic.I.
  - intros [|] _; [apply returns_ret; eauto |].
    eapply returns_bind.
    + apply (returns_randomBelow_range I fair).
      destruct leastUsed; [congruence | simpl; lia].
    + intros k [Hk0 Hk1]. apply returns_ret.
      destruct (k <? 0) eqn:E; [apply Z.ltb_lt in E; lia |].
      apply lookup_lt_is_Some_2. lia.
Qed.

Lemma returns_setTimeForSlot (date : Z) (t : TimeOfDay) :
  returns I (DateUtils.setTimeForSlot setHours setMinutes date t) (fun _ => True).
Proof.
  unfold DateUtils.setTimeForSlot. destruct (DateUtils.slotHours t) as [baseHour variance].
  eapply returns_bind; [apply returns_randomBelow; assumption |].
  intros h _. eapply returns_bind; [apply returns_randomBelow; assumption |].
  intros m _. apply returns_ret. exact Logic.I.
Qed.

Lemma returns_slotLoop (daysToUse : list Z) (weekStart : Z) (indices : list nat) :
  Forall (fun i => (i < length daysToUse)%nat) indices ->
  forall (slots : list TimeSlot) (timesUsed : list TimeOfDay),
    returns I
      (SlotAllocator.slotLoop addDays setHours setMinutes indices daysToUse weekStart
         slots timesUsed)
      (fun '(slots', timesUsed') =>
         exists new,
           slots' = slots ++ new /\
           ts_dayOfWeek <$> new = (fun i => nth i daysToUse 0) <$> indices /\
           timesUsed' = timesUsed ++ (ts_timeOfDay <$> new)).
Proof.
  induction indices as [| i rest IH]; intros Hall slots timesUsed; simpl.
  - apply returns_ret. exists []. rewrite !app_nil_r. auto.
  - apply Forall_cons in Hall as [Hi Hrest].
    destruct (lookup_lt_is_Some_2 daysToUse i Hi) as [dayOffset Hd]. rewrite Hd.
    eapply returns_bind; [apply returns_selectTimeSlot |].
    intros o [t ->].
    eapply returns_bind; [apply returns_setTimeForSlot |].
    intros scheduledDate _.
    eapply returns_weaken; [apply IH, Hrest |].
    intros [slots' timesUsed'] (new & -> & Hdays & ->).
    eexists (_ :: new). rewrite <- !app_assoc, !fmap_cons. cbn [ts_dayOfWeek ts_timeOfDay].
    split; [reflexivity |]. split; [| reflexivity].
    rewrite Hdays, nth_lookup, Hd. reflexivity.
Qed.

End Allocator.

Lemma nth_seq_all (l : list Z) :
  (fun i => nth i l 0) <$> seq 0 (length l) = l.
Proof.
  apply list_eq. intros i. rewrite list_lookup_fmap.
  destruct (decide (i < length l)%nat) as [Hi | Hi].
  - rewrite lookup_seq_lt by exact Hi. simpl.
    destruct (lookup_lt_is_Some_2 l i Hi) as [x Hx].
    rewrite nth_lookup, Hx. reflexivity.
  - rewrite lookup_seq_ge by lia. simpl. symmetry. apply lookup_ge_None. lia.
Qed.

Lemma weekdays_first_Permutation :
  SlotAllocator.weekdaySlots ++ SlotAllocator.weekendSlots ≡ₚ [0; 1; 2; 3; 4; 5; 6].
Proof.
  unfold SlotAllocator.weekdaySlots, SlotAllocator.weekendSlots. simpl.
  symmetry. apply (Permutation_middle [1; 2; 3; 4; 5] [6] 0).
Qed.

(** X10: with [Math.random ()] in [0, 1), whatever [addDays], [setHours] and
    [setMinutes] compute, [allocateSlots] ends normally with [count] slots
    (none for a negative count), sorted by date; the days of the slots are
    the days of [daysUsed], each one of 0 to 6, and no day is used twice
    for seven slots or fewer. *)
Theorem allocateSlots_count_sorted (addDays setHours setMinutes : Z -> Z -> Z)
    (config : SlotAllocator.SlotAllocationConfig) (w : World) :
  rng_ok (rng w) ->
  exists result w',
    SlotAllocator.allocateSlots addDays setHours setMinutes config w = (Ok result, w') /\
    length (SlotAllocator.slots result) = Z.to_nat (SlotAllocator.cfg_count config) /\
    StronglySorted byDate (SlotAllocator.slots result) /\
    ts_dayOfWeek <$> SlotAllocator.slots result ≡ₚ SlotAllocator.daysUsed result /\
    ts_timeOfDay <$> SlotAllocator.slots result ≡ₚ SlotAllocator.timesUsed result /\
    Forall (fun d => 0 <= d <= 6) (SlotAllocator.daysUsed result) /\
    (SlotAllocator.cfg_count config <= 7 -> NoDup (SlotAllocator.daysUsed result)).
Proof.
  intros Hfair. unfold SlotAllocator.allocateSlots.
  set (count := SlotAllocator.cfg_count config).
  assert (Hdays : returns fairWorld
            (if default true (SlotAllocator.cfg_preferWeekdays config)
             then ret (SlotAllocator.weekdaySlots ++ SlotAllocator.weekendSlots)
             else Arrays.shuffleArray [0; 1; 2; 3; 4; 5; 6])
            (fun availableDays => availableDays ≡ₚ [0; 1; 2; 3; 4; 5; 6])).
  { destruct (default true _).
    - apply returns_ret, weekdays_first_Permutation.
    - apply (returns_shuffleArray fairWorld (fun w H => H)). }
  destruct (Hdays w Hfair) as (availableDays & w1 & Hrun1 & Hfair1 & Hperm).
  assert (Hne : availableDays <> []).
  { intros ->. apply Permutation_nil_l in Hperm. discriminate. }
  assert (Hseven : (length availableDays <= 64)%nat).
  { rewrite (Permutation_length Hperm). simpl. lia. }
  destruct (selectDaysForPosts_spec availableDays count Hne Hseven) as (Hlen & Hin & Hsub).
  set (daysToUse := SlotAllocator.selectDaysForPosts availableDays count) in *.
  destruct (returns_slotLoop fairWorld (fun w H => H) addDays setHours setMinutes
              daysToUse (SlotAllocator.cfg_weekStart config)
              (seq 0 (Z.to_nat count))) with (slots := @nil TimeSlot)
              (timesUsed := @nil TimeOfDay) (w := w1)
    as ([slots timesUsed] & w2 & Hrun2 & _ & new & Hslots & Hdw & Htimes).
  { apply Forall_forall. intros i Hi. apply elem_of_seq in Hi. lia. }
  { exact Hfair1. }
  simpl in Hslots, Htimes. subst slots timesUsed.
  rewrite <- Hlen, nth_seq_all in Hdw.
  eexists _, w2. split.
  { unfold bind. rewrite Hrun1. fold daysToUse. rewrite Hrun2. reflexivity. }
  cbn [SlotAllocator.slots SlotAllocator.daysUsed SlotAllocator.timesUsed].
  split; [| split; [| split; [| split; [| split]]]].
  - rewrite (Permutation_length (sortByDate_Permutation new)).
    rewrite <- (length_fmap ts_dayOfWeek), Hdw. exact Hlen.
  - apply sortByDate_Sorted.
  - rewrite (sortByDate_Permutation new), Hdw. reflexivity.
  - rewrite (sortByDate_Permutation new). reflexivity.
  - apply Forall_forall. intros d Hd. apply Hin in Hd. rewrite Hperm in Hd.
    repeat (apply elem_of_cons in Hd as [-> | Hd]; [lia |]).
    apply elem_of_nil in Hd. contradiction.
  - intros Hcount. apply (sublist_NoDup _ availableDays).
    + rewrite Hperm. apply (bool_decide_unpack _). vm_compute. exact Logic.I.
    + apply Hsub. rewrite (Permutation_length Hperm). simpl. lia.
Qed.

Lemma allocateSlots_count_sorted_witness :
  exists result w',
    SlotAllocator.allocateSlots (fun d k => d + k * 86400000)
      (fun d h => d / 86400000 * 86400000 + h * 3600000 + d mod 3600000)
      (fun d m => d / 3600000 * 3600000 + m * 60000 + d mod 60000)
      {| SlotAllocator.cfg_count := 3; SlotAllocator.cfg_weekStart := 0;
         SlotAllocator.cfg_preferWeekdays := None |} Sample.zeroWorld
    = (Ok result, w') /\
    length (SlotAllocator.slots result) = 3%nat /\
    NoDup (SlotAllocator.daysUsed result).
Proof.
  edestruct (allocateSlots_count_sorted (fun d k => d + k * 86400000)
      (fun d h => d / 86400000 * 86400000 + h * 3600000 + d mod 3600000)
      (fun d m => d / 3600000 * 3600000 + m * 60000 + d mod 60000)
      {| SlotAllocator.cfg_count := 3; SlotAllocator.cfg_weekStart := 0;
         SlotAllocator.cfg_preferWeekdays := None |} Sample.zeroWorld)
    as (result & w' & Hrun & Hlen & _ & _ & _ & _ & Hnd).
  - intros n. split; vm_compute; congruence.
  - exists result, w'. split; [exact Hrun |]. split; [exact Hlen |].
    apply Hnd. simpl. lia.
Defined.

(** ** lib/planner/subredditMatcher: the runs of the loop *)
Section MatcherRuns.
Context (I : World -> Prop) `{!Stable I}.
Import SubredditMatcher Constraints.

Lemma returns_selectSubreddit_full (subs : list Subreddit)
    (usage : gmap string PostUsage) (date : Z) (cs : PlannerConstraints) :
  returns I (selectSubreddit subs usage date cs)
    (fun o =>
       match o with
       | Some sub => sub ∈ subs /\ canPostToSubreddit (subreddit_id sub) usage cs date = true
       | None => Forall (fun sub => canPostToSubreddit (subreddit_id sub) usage cs date
                                    = false) subs
       end).
Proof.
  unfold selectSubreddit.
  set (eligible := filter _ subs).
  assert (Hel : forall sub, sub ∈ eligible ->
            sub ∈ subs /\ canPostToSubreddit (subreddit_id sub) usage cs date = true).
  { intros sub Hin. apply list_elem_of_filter in Hin. tauto. }
  destruct eligible as [| e eligible'] eqn:E.
  - apply returns_ret. apply Forall_forall. intros sub Hsub.
    destruct (canPostToSubreddit (subreddit_id sub) usage cs date) eqn:Hcan;
      [| reflexivity].
    assert (Hin : sub ∈ filter (fun sub => canPostToSubreddit (subreddit_id sub) usage
                                             cs date = true) subs).
    { apply list_elem_of_filter. split; assumption. }
    fold eligible in Hin. rewrite E in Hin. apply elem_of_nil in Hin. contradiction.
  - rewrite <- E in *. 
    eapply returns_bind.
    + apply (returns_mapM I _ (fun sub y => fst y = sub)).
      intros sub _. eapply returns_bind; [apply returns_random; assumption |].
      intros r _. apply returns_ret; reflexivity.
    + intros scored Hscored. apply returns_ret.
      apply Forall2_fst_eq in Hscored.
      destruct (sortDesc scored) as [| [sub' q] rest] eqn:Es.
      * exfalso. pose proof (sortDesc_Permutation scored) as Hp. rewrite Es in Hp.
        apply Permutation_nil_l in Hp. subst scored. simpl in Hscored.
        rewrite E in Hscored. discriminate.
      * simpl. apply Hel. rewrite <- Hscored.
        apply list_elem_of_fmap. exists (sub', q). split; [reflexivity |].
        rewrite <- (sortDesc_Permutation scored), Es. apply list_elem_of_here.
Qed.

Lemma returns_selectKeywords_full (kws : list Keyword) (sub : Subreddit)
    (usage : list (string * Z)) (pen : gmap string Q) (n : nat) :
  returns I (selectKeywords kws sub usage pen n)
    (fun selected => exists ranked, ranked ≡ₚ kws /\ selected = take n ranked).
Proof.
  unfold selectKeywords. eapply returns_bind.
  - apply (returns_mapM I _ (fun kw y => fst y = kw)).
    intros kw _. eapply returns_bind; [apply returns_random; assumption |].
    intros r _. apply returns_ret; reflexivity.
  - intros scored Hscored. apply returns_ret.
    apply Forall2_fst_eq in Hscored.
    exists (fst <$> sortDesc scored). split.
    + rewrite <- Hscored. apply fmap_Permutation, sortDesc_Permutation.
    + rewrite fmap_take. reflexivity.
Qed.

Lemma returns_matchSlot_step (subs : list Subreddit) (kws : list Keyword)
    (pen : gmap string Q) (cs : PlannerConstraints) (st : LoopState) (slot : TimeSlot) :
  returns I (matchSlot subs kws pen cs st slot) (MatchStep subs kws cs st slot).
Proof.
  unfold matchSlot.
  eapply returns_bind; [apply returns_selectSubreddit_full |].
  intros [sub |] Hsel.
  - destruct Hsel as [Hin Hcan].
    eapply returns_bind; [apply returns_selectKeywords_full |].
    intros selected (ranked & Hperm & ->). apply returns_ret.
    right. exists sub, ranked. cbn [matchedSlots subredditUsage skipped].
    unfold matchedSlotOf, usagePosts.
    repeat split; try assumption; reflexivity.
  - apply returns_ret. left. cbn [matchedSlots subredditUsage skipped].
    repeat split; try assumption; reflexivity.
Qed.

Lemma returns_matchLoop_run (subs : list Subreddit) (kws : list Keyword)
    (pen : gmap string Q) (cs : PlannerConstraints) (slots : list TimeSlot) :
  forall st, returns I (matchLoop subs kws pen cs st slots) (MatchRun subs kws cs st slots).
Proof.
  induction slots as [| slot slots IH]; intros st; simpl.
  - apply returns_ret. constructor.
  - eapply returns_bind; [apply returns_matchSlot_step |].
    intros st1 Hstep. eapply returns_weaken; [apply IH |].
    intros st' Hrun. econstructor; eassumption.
Qed.

End MatcherRuns.

(** Every run of [matchSubreddits] ends normally, and its result is that of
    a run of the loop from the empty state. *)
Lemma matchSubreddits_run (config : SubredditMatcher.SubredditMatcherConfig) (w : World) :
  exists result w' st,
    SubredditMatcher.matchSubreddits config w = (Ok result, w') /\
    MatchRun (SubredditMatcher.cfg_subreddits config)
      (SubredditMatcher.cfg_keywords config)
      (default Constraints.DEFAULT_CONSTRAINTS (SubredditMatcher.cfg_constraints config))
      {| SubredditMatcher.matchedSlots := []; SubredditMatcher.subredditUsage := ∅;
         SubredditMatcher.usageOrder := []; SubredditMatcher.keywordUsageSoFar := [];
         SubredditMatcher.skipped := [] |}
      (SubredditMatcher.cfg_slots config) st /\
    SubredditMatcher.slots result = SubredditMatcher.matchedSlots st /\
    SubredditMatcher.topicsSkipped result = SubredditMatcher.skipped st.
Proof.
  unfold SubredditMatcher.matchSubreddits.
  edestruct (returns_matchLoop_run anyWorld) as (st & w' & Hrun & _ & Hsteps);
    [exact Logic.I |].
  eexists _, w', st. split; [unfold bind; rewrite Hrun; reflexivity |].
  split; [exact Hsteps | split; reflexivity].
Qed.

(** *** What a run keeps of its input *)
Lemma MatchRun_structure (subs : list Subreddit) (kws : list Keyword)
    (cs : PlannerConstraints) (st : SubredditMatcher.LoopState) (slots : list TimeSlot)
    (st' : SubredditMatcher.LoopState) :
  MatchRun subs kws cs st slots st' ->
  exists new dropped,
    SubredditMatcher.matchedSlots st' = SubredditMatcher.matchedSlots st ++ new /\
    SubredditMatcher.skipped st' = SubredditMatcher.skipped st ++ dropped /\
    ms_slot <$> new `sublist_of` slots /\
    dropped `sublist_of` ts_date <$> slots /\
    (length new + length dropped = length slots)%nat /\
    Forall (fun s =>
              ms_subreddit s ∈ subs /\
              (exists ranked, ranked ≡ₚ kws /\ ms_keywords s = take 2 ranked) /\
              ms_threadType s = SubredditMatcher.determineThreadType (ms_keywords s))
           new.
Proof.
  induction 1 as [st | st slot st1 rest st' Hstep Hrun IH].
  - exists [], []. rewrite !app_nil_r. repeat split; try constructor.
  - destruct IH as (new & dropped & Hm & Hs & Hsub & Hdrop & Hlen & Hall).
    destruct Hstep as [(_ & Hm1 & _ & Hs1) | (sub & ranked & Hin & _ & Hperm & Hm1 & _ & Hs1)].
    + exists new, (ts_date slot :: dropped). rewrite Hm, Hm1, Hs, Hs1, <- app_assoc.
      repeat split; try assumption.
      * apply sublist_cons, Hsub.
      * rewrite fmap_cons. apply sublist_skip, Hdrop.
      * simpl. lia.
    + exists (matchedSlotOf slot sub (take 2 ranked) :: new), dropped.
      rewrite Hm, Hm1, Hs, Hs1, <- app_assoc.
      repeat split; try assumption.
      * rewrite fmap_cons. apply sublist_skip, Hsub.
      * apply sublist_cons, Hdrop.
      * simpl. lia.
      * constructor; [| exact Hall]. simpl. repeat split; [exact Hin | eauto].
Qed.

(** X11: [matchSubreddits] always ends normally.  The matched slots are
    input slots, in the order of the input, and so are the dates of the
    dropped ones; every input slot is matched or dropped; a matched slot
    has a subreddit of the input, the first two keywords (all of them when
    there are fewer) of a ranking of the input keywords, and the thread
    type that [determineThreadType] gives for these keywords. *)
Theorem matchSubreddits_keeps_slots
    (config : SubredditMatcher.SubredditMatcherConfig) (w : World) :
  exists result w',
    SubredditMatcher.matchSubreddits config w = (Ok result, w') /\
    ms_slot <$> SubredditMatcher.slots result `sublist_of` SubredditMatcher.cfg_slots config /\
    SubredditMatcher.topicsSkipped result
      `sublist_of` ts_date <$> SubredditMatcher.cfg_slots config /\
    (length (SubredditMatcher.slots result)
     + length (SubredditMatcher.topicsSkipped result)
     = length (SubredditMatcher.cfg_slots config))%nat /\
    forall s, s ∈ SubredditMatcher.slots result ->
      ms_subreddit s ∈ SubredditMatcher.cfg_subreddits config /\
      ms_keywords s ⊆ SubredditMatcher.cfg_keywords config /\
      length (ms_keywords s)
      = Nat.min 2 (length (SubredditMatcher.cfg_keywords config)) /\
      ms_threadType s = SubredditMatcher.determineThreadType (ms_keywords s).
Proof.
  destruct (matchSubreddits_run config w) as (result & w' & st & Hrun & Hsteps & Hslots & Hskip).
  exists result, w'. split; [exact Hrun |].
  destruct (MatchRun_structure _ _ _ _ _ _ Hsteps)
    as (new & dropped & Hm & Hs & Hsub & Hdrop & Hlen & Hall).
  simpl in Hm, Hs. rewrite Hslots, Hskip, Hm, Hs.
  split; [exact Hsub | split; [exact Hdrop | split; [exact Hlen |]]].
  intros s Hin. rewrite Forall_forall in Hall.
  destruct (Hall s Hin) as (H1 & (ranked & Hperm & Hk) & H3).
  split; [exact H1 | split; [| split; [| exact H3]]].
  - rewrite Hk. intros k Hkin. rewrite <- Hperm.
    apply (sublist_subseteq _ _ (sublist_take ranked 2)), Hkin.
  - rewrite Hk, length_take, (Permutation_length Hperm). reflexivity.
Qed.

Lemma sublist_same_length {A} (l k : list A) :
  l `sublist_of` k -> length l = length k -> l = k.
Proof.
  induction 1 as [| x l k Hsub IH | x l k Hsub IH]; intros Hlen.
  - reflexivity.
  - f_equal. apply IH. simpl in Hlen. lia.
  - apply sublist_length in Hsub. simpl in Hlen. lia.
Qed.

(** *** No slot is dropped while a venue is unused *)
Lemma gset_fresh_element (A B : gset string) :
  (size A < size B)%nat -> exists x, x ∈ B /\ x ∉ A.
Proof.
  intros Hlt.
  assert (Hpos : (0 < size (B ∖ A))%nat).
  { assert (Hle : (size B <= size (A ∪ B ∖ A))%nat).
    { apply subseteq_size. intros x Hx. apply elem_of_union.
      destruct (decide (x ∈ A)); [left; assumption |].
      right. apply elem_of_difference. split; assumption. }
    rewrite size_union in Hle; [lia |].
    intros x HA HB. apply elem_of_difference in HB. tauto. }
  apply size_pos_elem_of in Hpos as [x Hx].
  apply elem_of_difference in Hx. exists x. exact Hx.
Qed.

Lemma MatchRun_no_skip (subs : list Subreddit) (kws : list Keyword)
    (cs : PlannerConstraints) (st : SubredditMatcher.LoopState) (slots : list TimeSlot)
    (st' : SubredditMatcher.LoopState) :
  MatchRun subs kws cs st slots st' ->
  (size (dom (SubredditMatcher.subredditUsage st)) + length slots
   <= size (list_to_set (subreddit_id <$> subs) : gset string))%nat ->
  SubredditMatcher.skipped st' = SubredditMatcher.skipped st.
Proof.
  induction 1 as [st | st slot st1 rest st' Hstep Hrun IH]; intros Hroom;
    [reflexivity |].
  simpl in Hroom.
  destruct Hstep as [(Hnone & _) | (sub & ranked & _ & _ & _ & _ & Hu & Hs)].
  - exfalso.
    destruct (gset_fresh_element (dom (SubredditMatcher.subredditUsage st))
                (list_to_set (subreddit_id <$> subs))) as (id & Hid & Hfresh); [lia |].
    apply elem_of_list_to_set, list_elem_of_fmap in Hid as (sub & -> & Hsub).
    rewrite Forall_forall in Hnone. specialize (Hnone sub Hsub).
    unfold Constraints.canPostToSubreddit in Hnone.
    apply not_elem_of_dom in Hfresh. rewrite Hfresh in Hnone. discriminate.
  - rewrite IH, Hs; [reflexivity |].
    rewrite Hu, dom_insert_L.
    pose proof (size_union_alt ({[subreddit_id sub]} : gset string)
                  (dom (SubredditMatcher.subredditUsage st))) as Hsz.
    assert (Hd : (size (dom (SubredditMatcher.subredditUsage st)
                        ∖ ({[subreddit_id sub]} : gset string))
                  <= size (dom (SubredditMatcher.subredditUsage st)))%nat).
    { apply subseteq_size. intros x Hx. apply elem_of_difference in Hx. tauto. }
    rewrite size_singleton in Hsz. lia.
Qed.

(** X12: when the input has at least as many subreddits, counted by id, as
    slots, no slot is dropped: every input slot is matched, in order. *)
Theorem matchSubreddits_matches_every_slot
    (config : SubredditMatcher.SubredditMatcherConfig) (w : World) :
  (length (SubredditMatcher.cfg_slots config)
   <= size (list_to_set (subreddit_id <$> SubredditMatcher.cfg_subreddits config)
            : gset string))%nat ->
  exists result w',
    SubredditMatcher.matchSubreddits config w = (Ok result, w') /\
    SubredditMatcher.topicsSkipped result = [] /\
    ms_slot <$> SubredditMatcher.slots result = SubredditMatcher.cfg_slots config.
Proof.
  intros Hroom.
  destruct (matchSubreddits_run config w) as (result & w' & st & Hrun & Hsteps & Hslots & Hskip).
  exists result, w'. split; [exact Hrun |].
  pose proof (MatchRun_no_skip _ _ _ _ _ _ Hsteps) as Hnone.
  simpl in Hnone. rewrite dom_empty_L, size_empty in Hnone.
  specialize (Hnone Hroom).
  destruct (MatchRun_structure _ _ _ _ _ _ Hsteps)
    as (new & dropped & Hm & Hs & Hsub & _ & Hlen & _).
  simpl in Hm, Hs. rewrite Hskip, Hslots, Hm, Hnone. split; [reflexivity |].
  rewrite Hnone in Hs. subst dropped. simpl in Hlen.
  apply sublist_same_length in Hsub; [exact Hsub |].
  rewrite length_fmap. lia.
Qed.

(** *** The spacing of the posts of a subreddit *)
Lemma MatchRun_spacing (subs : list Subreddit) (kws : list Keyword)
    (cs : PlannerConstraints) (st : SubredditMatcher.LoopState) (slots : list TimeSlot)
    (st' : SubredditMatcher.LoopState) :
  0 <= minDaysBetweenSubredditPosts cs ->
  MatchRun subs kws cs st slots st' ->
  let gap := minDaysBetweenSubredditPosts cs * Constraints.msPerDay in
  let Seen (st : SubredditMatcher.LoopState) :=
    forall s, s ∈ SubredditMatcher.matchedSlots st ->
      exists u d, SubredditMatcher.subredditUsage st !! subreddit_id (ms_subreddit s) = Some u /\
                  Constraints.pu_lastPostDate u = Some d /\ slot_date s <= d in
  let Spaced (st : SubredditMatcher.LoopState) :=
    forall (i j : nat) a b, (i < j)%nat ->
      SubredditMatcher.matchedSlots st !! i = Some a ->
      SubredditMatcher.matchedSlots st !! j = Some b ->
      subreddit_id (ms_subreddit a) = subreddit_id (ms_subreddit b) ->
      gap <= slot_date b - slot_date a in
  Seen st -> Spaced st -> Seen st' /\ Spaced st'.
Proof.
  intros Hmin Hrun gap Seen Spaced.
  assert (Hgap : 0 <= gap) by (unfold gap, Constraints.msPerDay; lia).
  induction Hrun as [st | st slot st1 rest st' Hstep Hrun IH]; intros Hseen Hspaced;
    [split; assumption |].
  apply IH.
  - destruct Hstep as [(_ & Hm & Hu & _) | (sub & ranked & _ & Hcan & _ & Hm & Hu & _)].
    + intros s Hs. rewrite Hm in Hs. rewrite Hu. apply Hseen, Hs.
    + intros s Hs. rewrite Hm in Hs. rewrite Hu.
      apply elem_of_app in Hs as [Hs | Hs].
      * destruct (decide (subreddit_id sub = subreddit_id (ms_subreddit s))) as [Heq | Hne].
        -- rewrite <- Heq, lookup_insert_eq. eexists _, _. split; [reflexivity |].
           split; [reflexivity |].
           destruct (Hseen s Hs) as (u & d & Hlook & Hlast & Hle).
           rewrite <- Heq in Hlook.
           unfold Constraints.canPostToSubreddit in Hcan. rewrite Hlook in Hcan.
           destruct (_ <=? Constraints.pu_postsThisWeek u); [discriminate |].
           rewrite Hlast in Hcan.
           destruct (_ <? _) eqn:E in Hcan; [discriminate |].
           apply Z.ltb_ge in E. fold gap in E. lia.
        -- rewrite lookup_insert_ne by exact Hne. apply Hseen, Hs.
      * apply list_elem_of_singleton in Hs. subst s. simpl.
        rewrite lookup_insert_eq. eexists _, _. split; [reflexivity |].
        split; [reflexivity |]. unfold slot_date. simpl. lia.
  - destruct Hstep as [(_ & Hm & Hu & _) | (sub & ranked & _ & Hcan & _ & Hm & Hu & _)].
    + intros i j a b Hij Hi Hj. rewrite Hm in Hi, Hj. apply (Hspaced i j); assumption.
    + intros i j a b Hij Hi Hj Hid. rewrite Hm in Hi, Hj.
      destruct (decide (j < length (SubredditMatcher.matchedSlots st))%nat) as [Hjl | Hjl].
      * rewrite lookup_app_l in Hi, Hj by lia. apply (Hspaced i j); assumption.
      * rewrite lookup_app_r in Hj by lia.
        destruct (j - length (SubredditMatcher.matchedSlots st))%nat eqn:Ej;
          [| destruct n; discriminate].
        simpl in Hj. injection Hj as <-.
        assert (Hil : (i < length (SubredditMatcher.matchedSlots st))%nat) by lia.
        rewrite lookup_app_l in Hi by lia.
        assert (Ha : a ∈ SubredditMatcher.matchedSlots st)
          by (apply list_elem_of_lookup; eauto).
        destruct (Hseen a Ha) as (u & d & Hlook & Hlast & Hle).
        simpl in Hid. rewrite Hid in Hlook.
        unfold Constraints.canPostToSubreddit in Hcan. rewrite Hlook in Hcan.
        destruct (_ <=? Constraints.pu_postsThisWeek u); [discriminate |].
        rewrite Hlast in Hcan.
        destruct (_ <? _) eqn:E in Hcan; [discriminate |].
        apply Z.ltb_ge in E. fold gap in E. unfold slot_date at 1. simpl. lia.
Qed.

(** X13: for a spacing that is not negative, two slots matched to the same
    subreddit are at least [minDaysBetweenSubredditPosts] days apart, the
    later one in the result being the later one in time. *)
Theorem matchSubreddits_spaces_posts
    (config : SubredditMatcher.SubredditMatcherConfig) (w : World) :
  let cs := default Constraints.DEFAULT_CONSTRAINTS
              (SubredditMatcher.cfg_constraints config) in
  0 <= minDaysBetweenSubredditPosts cs ->
  exists result w',
    SubredditMatcher.matchSubreddits config w = (Ok result, w') /\
    forall (i j : nat) a b, (i < j)%nat ->
      SubredditMatcher.slots result !! i = Some a ->
      SubredditMatcher.slots result !! j = Some b ->
      subreddit_id (ms_subreddit a) = subreddit_id (ms_subreddit b) ->
      minDaysBetweenSubredditPosts cs * Constraints.msPerDay
      <= slot_date b - slot_date a.
Proof.
  intros cs Hmin.
  destruct (matchSubreddits_run config w) as (result & w' & st & Hrun & Hsteps & Hslots & _).
  exists result, w'. split; [exact Hrun |].
  destruct (MatchRun_spacing _ _ _ _ _ _ Hmin Hsteps) as [_ Hspaced].
  - intros s Hs. apply elem_of_nil in Hs. contradiction.
  - intros i j a b _ Hi. simpl in Hi. rewrite lookup_nil in Hi. discriminate.
  - rewrite Hslots. exact Hspaced.
Qed.

(** *** Tallies *)
Lemma countOf_cons {A} (key : A -> string) (k : string) (x : A) (l : list A) :
  countOf key k (x :: l) = countOf key k l + (if decide (key x = k) then 1 else 0).
Proof.
  unfold countOf. rewrite filter_cons.
  destruct (decide (key x = k)); simpl length; lia.
Qed.

Lemma countOf_nonneg {A} (key : A -> string) (k : string) (l : list A) :
  0 <= countOf key k l.
Proof. unfold countOf. lia. Qed.

Lemma tallyBy_invariant {A} (key : A -> string) (l : list A) :
  forall counts : list (string * Z),
    NoDup counts.*1 ->
    let counts' :=
      foldl (fun counts x =>
               assocSet (key x) (default 0 (assocGet (key x) counts) + 1) counts)
            counts l in
    NoDup counts'.*1 /\
    forall k,
      assocGet k counts' =
      if decide (countOf key k l = 0) then assocGet k counts
      else Some (default 0 (assocGet k counts) + countOf key k l).
Proof.
  induction l as [| x l IH]; intros counts Hnd.
  - simpl. split; [exact Hnd |]. intros k. reflexivity.
  - simpl foldl.
    destruct (IH _ (assocSet_keys_NoDup (key x)
                      (default 0 (assocGet (key x) counts) + 1) counts Hnd))
      as [Hnd' Hcount].
    split; [exact Hnd' |]. intros k. rewrite Hcount, countOf_cons.
    pose proof (countOf_nonneg key k l) as Hpos.
    destruct (decide (key x = k)) as [<- | Hne].
    + rewrite assocGet_set_eq. simpl.
      repeat case_decide; try lia; f_equal; lia.
    + rewrite assocGet_set_ne by exact Hne.
      repeat case_decide; try lia; try reflexivity; f_equal; lia.
Qed.

(** The tally holds, once each, the keys that occur, with their counts. *)
Lemma tallyBy_spec {A} (key : A -> string) (l : list A) (k : string) (c : Z) :
  (k, c) ∈ tallyBy key l -> c = countOf key k l /\ 0 < c.
Proof.
  intros Hin. unfold tallyBy in Hin.
  destruct (tallyBy_invariant key l [] (NoDup_nil_2)) as [Hnd Hcount].
  apply (elem_assocGet _ _ _ Hnd) in Hin.
  specialize (Hcount k). rewrite Hin in Hcount. simpl in Hcount.
  pose proof (countOf_nonneg key k l).
  case_decide; [discriminate |]. injection Hcount as ->. lia.
Qed.

Lemma tallyBy_lookup {A} (key : A -> string) (l : list A) (k : string) :
  default 0 (assocGet k (tallyBy key l)) = countOf key k l.
Proof.
  unfold tallyBy.
  destruct (tallyBy_invariant key l [] (NoDup_nil_2)) as [_ Hcount].
  rewrite Hcount. simpl. case_decide; simpl; lia.
Qed.

Lemma filter_length_le {A} (P Q : A -> Prop) `{!forall x, Decision (P x)}
    `{!forall x, Decision (Q x)} (l : list A) :
  (forall x, x ∈ l -> P x -> Q x) ->
  (length (filter P l) <= length (filter Q l))%nat.
Proof.
  induction l as [| x l IH]; intros HPQ; [reflexivity |].
  rewrite !filter_cons.
  assert (Hl : forall y, y ∈ l -> P y -> Q y)
    by (intros y Hy; apply HPQ, list_elem_of_further, Hy).
  specialize (IH Hl).
  destruct (decide (P x)) as [HP | HP].
  - rewrite decide_True by (apply HPQ; [apply list_elem_of_here | exact HP]).
    simpl. lia.
  - destruct (decide (Q x)); simpl; lia.
Qed.

(** *** The weekly cap, by subreddit id *)
Lemma MatchRun_cap (subs : list Subreddit) (kws : list Keyword)
    (cs : PlannerConstraints) (st : SubredditMatcher.LoopState) (slots : list TimeSlot)
    (st' : SubredditMatcher.LoopState) :
  1 <= maxPostsPerSubredditPerWeek cs ->
  MatchRun subs kws cs st slots st' ->
  MatcherInv (maxPostsPerSubredditPerWeek cs) subs st ->
  MatcherInv (maxPostsPerSubredditPerWeek cs) subs st'.
Proof.
  intros Hcap. induction 1 as [st | st slot st1 rest st' Hstep Hrun IH];
    intros Hinv; [exact Hinv |].
  apply IH. destruct Hinv as (Hcount & Hle & Hsub).
  destruct Hstep as [(_ & Hm & Hu & _) | (sub & ranked & Hin & Hcan & _ & Hm & Hu & _)].
  - unfold MatcherInv. rewrite Hm, Hu. auto.
  - pose proof (canPost_room _ _ _ _ Hcap Hcan) as Hroom.
    unfold MatcherInv. rewrite Hm, Hu. split; [| split].
    + intros id. rewrite matchedCount_app. cbn [ms_subreddit matchedSlotOf].
      unfold usagePosts at 1. rewrite lookup_insert.
      destruct (decide (subreddit_id sub = id)) as [<- | Hne]; simpl.
      * rewrite Hcount. reflexivity.
      * rewrite Hcount. unfold usagePosts. lia.
    + intros id. unfold usagePosts at 1. rewrite lookup_insert.
      destruct (decide (subreddit_id sub = id)) as [<- | Hne]; simpl;
        [exact Hroom | apply Hle].
    + intros s Hs. apply elem_of_app in Hs as [Hs | Hs]; [apply Hsub, Hs |].
      apply list_elem_of_singleton in Hs. subst s. exact Hin.
Qed.

(** X14: the matcher's output passes its own validation: for a weekly cap
    of 1 or more, at least one keyword, and subreddits whose names tell
    their ids apart, [validateSubredditMatching] finds no issue in the
    slots of [matchSubreddits] for the cap the matcher ran with. *)
Theorem matchSubreddits_output_is_valid
    (config : SubredditMatcher.SubredditMatcherConfig) (w : World) :
  let cs := default Constraints.DEFAULT_CONSTRAINTS
              (SubredditMatcher.cfg_constraints config) in
  1 <= maxPostsPerSubredditPerWeek cs ->
  SubredditMatcher.cfg_keywords config <> [] ->
  (forall s1 s2, s1 ∈ SubredditMatcher.cfg_subreddits config ->
                 s2 ∈ SubredditMatcher.cfg_subreddits config ->
                 subreddit_name s1 = subreddit_name s2 ->
                 subreddit_id s1 = subreddit_id s2) ->
  exists result w',
    SubredditMatcher.matchSubreddits config w = (Ok result, w') /\
    validateSubredditMatching (SubredditMatcher.slots result)
      (maxPostsPerSubredditPerWeek cs) = [].
Proof.
  intros cs Hcap Hkws Hnames.
  destruct (matchSubreddits_run config w) as (result & w' & st & Hrun & Hsteps & Hslots & _).
  exists result, w'. split; [exact Hrun |]. fold cs in Hsteps.
  destruct (MatchRun_cap _ _ _ _ _ _ Hcap Hsteps) as (Hcount & Hle & Hsub).
  { split; [| split].
    - intros id. reflexivity.
    - intros id. unfold usagePosts. simpl. rewrite lookup_empty. lia.
    - intros s Hs. apply elem_of_nil in Hs. contradiction. }
  destruct (MatchRun_structure _ _ _ _ _ _ Hsteps) as (new & _ & Hm & _ & _ & _ & _ & Hall).
  simpl in Hm. rewrite Hslots. rewrite <- Hm in Hall.
  set (matched := SubredditMatcher.matchedSlots st) in *.
  unfold validateSubredditMatching. apply app_nil. split.
  - apply omap_nil_iff, Forall_forall. intros [name c] Hin.
    apply tallyBy_spec in Hin as [-> Hpos].
    destruct (maxPostsPerSubredditPerWeek cs <? _) eqn:E; [| reflexivity].
    exfalso. apply Z.ltb_lt in E.
    unfold countOf in Hpos, E.
    destruct (filter (fun x => subreddit_name (ms_subreddit x) = name) matched)
      as [| s0 rest] eqn:Ef; [simpl in Hpos; lia |].
    assert (Hs0 : s0 ∈ filter (fun x => subreddit_name (ms_subreddit x) = name) matched)
      by (rewrite Ef; apply list_elem_of_here).
    apply list_elem_of_filter in Hs0 as [Hn0 Hs0].
    pose proof (filter_length_le
                  (fun x => subreddit_name (ms_subreddit x) = name)
                  (fun s => subreddit_id (ms_subreddit s) = subreddit_id (ms_subreddit s0))
                  matched) as Hincl.
    rewrite Ef in Hincl.
    specialize (Hcount (subreddit_id (ms_subreddit s0))).
    specialize (Hle (subreddit_id (ms_subreddit s0))).
    unfold matchedCount in Hcount. fold matched in Hcount.
    assert (Hall' : forall x, x ∈ matched ->
              subreddit_name (ms_subreddit x) = name ->
              subreddit_id (ms_subreddit x) = subreddit_id (ms_subreddit s0)).
    { intros x Hx Hname. apply Hnames; [apply Hsub, Hx | apply Hsub, Hs0 | congruence]. }
    specialize (Hincl Hall'). lia.
  - destruct (filter (fun s => ms_keywords s = []) matched) as [| s rest] eqn:Ef;
      [reflexivity |].
    exfalso.
    assert (Hs : s ∈ filter (fun s => ms_keywords s = []) matched)
      by (rewrite Ef; apply list_elem_of_here).
    apply list_elem_of_filter in Hs as [Hempty Hs].
    rewrite Forall_forall in Hall.
    destruct (Hall s Hs) as (_ & (ranked & Hperm & Hk) & _).
    rewrite Hempty in Hk.
    destruct ranked as [| k1 ranked]; [| destruct ranked; discriminate].
    apply Permutation_nil_l in Hperm. apply Hkws. symmetry. exact Hperm.
Qed.

Lemma matchSubreddits_matches_every_slot_witness :
  exists result w',
    SubredditMatcher.matchSubreddits MatcherFixtures.twoSlotConfig Sample.zeroWorld
    = (Ok result, w') /\
    SubredditMatcher.topicsSkipped result = [].
Proof.
  destruct (matchSubreddits_matches_every_slot MatcherFixtures.twoSlotConfig
              Sample.zeroWorld) as (result & w' & Hrun & Hskip & _).
  - vm_compute. lia.
  - exists result, w'. split; assumption.
Defined.

Lemma matchSubreddits_spaces_posts_witness :
  exists result w',
    SubredditMatcher.matchSubreddits Sample.matcherConfig Sample.zeroWorld
    = (Ok result, w') /\
    forall a b,
      SubredditMatcher.slots result !! 0%nat = Some a ->
      SubredditMatcher.slots result !! 2%nat = Some b ->
      subreddit_id (ms_subreddit a) = subreddit_id (ms_subreddit b) ->
      3 * Constraints.msPerDay <= slot_date b - slot_date a.
Proof.
  destruct (matchSubreddits_spaces_posts Sample.matcherConfig Sample.zeroWorld)
    as (result & w' & Hrun & Hgap).
  - simpl. lia.
  - exists result, w'. split; [exact Hrun |].
    intros a b Ha Hb Hid. apply (Hgap 0%nat 2%nat a b); [lia | assumption ..].
Defined.

Lemma matchSubreddits_output_is_valid_witness :
  exists result w',
    SubredditMatcher.matchSubreddits Sample.matcherConfig Sample.zeroWorld
    = (Ok result, w') /\
    validateSubredditMatching (SubredditMatcher.slots result) 2 = [].
Proof.
  apply (matchSubreddits_output_is_valid Sample.matcherConfig Sample.zeroWorld).
  - simpl. lia.
  - discriminate.
  - intros s1 s2 H1 H2.
    repeat (apply elem_of_cons in H1 as [-> | H1]);
      repeat (apply elem_of_cons in H2 as [-> | H2]);
      try (apply elem_of_nil in H1; contradiction);
      try (apply elem_of_nil in H2; contradiction);
      try reflexivity; discriminate.
Defined.

(** ** lib/planner/personaAssigner: the runs of the loop *)

(** Two facts about the result of one computation hold together. *)
Lemma returns_conj {A} (I : World -> Prop) (m : Eff A) (P Q : A -> Prop) :
  returns I m P -> returns I m Q -> returns I m (fun a => P a /\ Q a).
Proof.
  intros HP HQ w Hw.
  destruct (HP w Hw) as (a & w1 & E1 & Hw1 & Ha).
  destruct (HQ w Hw) as (a' & w2 & E2 & _ & Ha').
  rewrite E1 in E2. injection E2 as <- <-.
  exists a, w1. auto.
Qed.

Lemma hasBackToBack_snoc (ids : list string) (x : string) :
  Constraints.hasBackToBack (ids ++ [x]) =
  Constraints.hasBackToBack ids
  || match last ids with
     | Some y => String.eqb x y
     | None => false
     end.
Proof.
  induction ids as [| a ids IH]; [reflexivity |].
  destruct ids as [| b ids].
  - simpl. destruct (String.eqb x a); reflexivity.
  - change (Constraints.hasBackToBack ((a :: b :: ids) ++ [x]))
      with (if String.eqb b a then true
            else Constraints.hasBackToBack ((b :: ids) ++ [x])).
    change (Constraints.hasBackToBack (a :: b :: ids))
      with (if String.eqb b a then true else Constraints.hasBackToBack (b :: ids)).
    change (last (a :: b :: ids)) with (last (b :: ids)).
    destruct (String.eqb b a); [reflexivity | exact IH].
Qed.

Lemma pickCommenters_no_back_to_back (scored : list Persona) (count : Z) :
  forall selected,
    Constraints.hasBackToBack (persona_id <$> selected) = false ->
    Constraints.hasBackToBack
      (persona_id <$> PersonaAssigner.pickCommenters scored count selected) = false.
Proof.
  induction scored as [| p rest IH]; intros selected Hsel; simpl; [exact Hsel |].
  destruct (count <=? Z.of_nat (length selected)); [exact Hsel |].
  destruct (last selected) as [lastSelected |] eqn:Hlast.
  - destruct (String.eqb (persona_id lastSelected) (persona_id p)) eqn:E;
      [apply IH, Hsel |].
    apply IH.
    replace (persona_id <$> selected ++ [p])
      with ((persona_id <$> selected) ++ [persona_id p])
      by (rewrite fmap_app; reflexivity).
    rewrite hasBackToBack_snoc, Hsel, fmap_last, Hlast. simpl.
    rewrite String.eqb_sym. exact E.
  - apply IH.
    replace (persona_id <$> selected ++ [p])
      with ((persona_id <$> selected) ++ [persona_id p])
      by (rewrite fmap_app; reflexivity).
    rewrite hasBackToBack_snoc, Hsel, fmap_last, Hlast. reflexivity.
Qed.

Section AssignerRuns.
Context (I : World -> Prop) `{!Stable I}.
Hypothesis fair : forall w, I w -> rng_ok (rng w).
Import PersonaAssigner Constraints.

Lemma returns_selectOP_can (slot : MatchedSlot) (personas : list Persona)
    (usage : gmap string PersonaUsageTracker) (cs : PlannerConstraints) :
  AssignerInv personas usage ->
  returns I (selectOP slot personas usage cs)
    (fun o => forall p, o = Some p ->
       canPersonaPost (persona_id p) (postUsage usage) cs (slot_date slot) = true).
Proof.
  intros Hinv. unfold selectOP.
  eapply returns_bind.
  - apply (returns_filterM I _
             (fun p b => b = true ->
                canPersonaPost (persona_id p) (postUsage usage) cs (slot_date slot)
                = true)).
    intros p _.
    destruct (canPersonaPost (persona_id p) (postUsage usage) cs (slot_date slot));
      cbn [negb].
    + eapply returns_bind; [apply (returns_isPersonaFit I) |].
      intros b _. apply returns_ret. reflexivity.
    + apply returns_ret. discriminate.
  - intros eligible Hel. destruct eligible as [| e eligible'] eqn:E.
    + apply returns_ret. intros p [=].
    + rewrite <- E in *. clear E.
      eapply returns_bind.
      * apply (returns_mapM I _ (fun p y => fst y = p)).
        intros p Hp. eapply returns_bind.
        -- apply returns_getTracker, Hinv, Hel, Hp.
        -- intros t _. eapply returns_bind; [apply returns_random; assumption |].
           intros r _. apply returns_ret. reflexivity.
      * intros scored Hscored. apply returns_ret.
        intros p Hhead.
        assert (Hin : p ∈ eligible).
        { apply Forall2_fst_eq in Hscored. rewrite <- Hscored.
          destruct (sortDesc scored) as [| [p' q] rest] eqn:Es; [discriminate |].
          simpl in Hhead. injection Hhead as <-.
          apply list_elem_of_fmap. exists (p', q). split; [reflexivity |].
          rewrite <- (sortDesc_Permutation scored), Es. apply list_elem_of_here. }
        apply (Hel p Hin). reflexivity.
Qed.

Lemma returns_selectCommenters_more (op : Persona) (personas : list Persona)
    (count : Z) (usage : gmap string PersonaUsageTracker) (pairings : gset string)
    (cs : PlannerConstraints) :
  AssignerInv personas usage ->
  returns I (selectCommenters op personas count usage pairings cs)
    (fun sel =>
       Forall (fun c => underCommentLimit usage cs c = true) sel /\
       hasBackToBack (persona_id <$> sel) = false).
Proof.
  intros Hinv. unfold selectCommenters.
  set (strict := filter _ personas).
  set (relaxed := filter _ personas).
  set (relaxedEligible := match strict with [] => relaxed | _ => strict end).
  assert (Hsub : relaxedEligible `sublist_of` personas).
  { unfold relaxedEligible. destruct strict eqn:E; [apply sublist_filter |].
    rewrite <- E. apply sublist_filter. }
  assert (Hlim : forall c, c ∈ relaxedEligible -> underCommentLimit usage cs c = true).
  { intros c Hc. unfold relaxedEligible in Hc. destruct strict eqn:E.
    - apply list_elem_of_filter in Hc as [Hc _].
      apply Is_true_true in Hc. apply andb_true_iff in Hc. tauto.
    - rewrite <- E in Hc. apply list_elem_of_filter in Hc as [Hc _].
      apply Is_true_true in Hc. rewrite !andb_true_iff in Hc. tauto. }
  clearbody relaxedEligible. clear strict relaxed.
  destruct relaxedEligible as [| e rest] eqn:E.
  - apply returns_ret. split; [constructor | reflexivity].
  - rewrite <- E in *. clear E.
    eapply returns_bind.
    + apply (returns_mapM I _ (fun p y => fst y = p)).
      intros p Hp. eapply returns_bind.
      * apply returns_getTracker, Hinv. apply (sublist_subseteq _ _ Hsub), Hp.
      * intros t _. eapply returns_bind; [apply returns_random; assumption |].
        intros r _. apply returns_ret. reflexivity.
    + intros scored Hscored. apply returns_ret.
      apply Forall2_fst_eq in Hscored.
      assert (Hperm : fst <$> sortDesc scored ≡ₚ relaxedEligible).
      { rewrite <- Hscored. apply fmap_Permutation, sortDesc_Permutation. }
      split.
      * destruct (pickCommenters_spec (fst <$> sortDesc scored) count [])
          as (extra & Heq & Hex & _).
        rewrite Heq. simpl. apply Forall_forall. intros c Hc.
        apply Hlim. rewrite <- Hperm. apply (sublist_subseteq _ _ Hex), Hc.
      * apply pickCommenters_no_back_to_back. reflexivity.
Qed.

Lemma postUsage_insert (usage : gmap string PersonaUsageTracker) (id : string)
    (t : PersonaUsageTracker) :
  postUsage (<[id := t]> usage)
  = <[id := {| pu_postsThisWeek := postsThisWeek t;
               pu_lastPostDate := lastPostDate t |}]> (postUsage usage).
Proof. unfold postUsage. rewrite fmap_insert. reflexivity. Qed.

Lemma returns_updateCommenters_posts (commenters : list Persona) :
  forall usage : gmap string PersonaUsageTracker,
    (forall c, c ∈ commenters -> is_Some (usage !! persona_id c)) ->
    returns I (updateCommenters usage commenters)
      (fun usage' => postUsage usage' = postUsage usage).
Proof.
  induction commenters as [| c rest IH]; intros usage Hall; simpl.
  - apply returns_ret. reflexivity.
  - eapply returns_bind; [apply returns_getTracker, Hall, list_elem_of_here |].
    intros t Ht. eapply returns_weaken.
    + apply IH. intros c' Hc'. apply lookup_insert_is_Some'. right.
      apply Hall, list_elem_of_further, Hc'.
    + intros usage' ->. rewrite postUsage_insert. simpl.
      apply insert_id. unfold postUsage. rewrite lookup_fmap, Ht. reflexivity.
Qed.

Lemma returns_updateUsage_posts (personas : list Persona)
    (usage : gmap string PersonaUsageTracker) (op : Persona)
    (commenters : list Persona) (slot : MatchedSlot) :
  AssignerInv personas usage -> op ∈ personas ->
  (forall c, c ∈ commenters -> c ∈ personas) ->
  returns I (updateUsage usage op commenters slot)
    (fun usage' =>
       postUsage usage'
       = <[persona_id op :=
             {| pu_postsThisWeek := postsOf usage (persona_id op) + 1;
                pu_lastPostDate := Some (slot_date slot) |}]> (postUsage usage)).
Proof.
  intros Hinv Hop Hsub. unfold updateUsage.
  eapply returns_bind; [apply returns_getTracker, Hinv, Hop |].
  intros t Ht. eapply returns_weaken.
  - apply returns_updateCommenters_posts. intros c Hc.
    apply lookup_insert_is_Some'. right. apply Hinv, Hsub, Hc.
  - intros usage' ->. rewrite postUsage_insert. simpl.
    unfold postsOf. rewrite Ht. reflexivity.
Qed.

Lemma returns_assignSlot_full (personas : list Persona) (cs : PlannerConstraints)
    (st : LoopState) (slot : MatchedSlot) :
  AssignerInv personas (usage st) ->
  returns I (assignSlot personas cs st slot) (AssignFullStep personas cs st slot).
Proof.
  intros Hinv. unfold assignSlot.
  eapply returns_bind.
  { apply returns_conj; [apply (returns_selectOP I), Hinv | apply returns_selectOP_can, Hinv]. }
  intros [op |] [Hop Hcan].
  - specialize (Hop op eq_refl). specialize (Hcan op eq_refl).
    set (m := Z.min (Z.min (maxPersonasPerThread cs - 1)
                           (Z.of_nat (length personas) - 1)) 3).
    eapply returns_bind; [apply returns_randomBelow_fair; assumption |].
    intros k [Hk0 Hk1].
    eapply returns_bind.
    { apply returns_conj;
        [apply (returns_selectCommenters I), Hinv | apply returns_selectCommenters_more, Hinv]. }
    intros sel [(Hsel & Hlen & Hnd & _) (Hlim & Hb2b)].
    eapply returns_bind.
    { apply returns_conj.
      - apply (returns_updateUsage I personas); [exact Hinv | exact Hop |].
        intros c Hc. apply Hsel, Hc.
      - apply (returns_updateUsage_posts personas); [exact Hinv | exact Hop |].
        intros c Hc. apply Hsel, Hc. }
    intros usage' [[Hinv' Hcount] Hposts]. apply returns_ret.
    split; [exact Hinv' |]. right. exists op, sel.
    cbn [usage assignedSlots pairingsThisWeek warningsSoFar].
    split; [exact Hop |]. split; [exact Hcan |]. split.
    { apply Forall_forall. intros c Hc. destruct (Hsel c Hc) as [H1 H2].
      rewrite Forall_forall in Hlim. auto. }
    split.
    { intros Hmax.
      destruct (decide (2 <= length personas)%nat) as [Hn | Hn].
      - assert (1 <= m) by (unfold m; lia).
        specialize (Hk1 H). unfold m in *. lia.
      - destruct sel as [| c sel']; [simpl; lia |]. exfalso.
        destruct (Hsel c (list_elem_of_here _ _)) as [Hc Hne].
        destruct personas as [| a [| b rest]]; simpl in Hn; try lia.
        + apply elem_of_nil in Hc. exact Hc.
        + apply list_elem_of_singleton in Hc, Hop. congruence. }
    split; [exact Hb2b |]. split; [exact Hnd |].
    split; [reflexivity |]. split; [exact Hposts |]. split; [exact Hcount |].
    split; reflexivity.
  - apply returns_ret. split; [exact Hinv |]. left.
    repeat split; reflexivity.
Qed.

Lemma returns_assignLoop_run (personas : list Persona) (cs : PlannerConstraints)
    (slots : list MatchedSlot) :
  forall st, AssignerInv personas (usage st) ->
    returns I (assignLoop personas cs st slots) (AssignRun personas cs st slots).
Proof.
  induction slots as [| slot rest IH]; intros st Hinv; simpl.
  - apply returns_ret. constructor.
  - eapply returns_bind; [apply returns_assignSlot_full, Hinv |].
    intros st1 Hstep. eapply returns_weaken; [apply IH, Hstep |].
    intros st' Hrun. econstructor; eassumption.
Qed.

End AssignerRuns.

(** The run of [assignPersonas]: it throws on fewer than two personas and
    otherwise runs the loop from the empty state. *)
Lemma assignPersonas_run (config : PersonaAssigner.PersonaAssignerConfig) (w : World) :
  let cs := default Constraints.DEFAULT_CONSTRAINTS
              (PersonaAssigner.cfg_constraints config) in
  let personas := PersonaAssigner.cfg_personas config in
  rng_ok (rng w) ->
  (2 <= length personas)%nat ->
  exists result w' st,
    PersonaAssigner.assignPersonas config w = (Ok result, w') /\
    AssignRun personas cs
      {| PersonaAssigner.assignedSlots := [];
         PersonaAssigner.usage := PersonaAssigner.initialUsage personas;
         PersonaAssigner.pairingsThisWeek := ∅;
         PersonaAssigner.warningsSoFar := [] |}
      (PersonaAssigner.cfg_slots config) st /\
    PersonaAssigner.slots result = PersonaAssigner.assignedSlots st /\
    PersonaAssigner.pairingsUsed result = PersonaAssigner.pairingsThisWeek st /\
    PersonaAssigner.warnings result = PersonaAssigner.warningsSoFar st.
Proof.
  intros cs personas Hfair Hn.
  unfold PersonaAssigner.assignPersonas. fold personas. fold cs.
  destruct (length personas <? 2)%nat eqn:Hlt; [apply Nat.ltb_lt in Hlt; lia |].
  destruct (initialUsage_fold personas ∅) as (_ & Hdom & _).
  { intros id t. rewrite lookup_empty. discriminate. }
  edestruct (returns_assignLoop_run fairWorld (fun w H => H) personas cs
               (PersonaAssigner.cfg_slots config)) as (st & w' & Hrun & _ & Hsteps);
    [| exact Hfair |].
  2: { eexists _, w', st. split; [unfold bind; rewrite Hrun; reflexivity |].
       split; [exact Hsteps | repeat split]. }
  exact Hdom.
Qed.

(** *** The dates and counts that the usage records *)
Lemma postsOf_postUsage (usage : gmap string PersonaAssigner.PersonaUsageTracker)
    (id : string) :
  postsOf usage id
  = match PersonaAssigner.postUsage usage !! id with
    | Some u => Constraints.pu_postsThisWeek u
    | None => 0
    end.
Proof.
  unfold postsOf, PersonaAssigner.postUsage. rewrite lookup_fmap.
  destruct (usage !! id); reflexivity.
Qed.

Lemma countOf_app {A} (key : A -> string) (k : string) (l1 l2 : list A) :
  countOf key k (l1 ++ l2) = countOf key k l1 + countOf key k l2.
Proof. unfold countOf. rewrite filter_app, length_app. lia. Qed.

Lemma authoredBy_snoc (id : string) (slots : list AssignedSlot) (s : AssignedSlot) :
  authoredBy id (slots ++ [s])
  = authoredBy id slots + (if decide (persona_id (opPersona s) = id) then 1 else 0).
Proof.
  unfold authoredBy. rewrite countOf_app. f_equal.
  rewrite countOf_cons. unfold countOf. simpl. lia.
Qed.

Lemma reactionsBy_snoc (id : string) (slots : list AssignedSlot) (s : AssignedSlot) :
  reactionsBy id (slots ++ [s])
  = reactionsBy id slots + occurrences id (commenterPersonas s).
Proof.
  unfold reactionsBy. rewrite fmap_app, concat_app, countOf_app. f_equal.
  simpl. rewrite app_nil_r. reflexivity.
Qed.

(** The usage counts the roles of the assigned slots, and no count passes
    its cap. *)
Lemma AssignRun_counts (personas : list Persona) (cs : PlannerConstraints)
    (st : PersonaAssigner.LoopState) (slots : list MatchedSlot)
    (st' : PersonaAssigner.LoopState) :
  AssignRun personas cs st slots st' ->
  let Counted (st : PersonaAssigner.LoopState) :=
    AssignerInv personas (PersonaAssigner.usage st) /\
    (forall id, postsOf (PersonaAssigner.usage st) id
                = authoredBy id (PersonaAssigner.assignedSlots st)) /\
    (forall id, commentsOf (PersonaAssigner.usage st) id
                = reactionsBy id (PersonaAssigner.assignedSlots st)) in
  let Capped (st : PersonaAssigner.LoopState) :=
    (forall id, postsOf (PersonaAssigner.usage st) id
                <= Z.max 0 (maxPostsPerPersonaPerWeek cs)) /\
    (NoDup (persona_id <$> personas) ->
     forall id, commentsOf (PersonaAssigner.usage st) id
                <= Z.max 0 (maxCommentsPerPersonaPerWeek cs)) in
  Counted st -> Capped st -> Counted st' /\ Capped st'.
Proof.
  intros Hrun Counted Capped. subst Counted Capped. cbv beta.
  induction Hrun as [st | st slot st1 rest st' Hstep Hrun IH];
    intros Hcounted Hcapped; [split; assumption |].
  destruct Hcounted as (Hinv & Hposts & Hcomments).
  destruct Hcapped as (HcapP & HcapC).
  destruct Hstep as [Hinv1 [(Hs & Hu & _) |
    (op & sel & Hop & Hcan & Hsel & _ & _ & Hnd & Hs & Hpu & Hc & _)]].
  - apply IH.
    + split; [exact Hinv1 |]. rewrite Hs, Hu. split; assumption.
    + rewrite Hu. split; assumption.
  - assert (Hp1 : forall id, postsOf (PersonaAssigner.usage st1) id
                  = if decide (persona_id op = id)
                    then postsOf (PersonaAssigner.usage st) (persona_id op) + 1
                    else postsOf (PersonaAssigner.usage st) id).
    { intros id. rewrite (postsOf_postUsage (PersonaAssigner.usage st1)), Hpu.
      rewrite lookup_insert. destruct (decide (persona_id op = id)); [reflexivity |].
      symmetry. apply postsOf_postUsage. }
    apply IH.
    + split; [exact Hinv1 |]. rewrite Hs. split.
      * intros id. rewrite Hp1, authoredBy_snoc. cbn [opPersona].
        destruct (decide (persona_id op = id)) as [<- |]; rewrite Hposts; lia.
      * intros id. rewrite Hc, reactionsBy_snoc, Hcomments. reflexivity.
    + split.
      * intros id. rewrite Hp1.
        destruct (decide (persona_id op = id)) as [_ |]; [| apply HcapP].
        destruct (Hinv op Hop) as [t Ht].
        unfold Constraints.canPersonaPost in Hcan.
        unfold PersonaAssigner.postUsage in Hcan.
        rewrite lookup_fmap, Ht in Hcan. simpl in Hcan.
        destruct (_ <=? _) eqn:E in Hcan; [discriminate |].
        apply Z.leb_gt in E. unfold postsOf. rewrite Ht. lia.
      * intros Hnodup id. rewrite Hc.
        pose proof (occurrences_NoDup id sel (Hnd Hnodup)) as Hocc.
        specialize (HcapC Hnodup id).
        destruct (decide (occurrences id sel = 0)) as [-> | Hnz]; [lia |].
        assert (Hex : exists c, c ∈ sel /\ persona_id c = id).
        { unfold occurrences in Hnz.
          destruct (filter _ sel) as [| c rest'] eqn:Ef; [simpl in Hnz; lia |].
          exists c. apply and_comm, (list_elem_of_filter (fun c => persona_id c = id)).
          rewrite Ef. apply list_elem_of_here. }
        destruct Hex as (c & Hcin & <-).
        rewrite Forall_forall in Hsel. destruct (Hsel c Hcin) as (Hcp & _ & Hlim).
        destruct (Hinv c Hcp) as [t Ht].
        unfold PersonaAssigner.underCommentLimit in Hlim. rewrite Ht in Hlim.
        apply negb_true_iff, Z.leb_gt in Hlim.
        unfold commentsOf in *. rewrite Ht in *.
        assert (0 <= occurrences (persona_id c) sel) by (unfold occurrences; lia).
        lia.
Qed.

(** *** The spacing of the threads of one author *)
Lemma AssignRun_spacing (personas : list Persona) (cs : PlannerConstraints)
    (st : PersonaAssigner.LoopState) (slots : list MatchedSlot)
    (st' : PersonaAssigner.LoopState) :
  0 <= minHoursBetweenSamePersonaPosts cs ->
  AssignRun personas cs st slots st' ->
  let gap := minHoursBetweenSamePersonaPosts cs * Constraints.msPerHour in
  let Seen (st : PersonaAssigner.LoopState) :=
    forall s, s ∈ PersonaAssigner.assignedSlots st ->
      exists u d,
        PersonaAssigner.postUsage (PersonaAssigner.usage st) !! persona_id (opPersona s)
        = Some u /\
        Constraints.pu_lastPostDate u = Some d /\ slot_date (as_slot s) <= d in
  let Spaced (st : PersonaAssigner.LoopState) :=
    forall (i j : nat) a b, (i < j)%nat ->
      PersonaAssigner.assignedSlots st !! i = Some a ->
      PersonaAssigner.assignedSlots st !! j = Some b ->
      persona_id (opPersona a) = persona_id (opPersona b) ->
      gap <= slot_date (as_slot b) - slot_date (as_slot a) in
  Seen st -> Spaced st -> Seen st' /\ Spaced st'.
Proof.
  intros Hmin Hrun gap Seen Spaced. subst Seen Spaced. cbv beta.
  assert (Hgap : 0 <= gap) by (unfold gap, Constraints.msPerHour; lia).
  induction Hrun as [st | st slot st1 rest st' Hstep Hrun IH]; intros Hseen Hspaced;
    [split; assumption |].
  destruct Hstep as [_ [(Hs & Hu & _) |
    (op & sel & _ & Hcan & _ & _ & _ & _ & Hs & Hpu & _)]].
  - apply IH.
    + intros s Hin. rewrite Hs in Hin. rewrite Hu. apply Hseen, Hin.
    + intros i j a b Hij Hi Hj. rewrite Hs in Hi, Hj. apply (Hspaced i j); assumption.
  - assert (Hlate : forall a, a ∈ PersonaAssigner.assignedSlots st ->
                persona_id (opPersona a) = persona_id op ->
                gap <= slot_date slot - slot_date (as_slot a)).
    { intros a Ha Hid. destruct (Hseen a Ha) as (u & d & Hlook & Hlast & Hle).
      rewrite Hid in Hlook.
      unfold Constraints.canPersonaPost in Hcan. rewrite Hlook in Hcan.
      destruct (_ <=? Constraints.pu_postsThisWeek u); [discriminate |].
      rewrite Hlast in Hcan.
      destruct (_ <? _) eqn:E in Hcan; [discriminate |].
      apply Z.ltb_ge in E. fold gap in E. lia. }
    apply IH.
    + intros s Hin. rewrite Hs in Hin. rewrite Hpu.
      apply elem_of_app in Hin as [Hin | Hin].
      * destruct (decide (persona_id op = persona_id (opPersona s))) as [Heq | Hne].
        -- rewrite <- Heq, lookup_insert_eq. eexists _, _. split; [reflexivity |].
           split; [reflexivity |]. specialize (Hlate s Hin (eq_sym Heq)). lia.
        -- rewrite lookup_insert_ne by exact Hne. apply Hseen, Hin.
      * apply list_elem_of_singleton in Hin. subst s. cbn [opPersona as_slot].
        rewrite lookup_insert_eq. eexists _, _. split; [reflexivity |].
        split; [reflexivity |]. lia.
    + intros i j a b Hij Hi Hj Hid. rewrite Hs in Hi, Hj.
      destruct (decide (j < length (PersonaAssigner.assignedSlots st))%nat) as [Hjl | Hjl].
      * rewrite lookup_app_l in Hi, Hj by lia. apply (Hspaced i j); assumption.
      * rewrite lookup_app_r in Hj by lia.
        destruct (j - length (PersonaAssigner.assignedSlots st))%nat eqn:Ej;
          [| destruct n; discriminate].
        simpl in Hj. injection Hj as <-.
        rewrite lookup_app_l in Hi by lia.
        cbn [opPersona as_slot] in *.
        apply Hlate; [apply list_elem_of_lookup; eauto | exact Hid].
Qed.

(** *** What a run keeps of its input *)
Lemma size_list_to_set_length (l : list string) :
  (size (list_to_set (C := gset string) l) <= length l)%nat.
Proof.
  induction l as [| x l IH]; [rewrite list_to_set_nil, size_empty; lia |].
  rewrite list_to_set_cons, size_union_alt, size_singleton. simpl.
  pose proof (subseteq_size (list_to_set (C := gset string) l ∖ {[x]})
                (list_to_set l)) as Hle.
  assert (list_to_set (C := gset string) l ∖ {[x]} ⊆ list_to_set l) as Hsub
    by apply subseteq_difference_l, reflexivity.
  specialize (Hle Hsub). lia.
Qed.

Lemma validateThreadStructure_nil (op : string) (ids : list string)
    (cs : PlannerConstraints) :
  Z.of_nat (length ids) <= maxPersonasPerThread cs - 1 ->
  Constraints.hasBackToBack ids = false ->
  Constraints.validateThreadStructure op ids cs = [].
Proof.
  intros Hlen Hb. unfold Constraints.validateThreadStructure.
  rewrite Hb, andb_false_r.
  destruct (_ <? _) eqn:E; [| reflexivity].
  apply Z.ltb_lt in E.
  pose proof (size_list_to_set_length ids). lia.
Qed.

Lemma AssignRun_structure (personas : list Persona) (cs : PlannerConstraints)
    (st : PersonaAssigner.LoopState) (slots : list MatchedSlot)
    (st' : PersonaAssigner.LoopState) :
  AssignRun personas cs st slots st' ->
  exists new dropped,
    PersonaAssigner.assignedSlots st' = PersonaAssigner.assignedSlots st ++ new /\
    as_slot <$> new `sublist_of` slots /\
    dropped `sublist_of` slot_date <$> slots /\
    (length new + length dropped = length slots)%nat /\
    Forall (fun s => opPersona s ∈ personas /\
                     Forall (fun c => c ∈ personas) (commenterPersonas s)) new /\
    PersonaAssigner.pairingsThisWeek st'
    = PersonaAssigner.pairingsThisWeek st
      ∪ list_to_set
          (concat ((fun s => PersonaAssigner.pairingKeys (opPersona s)
                               (commenterPersonas s)) <$> new)) /\
    (2 <= maxPersonasPerThread cs ->
     PersonaAssigner.warningsSoFar st'
     = PersonaAssigner.warningsSoFar st ++ (PersonaAssigner.NoEligibleOP <$> dropped)).
Proof.
  induction 1 as [st | st slot st1 rest st' Hstep Hrun IH].
  - exists [], []. rewrite !app_nil_r. simpl.
    split; [reflexivity |]. split; [constructor |]. split; [apply sublist_nil_l |].
    split; [reflexivity |]. split; [constructor |].
    split; [| intros _; reflexivity].
    rewrite (right_id_L ∅ (∪)). reflexivity.
  - destruct IH as (new & dropped & Hs & Hsub & Hdrop & Hlen & Hall & Hpair & Hwarn).
    destruct Hstep as [_ [(Hs1 & _ & Hp1 & Hw1) |
      (op & sel & Hop & _ & Hsel & Hmax & Hb & _ & Hs1 & _ & _ & Hp1 & Hw1)]].
    + exists new, (slot_date slot :: dropped).
      rewrite Hs, Hs1, Hpair, Hp1.
      split; [reflexivity |]. split; [apply sublist_cons, Hsub |].
      split; [apply sublist_skip, Hdrop |]. split; [simpl; lia |].
      split; [exact Hall |]. split; [reflexivity |].
      intros H2. rewrite (Hwarn H2), Hw1, <- app_assoc. reflexivity.
    + exists ({| as_slot := slot; opPersona := op; commenterPersonas := sel |} :: new),
             dropped.
      rewrite Hs, Hs1, Hpair, Hp1, <- app_assoc.
      split; [reflexivity |]. split; [apply sublist_skip, Hsub |].
      split; [apply sublist_cons, Hdrop |]. split; [simpl; lia |].
      split.
      { constructor; [| exact Hall]. cbn [opPersona commenterPersonas].
        split; [exact Hop |]. eapply Forall_impl; [exact Hsel |]. intros c Hc. apply Hc. }
      split.
      { unfold PersonaAssigner.updatePairings. rewrite fmap_cons.
        cbn [concat opPersona commenterPersonas]. rewrite list_to_set_app_L.
        rewrite (assoc_L (∪)). reflexivity. }
      intros H2. rewrite (Hwarn H2), Hw1.
      rewrite validateThreadStructure_nil, app_nil_r; [reflexivity | | exact Hb].
      rewrite length_fmap. apply Hmax, H2.
Qed.

(** *** The validator *)
Lemma assignmentCounts_tally (slots : list AssignedSlot) :
  assignmentCounts slots
  = (tallyBy (fun s => persona_id (opPersona s)) slots,
     tallyBy persona_id (concat (commenterPersonas <$> slots))).
Proof.
  unfold assignmentCounts, tallyBy.
  generalize (@nil (string * Z)) at 1 3 as pc.
  generalize (@nil (string * Z)) as cc.
  induction slots as [| s rest IH]; intros cc pc; [reflexivity |].
  rewrite fmap_cons. cbn [concat foldl]. rewrite IH, foldl_app. reflexivity.
Qed.

Lemma validatePersonaAssignment_nil (slots : list AssignedSlot) (personas : list Persona) :
  (forall p, p ∈ personas ->
     authoredBy (persona_id p) slots
     <= maxPostsPerPersonaPerWeek Constraints.DEFAULT_CONSTRAINTS /\
     reactionsBy (persona_id p) slots
     <= maxCommentsPerPersonaPerWeek Constraints.DEFAULT_CONSTRAINTS) <->
  validatePersonaAssignment slots personas = [].
Proof.
  unfold validatePersonaAssignment. rewrite assignmentCounts_tally.
  induction personas as [| p rest IH].
  - split; [reflexivity |]. intros _ p Hp. apply elem_of_nil in Hp. contradiction.
  - rewrite fmap_cons. cbn [concat]. rewrite !tallyBy_lookup.
    fold (authoredBy (persona_id p) slots). fold (reactionsBy (persona_id p) slots).
    split.
    + intros Hall. destruct (Hall p (list_elem_of_here _ _)) as [Hp Hc].
      apply Z.ltb_ge in Hp, Hc. rewrite Hp, Hc. simpl.
      apply IH. intros q Hq. apply Hall, list_elem_of_further, Hq.
    + intros Hnil. apply app_eq_nil in Hnil as [Hhead Htail].
      apply app_eq_nil in Hhead as [Hp Hc].
      intros q Hq. apply elem_of_cons in Hq as [-> | Hq].
      * split; apply Z.ltb_ge.
        -- destruct (_ <? authoredBy _ _); [discriminate | reflexivity].
        -- destruct (_ <? reactionsBy _ _); [discriminate | reflexivity].
      * apply IH; assumption.
Qed.

(** X15: with room for at least one reactor per thread, [assignPersonas]
    accounts for every slot: the assigned slots are slots of the input in
    their order, with author and reactors among the personas of the input,
    every other slot is reported by one warning that no author was
    eligible, and no other warning is given. *)
Theorem assignPersonas_accounts_for_every_slot
    (config : PersonaAssigner.PersonaAssignerConfig) (w : World) :
  let cs := default Constraints.DEFAULT_CONSTRAINTS
              (PersonaAssigner.cfg_constraints config) in
  let personas := PersonaAssigner.cfg_personas config in
  rng_ok (rng w) ->
  (2 <= length personas)%nat ->
  2 <= maxPersonasPerThread cs ->
  exists result w' dropped,
    PersonaAssigner.assignPersonas config w = (Ok result, w') /\
    as_slot <$> PersonaAssigner.slots result `sublist_of` PersonaAssigner.cfg_slots config /\
    Forall (fun s => opPersona s ∈ personas /\
                     Forall (fun c => c ∈ personas) (commenterPersonas s))
           (PersonaAssigner.slots result) /\
    dropped `sublist_of` slot_date <$> PersonaAssigner.cfg_slots config /\
    PersonaAssigner.warnings result = PersonaAssigner.NoEligibleOP <$> dropped /\
    (length (PersonaAssigner.slots result) + length (PersonaAssigner.warnings result)
     = length (PersonaAssigner.cfg_slots config))%nat.
Proof.
  intros cs personas Hfair Hn Hmax.
  destruct (assignPersonas_run config w Hfair Hn)
    as (result & w' & st & Hrun & Hsteps & Hslots & _ & Hwarn).
  destruct (AssignRun_structure _ _ _ _ _ Hsteps)
    as (new & dropped & Hs & Hsub & Hdrop & Hlen & Hall & _ & Hw).
  simpl in Hs, Hw. specialize (Hw Hmax).
  exists result, w', dropped. rewrite Hslots, Hwarn, Hs, Hw, length_fmap.
  repeat split; assumption.
Qed.

Lemma assignPersonas_accounts_for_every_slot_witness :
  exists result w' dropped,
    PersonaAssigner.assignPersonas Sample.smallConfig Sample.zeroWorld = (Ok result, w') /\
    as_slot <$> PersonaAssigner.slots result
      `sublist_of` PersonaAssigner.cfg_slots Sample.smallConfig /\
    PersonaAssigner.warnings result = PersonaAssigner.NoEligibleOP <$> dropped /\
    (length (PersonaAssigner.slots result) + length (PersonaAssigner.warnings result)
     = 2)%nat.
Proof.
  destruct (assignPersonas_accounts_for_every_slot Sample.smallConfig Sample.zeroWorld)
    as (result & w' & dropped & Hrun & Hsub & _ & _ & Hwarn & Hlen).
  - intros n. split; vm_compute; congruence.
  - simpl. lia.
  - simpl. lia.
  - exists result, w', dropped. repeat split; assumption.
Defined.

(** The counts of a run from the empty state. *)
Lemma assignPersonas_counts
    (config : PersonaAssigner.PersonaAssignerConfig) (w : World) :
  let cs := default Constraints.DEFAULT_CONSTRAINTS
              (PersonaAssigner.cfg_constraints config) in
  let personas := PersonaAssigner.cfg_personas config in
  rng_ok (rng w) ->
  (2 <= length personas)%nat ->
  exists result w',
    PersonaAssigner.assignPersonas config w = (Ok result, w') /\
    (forall id, authoredBy id (PersonaAssigner.slots result)
                <= Z.max 0 (maxPostsPerPersonaPerWeek cs)) /\
    (NoDup (persona_id <$> personas) ->
     forall id, reactionsBy id (PersonaAssigner.slots result)
                <= Z.max 0 (maxCommentsPerPersonaPerWeek cs)).
Proof.
  intros cs personas Hfair Hn.
  destruct (assignPersonas_run config w Hfair Hn)
    as (result & w' & st & Hrun & Hsteps & Hslots & _).
  exists result, w'. split; [exact Hrun |].
  destruct (initialUsage_fold personas ∅) as (Hinit & Hdom & _).
  { intros id t. rewrite lookup_empty. discriminate. }
  fold (PersonaAssigner.initialUsage personas) in Hinit, Hdom.
  assert (Hzero : forall id,
            postsOf (PersonaAssigner.initialUsage personas) id = 0 /\
            commentsOf (PersonaAssigner.initialUsage personas) id = 0).
  { intros id. unfold postsOf, commentsOf.
    destruct (PersonaAssigner.initialUsage personas !! id) as [t |] eqn:E;
      [rewrite (Hinit id t E) |]; split; reflexivity. }
  destruct (AssignRun_counts _ _ _ _ _ Hsteps) as [(_ & Hposts & Hcomments) (HcapP & HcapC)].
  - cbn [PersonaAssigner.usage PersonaAssigner.assignedSlots].
    split; [exact Hdom |]. split; intros id; apply Hzero.
  - cbn [PersonaAssigner.usage].
    split; [| intros _]; intros id; destruct (Hzero id) as [H1 H2];
      unfold personas in H1, H2; rewrite ?H1, ?H2; lia.
  - split.
    + intros id. rewrite Hslots, <- Hposts. apply HcapP.
    + intros Hnd id. rewrite Hslots, <- Hcomments. apply HcapC, Hnd.
Qed.

(** X16: no persona authors more threads of a run than
    [maxPostsPerPersonaPerWeek] allows (none at all when the cap is not
    positive). *)
Theorem assignPersonas_posts_within_cap
    (config : PersonaAssigner.PersonaAssignerConfig) (w : World) :
  let cs := default Constraints.DEFAULT_CONSTRAINTS
              (PersonaAssigner.cfg_constraints config) in
  let personas := PersonaAssigner.cfg_personas config in
  rng_ok (rng w) ->
  (2 <= length personas)%nat ->
  exists result w',
    PersonaAssigner.assignPersonas config w = (Ok result, w') /\
    forall id, authoredBy id (PersonaAssigner.slots result)
               <= Z.max 0 (maxPostsPerPersonaPerWeek cs).
Proof.
  intros cs personas Hfair Hn.
  destruct (assignPersonas_counts config w Hfair Hn) as (result & w' & Hrun & Hposts & _).
  exists result, w'. split; assumption.
Qed.

Lemma assignPersonas_posts_within_cap_witness :
  exists result w',
    PersonaAssigner.assignPersonas Sample.smallConfig Sample.zeroWorld = (Ok result, w') /\
    forall id, authoredBy id (PersonaAssigner.slots result) <= 2.
Proof.
  destruct (assignPersonas_posts_within_cap Sample.smallConfig Sample.zeroWorld)
    as (result & w' & Hrun & Hposts).
  - intros n. split; vm_compute; congruence.
  - simpl. lia.
  - exists result, w'. split; [exact Hrun | exact Hposts].
Defined.

(** X17: when the personas have distinct ids, no persona holds more
    comment roles in the threads of a run than
    [maxCommentsPerPersonaPerWeek] allows. *)
Theorem assignPersonas_comments_within_cap
    (config : PersonaAssigner.PersonaAssignerConfig) (w : World) :
  let cs := default Constraints.DEFAULT_CONSTRAINTS
              (PersonaAssigner.cfg_constraints config) in
  let personas := PersonaAssigner.cfg_personas config in
  rng_ok (rng w) ->
  (2 <= length personas)%nat ->
  NoDup (persona_id <$> personas) ->
  exists result w',
    PersonaAssigner.assignPersonas config w = (Ok result, w') /\
    forall id, reactionsBy id (PersonaAssigner.slots result)
               <= Z.max 0 (maxCommentsPerPersonaPerWeek cs).
Proof.
  intros cs personas Hfair Hn Hnd.
  destruct (assignPersonas_counts config w Hfair Hn) as (result & w' & Hrun & _ & Hc).
  exists result, w'. split; [exact Hrun | exact (Hc Hnd)].
Qed.

Lemma assignPersonas_comments_within_cap_witness :
  exists result w',
    PersonaAssigner.assignPersonas Sample.cappedConfig Sample.zeroWorld = (Ok result, w') /\
    forall id, reactionsBy id (PersonaAssigner.slots result) <= 1.
Proof.
  destruct (assignPersonas_comments_within_cap Sample.cappedConfig Sample.zeroWorld)
    as (result & w' & Hrun & Hc).
  - intros n. split; vm_compute; congruence.
  - simpl. lia.
  - apply (bool_decide_unpack _). vm_compute. exact Logic.I.
  - exists result, w'. split; [exact Hrun | exact Hc].
Defined.

(** X18: for a spacing that is not negative, two threads of a run with the
    same author are at least [minHoursBetweenSamePersonaPosts] hours
    apart, the later one in the result being the later one in time. *)
Theorem assignPersonas_spaces_authors
    (config : PersonaAssigner.PersonaAssignerConfig) (w : World) :
  let cs := default Constraints.DEFAULT_CONSTRAINTS
              (PersonaAssigner.cfg_constraints config) in
  let personas := PersonaAssigner.cfg_personas config in
  rng_ok (rng w) ->
  (2 <= length personas)%nat ->
  0 <= minHoursBetweenSamePersonaPosts cs ->
  exists result w',
    PersonaAssigner.assignPersonas config w = (Ok result, w') /\
    forall (i j : nat) a b, (i < j)%nat ->
      PersonaAssigner.slots result !! i = Some a ->
      PersonaAssigner.slots result !! j = Some b ->
      persona_id (opPersona a) = persona_id (opPersona b) ->
      minHoursBetweenSamePersonaPosts cs * Constraints.msPerHour
      <= slot_date (as_slot b) - slot_date (as_slot a).
Proof.
  intros cs personas Hfair Hn Hmin.
  destruct (assignPersonas_run config w Hfair Hn)
    as (result & w' & st & Hrun & Hsteps & Hslots & _).
  exists result, w'. split; [exact Hrun |].
  destruct (AssignRun_spacing _ _ _ _ _ Hmin Hsteps) as [_ Hspaced].
  - intros s Hs. apply elem_of_nil in Hs. contradiction.
  - intros i j a b _ Hi. simpl in Hi. rewrite lookup_nil in Hi. discriminate.
  - rewrite Hslots. exact Hspaced.
Qed.

Lemma assignPersonas_spaces_authors_witness :
  exists result w',
    PersonaAssigner.assignPersonas Sample.cappedConfig Sample.zeroWorld = (Ok result, w') /\
    forall (i j : nat) a b, (i < j)%nat ->
      PersonaAssigner.slots result !! i = Some a ->
      PersonaAssigner.slots result !! j = Some b ->
      persona_id (opPersona a) = persona_id (opPersona b) ->
      24 * 3600000 <= slot_date (as_slot b) - slot_date (as_slot a).
Proof.
  destruct (assignPersonas_spaces_authors Sample.cappedConfig Sample.zeroWorld)
    as (result & w' & Hrun & Hspaced).
  - intros n. split; vm_compute; congruence.
  - simpl. lia.
  - simpl. lia.
  - exists result, w'. split; [exact Hrun | exact Hspaced].
Defined.

(** X19: a run whose caps do not exceed the default ones, on personas with
    distinct ids, produces slots in which [validatePersonaAssignment]
    finds no issue. *)
Theorem assignPersonas_output_is_valid
    (config : PersonaAssigner.PersonaAssignerConfig) (w : World) :
  let cs := default Constraints.DEFAULT_CONSTRAINTS
              (PersonaAssigner.cfg_constraints config) in
  let personas := PersonaAssigner.cfg_personas config in
  rng_ok (rng w) ->
  (2 <= length personas)%nat ->
  NoDup (persona_id <$> personas) ->
  maxPostsPerPersonaPerWeek cs
  <= maxPostsPerPersonaPerWeek Constraints.DEFAULT_CONSTRAINTS ->
  maxCommentsPerPersonaPerWeek cs
  <= maxCommentsPerPersonaPerWeek Constraints.DEFAULT_CONSTRAINTS ->
  exists result w',
    PersonaAssigner.assignPersonas config w = (Ok result, w') /\
    validatePersonaAssignment (PersonaAssigner.slots result) personas = [].
Proof.
  intros cs personas Hfair Hn Hnd HcapP HcapC.
  destruct (assignPersonas_counts config w Hfair Hn) as (result & w' & Hrun & Hp & Hc).
  exists result, w'. split; [exact Hrun |].
  apply validatePersonaAssignment_nil. intros p _.
  specialize (Hp (persona_id p)). specialize (Hc Hnd (persona_id p)).
  fold cs in Hp, Hc. simpl in HcapP, HcapC |- *. lia.
Qed.

Lemma assignPersonas_output_is_valid_witness :
  exists result w',
    PersonaAssigner.assignPersonas Sample.cappedConfig Sample.zeroWorld = (Ok result, w') /\
    validatePersonaAssignment (PersonaAssigner.slots result)
      (PersonaAssigner.cfg_personas Sample.cappedConfig) = [].
Proof.
  destruct (assignPersonas_output_is_valid Sample.cappedConfig Sample.zeroWorld)
    as (result & w' & Hrun & Hvalid).
  - intros n. split; vm_compute; congruence.
  - simpl. lia.
  - apply (bool_decide_unpack _). vm_compute. exact Logic.I.
  - simpl. lia.
  - simpl. lia.
  - exists result, w'. split; [exact Hrun | exact Hvalid].
Defined.

(** X20: the pairings that a run reports are the pairings of its threads:
    the keys of author with reactor and of reactor with reactor, for every
    assigned slot, and nothing else. *)
Theorem assignPersonas_pairings_recorded
    (config : PersonaAssigner.PersonaAssignerConfig) (w : World) :
  let personas := PersonaAssigner.cfg_personas config in
  rng_ok (rng w) ->
  (2 <= length personas)%nat ->
  exists result w',
    PersonaAssigner.assignPersonas config w = (Ok result, w') /\
    PersonaAssigner.pairingsUsed result
    = list_to_set
        (concat ((fun s => PersonaAssigner.pairingKeys (opPersona s)
                             (commenterPersonas s))
                 <$> PersonaAssigner.slots result)).
Proof.
  intros personas Hfair Hn.
  destruct (assignPersonas_run config w Hfair Hn)
    as (result & w' & st & Hrun & Hsteps & Hslots & Hpairs & _).
  exists result, w'. split; [exact Hrun |].
  destruct (AssignRun_structure _ _ _ _ _ Hsteps)
    as (new & dropped & Hs & _ & _ & _ & _ & Hp & _).
  simpl in Hs, Hp. rewrite Hpairs, Hslots, Hp, Hs.
  apply (left_id_L ∅ (∪)).
Qed.

Lemma assignPersonas_pairings_recorded_witness :
  exists result w',
    PersonaAssigner.assignPersonas Sample.smallConfig Sample.zeroWorld = (Ok result, w') /\
    PersonaAssigner.pairingsUsed result
    = list_to_set
        (concat ((fun s => PersonaAssigner.pairingKeys (opPersona s)
                             (commenterPersonas s))
                 <$> PersonaAssigner.slots result)).
Proof.
  apply (assignPersonas_pairings_recorded Sample.smallConfig Sample.zeroWorld).
  - intros n. split; vm_compute; congruence.
  - simpl. lia.
Defined.

(** ** lib/planner/constraints: comment delays *)
Lemma Qfloor_random_zero (r : Q) : Qfloor (r * inject_Z 0) = 0.
Proof.
  assert (H : (r * inject_Z 0 == 0)%Q) by (unfold inject_Z; ring).
  rewrite (Qfloor_comp _ _ H). reflexivity.
Qed.

Lemma returns_randomBelow_window (I : World -> Prop) `{!Stable I} (m : Z) :
  (forall w, I w -> rng_ok (rng w)) ->
  0 <= m ->
  returns I (randomBelow m) (fun k => 0 <= k <= m /\ (0 < m -> k < m)).
Proof.
  intros Hfair Hm. unfold randomBelow.
  eapply returns_bind; [apply returns_random_fair; assumption |].
  intros r [Hr0 Hr1]. apply returns_ret.
  destruct (decide (m = 0)) as [-> | Hne].
  - rewrite Qfloor_random_zero. lia.
  - pose proof (Qfloor_random_nonneg r m Hr0 Hm).
    pose proof (Qfloor_random_below r m Hr1 ltac:(lia)). lia.
Qed.

Lemma returns_generateCommentDelay_window (I : World -> Prop) `{!Stable I}
    (index : nat) (isOPFollowUp : bool) (cs : PlannerConstraints) :
  (forall w, I w -> rng_ok (rng w)) ->
  fst (delayWindow index isOPFollowUp cs) <= snd (delayWindow index isOPFollowUp cs) ->
  returns I (Constraints.generateCommentDelay index isOPFollowUp cs)
    (fun d => fst (delayWindow index isOPFollowUp cs) <= d
              <= snd (delayWindow index isOPFollowUp cs) /\
              (fst (delayWindow index isOPFollowUp cs)
               < snd (delayWindow index isOPFollowUp cs) ->
               d < snd (delayWindow index isOPFollowUp cs))).
Proof.
  intros Hfair. unfold Constraints.generateCommentDelay, delayWindow.
  destruct isOPFollowUp; [| destruct (Nat.eqb index 0)].
  - destruct (opFollowUpDelayMinutes cs) as [lo hi]. cbn [fst snd]. intros Hle.
    eapply returns_bind; [apply (returns_randomBelow_window I (hi - lo) Hfair); lia |].
    intros k [Hk0 Hk1]. apply returns_ret. lia.
  - cbn [fst snd]. intros Hle.
    eapply returns_bind;
      [apply (returns_randomBelow_window I
                (maxDelayAfterPostMinutes cs - minDelayAfterPostMinutes cs) Hfair); lia |].
    intros k [Hk0 Hk1]. apply returns_ret. lia.
  - destruct (commentSpacingMinutes cs) as [lo hi]. cbn [fst snd]. intros Hle.
    eapply returns_bind; [apply (returns_randomBelow_window I (hi - lo) Hfair); lia |].
    intros k [Hk0 Hk1]. apply returns_ret. lia.
Qed.

(** X21: with [Math.random ()] in [0, 1) and a window whose minimum does
    not exceed its maximum, [generateCommentDelay] returns a delay inside
    the window it draws from: at least the minimum, below the maximum (the
    minimum itself when the two are equal). *)
Theorem generateCommentDelay_window (index : nat) (isOPFollowUp : bool)
    (cs : PlannerConstraints) (w : World) :
  let lo := fst (delayWindow index isOPFollowUp cs) in
  let hi := snd (delayWindow index isOPFollowUp cs) in
  rng_ok (rng w) ->
  lo <= hi ->
  exists d w',
    Constraints.generateCommentDelay index isOPFollowUp cs w = (Ok d, w') /\
    lo <= d <= hi /\ (lo < hi -> d < hi).
Proof.
  intros lo hi Hfair Hle.
  destruct (returns_generateCommentDelay_window fairWorld index isOPFollowUp cs
              (fun w H => H) Hle w Hfair) as (d & w' & Hrun & _ & Hd).
  exists d, w'. split; [exact Hrun | exact Hd].
Qed.

Lemma generateCommentDelay_window_witness :
  exists d w',
    Constraints.generateCommentDelay 0 false Constraints.DEFAULT_CONSTRAINTS
      Sample.zeroWorld = (Ok d, w') /\
    15 <= d <= 180 /\ (15 < 180 -> d < 180).
Proof.
  apply (generateCommentDelay_window 0 false Constraints.DEFAULT_CONSTRAINTS
           Sample.zeroWorld).
  - intros n. split; vm_compute; congruence.
  - simpl. lia.
Defined.

(** ** lib/planner/threadGenerator: lengths *)
Lemma length_rev_app (s acc : string) :
  String.length (String.rev_app s acc) = (String.length s + String.length acc)%nat.
Proof.
  revert acc. induction s as [| c s IH]; intros acc; [reflexivity |].
  simpl. rewrite IH. simpl. lia.
Qed.

Lemma length_rev (s : string) : String.length (String.rev s) = String.length s.
Proof. unfold String.rev. rewrite length_rev_app. simpl. lia. Qed.

Lemma length_trimStart (s : string) :
  (String.length (Utils.trimStart s) <= String.length s)%nat.
Proof.
  induction s as [| c s IH]; [reflexivity |].
  simpl. destruct (Utils.isWhite c); simpl; lia.
Qed.

Lemma length_trim (s : string) : ThreadGenerator.len (Utils.trim s) <= ThreadGenerator.len s.
Proof.
  unfold ThreadGenerator.len, Utils.trim. rewrite length_rev.
  pose proof (length_trimStart (String.rev (Utils.trimStart s))) as H1.
  rewrite length_rev in H1. pose proof (length_trimStart s). lia.
Qed.

Lemma length_sliceTo (e : Z) (s : string) :
  ThreadGenerator.len (Utils.sliceTo e s) <= ThreadGenerator.len s /\
  (0 <= e -> ThreadGenerator.len (Utils.sliceTo e s) <= e).
Proof.
  unfold ThreadGenerator.len, Utils.sliceTo. rewrite length_substring_0.
  destruct (e <? 0) eqn:E; [apply Z.ltb_lt in E | apply Z.ltb_ge in E]; lia.
Qed.

Lemma length_clampToLength (text : string) (maxLen : Z) :
  0 <= maxLen ->
  ThreadGenerator.len (ThreadGenerator.clampToLength text maxLen) <= maxLen.
Proof.
  intros Hmax. unfold ThreadGenerator.clampToLength.
  destruct (_ <=? maxLen) eqn:Efit; [apply Z.leb_le, Efit |].
  match goal with
  | |- context [negb ?b && (?l <=? maxLen)] =>
      destruct (negb b && (l <=? maxLen)) eqn:Eres
  end.
  - apply andb_true_iff in Eres as [_ Hres]. apply Z.leb_le, Hres.
  - set (sliced := Utils.trim (Utils.sliceTo maxLen (Utils.trim text))).
    assert (Hsliced : ThreadGenerator.len sliced <= maxLen).
    { unfold sliced. etransitivity; [apply length_trim |].
      apply length_sliceTo, Hmax. }
    etransitivity; [apply length_trim |].
    destruct (_ <? _); [| exact Hsliced].
    etransitivity; [apply (proj1 (length_sliceTo _ _)) | exact Hsliced].
Qed.

(** X22: for a limit that is not negative, [clampToLength] returns at most
    [maxLen] characters. *)
Theorem clampToLength_length (text : string) (maxLen : Z) :
  0 <= maxLen ->
  ThreadGenerator.len (ThreadGenerator.clampToLength text maxLen) <= maxLen.
Proof. apply length_clampToLength. Qed.

Lemma clampToLength_length_witness :
  ThreadGenerator.len
    (ThreadGenerator.clampToLength "One sentence here. And a second one follows." 20)
  <= 20.
Proof. apply clampToLength_length. lia. Defined.

(** X23: [sanitizePostBody] ends normally in both modes, whatever strings
    the backend answers with (a rewrite that is present is a string, as
    [Payload] has it); in live mode, when [maxPostLength] is set to a
    positive number, the body it returns has at most that many characters. *)
Theorem sanitizePostBody_live_length (body : string) (company : Company)
    (preferences : option GenerationPreferences) (keywords : list string)
    (w : World) :
  exists s w',
    ThreadGenerator.sanitizePostBody body company preferences keywords w = (Ok s, w') /\
    (mockMode w = false ->
     forall m, ThreadGenerator.pref maxPostLength preferences = Some m ->
               0 < m -> ThreadGenerator.len s <= m).
Proof.
  unfold ThreadGenerator.sanitizePostBody.
  unfold bind at 1. unfold isMockMode at 1.
  destruct (mockMode w) eqn:Hmode; cbn iota.
  { eexists _, _. split; [reflexivity | discriminate]. }
  match goal with
  | |- exists s w', ?comp w = _ /\ _ =>
      assert (Hret : returns anyWorld comp
                (fun s => forall m,
                     ThreadGenerator.pref maxPostLength preferences = Some m ->
                     0 < m -> ThreadGenerator.len s <= m))
  end.
  2: { destruct (Hret w Logic.I) as (s & w' & Hrun & _ & Hs). eauto. }
  eapply returns_bind with (Q := fun _ => True).
  { destruct (_ || _).
    - eapply returns_bind; [apply (returns_generateWithAI anyWorld) |].
      intros r _. apply returns_ret. exact Logic.I.
    - apply returns_ret. exact Logic.I. }
  intros next1 _.
  eapply returns_bind with (Q := fun _ => True).
  { destruct (ThreadGenerator.mentions company next1).
    - eapply returns_bind with (Q := fun _ => True).
      + unfold ThreadGenerator.removeCompanyMention.
        eapply returns_bind; [apply (returns_generateWithAI anyWorld) |].
        intros r _. apply returns_ret. exact Logic.I.
      + intros r _. apply returns_ret. exact Logic.I.
    - apply returns_ret. exact Logic.I. }
  intros next2 _. apply returns_ret. intros m Hpref Hm.
  assert (Htruthy : ThreadGenerator.truthyZ
                      (ThreadGenerator.pref maxPostLength preferences) = Some m).
  { rewrite Hpref. unfold ThreadGenerator.truthyZ.
    destruct (m =? 0) eqn:E; [apply Z.eqb_eq in E; lia | reflexivity]. }
  rewrite Htruthy.
  destruct (m <? ThreadGenerator.len next2) eqn:E.
  - apply length_clampToLength. lia.
  - apply Z.ltb_ge, E.
Qed.

Lemma sanitizePostBody_live_length_witness :
  exists s w',
    ThreadGenerator.sanitizePostBody
      "One sentence here. And a second one follows." Sample.slideforge
      (Some GeneratorFixtures.shortPosts) [] Sample.zeroWorld = (Ok s, w') /\
    ThreadGenerator.len s <= 20.
Proof.
  destruct (sanitizePostBody_live_length
              "One sentence here. And a second one follows." Sample.slideforge
              (Some GeneratorFixtures.shortPosts) [] Sample.zeroWorld)
    as (s & w' & Hrun & Hlen).
  exists s, w'. split; [exact Hrun |].
  apply Hlen; [reflexivity | reflexivity | lia].
Defined.

(** ** lib/planner/threadGenerator: the threads of a run *)
Section Outcomes.
Context (T D : bool) (I : World -> Prop) `{!Stable I}.

Lemma outcome_returns {A} (m : Eff A) (P : A -> Prop) :
  returns I m P -> outcome T D I m P.
Proof.
  intros Hm w Hw. destruct (Hm w Hw) as (a & w' & -> & Hw' & Ha). auto.
Qed.

Lemma outcome_ret {A} (a : A) (P : A -> Prop) : P a -> outcome T D I (ret a) P.
Proof. intros Ha w Hw. simpl. auto. Qed.

Lemma outcome_throw {A} (msg : string) (P : A -> Prop) :
  T = true -> outcome T D I (throw msg) P.
Proof. intros HT w Hw. simpl. auto. Qed.

Lemma outcome_bind {A B} (m : Eff A) (k : A -> Eff B) (Q : A -> Prop) (P : B -> Prop) :
  outcome T D I m Q -> (forall a, Q a -> outcome T D I (k a) P) ->
  outcome T D I (bind m k) P.
Proof.
  intros Hm Hk w Hw. specialize (Hm w Hw). unfold bind.
  destruct (m w) as [[a | msg |] w1]; [| exact Hm | exact Hm].
  destruct Hm as [Hw1 Ha]. apply (Hk a Ha w1 Hw1).
Qed.

Lemma outcome_weaken {A} (m : Eff A) (P Q : A -> Prop) :
  outcome T D I m P -> (forall a, P a -> Q a) -> outcome T D I m Q.
Proof.
  intros Hm HPQ w Hw. specialize (Hm w Hw).
  destruct (m w) as [[a | msg |] w1]; [| exact Hm | exact Hm].
  destruct Hm as [Hw1 Ha]. auto.
Qed.

Lemma returns_isMockMode_any : returns I isMockMode (fun _ => True).
Proof. intros w Hw. exists (mockMode w), w. auto. Qed.

End Outcomes.

Lemma outcome_try_catch {A} (T D : bool) (I : World -> Prop) (m : Eff A)
    (h : string -> Eff A) (P : A -> Prop) :
  outcome true D I m P -> (forall e, outcome T D I (h e) P) ->
  outcome T D I (try_catch m h) P.
Proof.
  intros Hm Hh w Hw. specialize (Hm w Hw). unfold try_catch.
  destruct (m w) as [[a | msg |] w1]; [exact Hm | | exact Hm].
  destruct Hm as [Hw1 _]. apply (Hh msg w1 Hw1).
Qed.

(** Computations that always end normally, when nothing is asked of
    their result. *)
Ltac returns_any I :=
  repeat first
    [ apply (returns_ret I); exact Logic.I
    | apply (returns_random I)
    | apply (returns_generateWithAI I)
    | apply (returns_uuidv4 I)
    | apply (returns_randomBelow I)
    | apply (returns_isMockMode_any I)
    | apply (returns_bind I) with (Q := fun _ => True); [| intros ? _]
    | match goal with
      | |- returns _ (if ?x then _ else _) _ => destruct x
      | |- returns _ (match ?x with _ => _ end) _ => destruct x
      end ].

Section GeneratorRuns.
Context (T D : bool) (I : World -> Prop) `{!Stable I}.
Import ThreadGenerator Constraints.

Lemma returns_sanitizePostBody (body : string) (company : Company)
    (preferences : option GenerationPreferences) (keywords : list string) :
  returns I (sanitizePostBody body company preferences keywords) (fun _ => True).
Proof.
  unfold sanitizePostBody, removeCompanyMention. returns_any I.
Qed.

Lemma returns_pickFrom_any (options : list string) :
  returns I (pickFrom options) (fun _ => True).
Proof. unfold pickFrom. returns_any I. Qed.

Lemma outcome_generatePost (slot : AssignedSlot) (company : Company) (weekNumber : Z)
    (preferences : option GenerationPreferences) :
  outcome true D I (generatePost slot company weekNumber preferences)
    (PostFor company weekNumber slot).
Proof.
  unfold generatePost.
  eapply outcome_bind with (Q := fun _ => True);
    [apply outcome_returns, returns_isMockMode_any |].
  intros mock _.
  eapply outcome_bind with (Q := fun _ => True).
  { destruct mock.
    - apply outcome_returns.
      unfold generateMockPost, generateWithAIMock, pickFrom. returns_any I.
    - eapply outcome_bind with (Q := fun _ => True);
        [apply outcome_returns, (returns_generateWithAI I) |].
      intros result _.
      destruct (gr_success result); [| apply outcome_throw; reflexivity].
      destruct (gr_data result) as [[[t |] [b |] tx v] |];
        first [apply outcome_throw; reflexivity | apply outcome_ret; exact Logic.I]. }
  intros [contentTitle contentBody] _.
  eapply outcome_bind with (Q := fun _ => True);
    [apply outcome_returns, returns_sanitizePostBody |].
  intros sanitizedBody _.
  eapply outcome_bind with (Q := fun _ => True).
  { apply outcome_returns. unfold generatePostId. returns_any I. }
  intros id _. apply outcome_ret. repeat split.
Qed.

Lemma returns_redrawMock_any (persona : Persona) (isFirst : bool) (used : gset string)
    (attempts : nat) :
  forall m, returns I (redrawMock attempts persona isFirst used m) (fun _ => True).
Proof.
  induction attempts as [| attempts IH]; intros m; simpl.
  - apply returns_ret. exact Logic.I.
  - destruct (bool_decide (m ∈ used)); [| apply returns_ret; exact Logic.I].
    eapply returns_bind with (Q := fun _ => True); [| intros m' _; apply IH].
    unfold generateMockComment. apply returns_pickFrom_any.
Qed.

Lemma returns_reviseLiveComment (i : nat) (previous : list Comment) (company : Company)
    (preferences : option GenerationPreferences) (mentionIndices : list Z)
    (mentionProductIndex : Z) (text : string) :
  returns I (reviseLiveComment i previous company preferences mentionIndices
               mentionProductIndex text) (fun _ => True).
Proof.
  unfold reviseLiveComment, regenerateComment, removeCompanyMention. returns_any I.
Qed.

Lemma returns_generateCommentId : returns I generateCommentId (fun id => id <> "").
Proof.
  unfold generateCommentId.
  eapply returns_bind; [apply (returns_uuidv4 I) |].
  intros u _. apply returns_ret. rewrite append_cons. discriminate.
Qed.

Lemma lastTime_cons (start : Z) (c : Comment) (l : list Comment) :
  lastTime start (c :: l) = lastTime (comment_scheduledAt c) l.
Proof. unfold lastTime. rewrite last_cons. destruct (last l); reflexivity. Qed.

Lemma lastId_cons (parent : option string) (c : Comment) (l : list Comment) :
  lastId parent (c :: l) = lastId (Some (comment_id c)) l.
Proof. unfold lastId. rewrite last_cons. destruct (last l); reflexivity. Qed.

Section Windows.
Context (W : Z * Z -> Z -> Prop) (cs : PlannerConstraints).
Hypothesis delays : forall i f,
  returns I (generateCommentDelay i f cs) (W (delayWindow i f cs)).

Lemma outcome_commentLoop (post : Post) (company : Company)
    (preferences : option GenerationPreferences)
    (mentionIndices : list Z) (mentionProductIndex : Z) (personas : list Persona) :
  forall (i : nat) (comments : list Comment) (used : gset string) (last : Z),
    length comments = i ->
    Forall (fun c => comment_id c <> "") comments ->
    outcome true D I
      (commentLoop personas i post company preferences cs mentionIndices
         mentionProductIndex comments used last)
      (fun r => exists replies,
           fst r = comments ++ replies /\
           Replies W cs post i last (lastId None comments) personas replies /\
           snd r = lastTime last replies).
Proof.
  induction personas as [| persona rest IH]; intros i comments used last Hlen Hids;
    cbn [commentLoop].
  - apply outcome_ret. exists []. rewrite app_nil_r.
    split; [reflexivity |]. split; [constructor | reflexivity].
  - eapply outcome_bind; [apply outcome_returns, delays |].
    intros delay Hdelay.
    eapply outcome_bind with (Q := fun _ => True);
      [apply outcome_returns, returns_isMockMode_any |].
    intros mock _.
    eapply outcome_bind with (Q := fun _ => True).
    { destruct mock.
      - apply outcome_returns.
        eapply returns_bind with (Q := fun _ => True);
          [unfold generateMockComment; apply returns_pickFrom_any |].
        intros m0 _.
        eapply returns_bind with (Q := fun _ => True);
          [apply returns_redrawMock_any |].
        intros m _. unfold generateWithAIMock. returns_any I.
      - eapply outcome_bind with (Q := fun _ => True);
          [apply outcome_returns, (returns_generateWithAI I) |].
        intros result _.
        destruct (gr_success result); [| apply outcome_throw; reflexivity].
        destruct (gr_data result) as [[t b [tx |] v] |];
          try (apply outcome_throw; reflexivity).
        eapply outcome_bind with (Q := fun _ => True);
          [apply outcome_returns, returns_reviseLiveComment |].
        intros t' _. apply outcome_ret. exact Logic.I. }
    intros [text used'] _.
    eapply outcome_bind; [apply outcome_returns, returns_generateCommentId |].
    intros id Hid.
    match goal with
    | |- outcome _ _ _ (commentLoop _ _ _ _ _ _ _ _ (_ ++ [?c]) _ _) _ =>
        set (comment := c)
    end.
    assert (Hparent : parentCommentId comment = lastId None comments).
    { unfold comment. cbn [parentCommentId]. unfold lastId.
      destruct i as [| j].
      - apply length_zero_iff_nil in Hlen. subst comments. reflexivity.
      - rewrite last_lookup, Hlen. cbn [Nat.pred].
        destruct (comments !! j) as [c |] eqn:E; [| reflexivity].
        rewrite Forall_forall in Hids.
        assert (Hc : comment_id c <> "")
          by (apply Hids, list_elem_of_lookup; eauto).
        apply String.eqb_neq in Hc. rewrite Hc. reflexivity. }
    eapply outcome_weaken.
    + apply IH.
      * rewrite length_app. simpl. lia.
      * apply Forall_app. split; [exact Hids |]. constructor; [exact Hid | constructor].
    + intros [comments' last'] (replies & Heq & Hreplies & Hlast).
      cbn [fst snd] in *. exists (comment :: replies).
      rewrite Heq, <- app_assoc. split; [reflexivity |]. split.
      * econstructor.
        -- unfold CommentBy. rewrite Hparent. unfold comment.
           cbn [comment_id postId comment_personaId comment_personaUsername
                comment_status comment_scheduledAt delayMinutes].
           repeat split; try reflexivity; assumption.
        -- unfold lastId in Hreplies. rewrite last_snoc in Hreplies. exact Hreplies.
      * rewrite lastTime_cons. exact Hlast.
Qed.

Lemma outcome_generateOPFollowUp (post : Post) (comments : list Comment)
    (slot : AssignedSlot) (company : Company) (lastTimestamp : Z)
    (constraints : option PlannerConstraints) :
  default DEFAULT_CONSTRAINTS constraints = cs ->
  Forall (fun c => comment_id c <> "") comments ->
  outcome true D I
    (generateOPFollowUp post comments slot company lastTimestamp constraints)
    (CommentBy (W (delayWindow 0 true cs)) post (opPersona slot) lastTimestamp
       (lastId None comments)).
Proof.
  intros Hcs Hids. unfold generateOPFollowUp. rewrite Hcs.
  eapply outcome_bind; [apply outcome_returns, delays |].
  intros delay Hdelay.
  eapply outcome_bind with (Q := fun _ => True);
    [apply outcome_returns, returns_isMockMode_any |].
  intros mock _.
  eapply outcome_bind with (Q := fun _ => True).
  { destruct mock.
    - apply outcome_returns. unfold generateWithAIMock. returns_any I.
    - eapply outcome_bind with (Q := fun _ => True);
        [apply outcome_returns, (returns_generateWithAI I) |].
      intros result _.
      destruct (gr_success result); [| apply outcome_throw; reflexivity].
      destruct (gr_data result) as [[t b [tx |] v] |];
        first [apply outcome_throw; reflexivity | apply outcome_ret; exact Logic.I]. }
  intros text _.
  eapply outcome_bind with (Q := fun _ => True).
  { apply outcome_returns. unfold removeCompanyMention. returns_any I. }
  intros finalText _.
  eapply outcome_bind; [apply outcome_returns, returns_generateCommentId |].
  intros id Hid. apply outcome_ret.
  unfold CommentBy.
  cbn [comment_id postId comment_personaId comment_personaUsername
       comment_status comment_scheduledAt delayMinutes parentCommentId].
  repeat split; try reflexivity; try assumption.
  unfold lastId. destruct (last comments) as [c |] eqn:E; [| reflexivity].
  rewrite Forall_forall in Hids.
  assert (Hc : comment_id c <> "").
  { apply Hids. apply last_Some in E. destruct E as [l' ->].
    apply elem_of_app. right. apply list_elem_of_here. }
  apply String.eqb_neq in Hc. rewrite Hc. reflexivity.
Qed.

End Windows.

(** *** The pass that forces mentions changes texts only *)
Lemma sameButContent_refl (c : Comment) : sameButContent c c.
Proof. destruct c. reflexivity. Qed.

Lemma sameButContent_setContent (c : Comment) (t : string) :
  sameButContent c (setContent c t).
Proof. destruct c. reflexivity. Qed.

Lemma sameButContent_trans (a b c : Comment) :
  sameButContent a b -> sameButContent b c -> sameButContent a c.
Proof.
  unfold sameButContent. intros Hab Hbc. rewrite Hbc, Hab. destruct a. reflexivity.
Qed.

Lemma outcome_forceMentions (targets : list Z) (commenters : list Persona) :
  forall comments,
    outcome true D I (forceMentions targets commenters comments)
      (fun comments' => Forall2 sameButContent comments comments').
Proof.
  induction targets as [| idx rest IH]; intros comments; cbn [forceMentions].
  - apply outcome_ret. apply Forall_Forall2_diag, Forall_forall.
    intros c _. apply sameButContent_refl.
  - destruct (if _ <? 0 then None else _) as [persona |];
      [| apply outcome_throw; reflexivity].
    eapply outcome_bind with (Q := fun _ => True);
      [apply outcome_returns, (returns_generateWithAI I) |].
    intros result _.
    match goal with
    | |- outcome _ _ _ (forceMentions _ _ ?cs') _ => set (comments' := cs')
    end.
    assert (Hsame : Forall2 sameButContent comments comments').
    { unfold comments'.
      destruct (if gr_success result then _ else _) as [t |];
        [| apply Forall_Forall2_diag, Forall_forall;
           intros c _; apply sameButContent_refl].
      destruct (findIndexByPersona _ comments 0) as [targetIndex |];
        [| apply Forall_Forall2_diag, Forall_forall;
           intros c _; apply sameButContent_refl].
      destruct (comments !! targetIndex) as [c |] eqn:E;
        [| apply Forall_Forall2_diag, Forall_forall;
           intros c _; apply sameButContent_refl].
      rewrite <- (list_insert_id comments targetIndex c E) at 1.
      apply Forall2_insert; [| apply sameButContent_setContent].
      apply Forall_Forall2_diag, Forall_forall.
      intros c0 _. apply sameButContent_refl. }
    eapply outcome_weaken; [apply IH |].
    intros comments'' Hsame'.
    clear -Hsame Hsame'. revert comments'' Hsame'.
    induction Hsame as [| a b l l' Hab Hl IHl]; intros comments'' Hsame'.
    + exact Hsame'.
    + apply Forall2_cons_inv_l in Hsame' as (c & l'' & Hbc & Hl' & ->).
      constructor; [eapply sameButContent_trans; eassumption | apply IHl, Hl'].
Qed.

Lemma CommentBy_same (W : Z -> Prop) (post : Post) (persona : Persona) (start : Z)
    (parent : option string) (c c' : Comment) :
  sameButContent c c' -> CommentBy W post persona start parent c ->
  CommentBy W post persona start parent c'.
Proof. unfold sameButContent. intros ->. destruct c. exact (fun H => H). Qed.

Lemma Replies_same (W : Z * Z -> Z -> Prop) (cs : PlannerConstraints) (post : Post)
    (i : nat) (start : Z) (parent : option string) (personas : list Persona)
    (replies replies' : list Comment) :
  Forall2 sameButContent replies replies' ->
  Replies W cs post i start parent personas replies ->
  Replies W cs post i start parent personas replies'.
Proof.
  intros Hsame Hreplies. revert replies' Hsame.
  induction Hreplies as [| i start parent persona personas c replies Hc Hrest IH];
    intros replies' Hsame.
  - apply Forall2_nil_inv_l in Hsame as ->. constructor.
  - apply Forall2_cons_inv_l in Hsame as (c' & rest' & Hcc & Hrest' & ->).
    constructor; [eapply CommentBy_same; eassumption |].
    assert (Hfields : comment_scheduledAt c' = comment_scheduledAt c /\
                      comment_id c' = comment_id c)
      by (unfold sameButContent in Hcc; rewrite Hcc; destruct c; split; reflexivity).
    destruct Hfields as [-> ->]. apply IH, Hrest'.
Qed.

Lemma last_same (l l' : list Comment) :
  Forall2 sameButContent l l' ->
  forall start parent, lastTime start l' = lastTime start l /\
                       lastId parent l' = lastId parent l.
Proof.
  induction 1 as [| c c' l l' Hcc Hl IH]; intros start parent; [split; reflexivity |].
  rewrite !lastTime_cons, !lastId_cons.
  assert (Hfields : comment_scheduledAt c' = comment_scheduledAt c /\
                    comment_id c' = comment_id c)
    by (unfold sameButContent in Hcc; rewrite Hcc; destruct c; split; reflexivity).
  destruct Hfields as [-> ->]. apply IH.
Qed.

Lemma CommentsFor_same (W : Z * Z -> Z -> Prop) (cs : PlannerConstraints)
    (slot : AssignedSlot) (post : Post) (comments comments' : list Comment) :
  Forall2 sameButContent comments comments' ->
  CommentsFor W cs slot post comments -> CommentsFor W cs slot post comments'.
Proof.
  intros Hsame (replies & followUp & -> & Hreplies & Hfollow).
  apply Forall2_app_inv_l in Hsame as (replies' & followUp' & Hr & Hf & ->).
  exists replies', followUp'. split; [reflexivity |].
  split; [eapply Replies_same; eassumption |].
  destruct Hfollow as [-> | (Hne & f & -> & Hby)].
  - left. apply Forall2_nil_inv_l in Hf. exact Hf.
  - right. split.
    + intros ->. apply Forall2_nil_inv_r in Hr. contradiction.
    + apply Forall2_cons_inv_l in Hf as (f' & rest & Hff & Hnil & ->).
      apply Forall2_nil_inv_l in Hnil as ->.
      exists f'. split; [reflexivity |].
      destruct (last_same _ _ Hr (post_scheduledAt post) None) as [-> ->].
      eapply CommentBy_same; eassumption.
Qed.

Lemma Replies_ids (W : Z * Z -> Z -> Prop) (cs : PlannerConstraints) (post : Post)
    (i : nat) (start : Z) (parent : option string) (personas : list Persona)
    (replies : list Comment) :
  Replies W cs post i start parent personas replies ->
  Forall (fun c => comment_id c <> "") replies /\ length replies = length personas.
Proof.
  induction 1 as [| i start parent persona personas c replies Hc Hrest IH].
  - split; [constructor | reflexivity].
  - destruct IH as [IH1 IH2]. split; [| simpl; congruence].
    constructor; [apply Hc | exact IH1].
Qed.

Lemma outcome_drawMentionIndices (fuel : nat) (maxMentionCount n : Z) :
  D = true ->
  forall indices,
    outcome true D I (drawMentionIndices fuel maxMentionCount n indices)
      (fun _ => True).
Proof.
  intros HD. induction fuel as [| fuel IH]; intros indices; cbn [drawMentionIndices].
  - destruct (_ <=? _); [apply outcome_ret; exact Logic.I |].
    intros w Hw. exact HD.
  - destruct (_ <=? _); [apply outcome_ret; exact Logic.I |].
    eapply outcome_bind with (Q := fun _ => True);
      [apply outcome_returns, (returns_randomBelow I) |].
    intros k _. apply IH.
Qed.

Section Threads.
Context (W : Z * Z -> Z -> Prop) (cs : PlannerConstraints).
Hypothesis delays : forall i f,
  returns I (generateCommentDelay i f cs) (W (delayWindow i f cs)).

Lemma outcome_generateComments (fuel : nat) (post : Post) (slot : AssignedSlot)
    (company : Company) (preferences : option GenerationPreferences)
    (constraints : option PlannerConstraints) (riskTolerance : option RiskTolerance) :
  default DEFAULT_CONSTRAINTS constraints = cs ->
  D = true \/ noMentionTarget preferences ->
  outcome true D I
    (generateComments fuel post slot company preferences constraints riskTolerance)
    (CommentsFor W cs slot post).
Proof.
  intros Hcs HD. unfold generateComments. rewrite Hcs.
  match goal with
  | |- context [Z.min (if ?a then _ else 0) _] => set (allowProduct := a)
  end.
  set (n := Z.of_nat (length (commenterPersonas slot))).
  set (mentionTargetCount :=
         if allowProduct
         then Z.max 0 (default 0 (pref productMentionCount preferences)) else 0).
  set (maxMentionCount := Z.min mentionTargetCount n).
  eapply outcome_bind with (Q := fun _ => True).
  { destruct (allowProduct && (0 <? maxMentionCount)) eqn:E;
      [| apply outcome_ret; exact Logic.I].
    destruct HD as [HD | Hnone]; [apply outcome_drawMentionIndices, HD |].
    exfalso. apply andb_true_iff in E as [Hallow E]. apply Z.ltb_lt in E.
    unfold maxMentionCount, mentionTargetCount in E. rewrite Hallow in E.
    unfold noMentionTarget in Hnone. lia. }
  intros mentionIndices _.
  eapply outcome_bind with (Q := fun _ => True).
  { apply outcome_returns. unfold shouldMentionProduct. returns_any I. }
  intros mentionProductIndex _.
  eapply outcome_bind with (Q := fun _ => True).
  { apply outcome_returns. returns_any I. }
  intros _disagreementIndex _.
  eapply outcome_bind.
  { apply (outcome_commentLoop W cs delays); [reflexivity | constructor]. }
  intros [comments lastTimestamp] (replies & Heq & Hreplies & Hlast).
  cbn [fst snd] in Heq, Hlast. simpl in Heq. subst comments.
  destruct (Replies_ids _ _ _ _ _ _ _ _ Hreplies) as [Hids _].
  eapply outcome_bind with (Q := fun _ => True);
    [apply outcome_returns, (returns_random I) |].
  intros r _.
  eapply outcome_bind with (Q := CommentsFor W cs slot post).
  { destruct (Qltb (1 # 2) r && (0 <? length replies)%nat) eqn:E.
    - eapply outcome_bind;
        [apply (outcome_generateOPFollowUp W cs delays); [exact Hcs | exact Hids] |].
      intros f Hf. apply outcome_ret. exists replies, [f].
      split; [reflexivity |]. split; [exact Hreplies |]. right.
      split.
      + intros ->. apply andb_true_iff in E as [_ E]. discriminate.
      + exists f. split; [reflexivity |]. rewrite <- Hlast. exact Hf.
    - apply outcome_ret. exists replies, []. rewrite app_nil_r.
      split; [reflexivity |]. split; [exact Hreplies | left; reflexivity]. }
  intros comments1 Hfor.
  destruct (allowProduct && _); [| apply outcome_ret, Hfor].
  destruct (0 <? Z.max 0 _); [| apply outcome_ret, Hfor].
  eapply outcome_weaken; [apply outcome_forceMentions |].
  intros comments' Hsame. eapply CommentsFor_same; eassumption.
Qed.

Lemma outcome_generateThread (fuel : nat) (slot : AssignedSlot) (company : Company)
    (weekNumber : Z) (preferences : option GenerationPreferences)
    (constraints : option PlannerConstraints) (riskTolerance : option RiskTolerance) :
  default DEFAULT_CONSTRAINTS constraints = cs ->
  D = true \/ noMentionTarget preferences ->
  outcome true D I
    (generateThread fuel slot company weekNumber preferences constraints riskTolerance)
    (ThreadFor W cs company weekNumber slot).
Proof.
  intros Hcs HD. unfold generateThread.
  eapply outcome_bind; [apply outcome_generatePost |].
  intros post Hpost.
  eapply outcome_bind; [apply outcome_generateComments; eassumption |].
  intros comments Hcomments. apply outcome_ret.
  split; [reflexivity |]. split; assumption.
Qed.

Lemma outcome_threadLoop (fuel : nat) (config : ThreadGeneratorConfig)
    (slots : list AssignedSlot) :
  default DEFAULT_CONSTRAINTS (cfg_constraints config) = cs ->
  D = true \/ noMentionTarget (cfg_preferences config) ->
  forall (threads0 : list Thread) (errors0 : list string) (total0 : nat),
    outcome false D I (threadLoop fuel config slots threads0 errors0 total0)
      (fun r => exists new errs,
           threads r = threads0 ++ new /\
           errors r = errors0 ++ errs /\
           totalPosts r = length (threads r) /\
           totalComments r
           = (total0 + sum_list ((fun t => length (comments t)) <$> new))%nat /\
           (length new + length errs = length slots)%nat /\
           slot <$> new `sublist_of` slots /\
           Forall (fun t => ThreadFor W cs (cfg_company config)
                              (cfg_weekNumber config) (slot t) t) new).
Proof.
  intros Hcs HD. induction slots as [| slot0 rest IH]; intros threads0 errors0 total0;
    cbn [threadLoop].
  - apply outcome_ret. exists [], []. rewrite !app_nil_r. cbn.
    split; [reflexivity |]. split; [reflexivity |]. split; [reflexivity |].
    split; [lia |]. split; [reflexivity |]. split; constructor.
  - eapply outcome_bind
      with (Q := fun x =>
                   (exists t, x = (threads0 ++ [t], errors0,
                                   (total0 + length (comments t))%nat) /\
                              ThreadFor W cs (cfg_company config)
                                (cfg_weekNumber config) slot0 t) \/
                   (exists e, x = (threads0, errors0 ++ [e], total0))).
    + apply outcome_try_catch.
      * eapply outcome_bind;
          [apply outcome_generateThread; [rewrite Hcs; reflexivity | exact HD] |].
        intros t Ht. apply outcome_ret. left. exists t. split; [reflexivity | exact Ht].
      * intros e. apply outcome_ret. right. eexists. reflexivity.
    + intros [[threads' errors'] total'] [(t & [= -> -> ->] & Ht) | (e & [= -> -> ->])].
      * eapply outcome_weaken; [apply IH |].
        intros r (new & errs & Hth & Her & Hposts & Htotal & Hlen & Hsub & Hall).
        exists (t :: new), errs. rewrite Hth, <- app_assoc.
        split; [reflexivity |]. split; [exact Her |].
        split; [rewrite Hposts, Hth, <- app_assoc; reflexivity |].
        split; [rewrite Htotal; cbn; lia |].
        split; [simpl; lia |].
        destruct Ht as (Hslot & Hpost & Hcomments).
        split; [rewrite fmap_cons, Hslot; apply sublist_skip, Hsub |].
        constructor; [| exact Hall]. rewrite Hslot.
        split; [exact Hslot |]. split; assumption.
      * eapply outcome_weaken; [apply IH |].
        intros r (new & errs & Hth & Her & Hposts & Htotal & Hlen & Hsub & Hall).
        exists new, (e :: errs). rewrite Her, <- app_assoc.
        split; [exact Hth |]. split; [reflexivity |].
        split; [exact Hposts |]. split; [exact Htotal |].
        split; [simpl; lia |]. split; [apply sublist_cons, Hsub | exact Hall].
Qed.

End Threads.

End GeneratorRuns.

(** *** The comments of a thread, position by position *)
Lemma Replies_lookup (W : Z * Z -> Z -> Prop) (cs : PlannerConstraints) (post : Post)
    (i : nat) (start : Z) (parent : option string) (personas : list Persona)
    (replies : list Comment) :
  Replies W cs post i start parent personas replies ->
  forall k c, replies !! k = Some c ->
    exists persona,
      personas !! k = Some persona /\
      CommentBy (W (delayWindow (i + k) false cs)) post persona
        (match k with
         | O => start
         | S j => from_option comment_scheduledAt start (replies !! j)
         end)
        (match k with
         | O => parent
         | S j => comment_id <$> replies !! j
         end) c.
Proof.
  induction 1 as [| i start parent persona personas c0 replies Hc Hrest IH];
    intros k c Hk; [rewrite lookup_nil in Hk; discriminate |].
  destruct k as [| k].
  - simpl in Hk. injection Hk as <-. exists persona.
    split; [reflexivity |]. rewrite Nat.add_0_r. exact Hc.
  - simpl in Hk. destruct (IH k c Hk) as (p & Hp & Hby).
    exists p. split; [exact Hp |].
    replace (i + S k)%nat with (S i + k)%nat by lia.
    destruct k as [| k]; [exact Hby |].
    change ((c0 :: replies) !! S k) with (replies !! k).
    destruct (replies !! k) as [c1 |] eqn:Ek; [exact Hby |].
    apply lookup_ge_None in Ek. apply lookup_lt_Some in Hk. lia.
Qed.

Lemma CommentsFor_lookup (W : Z * Z -> Z -> Prop) (cs : PlannerConstraints)
    (slot : AssignedSlot) (post : Post) (comments : list Comment) :
  CommentsFor W cs slot post comments ->
  (length (commenterPersonas slot) <= length comments
   <= length (commenterPersonas slot) + 1)%nat /\
  (commenterPersonas slot = [] -> comments = []) /\
  forall i c, comments !! i = Some c ->
    CommentBy (W (windowAt cs slot i)) post (personaAt slot i)
      (previousTime post comments i) (previousId comments i) c.
Proof.
  intros (replies & followUp & -> & Hreplies & Hfollow).
  destruct (Replies_ids _ _ _ _ _ _ _ _ Hreplies) as [_ Hlen].
  split; [| split].
  - rewrite length_app, Hlen.
    destruct Hfollow as [-> | (_ & f & -> & _)]; simpl; lia.
  - intros Hnil. rewrite Hnil in Hlen. apply length_zero_iff_nil in Hlen. subst replies.
    destruct Hfollow as [-> | (Hne & _)]; [reflexivity | contradiction].
  - intros i c Hi. unfold windowAt, personaAt. rewrite <- Hlen.
    destruct (decide (i < length replies)%nat) as [Hlt | Hge].
    + rewrite lookup_app_l in Hi by exact Hlt.
      destruct (Replies_lookup _ _ _ _ _ _ _ _ Hreplies i c Hi) as (p & Hp & Hby).
      rewrite Hp. cbn [default]. apply Nat.ltb_lt in Hlt as Hlt'. rewrite Hlt'.
      destruct i as [| j]; [exact Hby |].
      unfold previousTime, previousId. rewrite lookup_app_l by lia. exact Hby.
    + destruct Hfollow as [-> | (Hne & f & -> & Hby)].
      { rewrite app_nil_r in Hi. apply lookup_lt_Some in Hi. lia. }
      rewrite lookup_app_r in Hi by lia.
      destruct (i - length replies)%nat as [| d] eqn:Ed; [| destruct d; discriminate].
      simpl in Hi. injection Hi as <-.
      assert (Hi : i = length replies) by lia. subst i.
      assert (Hnone : commenterPersonas slot !! length replies = None)
        by (apply lookup_ge_None; lia).
      rewrite Hnone. cbn [default].
      assert (Hnlt : (length replies <? length replies)%nat = false)
        by (apply Nat.ltb_ge; lia).
      rewrite Hnlt.
      destruct (length replies) as [| j] eqn:El;
        [apply length_zero_iff_nil in El; contradiction |].
      unfold previousTime, previousId. rewrite lookup_app_l by lia.
      unfold lastTime, lastId in Hby. rewrite last_lookup, El in Hby.
      cbn [Nat.pred] in Hby.
      destruct (replies !! j) as [c |] eqn:Ej; [exact Hby |].
      apply lookup_ge_None in Ej. lia.
Qed.

(** The run of [generateThreads]. *)
Lemma generateThreads_run (D : bool) (I : World -> Prop) `{!Stable I}
    (W : Z * Z -> Z -> Prop) (fuel : nat)
    (config : ThreadGenerator.ThreadGeneratorConfig) :
  let cs := default Constraints.DEFAULT_CONSTRAINTS
              (ThreadGenerator.cfg_constraints config) in
  (forall i f, returns I (Constraints.generateCommentDelay i f cs)
                 (W (delayWindow i f cs))) ->
  D = true \/ noMentionTarget (ThreadGenerator.cfg_preferences config) ->
  outcome false D I (ThreadGenerator.generateThreads fuel config)
    (fun r =>
       ThreadGenerator.totalPosts r = length (ThreadGenerator.threads r) /\
       ThreadGenerator.totalComments r
       = sum_list ((fun t => length (comments t)) <$> ThreadGenerator.threads r) /\
       (length (ThreadGenerator.threads r) + length (ThreadGenerator.errors r)
        = length (ThreadGenerator.cfg_slots config))%nat /\
       slot <$> ThreadGenerator.threads r `sublist_of` ThreadGenerator.cfg_slots config /\
       Forall (fun t => ThreadFor W cs (ThreadGenerator.cfg_company config)
                          (ThreadGenerator.cfg_weekNumber config) (slot t) t)
              (ThreadGenerator.threads r)).
Proof.
  intros cs Hdelays HD. unfold ThreadGenerator.generateThreads.
  eapply outcome_weaken.
  - apply (outcome_threadLoop D I W cs Hdelays fuel config _ eq_refl HD).
  - intros r (new & errs & Hth & Her & Hposts & Htotal & Hlen & Hsub & Hall).
    simpl in Hth, Her, Htotal. rewrite Hth in Hposts. rewrite Hth, Her.
    split; [exact Hposts |]. split; [exact Htotal |]. split; [exact Hlen |].
    split; assumption.
Qed.

Lemma returns_generateCommentDelay_inWindow (I : World -> Prop) `{!Stable I}
    (cs : PlannerConstraints) :
  (forall w, I w -> rng_ok (rng w)) ->
  forall i f, returns I (Constraints.generateCommentDelay i f cs)
                (inWindow (delayWindow i f cs)).
Proof.
  intros Hfair i f.
  destruct (decide (fst (delayWindow i f cs) <= snd (delayWindow i f cs))) as [Hle | Hgt].
  - eapply returns_weaken;
      [apply (returns_generateCommentDelay_window I i f cs Hfair Hle) |].
    intros d Hd _. exact Hd.
  - eapply returns_weaken; [apply (returns_generateCommentDelay I) |].
    intros d _ Hle. contradiction.
Qed.

(** X24: [generateThreads] never throws.  In the result that it returns
    every slot is accounted for: the threads and the recorded errors
    together are as many as the slots, the threads are generated for slots
    of the input in their order, [totalPosts] counts the threads and
    [totalComments] their comments.  It returns a result whenever the
    request asks for no product mention (no count, or one that is not
    positive): only the loop that draws the positions of the mentions can
    go on without end. *)
Theorem generateThreads_accounts_for_every_slot (fuel : nat)
    (config : ThreadGenerator.ThreadGeneratorConfig) (w : World) :
  match ThreadGenerator.generateThreads fuel config w with
  | (Ok r, _) =>
      ThreadGenerator.totalPosts r = length (ThreadGenerator.threads r) /\
      ThreadGenerator.totalComments r
      = sum_list ((fun t => length (comments t)) <$> ThreadGenerator.threads r) /\
      (length (ThreadGenerator.threads r) + length (ThreadGenerator.errors r)
       = length (ThreadGenerator.cfg_slots config))%nat /\
      slot <$> ThreadGenerator.threads r `sublist_of` ThreadGenerator.cfg_slots config
  | (Throw _, _) => False
  | (Diverge, _) => ~ noMentionTarget (ThreadGenerator.cfg_preferences config)
  end.
Proof.
  destruct (decide (noMentionTarget (ThreadGenerator.cfg_preferences config)))
    as [Hnone | Hsome].
  - pose proof (generateThreads_run false anyWorld (fun _ _ => True) fuel config
                  (fun i f => returns_generateCommentDelay anyWorld i f _)
                  (or_intror Hnone) w Logic.I) as Hrun.
    destruct (ThreadGenerator.generateThreads fuel config w) as [[r | msg |] w'].
    + destruct Hrun as (_ & H1 & H2 & H3 & H4 & _). auto.
    + destruct Hrun as [_ Hfalse]. discriminate.
    + discriminate.
  - pose proof (generateThreads_run true anyWorld (fun _ _ => True) fuel config
                  (fun i f => returns_generateCommentDelay anyWorld i f _)
                  (or_introl eq_refl) w Logic.I) as Hrun.
    destruct (ThreadGenerator.generateThreads fuel config w) as [[r | msg |] w'].
    + destruct Hrun as (_ & H1 & H2 & H3 & H4 & _). auto.
    + destruct Hrun as [_ Hfalse]. discriminate.
    + exact Hsome.
Qed.

(** The threads of a result, whatever the fuel. *)
Lemma generateThreads_threads (I : World -> Prop) `{!Stable I}
    (W : Z * Z -> Z -> Prop) (fuel : nat)
    (config : ThreadGenerator.ThreadGeneratorConfig) (w : World)
    (r : ThreadGenerator.ThreadGeneratorResult) (w' : World) :
  let cs := default Constraints.DEFAULT_CONSTRAINTS
              (ThreadGenerator.cfg_constraints config) in
  (forall i f, returns I (Constraints.generateCommentDelay i f cs)
                 (W (delayWindow i f cs))) ->
  I w ->
  ThreadGenerator.generateThreads fuel config w = (Ok r, w') ->
  forall t, t ∈ ThreadGenerator.threads r ->
    ThreadFor W cs (ThreadGenerator.cfg_company config)
      (ThreadGenerator.cfg_weekNumber config) (slot t) t.
Proof.
  intros cs Hdelays Hw Hrun t Ht.
  pose proof (generateThreads_run true I W fuel config Hdelays (or_introl eq_refl) w Hw)
    as H.
  rewrite Hrun in H. destruct H as (_ & _ & _ & _ & _ & Hall).
  rewrite Forall_forall in Hall. apply Hall, Ht.
Qed.

(** X25: every thread that [generateThreads] returns is built for its
    slot.  The post carries the subreddit, the author, the date, the
    keywords and the thread type of the slot, as a draft.  The comments
    are the replies of the commenters of the slot, one each and in their
    order, followed by at most one follow-up of the author, and by none
    when there is no commenter; every comment belongs to the post, is a
    draft, has an id, and answers the comment before it (the first answers
    the post). *)
Theorem generateThreads_thread_shape (fuel : nat)
    (config : ThreadGenerator.ThreadGeneratorConfig) (w : World)
    (r : ThreadGenerator.ThreadGeneratorResult) (w' : World) :
  ThreadGenerator.generateThreads fuel config w = (Ok r, w') ->
  forall t, t ∈ ThreadGenerator.threads r ->
    PostFor (ThreadGenerator.cfg_company config) (ThreadGenerator.cfg_weekNumber config)
      (slot t) (post t) /\
    (length (commenterPersonas (slot t)) <= length (comments t)
     <= length (commenterPersonas (slot t)) + 1)%nat /\
    (commenterPersonas (slot t) = [] -> comments t = []) /\
    forall i c, comments t !! i = Some c ->
      comment_id c <> "" /\
      postId c = post_id (post t) /\
      comment_personaId c = persona_id (personaAt (slot t) i) /\
      comment_personaUsername c = persona_username (personaAt (slot t) i) /\
      comment_status c = draft /\
      parentCommentId c = previousId (comments t) i.
Proof.
  intros Hrun t Ht.
  destruct (generateThreads_threads anyWorld (fun _ _ => True) fuel config w r w'
              (fun i f => returns_generateCommentDelay anyWorld i f _)
              Logic.I Hrun t Ht) as (_ & Hpost & Hcomments).
  split; [exact Hpost |].
  destruct (CommentsFor_lookup _ _ _ _ _ Hcomments) as (Hlen & Hnil & Hall).
  split; [exact Hlen |]. split; [exact Hnil |].
  intros i c Hi. destruct (Hall i c Hi) as (H1 & H2 & H3 & H4 & H5 & H6 & _).
  repeat split; assumption.
Qed.

Lemma generateThreads_thread_shape_witness :
  exists r w',
    ThreadGenerator.generateThreads 0 (Sample.generatorConfig Sample.twoSlots)
      (Sample.worldOf [] true) = (Ok r, w') /\
    forall t, t ∈ ThreadGenerator.threads r ->
      PostFor Sample.slideforge 1 (slot t) (post t) /\
      (length (commenterPersonas (slot t)) <= length (comments t)
       <= length (commenterPersonas (slot t)) + 1)%nat /\
      (commenterPersonas (slot t) = [] -> comments t = []) /\
      forall i c, comments t !! i = Some c ->
        comment_id c <> "" /\
        postId c = post_id (post t) /\
        comment_personaId c = persona_id (personaAt (slot t) i) /\
        comment_personaUsername c = persona_username (personaAt (slot t) i) /\
        comment_status c = draft /\
        parentCommentId c = previousId (comments t) i.
Proof.
  destruct (ThreadGenerator.generateThreads 0 (Sample.generatorConfig Sample.twoSlots)
              (Sample.worldOf [] true)) as [[r | msg |] w'] eqn:Hrun.
  - exists r, w'. split; [reflexivity |].
    exact (generateThreads_thread_shape 0 _ _ r w' Hrun).
  - vm_compute in Hrun. discriminate.
  - vm_compute in Hrun. discriminate.
Defined.


(** X26: with [Math.random ()] in [0, 1), the comments of every thread
    that [generateThreads] returns follow one another in time: each one is
    scheduled [delayMinutes] minutes after the comment before it (after
    the post, for the first), and its delay lies in the window of its
    position: [minDelayAfterPostMinutes, maxDelayAfterPostMinutes) for the
    first reply, [commentSpacingMinutes] for the later replies,
    [opFollowUpDelayMinutes] for the follow-up of the author. *)
Theorem generateThreads_timeline (fuel : nat)
    (config : ThreadGenerator.ThreadGeneratorConfig) (w : World)
    (r : ThreadGenerator.ThreadGeneratorResult) (w' : World) :
  let cs := default Constraints.DEFAULT_CONSTRAINTS
              (ThreadGenerator.cfg_constraints config) in
  rng_ok (rng w) ->
  ThreadGenerator.generateThreads fuel config w = (Ok r, w') ->
  forall t, t ∈ ThreadGenerator.threads r ->
    forall i c, comments t !! i = Some c ->
      comment_scheduledAt c
      = previousTime (post t) (comments t) i
        + delayMinutes c * ThreadGenerator.msPerMinute /\
      inWindow (windowAt cs (slot t) i) (delayMinutes c).
Proof.
  intros cs Hfair Hrun t Ht i c Hi.
  destruct (generateThreads_threads fairWorld inWindow fuel config w r w'
              (returns_generateCommentDelay_inWindow fairWorld _ (fun w H => H))
              Hfair Hrun t Ht) as (_ & _ & Hcomments).
  destruct (CommentsFor_lookup _ _ _ _ _ Hcomments) as (_ & _ & Hall).
  destruct (Hall i c Hi) as (_ & _ & _ & _ & _ & _ & Htime & Hwin).
  split; assumption.
Qed.

Lemma generateThreads_timeline_witness :
  exists r w',
    ThreadGenerator.generateThreads 0 (Sample.generatorConfig Sample.twoSlots)
      (Sample.worldOf [] true) = (Ok r, w') /\
    forall t, t ∈ ThreadGenerator.threads r ->
      forall i c, comments t !! i = Some c ->
        comment_scheduledAt c
        = previousTime (post t) (comments t) i
          + delayMinutes c * ThreadGenerator.msPerMinute /\
        inWindow (windowAt Constraints.DEFAULT_CONSTRAINTS (slot t) i) (delayMinutes c).
Proof.
  destruct (ThreadGenerator.generateThreads 0 (Sample.generatorConfig Sample.twoSlots)
              (Sample.worldOf [] true)) as [[r | msg |] w'] eqn:Hrun.
  - exists r, w'. split; [reflexivity |].
    apply (generateThreads_timeline 0 (Sample.generatorConfig Sample.twoSlots)
             (Sample.worldOf [] true) r w'); [| exact Hrun].
    intros n. simpl. destruct n; split; vm_compute; congruence.
  - vm_compute in Hrun. discriminate.
  - vm_compute in Hrun. discriminate.
Defined.


(** X27: the generator and the timing check of the quality engine agree.
    With [Math.random ()] in [0, 1), when the first reply may come no
    sooner than 10 minutes after the post and the later replies and the
    follow-up no sooner than 5 minutes after the comment before (the
    default constraints are such), [checkTimingIssues] finds nothing in
    the threads that [generateThreads] returns. *)
Theorem generated_threads_pass_timing_check (fuel : nat)
    (config : ThreadGenerator.ThreadGeneratorConfig) (w : World)
    (r : ThreadGenerator.ThreadGeneratorResult) (w' : World) :
  let cs := default Constraints.DEFAULT_CONSTRAINTS
              (ThreadGenerator.cfg_constraints config) in
  rng_ok (rng w) ->
  10 <= minDelayAfterPostMinutes cs <= maxDelayAfterPostMinutes cs ->
  5 <= fst (commentSpacingMinutes cs) <= snd (commentSpacingMinutes cs) ->
  5 <= fst (opFollowUpDelayMinutes cs) <= snd (opFollowUpDelayMinutes cs) ->
  ThreadGenerator.generateThreads fuel config w = (Ok r, w') ->
  QualityChecker.checkTimingIssues (ThreadGenerator.threads r) = [].
Proof.
  intros cs Hfair Hfirst Hspacing Hfollow Hrun.
  assert (Hall : forall t, t ∈ ThreadGenerator.threads r ->
            (commenterPersonas (slot t) = [] -> comments t = []) /\
            forall i c, comments t !! i = Some c ->
              inWindow (windowAt cs (slot t) i) (delayMinutes c)).
  { intros t Ht.
    destruct (generateThreads_threads fairWorld inWindow fuel config w r w'
                (returns_generateCommentDelay_inWindow fairWorld _ (fun w H => H))
                Hfair Hrun t Ht) as (_ & _ & Hcomments).
    destruct (CommentsFor_lookup _ _ _ _ _ Hcomments) as (_ & Hnil & Hby).
    split; [exact Hnil |]. intros i c Hi. apply (Hby i c Hi). }
  unfold QualityChecker.checkTimingIssues.
  induction (ThreadGenerator.threads r) as [| t rest IH]; [reflexivity |].
  cbn [flat_map]. rewrite IH by (intros t' Ht'; apply Hall, list_elem_of_further, Ht').
  rewrite app_nil_r.
  destruct (Hall t (list_elem_of_here _ _)) as [Hnil Hwin].
  assert (Hlater : forall i c, comments t !! S i = Some c -> 5 <= delayMinutes c).
  { intros i c Hi. specialize (Hwin (S i) c Hi). unfold windowAt, inWindow in Hwin.
    destruct (_ <? _)%nat; unfold delayWindow in Hwin; cbn [Nat.eqb] in Hwin;
      fold cs in Hwin; lia. }
  destruct (comments t) as [| c0 later] eqn:Ec; [reflexivity |].
  assert (Hc0 : 10 <= delayMinutes c0).
  { specialize (Hwin 0%nat c0 eq_refl). unfold windowAt, inWindow in Hwin.
    destruct (commenterPersonas (slot t)) as [| p ps] eqn:Ep;
      [specialize (Hnil eq_refl); discriminate |].
    cbn in Hwin. fold cs in Hwin. lia. }
  apply Z.ltb_ge in Hc0. rewrite Hc0. cbn [app tail].
  apply omap_nil_iff, Forall_forall. intros c Hc.
  apply list_elem_of_lookup in Hc as [i Hi].
  specialize (Hlater i c Hi). apply Z.ltb_ge in Hlater. rewrite Hlater. reflexivity.
Qed.

Lemma generated_threads_pass_timing_check_witness :
  exists r w',
    ThreadGenerator.generateThreads 0 (Sample.generatorConfig Sample.twoSlots)
      (Sample.worldOf [] true) = (Ok r, w') /\
    QualityChecker.checkTimingIssues (ThreadGenerator.threads r) = [].
Proof.
  destruct (ThreadGenerator.generateThreads 0 (Sample.generatorConfig Sample.twoSlots)
              (Sample.worldOf [] true)) as [[r | msg |] w'] eqn:Hrun.
  - exists r, w'. split; [reflexivity |].
    apply (generated_threads_pass_timing_check 0
             (Sample.generatorConfig Sample.twoSlots) (Sample.worldOf [] true) r w');
      [| | | | exact Hrun].
    + intros n. simpl. destruct n; split; vm_compute; congruence.
    + simpl. lia.
    + simpl. lia.
    + simpl. lia.
  - vm_compute in Hrun. discriminate.
  - vm_compute in Hrun. discriminate.
Defined.

(** ** lib/planner/slotAllocator: validation *)
Lemma gapHours_nonneg (a b : TimeSlot) :
  ts_date a <= ts_date b -> (0 <= gapHours a b)%Q.
Proof.
  intros Hle. unfold gapHours. apply Qle_shift_div_l; [reflexivity |].
  rewrite Qmult_0_l. unfold Qle. simpl. lia.
Qed.

Lemma gapHours_mono (a b c : TimeSlot) :
  ts_date b <= ts_date c -> (gapHours a b <= gapHours a c)%Q.
Proof.
  intros Hle. unfold gapHours. apply Qmult_le_compat_r; [| discriminate].
  unfold Qle. simpl. lia.
Qed.

Lemma gapHours_le (a b a' b' : TimeSlot) :
  ts_date b - ts_date a <= ts_date b' - ts_date a' ->
  (gapHours a b <= gapHours a' b')%Q.
Proof.
  intros Hle. unfold gapHours. apply Qmult_le_compat_r; [| discriminate].
  unfold Qle. simpl. lia.
Qed.

Lemma Qltb_false (x y : Q) : Qltb x y = false <-> (y <= x)%Q.
Proof.
  unfold Qltb. rewrite negb_false_iff. apply Qle_bool_iff.
Qed.

Lemma gapIssues_nil (minGapHours : Q) (rest : list TimeSlot) :
  forall i previous,
    gapIssues i previous rest minGapHours = [] <->
    wellSpaced minGapHours (previous :: rest).
Proof.
  induction rest as [| current rest' IH]; intros i previous; [simpl; tauto |].
  cbn [gapIssues]. specialize (IH (S i) current).
  change (wellSpaced minGapHours (previous :: current :: rest'))
    with ((minGapHours <= gapHours previous current)%Q /\
          wellSpaced minGapHours (current :: rest')).
  destruct (Qltb (gapHours previous current) minGapHours) eqn:E.
  - split; [discriminate |]. intros [H _].
    apply Qltb_false in H. congruence.
  - apply Qltb_false in E. cbn [app]. rewrite IH. tauto.
Qed.

Lemma farApart_Permutation (minGapHours : Q) (l l' : list TimeSlot) :
  l ≡ₚ l' -> ForallOrdPairs (farApart minGapHours) l ->
  ForallOrdPairs (farApart minGapHours) l'.
Proof.
  induction 1 as [| x l l' Hperm IH | x y l | l l' l'' _ IH1 _ IH2]; intros Hfar.
  - exact Hfar.
  - inversion Hfar as [| a l0 Hx Hrest]; subst.
    constructor; [| apply IH, Hrest].
    rewrite <- Hperm. exact Hx.
  - inversion Hfar as [| a l0 Hy Hrest]; subst.
    inversion Hrest as [| a l0 Hx Hl]; subst.
    apply Forall_cons in Hy as [Hyx Hy].
    constructor; [| constructor; assumption].
    constructor; [| exact Hx]. unfold farApart in *. tauto.
  - apply IH2, IH1, Hfar.
Qed.

Lemma wellSpaced_farApart (minGapHours : Q) (l : list TimeSlot) :
  StronglySorted byDate l ->
  wellSpaced minGapHours l <-> ForallOrdPairs (farApart minGapHours) l.
Proof.
  induction 1 as [| a l Hsorted IH Ha]; [split; [constructor | exact (fun _ => Logic.I)] |].
  destruct l as [| b l'].
  - split; [intros _ | exact (fun _ => Logic.I)]. constructor; constructor.
  - change (wellSpaced minGapHours (a :: b :: l'))
      with ((minGapHours <= gapHours a b)%Q /\ wellSpaced minGapHours (b :: l')).
    rewrite IH. split.
    + intros [Hab Hrest]. constructor; [| exact Hrest].
      assert (Hafter : Forall (byDate b) (b :: l')).
      { constructor; [unfold byDate; lia |].
        apply StronglySorted_inv in Hsorted as [_ Hb]. exact Hb. }
      eapply Forall_impl; [exact Hafter |].
      intros c Hbc. left. eapply Qle_trans; [exact Hab |].
      apply gapHours_mono, Hbc.
    + intros Hfar. inversion Hfar as [| a0 l0 Hfirst Hrest]; subst.
      split; [| exact Hrest].
      apply Forall_cons in Hfirst as [[Hab | Hba] _]; [exact Hab |].
      eapply Qle_trans; [exact Hba |].
      apply Forall_cons in Ha as [Hle _]. unfold byDate in Hle.
      apply gapHours_le. lia.
Qed.

(** X28: [validateSlotAllocation] reports no issue exactly when every two
    slots of the list are at least [minGapHours] hours apart, whatever the
    order in which the slots are given. *)
Theorem validateSlotAllocation_valid_iff (slots : list TimeSlot) (minGapHours : Q) :
  validateSlotAllocation slots minGapHours = [] <->
  ForallOrdPairs (farApart minGapHours) slots.
Proof.
  unfold validateSlotAllocation.
  pose proof (sortByDate_Sorted slots) as Hsorted.
  pose proof (sortByDate_Permutation slots) as Hperm.
  assert (Hiff : ForallOrdPairs (farApart minGapHours) (sortByDate slots) <->
                 ForallOrdPairs (farApart minGapHours) slots).
  { split; apply farApart_Permutation; [exact Hperm | symmetry; exact Hperm]. }
  rewrite <- Hiff, <- (wellSpaced_farApart _ _ Hsorted).
  destruct (sortByDate slots) as [| first rest]; [simpl; tauto |].
  apply gapIssues_nil.
Qed.

(** ** lib/planner/index: phases 1 to 3 *)
Lemma returns_allocateSlots_length (addDays setHours setMinutes : Z -> Z -> Z)
    (config : SlotAllocator.SlotAllocationConfig) :
  returns fairWorld (SlotAllocator.allocateSlots addDays setHours setMinutes config)
    (fun result =>
       length (SlotAllocator.slots result) = Z.to_nat (SlotAllocator.cfg_count config)).
Proof.
  unfold SlotAllocator.allocateSlots.
  set (count := SlotAllocator.cfg_count config).
  eapply returns_bind with (Q := fun availableDays => availableDays ≡ₚ [0; 1; 2; 3; 4; 5; 6]).
  { destruct (default true _).
    - apply returns_ret, weekdays_first_Permutation.
    - apply (returns_shuffleArray fairWorld (fun w H => H)). }
  intros availableDays Hperm.
  assert (Hne : availableDays <> []).
  { intros ->. apply Permutation_nil_l in Hperm. discriminate. }
  assert (Hseven : (length availableDays <= 64)%nat).
  { rewrite (Permutation_length Hperm). simpl. lia. }
  destruct (selectDaysForPosts_spec availableDays count Hne Hseven) as (Hlen & _ & _).
  set (daysToUse := SlotAllocator.selectDaysForPosts availableDays count) in *.
  eapply returns_bind.
  { apply (returns_slotLoop fairWorld (fun w H => H) addDays setHours setMinutes
             daysToUse (SlotAllocator.cfg_weekStart config) (seq 0 (Z.to_nat count))).
    apply Forall_forall. intros i Hi. apply elem_of_seq in Hi. lia. }
  intros [slots timesUsed] (new & Hslots & Hdw & _). apply returns_ret.
  cbn [SlotAllocator.slots]. simpl in Hslots. subst slots.
  rewrite (Permutation_length (sortByDate_Permutation new)).
  rewrite <- (length_fmap ts_dayOfWeek), Hdw, length_fmap, length_seq. reflexivity.
Qed.

Lemma returns_matchSubreddits_run (config : SubredditMatcher.SubredditMatcherConfig) :
  returns fairWorld (SubredditMatcher.matchSubreddits config)
    (fun result =>
       ms_slot <$> SubredditMatcher.slots result
         `sublist_of` SubredditMatcher.cfg_slots config /\
       (length (SubredditMatcher.slots result)
        + length (SubredditMatcher.topicsSkipped result)
        = length (SubredditMatcher.cfg_slots config))%nat).
Proof.
  unfold SubredditMatcher.matchSubreddits.
  eapply returns_bind; [apply (returns_matchLoop_run fairWorld) |].
  intros st Hrun. apply returns_ret.
  destruct (MatchRun_structure _ _ _ _ _ _ Hrun)
    as (new & dropped & Hm & Hs & Hsub & _ & Hlen & _).
  cbn [SubredditMatcher.slots SubredditMatcher.topicsSkipped].
  simpl in Hm, Hs. rewrite Hm, Hs. split; assumption.
Qed.

Lemma returns_assignPersonas_run (config : PersonaAssigner.PersonaAssignerConfig) :
  let cs := default Constraints.DEFAULT_CONSTRAINTS
              (PersonaAssigner.cfg_constraints config) in
  (2 <= length (PersonaAssigner.cfg_personas config))%nat ->
  returns fairWorld (PersonaAssigner.assignPersonas config)
    (fun result =>
       as_slot <$> PersonaAssigner.slots result
         `sublist_of` PersonaAssigner.cfg_slots config /\
       (2 <= maxPersonasPerThread cs ->
        (length (PersonaAssigner.slots result) + length (PersonaAssigner.warnings result)
         = length (PersonaAssigner.cfg_slots config))%nat)).
Proof.
  intros cs Hn. unfold PersonaAssigner.assignPersonas. fold cs.
  destruct (length _ <? 2)%nat eqn:Hlt; [apply Nat.ltb_lt in Hlt; lia |].
  destruct (initialUsage_fold (PersonaAssigner.cfg_personas config) ∅) as (_ & Hdom & _).
  { intros id t. rewrite lookup_empty. discriminate. }
  eapply returns_bind.
  { apply (returns_assignLoop_run fairWorld (fun w H => H)). exact Hdom. }
  intros st Hrun. apply returns_ret.
  destruct (AssignRun_structure _ _ _ _ _ Hrun)
    as (new & dropped & Hs & Hsub & _ & Hlen & _ & _ & Hw).
  cbn [PersonaAssigner.slots PersonaAssigner.warnings].
  simpl in Hs, Hw. rewrite Hs. split; [exact Hsub |].
  intros Hmax. rewrite (Hw Hmax), length_fmap. exact Hlen.
Qed.

(** X29: validation is all that the first three phases need.  For a
    request that [validateInput] accepts, with [Math.random ()] in [0, 1)
    and whatever the date functions compute, [generateWeeklyCalendar]
    passes validation and its slot allocation, subreddit matching and
    persona assignment end normally: [postsPerWeek] slots are allocated,
    each of them is matched or skipped, the assigned slots are matched
    slots in their order, and with room for a reactor in a thread every
    matched slot is assigned or reported in a warning. *)
Theorem generateWeeklyCalendar_plans_valid_input
    (addDays setHours setMinutes : Z -> Z -> Z) (input : Planner.PlannerInput)
    (weekStart : Z) (w : World) :
  let constraints :=
    Planner.applyRiskTolerance
      (default Constraints.DEFAULT_CONSTRAINTS (Planner.constraints input))
      (Planner.riskTolerance input) in
  rng_ok (rng w) ->
  Planner.validationErrors input constraints = [] ->
  Planner.weekStartDate input = Some weekStart ->
  exists plan w',
    Planner.generateWeeklyCalendar
      (Pipeline.planSlots addDays setHours setMinutes weekStart) input w
    = (Ok plan, w') /\
    length (SlotAllocator.slots (Pipeline.slotResult plan))
    = Z.to_nat (Planner.postsPerWeek input) /\
    ms_slot <$> SubredditMatcher.slots (Pipeline.matchResult plan)
      `sublist_of` SlotAllocator.slots (Pipeline.slotResult plan) /\
    (length (SubredditMatcher.slots (Pipeline.matchResult plan))
     + length (SubredditMatcher.topicsSkipped (Pipeline.matchResult plan))
     = Z.to_nat (Planner.postsPerWeek input))%nat /\
    as_slot <$> PersonaAssigner.slots (Pipeline.assignResult plan)
      `sublist_of` SubredditMatcher.slots (Pipeline.matchResult plan) /\
    (2 <= maxPersonasPerThread constraints ->
     (length (PersonaAssigner.slots (Pipeline.assignResult plan))
      + length (PersonaAssigner.warnings (Pipeline.assignResult plan))
      = length (SubredditMatcher.slots (Pipeline.matchResult plan)))%nat).
Proof.
  intros constraints Hfair Hvalid _.
  apply validationErrors_nil_iff in Hvalid as Hok.
  destruct Hok as (_ & _ & Hpersonas & _).
  unfold Planner.generateWeeklyCalendar. fold constraints.
  unfold Planner.validateInput. rewrite Hvalid.
  assert (Hplan : returns fairWorld
            (Pipeline.planSlots addDays setHours setMinutes weekStart input constraints)
            (fun plan =>
               length (SlotAllocator.slots (Pipeline.slotResult plan))
               = Z.to_nat (Planner.postsPerWeek input) /\
               ms_slot <$> SubredditMatcher.slots (Pipeline.matchResult plan)
                 `sublist_of` SlotAllocator.slots (Pipeline.slotResult plan) /\
               (length (SubredditMatcher.slots (Pipeline.matchResult plan))
                + length (SubredditMatcher.topicsSkipped (Pipeline.matchResult plan))
                = Z.to_nat (Planner.postsPerWeek input))%nat /\
               as_slot <$> PersonaAssigner.slots (Pipeline.assignResult plan)
                 `sublist_of` SubredditMatcher.slots (Pipeline.matchResult plan) /\
               (2 <= maxPersonasPerThread constraints ->
                (length (PersonaAssigner.slots (Pipeline.assignResult plan))
                 + length (PersonaAssigner.warnings (Pipeline.assignResult plan))
                 = length (SubredditMatcher.slots (Pipeline.matchResult plan)))%nat))).
  { unfold Pipeline.planSlots.
    eapply returns_bind; [apply (returns_addLog fairWorld) |]. intros _ _.
    eapply returns_bind; [apply returns_allocateSlots_length |].
    intros slotResult Hslots. cbn [SlotAllocator.cfg_count] in Hslots.
    eapply returns_bind; [apply (returns_addLog fairWorld) |]. intros _ _.
    eapply returns_bind; [apply returns_matchSubreddits_run |].
    intros matchResult [Hmsub Hmlen]. cbn [SubredditMatcher.cfg_slots] in Hmsub, Hmlen.
    eapply returns_bind; [apply (returns_addLog fairWorld) |]. intros _ _.
    eapply returns_bind; [apply returns_assignPersonas_run; exact Hpersonas |].
    intros assignResult [Hasub Halen]. apply returns_ret.
    cbn [Pipeline.slotResult Pipeline.matchResult Pipeline.assignResult].
    cbn [PersonaAssigner.cfg_slots PersonaAssigner.cfg_constraints default] in Hasub, Halen.
    rewrite <- Hslots. auto. }
  destruct (Hplan (afterStartLog input w) Hfair) as (plan & w' & Hrun & _ & Hfacts).
  exists plan, w'. split; [| exact Hfacts].
  unfold bind, ret. exact Hrun.
Qed.

Lemma generateWeeklyCalendar_plans_valid_input_witness :
  exists plan w',
    Planner.generateWeeklyCalendar
      (Pipeline.planSlots (fun d k => d + k * 86400000)
         (fun d h => d / 86400000 * 86400000 + h * 3600000 + d mod 3600000)
         (fun d m => d / 3600000 * 3600000 + m * 60000 + d mod 60000) 0)
      Fixtures.modestInput Sample.zeroWorld
    = (Ok plan, w') /\
    length (SlotAllocator.slots (Pipeline.slotResult plan))
    = Z.to_nat (Planner.postsPerWeek Fixtures.modestInput).
Proof.
  destruct (generateWeeklyCalendar_plans_valid_input (fun d k => d + k * 86400000)
         (fun d h => d / 86400000 * 86400000 + h * 3600000 + d mod 3600000)
         (fun d m => d / 3600000 * 3600000 + m * 60000 + d mod 60000)
         Fixtures.modestInput 0 Sample.zeroWorld)
    as (plan & w' & Hrun & Hlen & _).
  - intros n. split; vm_compute; congruence.
  - vm_compute. reflexivity.
  - reflexivity.
  - exists plan, w'. split; assumption.
Defined.

(** ** lib/planner/qualityChecker: more findings, lower score *)
Lemma countSeverity_sublist (s : IssueSeverity) (issues issues' : list QualityIssue) :
  issues `sublist_of` issues' -> countSeverity s issues <= countSeverity s issues'.
Proof.
  induction 1 as [| i l l' _ IH | i l l' _ IH].
  - lia.
  - rewrite !countSeverity_cons. lia.
  - rewrite countSeverity_cons. destruct (decide (severity i = s)); lia.
Qed.

Lemma clamp0_10_mono (x y : Q) : (x <= y)%Q -> (clamp0_10 x <= clamp0_10 y)%Q.
Proof.
  intros H. unfold clamp0_10.
  apply Q.max_le_compat_l, Q.min_le_compat_l, H.
Qed.

Lemma Qplus_nonneg (a b : Q) : (0 <= a)%Q -> (0 <= b)%Q -> (0 <= a + b)%Q.
Proof. intros Ha Hb. exact (Qplus_le_compat 0 a 0 b Ha Hb). Qed.

(** X30: more findings never raise the batch score: when every issue of a
    report is among the issues of another one, and the other one has at
    least as many warnings, for the same number of threads, the score of
    the other report is not higher. *)
Theorem calculateOverallScore_antitone (issues issues' : list QualityIssue)
    (warnings warnings' : list WarningMessage) (threadCount : nat) :
  issues `sublist_of` issues' ->
  (length warnings <= length warnings')%nat ->
  (QualityChecker.calculateOverallScore issues' warnings' threadCount
   <= QualityChecker.calculateOverallScore issues warnings threadCount)%Q.
Proof.
  intros Hsub Hlen. unfold QualityChecker.calculateOverallScore.
  apply (clamp0_10_mono _ _), (roundOneDecimal_mono _ _).
  assert (Hscore : (foldl (fun score issue =>
                             score - QualityChecker.deduction (severity issue))
                      10 issues'
                    - inject_Z (Z.of_nat (length warnings')) * (3 # 10)
                    <= foldl (fun score issue =>
                                score - QualityChecker.deduction (severity issue))
                         10 issues
                       - inject_Z (Z.of_nat (length warnings)) * (3 # 10))%Q).
  { rewrite !foldl_deductions.
    pose proof (countSeverity_sublist high _ _ Hsub) as Hh.
    pose proof (countSeverity_sublist medium _ _ Hsub) as Hm.
    pose proof (countSeverity_sublist low _ _ Hsub) as Hl.
    apply inj_le in Hlen.
    rewrite Zle_Qle in Hh, Hm, Hl, Hlen.
    set (h := inject_Z (countSeverity high issues)) in *.
    set (h' := inject_Z (countSeverity high issues')) in *.
    set (m := inject_Z (countSeverity medium issues)) in *.
    set (m' := inject_Z (countSeverity medium issues')) in *.
    set (l := inject_Z (countSeverity low issues)) in *.
    set (l' := inject_Z (countSeverity low issues')) in *.
    set (n := inject_Z (Z.of_nat (length warnings))) in *.
    set (n' := inject_Z (Z.of_nat (length warnings'))) in *.
    clearbody h h' m m' l l' n n'.
    apply Qle_minus_iff.
    assert (Heq : (10 - 2 * h - 1 * m - (1 # 2) * l - n * (3 # 10)
                   + - (10 - 2 * h' - 1 * m' - (1 # 2) * l' - n' * (3 # 10))
                   == 2 * (h' + - h) + (m' + - m) + (1 # 2) * (l' + - l)
                      + (3 # 10) * (n' + - n))%Q) by ring.
    rewrite Heq.
    apply Qle_minus_iff in Hh, Hm, Hl, Hlen.
    apply Qplus_nonneg; [apply Qplus_nonneg; [apply Qplus_nonneg |] |].
    - apply Qmult_le_0_compat; [discriminate | exact Hh].
    - exact Hm.
    - apply Qmult_le_0_compat; [discriminate | exact Hl].
    - apply Qmult_le_0_compat; [discriminate | exact Hlen]. }
  destruct (3 <=? threadCount)%nat; [| exact Hscore].
  apply Qplus_le_compat; [exact Hscore | apply Qle_refl].
Qed.

Lemma calculateOverallScore_antitone_witness :
  (QualityChecker.calculateOverallScore
     [{| issue_type := timing_issue; severity := low;
         message := MsgCommentsClose "A post" 3; affectedPostIds := None |}]
     [] 1
   <= QualityChecker.calculateOverallScore [] [] 1)%Q.
Proof.
  apply calculateOverallScore_antitone; [apply sublist_nil_l | simpl; lia].
Defined.

(** C6, at the failing input: venues [r/consulting] (whose preset caps it at
    one post a week) and [r/test1], slots on days 0, 1 and 4, the default
    constraints, every draw 0.  The input has sufficient venue diversity,
    also when each venue is counted with its own effective cap (1 + 2 posts
    for 3 slots); no slot is skipped, and [r/consulting] is matched twice,
    above its effective cap of 1. *)
Theorem matchSubreddits_exceeds_venue_cap :
  sufficientVenueDiversity presetMatcherConfig /\
  effectiveVenueCap presetMatcherConfig Sample.consulting = 1 /\
  Z.of_nat (length (SubredditMatcher.cfg_slots presetMatcherConfig))
  <= effectiveVenueCap presetMatcherConfig Sample.consulting
     + effectiveVenueCap presetMatcherConfig Sample.test1 /\
  matchedVenues
    (SubredditMatcher.matchSubreddits presetMatcherConfig Sample.zeroWorld)
  = Some (["r/consulting"; "r/test1"; "r/consulting"], []) /\
  exists result w',
    SubredditMatcher.matchSubreddits presetMatcherConfig Sample.zeroWorld
    = (Ok result, w') /\
    matchedCount (subreddit_id Sample.consulting) (SubredditMatcher.slots result)
    = 2 /\
    effectiveVenueCap presetMatcherConfig Sample.consulting
    < matchedCount (subreddit_id Sample.consulting)
        (SubredditMatcher.slots result).
Proof.
  split; [split; simpl; lia |].
  split; [reflexivity |].
  split; [vm_compute; discriminate |].
  split; [vm_compute; reflexivity |].
  destruct (SubredditMatcher.matchSubreddits presetMatcherConfig Sample.zeroWorld)
    as [[result | e |] w'] eqn:Hrun; [| vm_compute in Hrun; discriminate ..].
  exists result, w'. split; [reflexivity |].
  assert (Hcount : matchedCount (subreddit_id Sample.consulting)
                     (SubredditMatcher.slots result) = 2).
  { vm_compute in Hrun. injection Hrun as <- _. vm_compute. reflexivity. }
  split; [exact Hcount |]. rewrite Hcount. vm_compute. reflexivity.
Qed.
